(* ===== verification/_CoqProject ===== *)
-Q . S2P
Prelude.v
Json.v
JsonText.v
Runtime.v
Utils.v
GObject.v
TestObject.v
Marshal.v
Server.v
ServerSafety.v
Responses.v
Dispatch.v
TypeSafety.v
Client.v
ClientSafety.v
Rpc.v
Async.v
Pipe.v
PipeSafety.v
PipeServer.v
Listener.v
ListenerSafety.v
Liveness.v
Concurrent.v
ConcurrentSafety.v
ConcurrentRpc.v
SlowLog.v
SlowLogSafety.v
SlowLogHistory.v
EpollServer.v
EpollServerSafety.v
Heap.v
Ownership.v
OwnershipLogic.v
OwnershipSafety.v
JsonMemory.v
ServerMemory.v
ClientMemory.v
Windows.v
WindowsSafety.v
Demo.v
DemoTcp.v
InetPton.v
InetPtonSafety.v
InetPton6Safety.v
DemoMain.v
DemoServer.v
DemoAsync.v
Witnesses.v
ConcurrentWitnesses.v
