(* ===== verification/Prelude.v ===== *)
(** * Verification of libsearpc

    libsearpc is an RPC library in C: a client turns a call into the JSON array
    [["name", arg1, ...]], a transport carries it to a server, the server looks the name up in a
    service, a generated marshal function calls the registered C function, and the response
    [{"ret": ...}] or [{"err_code": ..., "err_msg": ...}] travels back.  This development models
    the C library under src/lib (and the demo programs under src/demo) and proves what makes it
    correct; where the code does not do what it means to, a theorem says exactly what it does.

    ** Parts of the program and the files that model them

    - Prelude: outcomes of C computations ([Ok], [Abort] for a failed [g_assert], [Undef] for
      undefined behaviour), the state and error monads, machine integers, byte strings, tactics.
    - Json: JSON values and the interface of the Jansson library, which is not part of the
      repository: the class [Jansson] has its functions, [JanssonLaws] the documented behaviour
      the code relies on.  JsonText is an executable instance (ASCII texts) that satisfies every
      law; it is only used to apply theorems to concrete inputs.
    - Runtime: [GError], [g_set_error], heap buffers with their size and written part.
    - Utils: the inline helpers of lib/searpc-utils.h.
    - GObject: lib/searpc-utils.c, objects to JSON and back.  The GObject library is the classes
      [GObjectLib], [GObjectClasses] with the laws [GObjectLaws].  TestObject is the class of
      demo/test-object.c and an instance of that interface.
    - Marshal: the return setters of lib/searpc-server.c and the marshal functions generated by
      lib/searpc-codegen.py from a row of the function table.
    - Server: lib/searpc-server.c.  The static variables are the fields of [server]; a hash table
      is a [gmap] or, outside its lifetime, [None]; a node of a function table remembers whether
      its key was freed, which is what registering a name twice does to it.
    - ServerSafety: invariant, reachability and the contract of the registry ([registry],
      compared by [registry_equiv]).  Responses: what a response carries.  Dispatch: the contract
      of [searpc_server_call_function] ([resolve]).  TypeSafety: servers whose functions are
      registered under their own prototypes.
    - Client: lib/searpc-client.c, synchronous and asynchronous.  ClientSafety: what it sends and
      how it reads replies.
    - Rpc: the class [Transport], what a client expects of its transport, the transparency
      theorem proved against it, and the in-process transport of tests/searpc.c.  Async: the
      asynchronous calls, end to end.
    - Pipe: lib/searpc-named-pipe-transport.c: the framing on both sides, over the transfers of a
      platform (class [PipeIO]); on POSIX, the read and write loops and the two connection
      handlers over any world with sockets; [endpoint] is a stream socket with arbitrary schedules
      of partial transfers, interruptions and failures.  PipeSafety and PipeServer: their
      theorems, and the named pipe as a [Transport].
    - Listener: the rest of that file: creating and starting servers, connecting and releasing
      clients, and the event loop with epoll as a step relation ([loop_step]) in which the
      listener and any number of workers interleave.  ListenerSafety: its invariant [loop_ok] and
      the theorems.  Liveness: its infinite runs.
    - Concurrent: the server without epoll with all its connections: a [conn] for each thread, a
      step ([conn_step]) per request read, call made or response written, in any order
      ([run_schedule]).  ConcurrentSafety: its theorems, for any function that makes the calls.
      ConcurrentRpc: the same on the dispatcher of Server.
    - SlowLog: threads inside [searpc_server_call_function] while others reopen the slow log; a
      step ([call_step], [reopen_step]) is an access to what they share: [slow_log_fp], the mutex,
      the streams.  SlowLogSafety: the invariant.  SlowLogHistory: what was called and printed.
    - EpollServer: [loop_step] together with the parts of [epoll_handler], the endpoints, and
      clients that send and shut down ([epoll_step]).  EpollServerSafety: its theorems.
    - Ownership: the registry of Server with every allocation, pointer and destructor, on a heap in
      which what is not allocated cannot be read or freed; GLib's hash tables and allocator have
      their documented behaviour.  Heap: that heap, for any kind of block,
      and a program logic of exact heaps ([does]).  OwnershipLogic: its rules for tables and
      destructors.  OwnershipSafety: the theorems.
    - JsonMemory, ServerMemory, ClientMemory: a call once more with its memory: every JSON value,
      string, object, list and error is a block with one owner, stolen by containers, borrowed by
      getters, released by [json_decref], [g_free], [g_object_unref]; the rules are those of Heap
      with a world beside it ([wp]), the theorems say the functions agree with those of Server and
      Client and what they leave.
    - Windows: the Windows branch of the pipe transport, over the functions of the platform (class
      [WinPipes]); [msg_end] is a pipe in message mode.  WindowsSafety: its theorems.
    - Demo: the functions and the start-up of demo/searpc-demo-server.c.  DemoTcp: the packets of
      demo/searpc-demo-packet.h, the clients' transports and the server's loop body.  DemoMain,
      DemoServer and DemoAsync: the rest of demo/searpc-demo-client.c, demo/searpc-demo-server.c
      and demo/demo-async-client.c, their [main] functions, and worlds in which they run.
    - InetPton: [inet_pton] of demo/searpc-demo-packet.h; InetPtonSafety, InetPton6Safety: its
      theorems.
    - Witnesses, ConcurrentWitnesses: the theorems with hypotheses applied to concrete inputs.

    ** What the theorems show

    - End to end: a remote call returns what the function returns on the arguments, or the error
      it set, over any [Transport] ([rpc_transparent]), over the named pipe under every schedule
      ([rpc_over_pipe]), to the callback of an asynchronous call ([async_transparent]), and for
      the demo functions ([demo_strlen_remote], [demo_objlist_remote]);
      calls the server rejects are reported as that error ([rejected_call_reported]).  The demo
      clients succeed against the demo server ([demo_programs_succeed], [demo_async_succeeds]).
    - Connections: a thread answers a stream of requests in order ([pipe_server_stream]), the epoll
      handler one request ([epoll_handler_serves]); the loops move exact prefixes
      ([pipe_write_n_prefix], [pipe_read_n_prefix]); the buffer suffices up to 2^31 bytes and the
      doubling loop hangs beyond ([handler_buffer_growth]).  The Windows branch has the same
      outcomes as the POSIX one ([pipe_branches_agree]).  The demo programs exchange packets
      of up to 254 bytes ([demo_server_answers], [demo_clients_exchange]); the demo server serves
      connection after connection ([demo_server_serves]).
    - Many clients: with a thread per connection every client is answered in order, whatever the
      order of the threads, and all calls are one sequence on the server ([concurrent_rpc_served],
      on any server [concurrent_clients_served]); clients that misbehave do not disturb the others
      ([connection_isolated]); a connection alone is its handler ([lone_connection]).
    - Slow log: calls inside the dispatcher at the same time are the same calls one after the other
      and the log holds whole lines ([concurrent_calls_linearizable]); no stream is used after it
      was closed ([slow_log_streams_safe]); no deadlock ([slow_log_no_deadlock]).
    - Memory: no operation of the registry touches memory that is not allocated, and
      [searpc_server_final] leaves nothing behind but what was leaked before
      ([registry_memory_exact]); [heap_lookup_agrees], [stale_key_followed].  A request leaves the
      server's heap as it was ([request_memory_exact]); a client's call leaves the result and the
      error, and the array of a request that cannot be made ([client_call_memory]); a callback
      leaves the error of the reply ([callback_memory], [async_send_memory]).
    - Event loop: the server with epoll answers every request and refines the loop
      ([epoll_server_answers], [epoll_server_refines_loop]); no interleaving of the listener and the workers uses the data of a connection
      after it was freed ([epoll_loop_safe]); every connection is watched or served by one worker
      and owns its descriptor ([epoll_connections_owned]); in fair runs every reported event is
      served ([events_served]).
    - Server: the registry refines its contract ([registry_refines]), every reachable state is
      well formed ([reachable_server_wf]), the dispatcher refines [resolve] ([dispatch_refines]),
      start-up installs the right marshals ([init_installs_marshals]).
    - Types: if functions are registered under their own prototypes, none is called through a
      pointer of another type ([function_pointers_typed]) and calls do not get stuck
      ([typed_calls_answered]).
    - Addresses: the parser stays in bounds ([inet_pton_safe]), dotted quads are those of the
      grammar ([inet_pton4_grammar]), groups of version 6 are read back ([inet_pton6_groups]).
    - Conversion: objects, requests and request texts round trip ([gobject_roundtrip],
      [request_roundtrip], [request_text_roundtrip]); the reply parsers are total
      ([reply_parsers_total]); serialization ends on acyclic objects ([serialize_terminates]).
    - Faults of the code, each as a theorem about the model: [truncated_request_replays],
      [lost_response_uninitialised], [generic_string_call_overreads], [nameless_call_undefined],
      [reregistered_call_undefined], [reopen_without_log], [invalid_string_shifts],
      [objlist_null_element], [objlist_missing_ret_aborts], [callback_error_ownership],
      [serialize_cycle_diverges], [server_start_descriptors], [failed_connect_double_close],
      [long_path_truncated], [demo_packet_overflow], [full_address_colons_rejected],
      [hung_up_request_dropped], [slow_log_fp_race].

    ** Bounds and fuel

    Recursion through object properties takes a stack depth: serialization terminates when the
    object nests no deeper, and the client's depth 2049 ([client_stack]) is more than the 2048
    levels the JSON parser accepts.  Objects in responses may nest 2046 deep ([wire_depth]).  The
    loops over system calls take a number of rounds; bytes plus scheduled events are enough
    ([rounds_for]).  In [run_schedule] and [run_process] the turns are a list: three for each request
    and one for the end of the stream are enough for a connection, and [total_rank] bounds the
    turns the slow log's threads can use.  [grow] needs at most twenty rounds; a client that waits for a busy pipe of Windows
    has no bound of its own ([win_open_pipe]).  Message lengths are [guint32].

    ** Not modelled

    Memory allocation failure; the temporaries inside [json_gobject_deserialize] and what the
    transports free; preemption inside an RPC function, and between a system call and the [free]
    beside it, each of which is one step; memory models weaker than sequential consistency
    ([slow_log_fp] is read without the mutex); the creation of threads and their failure; the
    Python packages; the text of warnings; the tests.
    The GLib quark of an error domain is its name. *)
From stdpp Require Export base gmap strings list.
From Stdlib Require Export ZArith Lia Ascii.

#[global] Open Scope string_scope.
#[global] Open Scope list_scope.
#[global] Open Scope Z_scope.

(** ** Outcomes of a C computation

    [Ok a]: the computation returned [a].  [Abort why]: a [g_assert] failed and the process
    called [abort].  [Undef why]: the code did something the C standard (or the documented
    precondition of a library function) leaves undefined: a NULL or dangling pointer was
    dereferenced, a buffer was read out of bounds, uninitialised memory was read. *)
Inductive outcome (A : Type) : Type :=
| Ok (a : A)
| Abort (why : string)
| Undef (why : string).
Arguments Ok {A} _.
Arguments Abort {A} _.
Arguments Undef {A} _.

Definition obind {A B} (m : outcome A) (k : A -> outcome B) : outcome B :=
  match m with
  | Ok a => k a
  | Abort why => Abort why
  | Undef why => Undef why
  end.

(** Computations over a world [W]: state passing on top of [outcome]. *)
Definition run (W A : Type) : Type := W -> outcome (A * W).

Definition rret {W A} (a : A) : run W A := fun w => Ok (a, w).
Definition rbind {W A B} (m : run W A) (k : A -> run W B) : run W B :=
  fun w => obind (m w) (fun p => k p.1 p.2).
Definition rlift {W A} (m : outcome A) : run W A := fun w => obind m (fun a => Ok (a, w)).

Declare Scope c_scope.
Delimit Scope c_scope with c.
Notation "x <~ m ;; k" := (obind m (fun x => k))
  (at level 100, m at next level, right associativity) : c_scope.
Notation "x <- m ;; k" := (rbind m (fun x => k))
  (at level 100, m at next level, right associativity) : c_scope.
#[global] Open Scope c_scope.

Definition returns {A} (m : outcome A) : bool :=
  match m with Ok _ => true | _ => false end.

(** ** Machine integers at their width *)
Definition wrap_unsigned (w z : Z) : Z := z mod 2 ^ w.
Definition wrap_signed (w z : Z) : Z := (z + 2 ^ (w - 1)) mod 2 ^ w - 2 ^ (w - 1).
Definition in_unsigned (w z : Z) : bool := (0 <=? z) && (z <? 2 ^ w).
Definition in_signed (w z : Z) : bool := (- 2 ^ (w - 1) <=? z) && (z <? 2 ^ (w - 1)).

Abbreviation to_int := (wrap_signed 32).
Abbreviation to_int64 := (wrap_signed 64).
Abbreviation to_uint32 := (wrap_unsigned 32).
Abbreviation is_int := (in_signed 32).
Abbreviation is_int64 := (in_signed 64).
Abbreviation is_uint32 := (in_unsigned 32).

(** ** Byte strings

    C strings and byte buffers are both values of [string]; a C string holds no NUL byte. *)
Fixpoint str_take (n : nat) (s : string) : string :=
  match n, s with
  | S n', String c s' => String c (str_take n' s')
  | _, _ => ""
  end.

Fixpoint str_drop (n : nat) (s : string) : string :=
  match n, s with
  | S n', String _ s' => str_drop n' s'
  | _, _ => s
  end.

Fixpoint str_forall (p : ascii -> bool) (s : string) : bool :=
  match s with
  | EmptyString => true
  | String c s' => p c && str_forall p s'
  end.

Fixpoint str_repeat (c : ascii) (n : nat) : string :=
  match n with
  | O => ""
  | S n' => String c (str_repeat c n')
  end.

Fixpoint str_concat (l : list string) : string :=
  match l with
  | [] => ""
  | s :: l' => s +:+ str_concat l'
  end.

(** [strlen] semantics on a buffer: the bytes before the first NUL. *)
Definition nul : ascii := "000"%char.
Definition nul_free (s : string) : bool := str_forall (fun c => negb (Ascii.eqb c nul)) s.
Definition ascii_only (s : string) : bool := str_forall (fun c => (N_of_ascii c <? 128)%N) s.

(** What [snprintf (buf, n, ...)] leaves in [buf] when the whole text is [s]. *)
Definition snprintf_text (n : nat) (s : string) : string := str_take (n - 1) s.

(** glibc's rendering of a ["%s"] whose argument is NULL. *)
Definition printf_s (s : option string) : string := default "(null)" s.

(** ** Lemmas *)
Lemma obind_Ok {A B} (m : outcome A) (k : A -> outcome B) b :
  obind m k = Ok b <-> exists a, m = Ok a /\ k a = Ok b.
Proof.
  destruct m as [a|why|why]; simpl; split.
  - eauto.
  - by intros (? & [= ->] & ?).
  - done.
  - by intros (? & ? & ?).
  - done.
  - by intros (? & ? & ?).
Qed.

Lemma rbind_Ok {W A B} (m : run W A) (k : A -> run W B) w b w' :
  rbind m k w = Ok (b, w') <-> exists a w1, m w = Ok (a, w1) /\ k a w1 = Ok (b, w').
Proof.
  unfold rbind. rewrite obind_Ok. split.
  - intros [[a w1] [? ?]]. eauto.
  - intros (a & w1 & ? & ?). exists (a, w1). eauto.
Qed.

Lemma rbind_step {W A B} (m : run W A) (k : A -> run W B) w a w1 :
  m w = Ok (a, w1) -> rbind m k w = k a w1.
Proof. unfold rbind. intros ->. done. Qed.

Lemma rlift_Ok {W A} (m : outcome A) (w : W) a : m = Ok a -> rlift m w = Ok (a, w).
Proof. intros ->. done. Qed.

Lemma wrap_unsigned_id w z : in_unsigned w z = true -> wrap_unsigned w z = z.
Proof. unfold in_unsigned, wrap_unsigned. intros. apply Z.mod_small. lia. Qed.

Lemma wrap_signed_id w z : 0 < w -> in_signed w z = true -> wrap_signed w z = z.
Proof.
  unfold in_signed, wrap_signed. intros Hw Hz.
  assert (2 ^ w = 2 * 2 ^ (w - 1)) by (rewrite <- Z.pow_succ_r by lia; f_equal; lia).
  rewrite Z.mod_small by lia. lia.
Qed.

Lemma wrap_unsigned_range w z : 0 <= w -> in_unsigned w (wrap_unsigned w z) = true.
Proof.
  unfold in_unsigned, wrap_unsigned. intros.
  pose proof (Z.mod_pos_bound z (2 ^ w) ltac:(lia)). lia.
Qed.

Lemma wrap_signed_range w z : 0 < w -> in_signed w (wrap_signed w z) = true.
Proof.
  unfold in_signed, wrap_signed. intros Hw.
  assert (2 ^ w = 2 * 2 ^ (w - 1)) by (rewrite <- Z.pow_succ_r by lia; f_equal; lia).
  pose proof (Z.mod_pos_bound (z + 2 ^ (w - 1)) (2 ^ w) ltac:(lia)). lia.
Qed.

(** Casting to a signed width and back to the unsigned one loses nothing. *)
Lemma wrap_unsigned_signed w z : 0 < w -> wrap_unsigned w (wrap_signed w z) = wrap_unsigned w z.
Proof.
  unfold wrap_unsigned, wrap_signed. intros Hw.
  rewrite <- (Zminus_mod_idemp_l _ _ (2 ^ w)), Zmod_mod, Zminus_mod_idemp_l.
  f_equal. lia.
Qed.

Lemma wrap_signed_mono (v w z : Z) :
  0 < v <= w -> in_signed v z = true -> in_signed w z = true.
Proof.
  unfold in_signed. intros Hvw Hz.
  assert (2 ^ (v - 1) <= 2 ^ (w - 1)) by (apply Z.pow_le_mono_r; lia). lia.
Qed.

Lemma str_app_nil_r (s : string) : s +:+ "" = s.
Proof. induction s as [|c s IH]; [done|]. change (String c (s +:+ "") = String c s). by rewrite IH. Qed.

Lemma str_app_assoc (a b c : string) : (a +:+ b) +:+ c = a +:+ (b +:+ c).
Proof.
  induction a as [|x a IH]; [done|].
  change (String x ((a +:+ b) +:+ c) = String x (a +:+ (b +:+ c))). by rewrite IH.
Qed.

Lemma str_app_cons c (a b : string) : String c a +:+ b = String c (a +:+ b).
Proof. done. Qed.

Lemma str_length_app (a b : string) :
  String.length (a +:+ b) = (String.length a + String.length b)%nat.
Proof. induction a as [|c a IH]; [done|]. rewrite str_app_cons. simpl. by rewrite IH. Qed.

Lemma str_take_drop n (s : string) : str_take n s +:+ str_drop n s = s.
Proof.
  revert s. induction n as [|n IH]; intros [|c s]; try done.
  simpl. rewrite str_app_cons. by rewrite IH.
Qed.

Lemma str_take_length n (s : string) : String.length (str_take n s) = (n `min` String.length s)%nat.
Proof. revert s. induction n as [|n IH]; intros [|c s]; simpl; [done..|]. by rewrite IH. Qed.

Lemma str_drop_length n (s : string) : String.length (str_drop n s) = (String.length s - n)%nat.
Proof. revert s. induction n as [|n IH]; intros [|c s]; simpl; [done..|]. by rewrite IH. Qed.

Lemma str_take_all n (s : string) : (String.length s <= n)%nat -> str_take n s = s.
Proof.
  revert s. induction n as [|n IH]; intros [|c s] H; simpl in *; try done; [lia|].
  rewrite IH; [done|lia].
Qed.

Lemma str_drop_all n (s : string) : (String.length s <= n)%nat -> str_drop n s = "".
Proof.
  revert s. induction n as [|n IH]; intros [|c s] H; simpl in *; try done; [lia|].
  apply IH. lia.
Qed.

Lemma str_take_app n (a b : string) :
  String.length a = n -> str_take n (a +:+ b) = a.
Proof. revert n. induction a as [|c a IH]; intros n <-; [done|]. rewrite str_app_cons. simpl. by rewrite IH. Qed.

Lemma str_drop_app n (a b : string) :
  String.length a = n -> str_drop n (a +:+ b) = b.
Proof. revert n. induction a as [|c a IH]; intros n <-; [done|]. rewrite str_app_cons. simpl. by rewrite IH. Qed.

Lemma str_length_0 (s : string) : String.length s = 0%nat -> s = "".
Proof. by destruct s. Qed.

Lemma str_forall_app p (a b : string) :
  str_forall p (a +:+ b) = str_forall p a && str_forall p b.
Proof.
  induction a as [|c a IH]; [done|]. rewrite str_app_cons. simpl. by rewrite IH, andb_assoc.
Qed.

Lemma str_forall_take p n (s : string) : str_forall p s = true -> str_forall p (str_take n s) = true.
Proof.
  revert s. induction n as [|n IH]; intros [|c s]; simpl; try done.
  rewrite !andb_true_iff. intros [? ?]. auto.
Qed.

Create Rewrite HintDb searpc.
#[export] Hint Rewrite @str_app_nil_r @str_app_assoc @str_length_app @str_forall_app : searpc.
#[export] Hint Rewrite @str_take_length @str_drop_length : searpc.

(** Split boolean conjunctions and existentials in the context. *)
Ltac split_bools :=
  repeat match goal with
  | H : (_ && _) = true |- _ => apply andb_true_iff in H as [? ?]
  | H : exists _, _ |- _ => destruct H
  | H : _ /\ _ |- _ => destruct H
  end.

(** Prove a boolean conjunction conjunct by conjunct. *)
Ltac join_bools := repeat (apply andb_true_iff; split); try done.

(** Reduce a monadic goal step by step with equations from the context. *)
Ltac run_step :=
  match goal with
  | H : ?m ?w = Ok (?a, ?w1) |- context [rbind ?m ?k ?w] =>
      rewrite (rbind_step m k w a w1 H)
  end.
