(* ===== verification/Json.v ===== *)
(** * Json: the JSON values the code exchanges and the interface of the JSON library

    The code never looks inside a [json_t]: it goes through the functions of Jansson, a third
    party library whose code is not part of the repository.  This file states the data model of
    a JSON value (RFC 8259, one constructor per [json_type] of Jansson) and, as a type class,
    the functions the code calls together with the documented behaviour it relies on.  Nothing
    here defines a Jansson function: every development file takes the class as a parameter, and
    JsonText gives one instance so that theorems can be applied to concrete inputs. *)
From S2P Require Import Prelude.
From Stdlib Require Import SpecFloat.

(** ** Data model *)

(** One constructor per [json_type]: JSON_OBJECT, JSON_ARRAY, JSON_STRING, JSON_INTEGER,
    JSON_REAL, JSON_TRUE, JSON_FALSE, JSON_NULL.  A C [double] is a [spec_float]. *)
Inductive json : Type :=
| JObject (members : list (string * json))
| JArray (elements : list json)
| JString (s : string)
| JInteger (z : Z)
| JReal (r : spec_float)
| JTrue
| JFalse
| JNull.

(** The members of an object are looked up, replaced and appended by key. *)
Fixpoint member_get (ms : list (string * json)) (key : string) : option json :=
  match ms with
  | [] => None
  | (k, v) :: ms' => if String.eqb k key then Some v else member_get ms' key
  end.

Fixpoint member_set (ms : list (string * json)) (key : string) (value : json)
  : list (string * json) :=
  match ms with
  | [] => [(key, value)]
  | (k, v) :: ms' =>
      if String.eqb k key then (k, value) :: ms' else (k, v) :: member_set ms' key value
  end.

Definition is_container (v : json) : bool :=
  match v with JObject _ | JArray _ => true | _ => false end.

Definition is_finite (r : spec_float) : bool :=
  match r with S754_zero _ | S754_finite _ _ _ => true | _ => false end.

(** Nesting depth in arrays and objects; the parser refuses more than
    JSON_PARSER_MAX_DEPTH = 2048 levels. *)
Fixpoint json_depth (v : json) : nat :=
  match v with
  | JObject ms => S (list_max (List.map (fun m => json_depth m.2) ms))
  | JArray l => S (list_max (List.map json_depth l))
  | _ => O
  end.

Definition max_depth : nat := Z.to_nat 2048.

Inductive dump_flags := JSON_DEFAULT | JSON_COMPACT.

(** ** The library *)

(** The functions of Jansson the code calls.  A [json_t *] that may be NULL is an [option json];
    constructors that can fail return [None] for NULL.  The stealing setters take the value they
    are handed even when it is NULL, and then leave the container unchanged. *)
Class Jansson : Type := {
  utf8_valid : string -> bool;
  json_object : json;
  json_array : json;
  json_null : json;
  json_true : json;
  json_false : json;
  json_string : string -> option json;
  json_integer : Z -> json;
  json_real : spec_float -> option json;
  json_object_set_new : json -> string -> option json -> json;
  json_array_append_new : json -> option json -> json;
  json_object_get : option json -> string -> option json;
  json_object_size : option json -> nat;
  (** the keys and values [json_object_iter], [json_object_iter_next] go through *)
  json_object_iter : option json -> list (string * json);
  json_array_get : option json -> nat -> option json;
  json_array_size : option json -> nat;
  json_string_value : option json -> option string;
  json_integer_value : option json -> Z;
  json_real_value : option json -> spec_float;
  json_is_null : option json -> bool;
  json_is_false : option json -> bool;
  json_deep_copy : option json -> option json;
  json_dumps : dump_flags -> json -> option string;
  (** either the text of the [json_error_t] or the parsed value *)
  json_loadb : string -> string + json
}.

Section Representable.
Context `{Jansson}.

(** Text Jansson can hold in a string or key made by [json_string]: valid UTF-8, no NUL. *)
Definition text_ok (s : string) : bool := utf8_valid s && nul_free s.

(** A value the library can represent: texts are valid, the keys of an object are distinct,
  integers fit [json_int_t] (64 bits), reals are finite. *)
Fixpoint json_ok (v : json) : bool :=
match v with
| JObject ms =>
    bool_decide (NoDup (List.map fst ms)) &&
    forallb (fun m => text_ok m.1 && json_ok m.2) ms
| JArray l => forallb json_ok l
| JString s => text_ok s
| JInteger z => is_int64 z
| JReal r => is_finite r
| _ => true
end.

(** A value that survives dumping and loading. *)
Definition portable (v : json) : bool :=
json_ok v && (json_depth v <=? max_depth)%nat.
End Representable.

(** The documented behaviour the code relies on. *)
Class JanssonLaws `{Jansson} : Prop := {
  utf8_ascii s : ascii_only s = true -> utf8_valid s = true;
  utf8_app s t : utf8_valid s = true -> utf8_valid t = true -> utf8_valid (s +:+ t) = true;
  json_object_eq : json_object = JObject [];
  json_array_eq : json_array = JArray [];
  json_null_eq : json_null = JNull;
  json_true_eq : json_true = JTrue;
  json_false_eq : json_false = JFalse;
  json_string_eq s :
    nul_free s = true -> json_string s = if utf8_valid s then Some (JString s) else None;
  json_integer_eq z : json_integer z = JInteger z;
  json_real_eq r : json_real r = if is_finite r then Some (JReal r) else None;
  json_object_set_new_eq ms k v :
    json_object_set_new (JObject ms) k (Some v) =
      if utf8_valid k then JObject (member_set ms k v) else JObject ms;
  json_object_set_new_null ms k : json_object_set_new (JObject ms) k None = JObject ms;
  json_array_append_new_eq l v : json_array_append_new (JArray l) (Some v) = JArray (l ++ [v]);
  json_array_append_new_null l : json_array_append_new (JArray l) None = JArray l;
  json_object_get_eq v k :
    json_object_get v k =
      match v with Some (JObject ms) => member_get ms k | _ => None end;
  json_object_size_eq v :
    json_object_size v = match v with Some (JObject ms) => length ms | _ => O end;
  json_object_iter_eq v :
    json_object_iter v = match v with Some (JObject ms) => ms | _ => [] end;
  json_array_get_eq v i :
    json_array_get v i = match v with Some (JArray l) => l !! i | _ => None end;
  json_array_size_eq v :
    json_array_size v = match v with Some (JArray l) => length l | _ => O end;
  json_string_value_eq v :
    json_string_value v = match v with Some (JString s) => Some s | _ => None end;
  json_integer_value_eq v :
    json_integer_value v = match v with Some (JInteger z) => z | _ => 0 end;
  json_real_value_eq v :
    json_real_value v = match v with Some (JReal r) => r | _ => S754_zero false end;
  json_is_null_eq v : json_is_null v = match v with Some JNull => true | _ => false end;
  json_is_false_eq v : json_is_false v = match v with Some JFalse => true | _ => false end;
  json_deep_copy_eq v : json_deep_copy v = v;
  (** Dumping succeeds on arrays and objects and yields a C string of valid UTF-8. *)
  json_dumps_ok fl v :
    json_ok v = true -> is_container v = true ->
    exists s, json_dumps fl v = Some s /\ text_ok s = true;
  (** Loading what was dumped gives the value back. *)
  json_loadb_dumps fl v s :
    portable v = true -> is_container v = true ->
    json_dumps fl v = Some s -> json_loadb s = inr v;
  (** What is loaded is an array or an object the library can represent. *)
  json_loadb_ok s v :
    json_loadb s = inr v -> portable v = true /\ is_container v = true;
  (** An empty text is an error. *)
  json_loadb_empty : exists e, json_loadb "" = inl e;
  (** The text of a [json_error_t] is a C string. *)
  json_loadb_error s e : json_loadb s = inl e -> nul_free e = true
}.

Create Rewrite HintDb jansson.
#[export] Hint Rewrite @json_object_eq @json_array_eq @json_null_eq @json_true_eq @json_false_eq
  @json_integer_eq @json_real_eq @json_object_set_new_eq @json_object_set_new_null
  @json_array_append_new_eq @json_array_append_new_null @json_object_get_eq
  @json_object_size_eq @json_object_iter_eq @json_array_get_eq @json_array_size_eq
  @json_string_value_eq @json_integer_value_eq @json_real_value_eq @json_is_null_eq @json_is_false_eq
  @json_deep_copy_eq using typeclasses eauto : jansson.

(** ** Induction over JSON values *)
Section JsonInd.
Variable P : json -> Prop.
Hypothesis Hobject : forall ms, Forall (fun m => P m.2) ms -> P (JObject ms).
Hypothesis Harray : forall l, Forall P l -> P (JArray l).
Hypothesis Hstring : forall s, P (JString s).
Hypothesis Hinteger : forall z, P (JInteger z).
Hypothesis Hreal : forall r, P (JReal r).
Hypothesis Htrue : P JTrue.
Hypothesis Hfalse : P JFalse.
Hypothesis Hnull : P JNull.

Fixpoint json_rec_all (v : json) : P v :=
  match v with
  | JObject ms =>
      Hobject ms
        ((fix all (l : list (string * json)) : Forall (fun m => P m.2) l :=
            match l with
            | [] => Forall_nil_2 _
            | m :: l' => Forall_cons_2 _ m l' (json_rec_all m.2) (all l')
            end) ms)
  | JArray l =>
      Harray l
        ((fix all (l : list json) : Forall P l :=
            match l with
            | [] => Forall_nil_2 _
            | x :: l' => Forall_cons_2 _ x l' (json_rec_all x) (all l')
            end) l)
  | JString s => Hstring s
  | JInteger z => Hinteger z
  | JReal r => Hreal r
  | JTrue => Htrue
  | JFalse => Hfalse
  | JNull => Hnull
  end.
End JsonInd.

(** ** Lemmas on members *)
Lemma member_get_set_eq ms k v : member_get (member_set ms k v) k = Some v.
Proof.
  induction ms as [|[k' v'] ms IH]; simpl; [by rewrite String.eqb_refl|].
  destruct (String.eqb k' k) eqn:E; simpl; rewrite E; done.
Qed.

Lemma member_get_set_ne ms k k' v :
  k <> k' -> member_get (member_set ms k v) k' = member_get ms k'.
Proof.
  intros Hne. induction ms as [|[k'' v''] ms IH]; simpl.
  - by apply String.eqb_neq in Hne as ->.
  - destruct (String.eqb_spec k'' k) as [->|?]; simpl; [|by rewrite IH].
    by apply String.eqb_neq in Hne as ->.
Qed.

(** A key that is new is appended. *)
Lemma member_set_fresh ms k v : ~ In k (List.map fst ms) -> member_set ms k v = ms ++ [(k, v)].
Proof.
  induction ms as [|[k' v'] ms IH]; simpl; [done|]. intros Hn.
  destruct (String.eqb_spec k' k); [naive_solver|]. rewrite IH; naive_solver.
Qed.

Lemma member_get_In ms k v : member_get ms k = Some v -> In (k, v) ms.
Proof.
  induction ms as [|[k' v'] ms IH]; simpl; [done|].
  destruct (String.eqb_spec k' k); naive_solver.
Qed.

Lemma member_In_get ms k v :
  NoDup (List.map fst ms) -> In (k, v) ms -> member_get ms k = Some v.
Proof.
  induction ms as [|[k' v'] ms IH]; simpl; [done|].
  rewrite NoDup_cons. intros [Hk Hms] [[= -> ->]|Hin]; [by rewrite String.eqb_refl|].
  destruct (String.eqb_spec k' k) as [->|?]; [|auto].
  exfalso. apply Hk. apply list_elem_of_In, in_map_iff. by exists (k, v).
Qed.

Lemma list_max_le_iff (l : list nat) n : (list_max l <= n)%nat <-> Forall (fun k => (k <= n)%nat) l.
Proof. apply list_max_le. Qed.

Section Laws.
Context `{JanssonLaws}.

Lemma text_ok_app s t : text_ok s = true -> text_ok t = true -> text_ok (s +:+ t) = true.
Proof.
  unfold text_ok, nul_free. intros. split_bools.
  rewrite utf8_app, str_forall_app by done. join_bools.
Qed.

Lemma text_ok_ascii s : ascii_only s && nul_free s = true -> text_ok s = true.
Proof. unfold text_ok. intros. split_bools. by rewrite utf8_ascii. Qed.

Lemma json_string_text s : text_ok s = true -> json_string s = Some (JString s).
Proof. unfold text_ok. intros. split_bools. rewrite json_string_eq by done. by destruct (utf8_valid s). Qed.

Lemma json_string_invalid s :
  nul_free s = true -> utf8_valid s = false -> json_string s = None.
Proof. intros Hn Hu. rewrite json_string_eq, Hu by done. done. Qed.

(** Setting a member under an ASCII key never fails. *)
Lemma set_member ms k v :
  ascii_only k = true ->
  json_object_set_new (JObject ms) k (Some v) = JObject (member_set ms k v).
Proof. intros Hk. by rewrite json_object_set_new_eq, utf8_ascii. Qed.

Lemma set_member_text ms k v :
  text_ok k = true ->
  json_object_set_new (JObject ms) k (Some v) = JObject (member_set ms k v).
Proof. unfold text_ok. intros. split_bools. rewrite json_object_set_new_eq. by destruct (utf8_valid k). Qed.

Lemma dump_load fl v :
  portable v = true -> is_container v = true ->
  exists s, json_dumps fl v = Some s /\ json_loadb s = inr v /\ text_ok s = true.
Proof.
  intros Hp Hc. assert (json_ok v = true) by (unfold portable in Hp; by split_bools).
  destruct (json_dumps_ok fl v) as (s & Hs & ?); [done..|].
  exists s. split; [done|]. split; [|done]. by eapply json_loadb_dumps.
Qed.

(** A text that is not empty. *)
Lemma loaded_not_empty s v : json_loadb s = inr v -> (0 < String.length s)%nat.
Proof. intros Hl. destruct s; [|simpl; lia]. destruct json_loadb_empty as [e He]. congruence. Qed.

(** An array is portable when its elements are representable and one level shallower. *)
Definition portable_elem (v : json) : bool := json_ok v && (json_depth v <? max_depth)%nat.

Lemma portable_array l : forallb portable_elem l = true -> portable (JArray l) = true.
Proof.
  intros Hl. unfold portable. apply andb_true_iff. split.
  - simpl. rewrite forallb_forall in *. intros x Hx. apply Hl in Hx.
    unfold portable_elem in Hx. by split_bools.
  - cbn [json_depth]. apply Nat.leb_le.
    enough (list_max (List.map json_depth l) <= max_depth - 1)%nat by (unfold max_depth in *; lia).
    apply list_max_le_iff, Forall_forall. intros n Hn.
    apply list_elem_of_In, in_map_iff in Hn as (x & <- & Hx).
    rewrite forallb_forall in Hl. apply Hl in Hx. unfold portable_elem in Hx. split_bools.
    rewrite Nat.ltb_lt in *. lia.
Qed.

Lemma portable_object ms :
  NoDup (List.map fst ms) ->
  forallb (fun m => text_ok m.1 && portable_elem m.2) ms = true -> portable (JObject ms) = true.
Proof.
  intros Hnd Hms. unfold portable. apply andb_true_iff. split.
  - simpl. rewrite bool_decide_true by done. simpl. rewrite forallb_forall in *.
    intros m Hm. apply Hms in Hm. unfold portable_elem in Hm. split_bools. by apply andb_true_iff.
  - cbn [json_depth]. apply Nat.leb_le.
    enough (list_max (List.map (fun m => json_depth m.2) ms) <= max_depth - 1)%nat
      by (unfold max_depth in *; lia).
    apply list_max_le_iff, Forall_forall. intros n Hn.
    apply list_elem_of_In, in_map_iff in Hn as (m & <- & Hm).
    rewrite forallb_forall in Hms. apply Hms in Hm. unfold portable_elem in Hm. split_bools.
    rewrite Nat.ltb_lt in *. lia.
Qed.

(** Scalars are portable wherever a container is. *)
Lemma portable_elem_scalar v :
  json_ok v = true -> is_container v = false -> portable_elem v = true.
Proof.
  intros Hok Hc. unfold portable_elem. rewrite Hok. simpl. apply Nat.ltb_lt.
  destruct v; simpl in *; try done; unfold max_depth; lia.
Qed.
End Laws.

#[export] Hint Rewrite @set_member @json_string_text using (first [typeclasses eauto | done]) : jansson.
