(* ===== verification/JsonText.v ===== *)
(** * JsonText: a concrete instance of the JSON library interface

    A printer and a parser of JSON text restricted to ASCII, written to satisfy the laws of
    [Json.JanssonLaws].  It models no code of the repository: it shows that the assumptions made
    about the library can hold, and lets the theorems be applied to concrete requests and
    responses whose text is the one on the wire.  Reals are written as [<mantissa>p<exponent>],
    a notation of this instance. *)
From S2P Require Import Prelude Json.
From Stdlib Require Import SpecFloat DecimalString DecimalZ Decimal.

(** ** Printer *)
Definition quote : ascii := "034".
Definition backslash : ascii := "092".

Definition hex_digit (n : N) : ascii := ascii_of_N (if (n <? 10)%N then 48 + n else 87 + n)%N.
Definition hex_value (c : ascii) : N :=
  let n := N_of_ascii c in (if (n <? 58)%N then n - 48 else n - 87)%N.

Definition escape_char (c : ascii) : string :=
  if Ascii.eqb c quote then String backslash (String quote "")
  else if Ascii.eqb c backslash then String backslash (String backslash "")
  else if (N_of_ascii c <? 32)%N then
    String backslash ("u00" +:+ String (hex_digit (N_of_ascii c / 16))
                                  (String (hex_digit (N_of_ascii c mod 16)) ""))
  else String c "".

Fixpoint escape (s : string) : string :=
  match s with
  | EmptyString => ""
  | String c s' => escape_char c +:+ escape s'
  end.

Definition print_string (s : string) : string := String quote (escape s +:+ String quote "").
Definition print_Z (z : Z) : string := NilZero.string_of_int (Z.to_int z).

Definition print_real (r : spec_float) : string :=
  match r with
  | S754_finite s m e => print_Z (if s then Zneg m else Zpos m) +:+ "p" +:+ print_Z e
  | S754_zero true => "0p1"
  | _ => "0p0"
  end.

Definition item_sep (fl : dump_flags) : string :=
  match fl with JSON_COMPACT => "," | JSON_DEFAULT => ", " end.
Definition key_sep (fl : dump_flags) : string :=
  match fl with JSON_COMPACT => ":" | JSON_DEFAULT => ": " end.

Definition print_more (sep : string) (items : list string) : string :=
  str_concat (List.map (fun i => sep +:+ i) items).
Definition print_items (sep : string) (items : list string) : string :=
  match items with
  | [] => ""
  | i :: items' => i +:+ print_more sep items'
  end.

Fixpoint print (fl : dump_flags) (v : json) : string :=
  match v with
  | JObject ms =>
      "{" +:+ print_items (item_sep fl)
        (List.map (fun m => print_string m.1 +:+ key_sep fl +:+ print fl m.2) ms) +:+ "}"
  | JArray l => "[" +:+ print_items (item_sep fl) (List.map (print fl) l) +:+ "]"
  | JString s => print_string s
  | JInteger z => print_Z z
  | JReal r => print_real r
  | JTrue => "true"
  | JFalse => "false"
  | JNull => "null"
  end.

(** ** Parser *)
Definition cons_fst (c : ascii) (r : option (string * string)) : option (string * string) :=
  match r with Some (s, rest) => Some (String c s, rest) | None => None end.

(** The characters of a string up to its closing quote. *)
Fixpoint parse_chars (s : string) : option (string * string) :=
  match s with
  | EmptyString => None
  | String c s1 =>
      if Ascii.eqb c quote then Some ("", s1)
      else if Ascii.eqb c backslash then
        match s1 with
        | String "u" (String _ (String _ (String h (String l s2)))) =>
            cons_fst (ascii_of_N (hex_value h * 16 + hex_value l)) (parse_chars s2)
        | String e s2 => cons_fst e (parse_chars s2)
        | EmptyString => None
        end
      else cons_fst c (parse_chars s1)
  end.

Definition num_char (c : ascii) : bool :=
  let n := N_of_ascii c in
  ((48 <=? n) && (n <=? 57) || (n =? 45) || (n =? 112))%N.

(** The longest prefix of number characters. *)
Fixpoint parse_token (s : string) : string * string :=
  match s with
  | String c s' =>
      if num_char c then let '(t, rest) := parse_token s' in (String c t, rest) else ("", s)
  | EmptyString => ("", "")
  end.

Fixpoint split_p (s : string) : string * option string :=
  match s with
  | EmptyString => ("", None)
  | String c s' =>
      if Ascii.eqb c "p" then ("", Some s')
      else let '(a, b) := split_p s' in (String c a, b)
  end.

Definition parse_Z (s : string) : option Z := option_map Z.of_int (NilZero.int_of_string s).

Definition number_of (s : string) : option json :=
  match split_p s with
  | (a, None) => option_map JInteger (parse_Z a)
  | (a, Some b) =>
      match parse_Z a, parse_Z b with
      | Some (Zpos m), Some e => Some (JReal (S754_finite false m e))
      | Some (Zneg m), Some e => Some (JReal (S754_finite true m e))
      | Some Z0, Some e => Some (JReal (S754_zero (Z.eqb e 1)))
      | _, _ => None
      end
  end.

Definition skip_space (s : string) : string :=
  match s with String " " s' => s' | _ => s end.

Section Items.
Context {A : Type} (parse : string -> option (A * string)) (close : ascii).

Fixpoint parse_more (fuel : nat) (s : string) : option (list A * string) :=
  match fuel, s with
  | S fuel', String c s1 =>
      if Ascii.eqb c close then Some ([], s1)
      else if Ascii.eqb c "," then
        match parse (skip_space s1) with
        | Some (x, s2) =>
            match parse_more fuel' s2 with
            | Some (xs, s3) => Some (x :: xs, s3)
            | None => None
            end
        | None => None
        end
      else None
  | _, _ => None
  end.

Definition parse_items (fuel : nat) (s : string) : option (list A * string) :=
  match s with
  | EmptyString => None
  | String c s1 =>
      if Ascii.eqb c close then Some ([], s1)
      else
        match parse s with
        | Some (x, s2) =>
            match parse_more fuel s2 with
            | Some (xs, s3) => Some (x :: xs, s3)
            | None => None
            end
        | None => None
        end
  end.
End Items.

Definition parse_member (parse : string -> option (json * string)) (s : string)
  : option ((string * json) * string) :=
  match s with
  | String c s1 =>
      if Ascii.eqb c quote then
        match parse_chars s1 with
        | Some (k, String ":" s2) =>
            match parse (skip_space s2) with
            | Some (v, s3) => Some ((k, v), s3)
            | None => None
            end
        | _ => None
        end
      else None
  | EmptyString => None
  end.

Definition parse_word (word : string) (v : json) (s : string) : option (json * string) :=
  if String.eqb (str_take (String.length word) s) word
  then Some (v, str_drop (String.length word) s) else None.

Fixpoint parse_value (fuel : nat) (s : string) : option (json * string) :=
  match fuel, s with
  | S fuel', String c s1 =>
      if Ascii.eqb c "n" then parse_word "null" JNull s
      else if Ascii.eqb c "t" then parse_word "true" JTrue s
      else if Ascii.eqb c "f" then parse_word "false" JFalse s
      else if Ascii.eqb c quote then
        match parse_chars s1 with Some (t, s2) => Some (JString t, s2) | None => None end
      else if Ascii.eqb c "[" then
        match parse_items (parse_value fuel') "]" fuel' s1 with
        | Some (l, s2) => Some (JArray l, s2)
        | None => None
        end
      else if Ascii.eqb c "{" then
        match parse_items (parse_member (parse_value fuel')) "}" fuel' s1 with
        | Some (ms, s2) => Some (JObject ms, s2)
        | None => None
        end
      else let '(t, s2) := parse_token s in
           match number_of t with Some v => Some (v, s2) | None => None end
  | _, _ => None
  end.

(** ** The instance *)
Definition load_with (ok : json -> bool) (s : string) : string + json :=
  match parse_value (S (String.length s)) s with
  | Some (v, EmptyString) =>
      if ok v && (json_depth v <=? max_depth)%nat && is_container v then inr v
      else inl "'[' or '{' expected near end of file"
  | _ => inl "invalid token near end of file"
  end.

Definition text_functions (loadb : string -> string + json) : Jansson := {|
  utf8_valid := ascii_only;
  json_object := JObject [];
  json_array := JArray [];
  json_null := JNull;
  json_true := JTrue;
  json_false := JFalse;
  json_string s := if ascii_only s then Some (JString s) else None;
  json_integer := JInteger;
  json_real r := if is_finite r then Some (JReal r) else None;
  json_object_set_new v k x :=
    match v, x with
    | JObject ms, Some x => if ascii_only k then JObject (member_set ms k x) else v
    | _, _ => v
    end;
  json_array_append_new v x :=
    match v, x with
    | JArray l, Some x => JArray (l ++ [x])
    | _, _ => v
    end;
  json_object_get v k := match v with Some (JObject ms) => member_get ms k | _ => None end;
  json_object_size v := match v with Some (JObject ms) => length ms | _ => O end;
  json_object_iter v := match v with Some (JObject ms) => ms | _ => [] end;
  json_array_get v i := match v with Some (JArray l) => l !! i | _ => None end;
  json_array_size v := match v with Some (JArray l) => length l | _ => O end;
  json_string_value v := match v with Some (JString s) => Some s | _ => None end;
  json_integer_value v := match v with Some (JInteger z) => z | _ => 0 end;
  json_real_value v := match v with Some (JReal r) => r | _ => S754_zero false end;
  json_is_null v := match v with Some JNull => true | _ => false end;
  json_is_false v := match v with Some JFalse => true | _ => false end;
  json_deep_copy v := v;
  json_dumps fl v := if is_container v then Some (print fl v) else None;
  json_loadb := loadb
|}.

Definition text_json_ok : json -> bool := @json_ok (text_functions (fun _ => inl "")).

(** Not an [Instance]: files that want it say so. *)
Definition text_jansson : Jansson := text_functions (load_with text_json_ok).

Example print_request :
  print JSON_COMPACT (JArray [JString "get_substring"; JString "hello"; JInteger 2])
  = "[" +:+ print_string "get_substring" +:+ "," +:+ print_string "hello" +:+ ",2]".
Proof. reflexivity. Qed.

Example load_request :
  @json_loadb text_jansson (print JSON_DEFAULT (JObject [("a", JInteger (-12)); ("b", JArray [])]))
  = inr (JObject [("a", JInteger (-12)); ("b", JArray [])]).
Proof. vm_compute. reflexivity. Qed.

(** ** Round trip *)
Lemma hex_value_digit n : (n < 16)%N -> hex_value (hex_digit n) = n.
Proof.
  intros Hn. do 16 (destruct n as [|n] using N.peano_ind; [reflexivity|]; clear IHn). lia.
Qed.

Lemma parse_chars_escape_char c t : parse_chars (escape_char c +:+ t) = cons_fst c (parse_chars t).
Proof. destruct c as [[] [] [] [] [] [] [] []]; reflexivity. Qed.

Lemma parse_chars_escape s rest : parse_chars (escape s +:+ String quote rest) = Some (s, rest).
Proof.
  induction s as [|c s IH]; [reflexivity|].
  cbn [escape]. by rewrite str_app_assoc, parse_chars_escape_char, IH.
Qed.

Lemma parse_chars_print s rest :
  print_string s +:+ rest = String quote (escape s +:+ String quote rest).
Proof. unfold print_string. by rewrite str_app_cons, str_app_assoc, str_app_cons. Qed.

Definition not_num (s : string) : bool :=
  match s with String c _ => negb (num_char c) | EmptyString => true end.

Lemma parse_token_spec t rest :
  str_forall num_char t = true -> not_num rest = true -> parse_token (t +:+ rest) = (t, rest).
Proof.
  intros Ht Hr. induction t as [|c t IH]; simpl in *.
  - destruct rest as [|c rest]; [done|]. simpl in *. by destruct (num_char c).
  - split_bools. rewrite H. by rewrite IH.
Qed.

Definition digit_char (c : ascii) : bool :=
  let n := N_of_ascii c in ((48 <=? n) && (n <=? 57) || (n =? 45))%N.

Lemma digit_num c : digit_char c = true -> num_char c = true.
Proof. unfold digit_char, num_char. intros. apply orb_true_iff. by left. Qed.

Lemma digit_not_p c : digit_char c = true -> Ascii.eqb c "p" = false.
Proof. intros Hc. destruct (Ascii.eqb_spec c "p") as [->|]; [|done]. discriminate Hc. Qed.

Lemma print_uint_digits d : str_forall digit_char (NilEmpty.string_of_uint d) = true.
Proof. induction d; simpl; auto. Qed.

Lemma print_Z_digits z : str_forall digit_char (print_Z z) = true.
Proof.
  unfold print_Z, NilZero.string_of_int. destruct (Z.to_int z) as [d|d]; simpl.
  all: unfold NilZero.string_of_uint; destruct d; try reflexivity; apply print_uint_digits.
Qed.

Lemma str_forall_impl p q (s : string) :
  (forall c, p c = true -> q c = true) -> str_forall p s = true -> str_forall q s = true.
Proof. intros Hpq. induction s as [|c s IH]; simpl; [done|]. intros. split_bools. join_bools; auto. Qed.

Lemma print_Z_num z : str_forall num_char (print_Z z) = true.
Proof. eapply str_forall_impl, print_Z_digits. exact digit_num. Qed.

Lemma to_int_normal z : Z.to_int z <> Decimal.Pos Decimal.Nil /\ Z.to_int z <> Decimal.Neg Decimal.Nil.
Proof.
  split; intros E; pose proof (DecimalZ.of_to z) as Hz; rewrite E in Hz; cbn in Hz; subst z; discriminate E.
Qed.

Lemma parse_print_Z z : parse_Z (print_Z z) = Some z.
Proof.
  unfold parse_Z, print_Z. destruct (to_int_normal z).
  rewrite NilZero.isi by done. simpl. by rewrite DecimalZ.of_to.
Qed.

Lemma split_p_digits a : str_forall digit_char a = true -> split_p a = (a, None).
Proof.
  induction a as [|c a IH]; simpl; [done|]. intros. split_bools.
  rewrite digit_not_p by done. by rewrite IH.
Qed.

Lemma split_p_app a b : str_forall digit_char a = true -> split_p (a +:+ "p" +:+ b) = (a, Some b).
Proof.
  induction a as [|c a IH]; [done|]. simpl. intros. split_bools.
  rewrite digit_not_p by done. simpl in IH. by rewrite IH.
Qed.

Lemma number_of_print_Z z : number_of (print_Z z) = Some (JInteger z).
Proof.
  unfold number_of. rewrite split_p_digits by apply print_Z_digits. by rewrite parse_print_Z.
Qed.

Lemma number_of_print_real r : is_finite r = true -> number_of (print_real r) = Some (JReal r).
Proof.
  destruct r as [[]| | |s m e]; intros Hr; try done.
  unfold print_real, number_of. rewrite split_p_app by apply print_Z_digits.
  rewrite !parse_print_Z. by destruct s.
Qed.

Lemma print_real_num r : str_forall num_char (print_real r) = true.
Proof.
  destruct r as [[]| | |s m e]; simpl; try done.
  rewrite !str_forall_app, !print_Z_num. done.
Qed.

(** Fuel: one more than the number of nodes below a value is enough. *)
Fixpoint json_size (v : json) : nat :=
  match v with
  | JObject ms => S (list_sum (List.map (fun m => S (json_size m.2)) ms))
  | JArray l => S (list_sum (List.map (fun x => S (json_size x)) l))
  | _ => 1
  end.

Definition is_sep (sep : string) : Prop := sep = "," \/ sep = ", ".

Lemma item_sep_ok fl : is_sep (item_sep fl).
Proof. destruct fl; [by right|by left]. Qed.

(** [parse] reads back what [f] prints, in front of a byte that ends a number. *)
Definition reads {A} (f : A -> string) (close : ascii) (parse : string -> option (A * string))
  (x : A) : Prop :=
  (exists c s, f x = String c s /\ c <> " "%char /\ c <> close) /\
  forall r, not_num r = true -> parse (f x +:+ r) = Some (x, r).

Lemma skip_space_sep sep c s : is_sep sep -> c <> " "%char ->
  exists t, sep +:+ String c s = String "," t /\ skip_space t = String c s.
Proof.
  intros Hsep Hc.
  assert (skip_space (String c s) = String c s) as Hs
    by (destruct c as [[] [] [] [] [] [] [] []]; first [reflexivity | done]).
  destruct Hsep as [->| ->]; simpl; eauto.
Qed.

Section ItemsSpec.
Context {A : Type} (f : A -> string) (close : ascii) (parse : string -> option (A * string)).
Context (sep : string).
Hypothesis Hsep : is_sep sep.
Hypothesis Hclose : num_char close = false /\ close <> ","%char.

Lemma not_num_more xs rest :
  not_num (print_more sep (List.map f xs) +:+ String close rest) = true.
Proof.
  destruct xs as [|x xs]; simpl.
  - destruct Hclose as [-> _]. done.
  - destruct Hsep as [->| ->]; done.
Qed.

Lemma parse_more_spec xs fuel rest :
  (length xs < fuel)%nat -> Forall (reads f close parse) xs ->
  parse_more parse close fuel (print_more sep (List.map f xs) +:+ String close rest)
  = Some (xs, rest).
Proof.
  revert fuel. induction xs as [|x xs IH]; intros [|fuel] Hf Hxs; simpl in Hf; try lia.
  - simpl. by rewrite Ascii.eqb_refl.
  - apply Forall_cons in Hxs as [[(c & s & Hx & Hc & _) Hp] Hxs].
    unfold print_more in *. cbn [List.map str_concat]. rewrite !str_app_assoc, Hx, str_app_cons.
    set (tail := s +:+ _).
    destruct (skip_space_sep sep c tail Hsep Hc) as (t & -> & Ht).
    cbn [parse_more]. destruct (Ascii.eqb_spec "," close) as [E|_]; [naive_solver|].
    cbn [Ascii.eqb]. rewrite Ht. unfold tail.
    rewrite <- str_app_cons, <- Hx, Hp by apply not_num_more.
    cbn. rewrite IH by (done || lia). done.
Qed.

Lemma parse_items_spec xs fuel rest :
  (length xs <= fuel)%nat -> Forall (reads f close parse) xs ->
  parse_items parse close fuel (print_items sep (List.map f xs) +:+ String close rest)
  = Some (xs, rest).
Proof.
  destruct xs as [|x xs]; intros Hf Hxs.
  - simpl. by rewrite Ascii.eqb_refl.
  - apply Forall_cons in Hxs as [[(c & s & Hx & Hs & Hc) Hp] Hxs].
    cbn [List.map print_items]. rewrite str_app_assoc.
    pose proof (Hp _ (not_num_more xs rest)) as Hpx.
    rewrite Hx, str_app_cons in *. unfold parse_items.
    destruct (Ascii.eqb_spec c close) as [E|_]; [naive_solver|].
    rewrite Hpx. rewrite parse_more_spec by (done || (simpl in Hf; lia)). done.
Qed.
End ItemsSpec.

Lemma num_char_dispatch c : num_char c = true ->
  Ascii.eqb c "n" = false /\ Ascii.eqb c "t" = false /\ Ascii.eqb c "f" = false /\
  Ascii.eqb c quote = false /\ Ascii.eqb c "[" = false /\ Ascii.eqb c "{" = false /\
  c <> " "%char /\ c <> "]"%char.
Proof. destruct c as [[] [] [] [] [] [] [] []]; try discriminate; done. Qed.

Lemma parse_value_num n t rest v :
  str_forall num_char t = true -> not_num rest = true -> number_of t = Some v ->
  parse_value (S n) (t +:+ rest) = Some (v, rest).
Proof.
  intros Ht Hr Hv. destruct t as [|c t]; [discriminate Hv|].
  pose proof (parse_token_spec _ _ Ht Hr) as Htok.
  assert (num_char c = true) as Hc by (simpl in Ht; by split_bools).
  apply num_char_dispatch in Hc as (E1 & E2 & E3 & E4 & E5 & E6 & _).
  rewrite str_app_cons in *. cbn [parse_value]. rewrite E1, E2, E3, E4, E5, E6, Htok, Hv. done.
Qed.

Lemma num_text_head t v : str_forall num_char t = true -> number_of t = Some v ->
  exists c s, t = String c s /\ c <> " "%char /\ c <> "]"%char.
Proof.
  destruct t as [|c t]; [discriminate|]. simpl. intros. split_bools.
  pose proof (num_char_dispatch c). naive_solver.
Qed.

Section RoundTrip.
Context (fl : dump_flags).

Lemma print_head v : text_json_ok v = true ->
  exists c s, print fl v = String c s /\ c <> " "%char /\ c <> "]"%char.
Proof.
  destruct v; intros Hok; simpl; eauto; try (by do 2 eexists).
  - eapply num_text_head; [apply print_Z_num|apply number_of_print_Z].
  - eapply num_text_head; [apply print_real_num|by apply number_of_print_real].
Qed.

Lemma reads_value n v :
  text_json_ok v = true ->
  (forall r, not_num r = true -> parse_value n (print fl v +:+ r) = Some (v, r)) ->
  reads (print fl) "]" (parse_value n) v.
Proof. intros Hok Hp. split; [by apply print_head|done]. Qed.

Lemma reads_member n k v :
  text_json_ok v = true ->
  (forall r, not_num r = true -> parse_value n (print fl v +:+ r) = Some (v, r)) ->
  reads (fun m => print_string m.1 +:+ key_sep fl +:+ print fl m.2) "}"
    (parse_member (parse_value n)) (k, v).
Proof.
  intros Hok Hp. split; [by do 2 eexists|]. intros r Hr. cbn [fst snd].
  rewrite !str_app_assoc, parse_chars_print. cbn [parse_member]. change (Ascii.eqb quote quote) with true. cbv iota.
  rewrite parse_chars_escape. destruct (print_head v Hok) as (c & s & Hv & Hc & _).
  assert (forall t, skip_space (String c t) = String c t) as Hs
    by (intros t; destruct c as [[] [] [] [] [] [] [] []]; first [reflexivity | done]).
  assert (forall fl', skip_space (str_drop 1 (key_sep fl') +:+ print fl v +:+ r)
                      = print fl v +:+ r) as Hskip by (intros []; [done|by rewrite Hv; apply Hs]).
  specialize (Hskip fl). specialize (Hp r Hr).
  set (tail := print fl v +:+ r) in *. clearbody tail.
  destruct fl; simpl in *; rewrite ?Hskip, Hp; done.
Qed.
End RoundTrip.

Lemma list_sum_In (l : list nat) n : In n l -> (n <= list_sum l)%nat.
Proof. induction l as [|m l IH]; simpl; [done|]. intros [->|?]; [lia|]. apply IH in H. lia. Qed.

Lemma list_sum_S_length {A} (f : A -> nat) l : (length l <= list_sum (List.map (fun x => S (f x)) l))%nat.
Proof. induction l; simpl; lia. Qed.

Lemma parse_word_ok word v rest :
  parse_word word v (word +:+ rest) = Some (v, rest).
Proof.
  unfold parse_word. rewrite str_take_app, str_drop_app by done. by rewrite String.eqb_refl.
Qed.

Lemma parse_value_object n s :
  parse_value (S n) ("{" +:+ s) =
    match parse_items (parse_member (parse_value n)) "}" n s with
    | Some (ms, rest) => Some (JObject ms, rest)
    | None => None
    end.
Proof. reflexivity. Qed.

Lemma parse_value_array n s :
  parse_value (S n) ("[" +:+ s) =
    match parse_items (parse_value n) "]" n s with
    | Some (l, rest) => Some (JArray l, rest)
    | None => None
    end.
Proof. reflexivity. Qed.

Theorem parse_value_print fl v n rest :
  text_json_ok v = true -> (json_size v <= n)%nat -> not_num rest = true ->
  parse_value n (print fl v +:+ rest) = Some (v, rest).
Proof.
  revert n rest. induction v as [ms IH|l IH|s|z|r| | |] using json_rec_all;
    intros [|n] rest Hok Hn Hr; simpl in Hn; try lia.
  - cbn [print]. rewrite !str_app_assoc, parse_value_object. change ("}" +:+ rest) with (String "}" rest).
    unfold text_json_ok in Hok. simpl in Hok. split_bools. rewrite forallb_forall in *.
    enough (parse_items (parse_member (parse_value n)) "}" n
      (print_items (item_sep fl) (List.map (fun m => print_string m.1 +:+ key_sep fl +:+ print fl m.2) ms)
       +:+ String "}" rest) = Some (ms, rest)) as -> by done.
    apply parse_items_spec; [apply item_sep_ok|done| |].
    + pose proof (list_sum_S_length (fun m : string * json => json_size m.2) ms). lia.
    + rewrite Forall_forall in *. intros [k v] Hm. pose proof (IH _ Hm) as IHm.
      apply list_elem_of_In in Hm. specialize (H0 _ Hm). simpl in *. split_bools.
      apply reads_member; [done|]. intros. apply IHm; [done| |done].
      pose proof (list_sum_In (List.map (fun m => S (json_size m.2)) ms) (S (json_size v))) as Hs.
      rewrite in_map_iff in Hs. specialize (Hs ltac:(by exists (k, v))). lia.
  - cbn [print]. rewrite !str_app_assoc, parse_value_array. change ("]" +:+ rest) with (String "]" rest).
    unfold text_json_ok in Hok. simpl in Hok. rewrite forallb_forall in *.
    enough (parse_items (parse_value n) "]" n
      (print_items (item_sep fl) (List.map (print fl) l) +:+ String "]" rest) = Some (l, rest))
      as -> by done.
    apply parse_items_spec; [apply item_sep_ok|done| |].
    + pose proof (list_sum_S_length json_size l). lia.
    + rewrite Forall_forall in *. intros v Hm. pose proof (IH _ Hm) as IHm.
      apply list_elem_of_In in Hm. specialize (Hok _ Hm).
      apply reads_value; [done|]. intros. apply IHm; [done| |done].
      pose proof (list_sum_In (List.map (fun m => S (json_size m)) l) (S (json_size v))) as Hs.
      rewrite in_map_iff in Hs. specialize (Hs ltac:(by exists v)). lia.
  - cbn [print]. rewrite parse_chars_print. cbn. by rewrite parse_chars_escape.
  - apply parse_value_num; [apply print_Z_num|done|apply number_of_print_Z].
  - apply parse_value_num; [apply print_real_num|done|by apply number_of_print_real].
  - apply (parse_word_ok "true").
  - apply (parse_word_ok "false").
  - apply (parse_word_ok "null").
Qed.

(** ** The laws *)
Lemma print_items_length sep items :
  is_sep sep ->
  (list_sum (List.map (fun i => S (String.length i)) items) <=
   S (String.length (print_items sep items)))%nat.
Proof.
  intros Hsep.
  assert (forall l, (list_sum (List.map (fun i => S (String.length i)) l) <=
                     String.length (print_more sep l))%nat) as Hmore.
  { intros l. induction l as [|i l IH]; [simpl; lia|].
    unfold print_more in *. cbn [List.map str_concat list_sum fold_right]. rewrite !str_length_app.
    destruct Hsep as [->| ->]; cbn [String.length]; unfold list_sum in *; lia. }
  destruct items as [|i items]; [simpl; lia|].
  cbn [List.map print_items list_sum fold_right]. rewrite str_length_app.
  specialize (Hmore items). unfold list_sum in *. lia.
Qed.

Lemma list_sum_le {A} (f g : A -> nat) l :
  Forall (fun x => f x <= g x)%nat l -> (list_sum (List.map f l) <= list_sum (List.map g l))%nat.
Proof. induction 1; simpl; lia. Qed.

Lemma json_size_print fl v : text_json_ok v = true -> (json_size v <= String.length (print fl v))%nat.
Proof.
  induction v as [ms IH|l IH|s|z|r| | |] using json_rec_all; intros Hok; try (simpl; lia).
  - cbn [print json_size]. rewrite !str_length_app.
    pose proof (print_items_length (item_sep fl)
      (List.map (fun m => print_string m.1 +:+ key_sep fl +:+ print fl m.2) ms) (item_sep_ok fl)) as Hl.
    rewrite List.map_map in Hl. cbn [String.length].
    enough (list_sum (List.map (fun m => S (json_size m.2)) ms) <=
            list_sum (List.map (fun m => S (String.length (print_string m.1 +:+ key_sep fl +:+ print fl m.2))) ms))%nat
      by lia.
    unfold text_json_ok in Hok. simpl in Hok. split_bools. rewrite forallb_forall in *.
    apply list_sum_le. rewrite Forall_forall in *. intros m Hm. specialize (IH m Hm).
    apply list_elem_of_In in Hm. specialize (H0 _ Hm). split_bools.
    rewrite !str_length_app. specialize (IH ltac:(done)). lia.
  - cbn [print json_size]. rewrite !str_length_app.
    pose proof (print_items_length (item_sep fl) (List.map (print fl) l) (item_sep_ok fl)) as Hl.
    rewrite List.map_map in Hl. cbn [String.length].
    enough (list_sum (List.map (fun m => S (json_size m)) l) <=
            list_sum (List.map (fun m => S (String.length (print fl m))) l))%nat by lia.
    unfold text_json_ok in Hok. simpl in Hok. rewrite forallb_forall in *.
    apply list_sum_le. rewrite Forall_forall in *. intros m Hm. specialize (IH m Hm).
    apply list_elem_of_In in Hm. specialize (Hok _ Hm). specialize (IH ltac:(done)). lia.
  - destruct (print_head fl (JInteger z) Hok) as (c & t & -> & _). simpl. lia.
  - destruct (print_head fl (JReal r) Hok) as (c & t & -> & _). simpl. lia.
Qed.

(** Printed bytes are ASCII and never NUL. *)
Definition plain_char (c : ascii) : bool := (N_of_ascii c <? 128)%N && negb (Ascii.eqb c nul).

Lemma plain_text s : str_forall plain_char s = true <-> @text_ok text_jansson s = true.
Proof.
  unfold text_ok, nul_free. simpl. unfold ascii_only.
  induction s as [|c s IH]; simpl; [done|].
  unfold plain_char at 1. rewrite !andb_true_iff in *. naive_solver.
Qed.

Lemma escape_plain s : str_forall plain_char s = true -> str_forall plain_char (escape s) = true.
Proof.
  induction s as [|c s IH]; [done|]. cbn [str_forall escape]. intros. split_bools.
  rewrite str_forall_app. join_bools; [|auto].
  destruct c as [[] [] [] [] [] [] [] []]; first [reflexivity | discriminate].
Qed.

Lemma num_plain s : str_forall num_char s = true -> str_forall plain_char s = true.
Proof.
  apply str_forall_impl. intros c. destruct c as [[] [] [] [] [] [] [] []]; first [reflexivity|discriminate].
Qed.

Lemma print_items_plain sep items :
  is_sep sep -> Forall (fun i => str_forall plain_char i = true) items ->
  str_forall plain_char (print_items sep items) = true.
Proof.
  intros Hsep Hi.
  assert (str_forall plain_char sep = true) as Hs by (destruct Hsep as [->| ->]; reflexivity).
  assert (forall l, Forall (fun i => str_forall plain_char i = true) l ->
                    str_forall plain_char (print_more sep l) = true) as Hmore.
  { induction 1 as [|i l Hi' _ IH]; [done|].
    unfold print_more in *. cbn [List.map str_concat]. rewrite !str_forall_app. join_bools. }
  destruct Hi as [|i l]; [done|]. cbn [print_items]. rewrite str_forall_app. join_bools. auto.
Qed.

Lemma print_string_plain s :
  @text_ok text_jansson s = true -> str_forall plain_char (print_string s) = true.
Proof.
  intros Hs. apply plain_text, escape_plain in Hs. unfold print_string. cbn [str_forall].
  rewrite str_forall_app, Hs. done.
Qed.

Lemma print_plain fl v : text_json_ok v = true -> str_forall plain_char (print fl v) = true.
Proof.
  induction v as [ms IH|l IH|s|z|r| | |] using json_rec_all; intros Hok; try done.
  - cbn [print]. rewrite !str_forall_app. join_bools. apply print_items_plain; [apply item_sep_ok|].
    unfold text_json_ok in Hok. simpl in Hok. split_bools. rewrite forallb_forall in *.
    rewrite Forall_forall in IH. apply Forall_forall. intros i Hi. apply list_elem_of_In, in_map_iff in Hi as (m & <- & Hm).
    specialize (H0 _ Hm). apply list_elem_of_In in Hm. specialize (IH m Hm). split_bools.
    rewrite !str_forall_app. join_bools; [by apply print_string_plain|by destruct fl|auto].
  - cbn [print]. rewrite !str_forall_app. join_bools. apply print_items_plain; [apply item_sep_ok|].
    unfold text_json_ok in Hok. simpl in Hok. rewrite forallb_forall in *.
    rewrite Forall_forall in IH. apply Forall_forall. intros i Hi. apply list_elem_of_In, in_map_iff in Hi as (m & <- & Hm).
    specialize (Hok _ Hm). apply list_elem_of_In in Hm. auto.
  - by apply print_string_plain.
  - apply num_plain, print_Z_num.
  - apply num_plain, print_real_num.
Qed.

Lemma text_load_dump fl v :
  text_json_ok v = true -> (json_depth v <=? max_depth)%nat = true -> is_container v = true ->
  load_with text_json_ok (print fl v) = inr v.
Proof.
  intros Hok Hd Hc. unfold load_with.
  rewrite <- (str_app_nil_r (print fl v)) at 2.
  rewrite parse_value_print; [|done|pose proof (json_size_print fl v Hok); lia|done].
  by rewrite Hok, Hd, Hc.
Qed.

Lemma text_laws : @JanssonLaws text_jansson.
Proof.
  constructor; try reflexivity; try done.
  - intros s t. simpl. unfold ascii_only. intros Hs Ht. by rewrite str_forall_app, Hs, Ht.
  - intros fl v Hok Hc. exists (print fl v). simpl. rewrite Hc. split; [done|].
    apply plain_text. exact (print_plain fl v Hok).
  - intros fl v s Hp Hc. simpl. rewrite Hc. intros [= <-].
    unfold portable in Hp. split_bools. exact (text_load_dump fl v ltac:(assumption) ltac:(assumption) Hc).
  - intros s v. simpl. unfold load_with.
    destruct (parse_value _ s) as [[v' [|]]|]; try done.
    destruct (_ && _ && _) eqn:E; [|done]. intros [= <-]. split_bools. split; [|done].
    unfold portable. join_bools.
  - by eexists.
  - intros s e. simpl. unfold load_with.
    destruct (parse_value _ s) as [[v [|c t]]|]; [destruct (_ && _ && _)|..]; by intros [= <-].
Qed.
