(* ===== verification/Runtime.v ===== *)
(** * Runtime: the C-level data every component shares

    Error reports ([GError] and the [GError **] out parameter), and heap buffers with their
    allocated size and the part of them that has been written. *)
From S2P Require Import Prelude.

(** ** Error reports *)

(** The error domains the code uses: [DFT_DOMAIN] (searpc-client.h, searpc-server.h),
    [SEARPC_JSON_DOMAIN] (searpc-utils.h), and those of RPC implementations. *)
Inductive gquark := DFT_DOMAIN | SEARPC_JSON_DOMAIN | G_QUARK (name : string).

Record GError := mkGError { e_domain : gquark; e_code : Z; e_message : string }.

(** A [GError **] argument: NULL when the caller does not want the error, or the address of a
    [GError *]. *)
Inductive gerror_ptr := ErrNull | ErrAt (e : option GError).

(** [g_set_error]: nothing to set when the pointer is NULL; an error that is already there is
    kept (GLib warns and drops the new one). *)
Definition g_set_error (p : gerror_ptr) (domain : gquark) (code : Z) (message : string)
  : gerror_ptr :=
  match p with
  | ErrNull => ErrNull
  | ErrAt None => ErrAt (Some (mkGError domain code message))
  | ErrAt (Some e) => ErrAt (Some e)
  end.

(** ** Heap buffers

    [cb_size] bytes were allocated; [cb_bytes] is the prefix that has been written, the rest is
    indeterminate. *)
Record cbuf := mkCbuf { cb_bytes : string; cb_size : nat }.

(** The buffer [g_malloc (n)] returns, and the one [g_new0 (char, n)] returns. *)
Definition g_malloc (n : nat) : cbuf := mkCbuf "" n.
Definition g_malloc0 (n : nat) : cbuf := mkCbuf (str_repeat nul n) n.

(** Read the first [n] bytes. *)
Definition cbuf_read (b : cbuf) (n : nat) : outcome string :=
  if (n <=? cb_size b)%nat then
    if (n <=? String.length (cb_bytes b))%nat then Ok (str_take n (cb_bytes b))
    else Undef "read of uninitialised memory"
  else Undef "read past the end of a buffer".

(** Overwrite the first bytes with [s]. *)
Definition cbuf_write (b : cbuf) (s : string) : cbuf :=
  mkCbuf (s +:+ str_drop (String.length s) (cb_bytes b)) (cb_size b).

(** [g_realloc]: the contents are kept up to the smaller of the two sizes. *)
Definition g_realloc (b : cbuf) (n : nat) : cbuf := mkCbuf (str_take n (cb_bytes b)) n.

(** A heap C string: its bytes and the terminating NUL. *)
Definition cbuf_of_string (s : string) : cbuf :=
  mkCbuf (s +:+ String nul "") (S (String.length s)).

(** ** Lemmas *)
Lemma g_set_error_fresh domain code message :
  g_set_error (ErrAt None) domain code message = ErrAt (Some (mkGError domain code message)).
Proof. done. Qed.

Lemma cbuf_read_exact s : cbuf_read (mkCbuf s (String.length s)) (String.length s) = Ok s.
Proof. unfold cbuf_read. simpl. rewrite Nat.leb_refl. by rewrite str_take_all. Qed.

Lemma cbuf_read_string s : cbuf_read (cbuf_of_string s) (String.length s) = Ok s.
Proof.
  unfold cbuf_read, cbuf_of_string. simpl.
  rewrite str_length_app. destruct (Nat.leb_spec (String.length s) (S (String.length s))); [|lia].
  destruct (Nat.leb_spec (String.length s) (String.length s + String.length (String nul ""))); [|lia].
  by rewrite str_take_app.
Qed.

Lemma cbuf_read_written b s :
  (String.length s <= cb_size b)%nat -> cbuf_read (cbuf_write b s) (String.length s) = Ok s.
Proof.
  intros Hs. unfold cbuf_read, cbuf_write. simpl. rewrite str_length_app.
  apply Nat.leb_le in Hs as ->.
  destruct (Nat.leb_spec (String.length s)
    (String.length s + String.length (str_drop (String.length s) (cb_bytes b)))); [|lia].
  by rewrite str_take_app.
Qed.

Lemma cbuf_write_size b s : cb_size (cbuf_write b s) = cb_size b.
Proof. done. Qed.

#[export] Hint Rewrite @cbuf_read_exact @cbuf_read_string @cbuf_write_size : searpc.
