(* ===== verification/Utils.v ===== *)
(** * Utils: the JSON helpers of lib/searpc-utils.h

    One definition per inline function, in the header's order. *)
From S2P Require Import Prelude Json Runtime.

Inductive SEARPCJSONERROR :=
| SEARPC_JSON_ERROR_LOAD
| SEARPC_JSON_ERROR_PACK
| SEARPC_JSON_ERROR_UPACK.

Definition json_error_code (e : SEARPCJSONERROR) : Z :=
  match e with
  | SEARPC_JSON_ERROR_LOAD => 0
  | SEARPC_JSON_ERROR_PACK => 1
  | SEARPC_JSON_ERROR_UPACK => 2
  end.

Section Utils.
Context `{Jansson}.

(** [jerror] is the text of the [json_error_t]. *)
Definition setjetoge (jerror : string) (error : gerror_ptr) : gerror_ptr :=
  g_set_error error SEARPC_JSON_DOMAIN (json_error_code SEARPC_JSON_ERROR_LOAD) jerror.

Definition json_object_get_string_or_null_member (object : option json) (member_name : string)
  : option string :=
  let ret := json_object_get object member_name in
  match ret with
  | Some _ => json_string_value ret
  | None => None
  end.

Definition json_object_set_string_or_null_member (object : json) (member_name : string)
  (value : option string) : json :=
  match value with
  | Some v => json_object_set_new object member_name (json_string v)
  | None => json_object_set_new object member_name (Some json_null)
  end.

Definition json_array_get_string_or_null_element (array : json) (index : nat) : option string :=
  let ret := json_array_get (Some array) index in
  match ret with
  | Some _ => json_string_value ret
  | None => None
  end.

Definition json_array_add_string_or_null_element (array : json) (value : option string) : json :=
  match value with
  | Some v => json_array_append_new array (json_string v)
  | None => json_array_append_new array (Some json_null)
  end.

Definition json_array_get_int_element (array : json) (index : nat) : Z :=
  json_integer_value (json_array_get (Some array) index).

Definition json_array_get_json_or_null_element (array : json) (index : nat) : option json :=
  json_array_get (Some array) index.

Definition json_array_add_json_or_null_element (array : json) (value : option json) : json :=
  match value with
  | Some v =>
      let obj := json_deep_copy (Some v) in
      json_array_append_new array obj
  | None => json_array_append_new array (Some json_null)
  end.
End Utils.
