(* ===== verification/GObject.v ===== *)
(** * GObject: lib/searpc-utils.c, the conversion between GObjects and JSON

    GObject is a third party library: its types, classes and objects are the class [GObjectLib],
    a parameter, with the documented behaviour of its functions in [GObjectLaws].  What is
    defined here is the code of the repository: the two switches over property types and the two
    loops over properties and members.  Both directions recurse through object-valued properties
    without a bound in the C code; here the recursion has a stack depth, running out of it is
    [Undef], and the termination theorems say which depth is enough. *)
From S2P Require Import Prelude Json Runtime.
From Stdlib Require Import SpecFloat.

(** ** Data *)

(** Fundamental types, in the order of gtype.h. *)
Inductive fundamental :=
| G_TYPE_NONE | G_TYPE_INTERFACE | G_TYPE_CHAR | G_TYPE_UCHAR | G_TYPE_BOOLEAN
| G_TYPE_INT | G_TYPE_UINT | G_TYPE_LONG | G_TYPE_ULONG | G_TYPE_INT64 | G_TYPE_UINT64
| G_TYPE_ENUM | G_TYPE_FLAGS | G_TYPE_FLOAT | G_TYPE_DOUBLE | G_TYPE_STRING
| G_TYPE_POINTER | G_TYPE_BOXED | G_TYPE_PARAM | G_TYPE_OBJECT | G_TYPE_VARIANT.

#[export] Instance fundamental_eq_dec : EqDecision fundamental.
Proof. solve_decision. Defined.

(** What a [GValue] holds, apart from its type. *)
Inductive gdata (O : Type) :=
| GString (s : option string)
| GBoolean (b : bool)
| GInteger (z : Z)
| GReal (r : spec_float)
| GObj (o : option O)
| GOther.
Arguments GString {O} _.
Arguments GBoolean {O} _.
Arguments GInteger {O} _.
Arguments GReal {O} _.
Arguments GObj {O} _.
Arguments GOther {O}.

Class GObjectLib : Type := {
  gtype : Type;
  gobject : Type;
  (** [G_TYPE_FUNDAMENTAL], and [g_type_is_a (_, G_TYPE_OBJECT)] *)
  g_type_fundamental : gtype -> fundamental;
  g_type_is_a_object : gtype -> bool;
  (** the type of an object's class, [G_OBJECT_TYPE] *)
  g_object_type : gobject -> gtype
}.

Record GParamSpec `{GObjectLib} := mkPspec {
  ps_name : string;
  ps_value_type : gtype;
  ps_readable : bool;
  ps_writable : bool;          (* flags & G_PARAM_WRITABLE *)
  ps_construct_only : bool     (* flags & G_PARAM_CONSTRUCT_ONLY *)
}.

Record GParameter `{GObjectLib} := mkParam { gp_name : string; gp_value : gdata gobject }.

Class GObjectClasses `{GObjectLib} : Type := {
  g_object_class_list_properties : gtype -> list GParamSpec;
  g_object_class_find_property : gtype -> string -> option GParamSpec;
  g_object_get_property : gobject -> string -> gdata gobject;
  g_object_newv : gtype -> list GParameter -> gobject;
  (** whether an object of the type keeps the value it is given for a property: it is a valid
      value of the [GParamSpec] and the class' [set_property] stores it *)
  g_class_stores : gtype -> GParamSpec -> gdata gobject -> bool
}.

(** The getters of a [GValue]; on a value of another type they return the default. *)
Section Getters.
Context {O : Type}.
Definition g_value_get_string (v : gdata O) : option string :=
  match v with GString s => s | _ => None end.
Definition g_value_get_boolean (v : gdata O) : bool :=
  match v with GBoolean b => b | _ => false end.
Definition g_value_get_integer (v : gdata O) : Z := match v with GInteger z => z | _ => 0 end.
Definition g_value_get_real (v : gdata O) : spec_float :=
  match v with GReal r => r | _ => S754_zero false end.
Definition g_value_get_object (v : gdata O) : option O := match v with GObj o => o | _ => None end.
End Getters.

(** The C cast from [double] to [float]: round to nearest at 24 bits of precision. *)
Definition to_gfloat (r : spec_float) : spec_float :=
  match r with
  | S754_finite s m e => binary_round 24 128 s m e
  | _ => r
  end.

Section Convert.
Context `{Jansson} `{GObjectClasses}.

(** *** json_serialize_pspec *)

(** One property value; [serialize] is the recursive call for an object.  [Ok None] is the
    NULL that [json_string] and [json_real] return for what JSON cannot hold. *)
Definition json_serialize_pspec (serialize : gobject -> outcome json)
  (value_type : gtype) (value : gdata gobject) : outcome (option json) :=
  match g_type_fundamental value_type with
  | G_TYPE_STRING =>
      match g_value_get_string value with
      | None => Ok (Some json_null)
      | Some s => Ok (json_string s)
      end
  | G_TYPE_BOOLEAN => if g_value_get_boolean value then Ok (Some json_true) else Ok (Some json_false)
  | G_TYPE_INT => Ok (Some (json_integer (to_int64 (g_value_get_integer value))))
  | G_TYPE_UINT => Ok (Some (json_integer (to_int64 (g_value_get_integer value))))
  | G_TYPE_LONG => Ok (Some (json_integer (to_int64 (g_value_get_integer value))))
  | G_TYPE_ULONG => Ok (Some (json_integer (to_int64 (g_value_get_integer value))))
  | G_TYPE_INT64 => Ok (Some (json_integer (to_int64 (g_value_get_integer value))))
  | G_TYPE_FLOAT => Ok (json_real (g_value_get_real value))
  | G_TYPE_DOUBLE => Ok (json_real (g_value_get_real value))
  | G_TYPE_CHAR => Ok (Some (json_integer (to_int64 (g_value_get_integer value))))
  | G_TYPE_UCHAR => Ok (Some (json_integer (to_int64 (g_value_get_integer value))))
  | G_TYPE_ENUM => Ok (Some (json_integer (to_int64 (g_value_get_integer value))))
  | G_TYPE_FLAGS => Ok (Some (json_integer (to_int64 (g_value_get_integer value))))
  | G_TYPE_NONE => Ok (Some json_null)
  | G_TYPE_OBJECT =>
      match g_value_get_object value with
      | Some object => v <~ serialize object ;; Ok (Some v)
      | None => Ok (Some json_null)
      end
  | _ => Ok (Some json_null)   (* g_warning: unsupported type *)
  end.

(** The loop of json_gobject_serialize over the property specs. *)
Fixpoint serialize_properties (serialize : gobject -> outcome json) (gobj : gobject)
  (pspecs : list GParamSpec) (object : json) : outcome json :=
  match pspecs with
  | [] => Ok object
  | pspec :: pspecs' =>
      node <~ json_serialize_pspec serialize (ps_value_type pspec)
                (g_object_get_property gobj (ps_name pspec)) ;;
      serialize_properties serialize gobj pspecs'
        (match node with
         | Some n => json_object_set_new object (ps_name pspec) (Some n)
         | None => object
         end)
  end.

Fixpoint json_gobject_serialize (stack : nat) (gobj : gobject) : outcome json :=
  match stack with
  | O => Undef "stack overflow in json_gobject_serialize"
  | S stack' =>
      serialize_properties (json_gobject_serialize stack') gobj
        (g_object_class_list_properties (g_object_type gobj)) json_object
  end.

(** *** json_deserialize_pspec *)

(** [Ok (Some d)]: TRUE, and the value was set to [d].  [Ok None]: FALSE. *)
Definition json_deserialize_pspec (deserialize : gtype -> option json -> outcome gobject)
  (value_type : gtype) (node : json) : outcome (option (gdata gobject)) :=
  match node with
  | JObject _ =>
      if g_type_is_a_object value_type then
        object <~ deserialize value_type (Some node) ;; Ok (Some (GObj (Some object)))
      else Ok None
  | JString _ =>
      if decide (g_type_fundamental value_type = G_TYPE_STRING)
      then Ok (Some (GString (json_string_value (Some node)))) else Ok None
  | JInteger _ =>
      let int_value := json_integer_value (Some node) in
      match g_type_fundamental value_type with
      | G_TYPE_CHAR => Ok (Some (GInteger (wrap_signed 8 int_value)))
      | G_TYPE_UCHAR => Ok (Some (GInteger (wrap_unsigned 8 int_value)))
      | G_TYPE_INT => Ok (Some (GInteger (to_int int_value)))
      | G_TYPE_UINT => Ok (Some (GInteger (to_uint32 int_value)))
      | G_TYPE_LONG => Ok (Some (GInteger (to_int64 int_value)))
      | G_TYPE_ULONG => Ok (Some (GInteger (wrap_unsigned 64 int_value)))
      | G_TYPE_INT64 => Ok (Some (GInteger (to_int64 int_value)))
      | G_TYPE_ENUM => Ok (Some (GInteger (to_int int_value)))       (* g_value_set_enum takes a gint *)
      | G_TYPE_FLAGS => Ok (Some (GInteger (to_uint32 int_value)))   (* g_value_set_flags takes a guint *)
      | _ => Ok None
      end
  | JReal _ =>
      let real_value := json_real_value (Some node) in
      match g_type_fundamental value_type with
      | G_TYPE_FLOAT => Ok (Some (GReal (to_gfloat real_value)))
      | G_TYPE_DOUBLE => Ok (Some (GReal real_value))
      | _ => Ok None
      end
  | JTrue =>
      if decide (g_type_fundamental value_type = G_TYPE_BOOLEAN)
      then Ok (Some (GBoolean true)) else Ok None
  | JFalse =>
      if decide (g_type_fundamental value_type = G_TYPE_BOOLEAN)
      then Ok (Some (GBoolean false)) else Ok None
  | JNull =>
      match g_type_fundamental value_type with
      | G_TYPE_STRING => Ok (Some (GString None))
      | G_TYPE_OBJECT => Ok (Some (GObj None))
      | _ => Ok None
      end
  | JArray _ => Ok None
  end.

(** The loop of json_gobject_deserialize over the members. *)
Fixpoint deserialize_members (deserialize : gtype -> option json -> outcome gobject)
  (klass : gtype) (members : list (string * json)) (construct_params : list GParameter)
  : outcome (list GParameter) :=
  match members with
  | [] => Ok construct_params
  | (member_name, val) :: members' =>
      match g_object_class_find_property klass member_name with
      | None => deserialize_members deserialize klass members' construct_params
      | Some pspec =>
          if ps_construct_only pspec then
            deserialize_members deserialize klass members' construct_params
          else if negb (ps_writable pspec) then
            deserialize_members deserialize klass members' construct_params
          else
            param <~ json_deserialize_pspec deserialize (ps_value_type pspec) val ;;
            deserialize_members deserialize klass members'
              (match param with
               | Some d => construct_params ++ [mkParam _ (ps_name pspec) d]
               | None => construct_params     (* g_warning *)
               end)
      end
  end.

Fixpoint json_gobject_deserialize (stack : nat) (gtyp : gtype) (object : option json)
  : outcome gobject :=
  match stack with
  | O => Undef "stack overflow in json_gobject_deserialize"
  | S stack' =>
      construct_params <~ deserialize_members (json_gobject_deserialize stack') gtyp
                            (json_object_iter object) [] ;;
      Ok (g_object_newv gtyp construct_params)
  end.
End Convert.

(** ** Documented behaviour of the library *)
Class GObjectLaws `{GObjectClasses} : Prop := {
  (** a listed property is found under its name, and names are not repeated *)
  list_find_property t p :
    In p (g_object_class_list_properties t) ->
    g_object_class_find_property t (ps_name p) = Some p;
  list_properties_nodup t : NoDup (List.map ps_name (g_object_class_list_properties t));
  (** a new object has the type asked for *)
  newv_type t params : g_object_type (g_object_newv t params) = t;
  (** and holds the values it was built with, when its class stores them *)
  newv_property t params p d :
    In p (g_object_class_list_properties t) ->
    NoDup (List.map gp_name params) ->
    In (mkParam _ (ps_name p) d) params ->
    g_class_stores t p d = true ->
    g_object_get_property (g_object_newv t params) (ps_name p) = d;
  (** a type whose fundamental type is G_TYPE_OBJECT is a G_TYPE_OBJECT *)
  fundamental_object t : g_type_fundamental t = G_TYPE_OBJECT -> g_type_is_a_object t = true
}.

(** ** What survives the round trip *)

Definition integer_range (f : fundamental) (z : Z) : bool :=
  match f with
  | G_TYPE_CHAR => in_signed 8 z
  | G_TYPE_UCHAR => in_unsigned 8 z
  | G_TYPE_INT | G_TYPE_ENUM => is_int z
  | G_TYPE_UINT | G_TYPE_FLAGS => is_uint32 z
  | G_TYPE_LONG | G_TYPE_INT64 => is_int64 z
  | G_TYPE_ULONG => in_unsigned 64 z
  | _ => false
  end.

Section RoundTripDefs.
Context `{Jansson} `{GObjectClasses}.

(** A property value of a type other than G_TYPE_OBJECT that JSON can carry. *)
Definition scalar_ok (f : fundamental) (d : gdata gobject) : Prop :=
  match f, d with
  | G_TYPE_STRING, GString None => True
  | G_TYPE_STRING, GString (Some s) => text_ok s = true
  | G_TYPE_BOOLEAN, GBoolean _ => True
  | G_TYPE_FLOAT, GReal r => is_finite r = true /\ to_gfloat r = r
  | G_TYPE_DOUBLE, GReal r => is_finite r = true
  | f, GInteger z => integer_range f z = true
  | _, _ => False
  end.

(** An object, nested at most [n] deep, all of whose listed properties can be read, written and
    carried, whose object properties hold objects of exactly the declared type, and whose class
    stores what it is given. *)
Fixpoint portable_obj (n : nat) (o : gobject) : Prop :=
  match n with
  | O => False
  | S n' =>
      forall p, In p (g_object_class_list_properties (g_object_type o)) ->
      ps_writable p = true /\ ps_construct_only p = false /\ text_ok (ps_name p) = true /\
      match g_type_fundamental (ps_value_type p), g_object_get_property o (ps_name p) with
      | G_TYPE_OBJECT, GObj None => g_class_stores (g_object_type o) p (GObj None) = true
      | G_TYPE_OBJECT, GObj (Some o') =>
          portable_obj n' o' /\ g_object_type o' = ps_value_type p /\
          forall o'', g_object_type o'' = ps_value_type p ->
            g_class_stores (g_object_type o) p (GObj (Some o'')) = true
      | f, d => scalar_ok f d /\ g_class_stores (g_object_type o) p d = true
      end
  end.

Definition data_same (same : gobject -> gobject -> Prop) (d d' : gdata gobject) : Prop :=
  match d with
  | GObj (Some x) => match d' with GObj (Some x') => same x x' | _ => False end
  | _ => d = d'
  end.

(** Two objects that agree on every listed property, nested objects included. *)
Fixpoint obj_same (n : nat) (o o' : gobject) : Prop :=
  match n with
  | O => False
  | S n' =>
      g_object_type o = g_object_type o' /\
      forall p, In p (g_object_class_list_properties (g_object_type o)) ->
      data_same (obj_same n') (g_object_get_property o (ps_name p))
        (g_object_get_property o' (ps_name p))
  end.

(** Objects that do not nest deeper than [n]. *)
Fixpoint obj_within (n : nat) (o : gobject) : Prop :=
  match n with
  | O => False
  | S n' =>
      forall p, In p (g_object_class_list_properties (g_object_type o)) ->
      forall o', g_object_get_property o (ps_name p) = GObj (Some o') -> obj_within n' o'
  end.
End RoundTripDefs.

(** ** Lemmas *)
Lemma Forall_choice {A B} (R : A -> B -> Prop) l :
  Forall (fun x => exists y, R x y) l -> exists ys, Forall2 R l ys.
Proof.
  induction 1 as [|x l [y Hy] _ [ys Hys]]; [by exists []|]. exists (y :: ys). by constructor.
Qed.

Lemma Forall2_impl_In {A B} (R Q : A -> B -> Prop) l k :
  Forall2 R l k -> (forall x y, In x l -> R x y -> Q x y) -> Forall2 Q l k.
Proof. induction 1; intros HQ; constructor; simpl in *; auto. Qed.

Lemma Forall2_In_zip {A B C} (R : A -> B -> Prop) (f : A -> B -> C) l k c :
  Forall2 R l k -> In c (zip_with f l k) -> exists x y, c = f x y /\ In x l /\ R x y.
Proof. induction 1; simpl; [done|]. intros [<-|Hin]; [eauto 10|]. naive_solver. Qed.

Lemma Forall2_In_l {A B C} (R : A -> B -> Prop) (f : A -> B -> C) l k x :
  Forall2 R l k -> In x l -> exists y, R x y /\ In (f x y) (zip_with f l k).
Proof. induction 1; simpl; [done|]. intros [->|Hin]; [eauto|]. naive_solver. Qed.

Lemma wrap_int64_unsigned_small w z :
  0 < w < 64 -> in_unsigned w z = true -> wrap_unsigned w (to_int64 z) = z.
Proof.
  intros Hw Hz. rewrite wrap_signed_id; [by apply wrap_unsigned_id|lia|].
  unfold in_unsigned in Hz. unfold in_signed.
  assert (2 ^ w <= 2 ^ (64 - 1)) by (apply Z.pow_le_mono_r; lia). lia.
Qed.

Lemma wrap_int64_signed w z :
  0 < w <= 64 -> in_signed w z = true -> wrap_signed w (to_int64 z) = z.
Proof.
  intros Hw Hz. rewrite (wrap_signed_id 64); [|lia|by eapply wrap_signed_mono].
  apply wrap_signed_id; [lia|done].
Qed.

Section Theory.
Context `{JanssonLaws} `{GObjectLaws}.

Lemma serialize_properties_spec ser o ps vs ms :
  Forall2 (fun p v => text_ok (ps_name p) = true /\
    json_serialize_pspec ser (ps_value_type p) (g_object_get_property o (ps_name p)) = Ok (Some v))
    ps vs ->
  NoDup (List.map fst ms ++ List.map ps_name ps) ->
  serialize_properties ser o ps (JObject ms) =
    Ok (JObject (ms ++ zip_with (fun p v => (ps_name p, v)) ps vs)).
Proof.
  intros Hps. revert ms. induction Hps as [|p v ps vs [Hn Hv] _ IH]; intros ms Hnd.
  - simpl. by rewrite app_nil_r.
  - cbn [serialize_properties]. rewrite Hv. cbn [obind].
    rewrite set_member_text by done. rewrite member_set_fresh.
    + rewrite IH; [by rewrite <- app_assoc|].
      rewrite List.map_app. simpl. by rewrite <- app_assoc.
    + intros Hin. apply list_elem_of_In in Hin. apply NoDup_app in Hnd as (_ & Hd & _).
      apply (Hd _ Hin). simpl. left.
Qed.

Lemma deserialize_members_spec deser t ps vs ds acc :
  Forall2 (fun p v => g_object_class_find_property t (ps_name p) = Some p /\
                      ps_construct_only p = false /\ ps_writable p = true) ps vs ->
  Forall2 (fun pv d => json_deserialize_pspec deser (ps_value_type pv.1) pv.2 = Ok (Some d))
    (zip ps vs) ds ->
  deserialize_members deser t (zip_with (fun p v => (ps_name p, v)) ps vs) acc =
    Ok (acc ++ zip_with (fun p d => mkParam _ (ps_name p) d) ps ds).
Proof.
  intros Hps. revert ds acc. induction Hps as [|p v ps vs (Hf & Hc & Hw) _ IH]; intros ds acc Hds.
  - apply Forall2_nil_inv_l in Hds as ->. simpl. by rewrite app_nil_r.
  - simpl in Hds. apply Forall2_cons_inv_l in Hds as (d & ds' & Hd & Hds & ->).
    cbn. rewrite Hf, Hc, Hw. cbn. simpl in Hd. rewrite Hd. cbn.
    rewrite IH with (ds := ds') by done. by rewrite <- app_assoc.
Qed.

(** One scalar property there and back. *)
Lemma scalar_roundtrip ser deser ty d :
  scalar_ok (g_type_fundamental ty) d ->
  exists v, json_serialize_pspec ser ty d = Ok (Some v) /\ json_ok v = true /\
    json_depth v = O /\ json_deserialize_pspec deser ty v = Ok (Some d).
Proof.
  unfold scalar_ok, json_serialize_pspec, json_deserialize_pspec.
  intros Hd. destruct (g_type_fundamental ty) eqn:Hf; destruct d as [[s|]|[]|z|r|o|]; try done;
    simpl in Hd; simpl; autorewrite with jansson;
    try (eexists; split; [done|]; split; [by apply wrap_signed_range|]; split; [done|];
         autorewrite with jansson; do 2 f_equal; f_equal;
         first [by apply wrap_int64_signed | by apply wrap_int64_unsigned_small
               | rewrite wrap_unsigned_signed by done; by apply wrap_unsigned_id]).
  all: try (rewrite json_string_text by done);
    try match goal with H : _ /\ _ |- _ => let Hfin := fresh in destruct H as [Hfin ?]; rewrite Hfin end;
    try rewrite Hd.
  all: eexists; (split; [done|]); (split; [done|]); (split; [done|]);
    autorewrite with jansson; try rewrite decide_True by done; try congruence; done.
Qed.

(** What one property contributes, for the recursive calls [serialize] and [deserialize] of
    depth [n] and [m]. *)
Definition property_carried (n m : nat) (o : gobject) (p : GParamSpec) (v : json)
  (d : gdata gobject) : Prop :=
  json_serialize_pspec (json_gobject_serialize n) (ps_value_type p)
    (g_object_get_property o (ps_name p)) = Ok (Some v) /\
  json_ok v = true /\ (json_depth v <= n)%nat /\
  json_deserialize_pspec (json_gobject_deserialize m) (ps_value_type p) v = Ok (Some d) /\
  g_class_stores (g_object_type o) p d = true /\
  data_same (obj_same n) (g_object_get_property o (ps_name p)) d.

Definition object_carried (n m : nat) (o : gobject) (v : json) (o' : gobject) : Prop :=
  json_gobject_serialize n o = Ok v /\
  json_ok v = true /\ (json_depth v <= n)%nat /\ (exists ms, v = JObject ms) /\
  json_gobject_deserialize m (g_object_type o) (Some v) = Ok o' /\
  g_object_type o' = g_object_type o /\ obj_same n o o'.

Lemma property_carries n m o p :
  (forall x, portable_obj n x -> exists v x', object_carried n m x v x') ->
  portable_obj (S n) o -> In p (g_object_class_list_properties (g_object_type o)) ->
  exists v d, property_carried n m o p v d.
Proof.
  intros IH Ho Hp. destruct (Ho p Hp) as (_ & _ & _ & Hd). unfold property_carried.
  destruct (decide (g_type_fundamental (ps_value_type p) = G_TYPE_OBJECT)) as [Hf|Hf].
  - rewrite Hf in Hd.
    destruct (g_object_get_property o (ps_name p)) as [| | | |[x|]|] eqn:Hx;
      try (exfalso; simpl in Hd; by intuition).
    + destruct Hd as (Hpx & Htx & Hst). destruct (IH x Hpx) as (v & x' & Hs & Hok & Hdep & [ms ->] & Hde & Ht & Hsame).
      exists (JObject ms), (GObj (Some x')). unfold json_serialize_pspec. rewrite Hf. simpl.
      rewrite Hs. simpl. split; [done|]. split; [done|]. split; [done|].
      rewrite fundamental_object by done. rewrite <- Htx, Hde. simpl.
      split; [done|]. split; [|done]. apply Hst. congruence.
    + exists JNull, (GObj None). unfold json_serialize_pspec, json_deserialize_pspec.
      rewrite Hf. simpl. autorewrite with jansson. repeat split; try done. lia.
  - assert (scalar_ok (g_type_fundamental (ps_value_type p)) (g_object_get_property o (ps_name p)) /\
            g_class_stores (g_object_type o) p (g_object_get_property o (ps_name p)) = true)
      as [Hsc Hst] by (destruct (g_type_fundamental (ps_value_type p)); done).
    destruct (scalar_roundtrip (json_gobject_serialize n) (json_gobject_deserialize m) _ _ Hsc)
      as (v & Hs & Hok & Hdep & Hde).
    exists v, (g_object_get_property o (ps_name p)). repeat split; try done; [lia|].
    destruct (g_object_get_property o (ps_name p)) as [| | | |[x|]|]; try done.
    exfalso. by destruct (g_type_fundamental (ps_value_type p)).
Qed.
Lemma zip_with_fmap2 {A B C D} (f : A -> C -> D) (g : B -> C) (l : list A) (k : list B) :
  zip_with f l (g <$> k) = zip_with (fun x y => f x (g y)) l k.
Proof. revert k. induction l as [|x l IH]; intros [|y k]; simpl; [done..|]. by rewrite IH. Qed.

Lemma map_zip_with_l {A B C D} (f : A -> B -> C) (g : C -> D) (h : A -> D) (l : list A) (k : list B) :
  (forall x y, g (f x y) = h x) -> length l = length k ->
  List.map g (zip_with f l k) = List.map h l.
Proof.
  intros Hg. revert k. induction l as [|x l IH]; intros [|y k] Hl; simplify_eq/=; [done|].
  by rewrite Hg, IH.
Qed.

Section OneObject.
Variables (n m : nat) (o : gobject) (vds : list (json * gdata gobject)).
Local Abbreviation t := (g_object_type o).
Local Abbreviation ps := (g_object_class_list_properties t).
Hypothesis Ho : portable_obj (S n) o.
Hypothesis Hvds : Forall2 (fun p vd => property_carried n m o p vd.1 vd.2) ps vds.

Definition member_of (p : GParamSpec) (vd : json * gdata gobject) : string * json :=
  (ps_name p, vd.1).
Definition param_of (p : GParamSpec) (vd : json * gdata gobject) : GParameter :=
  mkParam _ (ps_name p) vd.2.

Lemma members_keys : List.map fst (zip_with member_of ps vds) = List.map ps_name ps.
Proof. apply map_zip_with_l; [done|]. by eapply Forall2_length. Qed.

Lemma params_names : List.map gp_name (zip_with param_of ps vds) = List.map ps_name ps.
Proof. apply map_zip_with_l; [done|]. by eapply Forall2_length. Qed.

Lemma serialize_carried :
  json_gobject_serialize (S n) o = Ok (JObject (zip_with member_of ps vds)).
Proof.
  cbn [json_gobject_serialize]. rewrite json_object_eq.
  rewrite (serialize_properties_spec _ o ps (vds.*1) []).
  - by rewrite zip_with_fmap2.
  - apply Forall2_fmap_r. eapply Forall2_impl_In; [exact Hvds|]. intros p vd Hp Hc.
    destruct (Ho p Hp) as (_ & _ & Hn & _). split; [done|]. apply Hc.
  - apply list_properties_nodup.
Qed.

Lemma deserialize_carried :
  json_gobject_deserialize (S m) t (Some (JObject (zip_with member_of ps vds))) =
    Ok (g_object_newv t (zip_with param_of ps vds)).
Proof.
  cbn [json_gobject_deserialize]. rewrite json_object_iter_eq.
  pose proof (deserialize_members_spec (json_gobject_deserialize m) t ps (vds.*1) (vds.*2) []) as E.
  rewrite !zip_with_fmap2 in E. unfold member_of, param_of. rewrite E; [done| |].
  - apply Forall2_fmap_r. eapply Forall2_impl_In; [exact Hvds|]. intros p vd Hp _.
    destruct (Ho p Hp) as (? & ? & _). split; [by apply list_find_property|done].
  - clear -Hvds. revert Hvds. generalize ps as qs. intros qs.
    induction 1 as [|p vd qs vds' (_ & _ & _ & Hd & _) _ IH]; simpl; by constructor.
Qed.

Lemma members_ok :
  json_ok (JObject (zip_with member_of ps vds)) = true /\
  (json_depth (JObject (zip_with member_of ps vds)) <= S n)%nat.
Proof.
  assert (forall k v, In (k, v) (zip_with member_of ps vds) ->
            text_ok k = true /\ json_ok v = true /\ (json_depth v <= n)%nat) as Hall.
  { intros k v Hin. eapply Forall2_In_zip in Hin as (p & vd & [= -> ->] & Hp & Hc); [|exact Hvds].
    split; [apply (Ho p Hp)|]. split; apply Hc. }
  split.
  - simpl. apply andb_true_iff. rewrite bool_decide_eq_true, members_keys.
    split; [apply list_properties_nodup|]. apply forallb_forall. intros [k v] Hin.
    destruct (Hall k v Hin) as (Hk & Hv & _). simpl. by rewrite Hk, Hv.
  - cbn [json_depth]. apply le_n_S, list_max_le_iff, Forall_forall. intros d Hd.
    apply list_elem_of_In, in_map_iff in Hd as ([k v] & <- & Hin). by apply (Hall k v).
Qed.

Lemma newv_same : obj_same (S n) o (g_object_newv t (zip_with param_of ps vds)).
Proof.
  cbn [obj_same]. rewrite newv_type. split; [done|]. intros p Hp.
  destruct (Forall2_In_l _ param_of _ _ _ Hvds Hp) as (vd & (_ & _ & _ & _ & Hst & Hsame) & Hin).
  rewrite (newv_property t _ p vd.2); [exact Hsame|done| |done|done].
  rewrite params_names. apply list_properties_nodup.
Qed.
End OneObject.

Lemma object_carries n m o :
  portable_obj n o -> (n <= m)%nat -> exists v o', object_carried n m o v o'.
Proof.
  revert m o. induction n as [|n IH]; intros m o Ho Hm; [done|].
  destruct m as [|m]; [lia|].
  assert (Forall (fun p => exists vd : json * gdata gobject, property_carried n m o p vd.1 vd.2)
            (g_object_class_list_properties (g_object_type o))) as Hch.
  { apply Forall_forall. intros p Hp. apply list_elem_of_In in Hp.
    destruct (property_carries n m o p) as (v & d & Hc); [|done|done|by exists (v, d)].
    intros x Hx. apply IH; [done|lia]. }
  apply Forall_choice in Hch as [vds Hvds].
  eexists _, _. split; [by apply serialize_carried with (m := m)|].
  destruct (members_ok n m o vds Ho Hvds) as [Hok Hdep].
  split; [done|]. split; [done|]. split; [by eexists|].
  split; [by apply deserialize_carried with (n := n)|].
  split; [apply newv_type|by apply newv_same with (m := m)].
Qed.

(** More stack never changes what serialization returns. *)
Lemma serialize_properties_mono ser ser' o ps acc v :
  (forall x y, ser x = Ok y -> ser' x = Ok y) ->
  serialize_properties ser o ps acc = Ok v -> serialize_properties ser' o ps acc = Ok v.
Proof.
  intros Hser. revert acc. induction ps as [|p ps IH]; intros acc; simpl; [done|].
  intros Hv. apply obind_Ok in Hv as (node & Hnode & Hv).
  enough (json_serialize_pspec ser' (ps_value_type p) (g_object_get_property o (ps_name p)) = Ok node)
    as -> by (simpl; by apply IH).
  unfold json_serialize_pspec in *. destruct (g_type_fundamental (ps_value_type p)); try done.
  destruct (g_value_get_object _) as [x|]; [|done].
  apply obind_Ok in Hnode as (y & Hy & <-). by rewrite (Hser _ _ Hy).
Qed.

Lemma serialize_mono n m o v :
  (n <= m)%nat -> json_gobject_serialize n o = Ok v -> json_gobject_serialize m o = Ok v.
Proof.
  revert m o v. induction n as [|n IH]; intros [|m] o v Hm; try done; [lia|].
  cbn [json_gobject_serialize]. apply serialize_properties_mono.
  intros x y. apply IH. lia.
Qed.

(** *** Stack depth that is enough *)

Lemma deserialize_members_total deser t ms acc :
  (forall ty k v, In (k, v) ms -> exists o, deser ty (Some v) = Ok o) ->
  exists params, deserialize_members deser t ms acc = Ok params.
Proof.
  revert acc. induction ms as [|[k v] ms IH]; intros acc Hms; simpl; [by eexists|].
  assert (forall ty k' v', In (k', v') ms -> exists o, deser ty (Some v') = Ok o) as Hms'
    by (intros; eapply Hms; by right).
  destruct (g_object_class_find_property t k) as [p|]; [|by apply IH].
  destruct (ps_construct_only p); [by apply IH|].
  destruct (ps_writable p); simpl; [|by apply IH].
  assert (exists d, json_deserialize_pspec deser (ps_value_type p) v = Ok d) as [d ->].
  { unfold json_deserialize_pspec. destruct (Hms (ps_value_type p) k v) as [o Ho]; [by left|].
    destruct v; repeat case_match; rewrite ?Ho; simpl; by eexists. }
  simpl. by apply IH.
Qed.

(** A stack deeper than the nesting of the JSON value is enough, and the result has the type
    asked for. *)
Lemma deserialize_total stack t v :
  (json_depth v < stack)%nat ->
  exists o, json_gobject_deserialize stack t (Some v) = Ok o /\ g_object_type o = t.
Proof.
  revert t v. induction stack as [|stack IH]; intros t v Hv; [lia|].
  cbn [json_gobject_deserialize].
  destruct (deserialize_members_total (json_gobject_deserialize stack) t
              (json_object_iter (Some v)) []) as [params ->].
  - intros ty k x Hx. rewrite json_object_iter_eq in Hx. destruct v as [ms| | | | | | |]; try done.
    destruct (IH ty x) as (o & Ho & _); [|by exists o].
    cbn [json_depth] in Hv.
    enough (json_depth x <= list_max (List.map (fun m => json_depth m.2) ms))%nat by lia.
    pose proof (proj1 (list_max_le_iff _ _) (Nat.le_refl (list_max (List.map (fun m => json_depth m.2) ms)))) as Hf.
    rewrite Forall_forall in Hf. apply Hf, list_elem_of_In, in_map_iff. by exists (k, x).
  - simpl. eexists. split; [done|]. apply newv_type.
Qed.

Lemma deserialize_null stack t :
  (0 < stack)%nat -> exists o, json_gobject_deserialize stack t None = Ok o /\ g_object_type o = t.
Proof.
  destruct stack; [lia|]. intros _. cbn [json_gobject_deserialize].
  rewrite json_object_iter_eq. simpl. eexists. split; [done|]. apply newv_type.
Qed.
End Theory.

(** ** Properties *)
Section Properties.
Context `{JanssonLaws} `{GObjectLaws}.

(** C18: an object all of whose properties JSON can carry comes back from
    [json_gobject_serialize] followed by [json_gobject_deserialize] with every listed property
    equal to the original's, nested objects included, as soon as the stack of the second is
    as deep as that of the first. *)
Theorem gobject_roundtrip n m o :
  portable_obj n o -> (n <= m)%nat ->
  exists v o', json_gobject_serialize n o = Ok v /\
    json_gobject_deserialize m (g_object_type o) (Some v) = Ok o' /\
    g_object_type o' = g_object_type o /\ obj_same n o o'.
Proof.
  intros Ho Hm. destruct (object_carries n m o Ho Hm) as (v & o' & Hs & _ & _ & _ & Hd & Ht & Hsame).
  by exists v, o'.
Qed.

(** C34: serialization of an object that does not nest deeper than the stack always ends with a
    JSON object, whatever its properties hold (including what JSON cannot carry). *)
Theorem serialize_terminates n o :
  obj_within n o -> exists ms, json_gobject_serialize n o = Ok (JObject ms).
Proof.
  revert o. induction n as [|n IH]; intros o Ho; [done|].
  cbn [json_gobject_serialize]. rewrite json_object_eq. generalize (@nil (string * json)).
  assert (forall p, In p (g_object_class_list_properties (g_object_type o)) ->
    exists node, json_serialize_pspec (json_gobject_serialize n) (ps_value_type p)
                   (g_object_get_property o (ps_name p)) = Ok node) as Hnode.
  { intros p Hp. unfold json_serialize_pspec.
    destruct (g_type_fundamental (ps_value_type p)); try (by eexists);
      try (case_match; by eexists).
    destruct (g_object_get_property o (ps_name p)) as [| | | |[x|]|] eqn:Hx; simpl; try (by eexists).
    destruct (IH x (Ho p Hp x Hx)) as [ms ->]. by eexists. }
  revert Hnode. generalize (g_object_class_list_properties (g_object_type o)) as ps.
  induction ps as [|p ps IHps]; intros Hnode ms; simpl; [by eexists|].
  destruct (Hnode p) as [node ->]; [by left|]. simpl.
  assert (forall q, In q ps -> exists node, json_serialize_pspec (json_gobject_serialize n)
    (ps_value_type q) (g_object_get_property o (ps_name q)) = Ok node) as Hnode'
    by (intros q Hq; apply Hnode; by right).
  destruct node as [v|]; [|by apply IHps].
  rewrite json_object_set_new_eq. case_match; by apply IHps.
Qed.

(** An object that is reachable from itself through an object property is never serialized:
    whatever the stack, [json_gobject_serialize] does not return. *)
Theorem serialize_cycle_diverges n o p v :
  In p (g_object_class_list_properties (g_object_type o)) ->
  g_type_fundamental (ps_value_type p) = G_TYPE_OBJECT ->
  g_object_get_property o (ps_name p) = GObj (Some o) ->
  json_gobject_serialize n o <> Ok v.
Proof.
  intros Hp Hf Hself. revert v. induction n as [|n IH]; intros v; [done|].
  cbn [json_gobject_serialize]. generalize json_object. revert Hp.
  generalize (g_object_class_list_properties (g_object_type o)) as ps.
  induction ps as [|q ps IHps]; [done|]. intros Hp obj. simpl.
  destruct (json_serialize_pspec (json_gobject_serialize n) (ps_value_type q)
              (g_object_get_property o (ps_name q))) as [node| |] eqn:Hnode; simpl; try done.
  destruct Hp as [->|Hp]; [|by apply IHps].
  exfalso. unfold json_serialize_pspec in Hnode. rewrite Hf, Hself in Hnode. simpl in Hnode.
  destruct (json_gobject_serialize n o) as [v'| |] eqn:Hrec; try done. by apply (IH v').
Qed.
End Properties.
