(* ===== verification/TestObject.v ===== *)
(** * TestObject: demo/test-object.c, and a GObject system with this one class

    The class of the demo programs: its instance structure, its property functions and its
    class initialiser.  The second part closes [GObjectLib] and [GObjectClasses] over it, with
    the validation the library does before it calls [set_property]; it is the instance at which
    theorems about objects are applied. *)
From S2P Require Import Prelude Json Runtime GObject.
From Stdlib Require Import SpecFloat.

(** ** The class *)

Record TestObject := mkTestObject { to_len : Z; to_str : option string; to_equal : bool }.

Inductive property_id := PROP_LEN | PROP_STR | PROP_EQU.

Definition test_object_init : TestObject := mkTestObject 0 (Some "Hello world!") false.

Definition test_object_set_property {O} (self : TestObject) (id : property_id) (value : gdata O)
  : TestObject :=
  match id with
  | PROP_LEN => mkTestObject (g_value_get_integer value) (to_str self) (to_equal self)
  | PROP_STR => mkTestObject (to_len self) (g_value_get_string value) (to_equal self)
  | PROP_EQU => mkTestObject (to_len self) (to_str self) (g_value_get_boolean value)
  end.

Definition test_object_get_property {O} (self : TestObject) (id : property_id) : gdata O :=
  match id with
  | PROP_LEN => GInteger (to_len self)
  | PROP_STR => GString (to_str self)
  | PROP_EQU => GBoolean (to_equal self)
  end.

(** Name, value type, and the range of an integer property. *)
Record prop_desc := mkProp { pd_id : property_id; pd_name : string; pd_type : fundamental;
                             pd_range : option (Z * Z) }.

Definition test_object_class_init : list prop_desc :=
  [ mkProp PROP_LEN "len" G_TYPE_INT (Some (-1, 256));
    mkProp PROP_STR "str" G_TYPE_STRING None;
    mkProp PROP_EQU "equal" G_TYPE_BOOLEAN None ].

(** ** The object system *)

(** [T_fund f]: the fundamental type [f] itself; [T_test]: TEST_OBJECT_TYPE. *)
Inductive demo_type := T_fund (f : fundamental) | T_test.

Definition demo_fundamental (t : demo_type) : fundamental :=
  match t with T_fund f => f | T_test => G_TYPE_OBJECT end.

(** An object: its type and, for the one class there is, its instance structure. *)
Record demo_object := mkDemo { do_type : demo_type; do_test : TestObject }.

#[export] Instance demo_lib : GObjectLib := {|
  gtype := demo_type;
  gobject := demo_object;
  g_type_fundamental := demo_fundamental;
  g_type_is_a_object t := bool_decide (demo_fundamental t = G_TYPE_OBJECT);
  g_object_type := do_type
|}.

Definition demo_pspec (d : prop_desc) : GParamSpec :=
  @mkPspec demo_lib (pd_name d) (T_fund (pd_type d)) true true false.

Definition find_prop (name : string) : option prop_desc :=
  List.find (fun d => String.eqb (pd_name d) name) test_object_class_init.

(** [g_param_value_validate] and the check of the value's type. *)
Definition prop_valid (d : prop_desc) (v : gdata demo_object) : bool :=
  match pd_type d, v with
  | G_TYPE_INT, GInteger z =>
      match pd_range d with Some (lo, hi) => (lo <=? z) && (z <=? hi) | None => is_int z end
  | G_TYPE_STRING, GString _ => true
  | G_TYPE_BOOLEAN, GBoolean _ => true
  | _, _ => false
  end.

Definition demo_set (o : TestObject) (p : @GParameter demo_lib) : TestObject :=
  match find_prop (gp_name p) with
  | Some d => if prop_valid d (gp_value p)
              then test_object_set_property o (pd_id d) (gp_value p) else o
  | None => o
  end.

Definition demo_get (o : TestObject) (name : string) : gdata demo_object :=
  match find_prop name with
  | Some d => test_object_get_property o (pd_id d)
  | None => GOther
  end.

#[export] Instance demo_classes : @GObjectClasses demo_lib := {|
  g_object_class_list_properties t :=
    match t with T_test => List.map demo_pspec test_object_class_init | _ => [] end;
  g_object_class_find_property t name :=
    match t with T_test => option_map demo_pspec (find_prop name) | _ => None end;
  g_object_get_property o := demo_get (do_test o);
  g_object_newv t params := mkDemo t (fold_left demo_set params test_object_init);
  g_class_stores t p v :=
    match find_prop (ps_name p) with Some d => prop_valid d v | None => false end
|}.

(** ** The laws *)
Lemma find_prop_name name d : find_prop name = Some d -> name = pd_name d.
Proof. intros Hd. apply find_some in Hd as [_ Hd]. by apply String.eqb_eq in Hd. Qed.

Lemma demo_get_set_eq o name d (v : gdata demo_object) :
  find_prop name = Some d -> prop_valid d v = true ->
  demo_get (demo_set o (mkParam _ name v)) name = v.
Proof.
  intros Hd Hv. unfold demo_get, demo_set. simpl. rewrite Hd. change (@gobject demo_lib) with demo_object. rewrite Hv.
  apply find_some in Hd as [Hin _]. simpl in Hin.
  destruct Hin as [<-|[<-|[<-|[]]]]; destruct v; try done.
Qed.

Lemma demo_get_set_ne o p name :
  gp_name p <> name -> demo_get (demo_set o p) name = demo_get o name.
Proof.
  intros Hne. unfold demo_get, demo_set.
  destruct (find_prop (gp_name p)) as [d|] eqn:Hd; [|done].
  destruct (prop_valid d (gp_value p)); [|done].
  destruct (find_prop name) as [d'|] eqn:Hd'; [|done].
  assert (pd_id d <> pd_id d') as Hid.
  { apply find_prop_name in Hd as Hn, Hd' as Hn'.
    apply find_some in Hd as [Hin _], Hd' as [Hin' _]. simpl in *.
    destruct Hin as [<-|[<-|[<-|[]]]], Hin' as [<-|[<-|[<-|[]]]]; simpl in *; congruence. }
  by destruct (pd_id d), (pd_id d').
Qed.

Lemma demo_get_fold params o name :
  ~ In name (List.map gp_name params) ->
  demo_get (fold_left demo_set params o) name = demo_get o name.
Proof.
  revert o. induction params as [|p params IH]; intros o Hn; simpl in *; [done|].
  rewrite IH by tauto. apply demo_get_set_ne. tauto.
Qed.

Lemma demo_newv params o name d (v : gdata demo_object) :
  NoDup (List.map gp_name params) -> In (mkParam _ name v) params ->
  find_prop name = Some d -> prop_valid d v = true ->
  demo_get (fold_left demo_set params o) name = v.
Proof.
  revert o. induction params as [|p params IH]; intros o Hnd Hin Hd Hv; [done|].
  simpl in *. apply NoDup_cons in Hnd as [Hp Hnd]. destruct Hin as [->|Hin]; [|by apply IH].
  rewrite demo_get_fold; [by apply (demo_get_set_eq o name d v)|].
  intros Hin. by apply Hp, list_elem_of_In.
Qed.

Lemma demo_laws : @GObjectLaws demo_lib demo_classes.
Proof.
  constructor.
  - intros [f|] p; [done|]. simpl. intros [<-|[<-|[<-|[]]]]; done.
  - intros [f|]; simpl; [constructor|]. by apply (bool_decide_unpack (NoDup ["len"; "str"; "equal"])).
  - done.
  - intros [f|] params p d; [done|]. intros Hp Hnd Hin Hst. simpl in *.
    destruct (find_prop (ps_name p)) as [pd|] eqn:Hf; [|done]. by eapply demo_newv.
  - intros t Ht. simpl. by apply bool_decide_eq_true.
Qed.
