(* ===== verification/Marshal.v ===== *)
(** * Marshal: RPC functions and the marshal functions lib/searpc-codegen.py generates

    A row [[ret_type, [arg_types]]] of the function table is turned into a C function that reads
    the arguments from the request array, calls the RPC function and packs its return value (the
    searpc_set_..._to_ret_object functions of lib/searpc-server.c) and its error.  [generate_marshal]
    is that generated function; [type_table] are the columns of the generator's table it uses. *)
From S2P Require Import Prelude Json Runtime Utils GObject.

(** ** Types of the function table *)

Inductive ctype := T_string | T_int | T_int64 | T_object | T_objlist | T_json.

#[export] Instance ctype_eq_dec : EqDecision ctype.
Proof. solve_decision. Defined.

Definition ctype_name (t : ctype) : string :=
  match t with
  | T_string => "string"
  | T_int => "int"
  | T_int64 => "int64"
  | T_object => "object"
  | T_objlist => "objlist"
  | T_json => "json"
  end.

Section Marshal.
Context `{Jansson} `{GObjectClasses}.
(** The state RPC implementations work on, and the stack left for serialization. *)
Context {W : Type} (stack : nat).

(** ** RPC functions *)

(** A C argument of a parameter type, and a C return value of a return type. *)
Inductive cparam :=
| PString (s : option string)
| PInt (z : Z)
| PInt64 (z : Z)
| PJson (v : option json).

Inductive cret :=
| RString (s : option string)
| RInt (z : Z)
| RInt64 (z : Z)
| RObject (o : option gobject)
| RObjlist (l : list gobject)     (* NULL is the empty list *)
| RJson (v : option json).

(** The [void *func] of a registration: the function behind it with its actual prototype.
    The body gets the arguments and may set the [GError]. *)
Record cfunction := mkFunction {
  c_ret : ctype;
  c_params : list ctype;
  c_body : list cparam -> run W (cret * option GError)
}.

(** ** The setters of the return object *)

Definition searpc_set_string_to_ret_object (object : json) (ret : option string) : json :=
  match ret with
  | None => json_object_set_new object "ret" (Some json_null)
  | Some s => json_object_set_new object "ret" (json_string s)
  end.

Definition searpc_set_int_to_ret_object (object : json) (ret : Z) : json :=
  json_object_set_new object "ret" (Some (json_integer ret)).

Definition searpc_set_object_to_ret_object (object : json) (ret : option gobject)
  : outcome json :=
  match ret with
  | None => Ok (json_object_set_new object "ret" (Some json_null))
  | Some o =>
      v <~ json_gobject_serialize stack o ;;
      Ok (json_object_set_new object "ret" (Some v))
  end.

(** The loop over the list, appending to [array]. *)
Fixpoint serialize_objlist (array : json) (ptr : list gobject) : outcome json :=
  match ptr with
  | [] => Ok array
  | o :: next =>
      v <~ json_gobject_serialize stack o ;;
      serialize_objlist (json_array_append_new array (Some v)) next
  end.

Definition searpc_set_objlist_to_ret_object (object : json) (ret : list gobject)
  : outcome json :=
  match ret with
  | [] => Ok (json_object_set_new object "ret" (Some json_null))
  | _ =>
      array <~ serialize_objlist json_array ret ;;
      Ok (json_object_set_new object "ret" (Some array))
  end.

Definition searpc_set_json_to_ret_object (object : json) (ret : option json) : json :=
  match ret with
  | None => json_object_set_new object "ret" (Some json_null)
  | Some v => json_object_set_new object "ret" (Some v)
  end.

(** Dump a response; [strlen] of a NULL dump is undefined. *)
Definition dump_response (object : json) : outcome string :=
  match json_dumps JSON_COMPACT object with
  | Some data => Ok data
  | None => Undef "strlen of NULL"
  end.

Definition searpc_marshal_set_ret_common (object : json) (error : option GError)
  : outcome string :=
  let object :=
    match error with
    | Some e =>
        let object :=
          json_object_set_new object "err_code" (Some (json_integer (e_code e))) in
        json_object_set_new object "err_msg" (json_string (e_message e))
    | None => object
    end in
  dump_response object.

(** ** The type table of the generator *)

(** Column 2: the getter of a parameter.  [object] and [objlist] have none: a table row that
    takes one as a parameter generates C that does not compile. *)
Definition get_parameter (t : ctype) (param_array : json) (i : nat) : option cparam :=
  match t with
  | T_string => Some (PString (json_array_get_string_or_null_element param_array i))
  | T_int => Some (PInt (to_int (json_array_get_int_element param_array i)))
  | T_int64 => Some (PInt64 (json_array_get_int_element param_array i))
  | T_object => None
  | T_objlist => None
  | T_json => Some (PJson (json_array_get_json_or_null_element param_array i))
  end.

(** [param1, param2, ...]: parameter [i + 1] is read from element [i + 1]. *)
Fixpoint get_parameters (arg_types : list ctype) (param_array : json) (i : nat)
  : option (list cparam) :=
  match arg_types with
  | [] => Some []
  | t :: arg_types' =>
      match get_parameter t param_array i, get_parameters arg_types' param_array (S i) with
      | Some p, Some ps => Some (p :: ps)
      | _, _ => None
      end
  end.

(** Column 3: the setter of the return value, for the C type of [ret_type]. *)
Definition convert_ret (ret_type : ctype) (object : json) (ret : cret) : outcome json :=
  match ret_type, ret with
  | T_string, RString s => Ok (searpc_set_string_to_ret_object object s)
  | T_int, RInt z => Ok (searpc_set_int_to_ret_object object z)
  | T_int64, RInt64 z => Ok (searpc_set_int_to_ret_object object z)
  | T_object, RObject o => searpc_set_object_to_ret_object object o
  | T_objlist, RObjlist l => searpc_set_objlist_to_ret_object object l
  | T_json, RJson v => Ok (searpc_set_json_to_ret_object object v)
  | _, _ => Undef "return value of another type"
  end.

(** The function [marshal_<ret>__<args>]: calling [func] through a pointer of another function
    type is undefined. *)
Definition generate_marshal (ret_type : ctype) (arg_types : list ctype)
  (func : cfunction) (param_array : json) : run W string :=
  fun w =>
    match get_parameters arg_types param_array 1 with
    | None => Undef "no getter for the parameter type"
    | Some params =>
        if decide (c_ret func = ret_type /\ c_params func = arg_types) then
          (re <- c_body func params ;;
           rlift (object <~ convert_ret ret_type json_object re.1 ;;
                  searpc_marshal_set_ret_common object re.2)) w
        else Undef "call through an incompatible function type"
    end.
End Marshal.

Arguments cfunction {_} W.
