(* ===== verification/Server.v ===== *)
(** * Server: lib/searpc-server.c, the service registry and the dispatcher

    The module's static variables are the fields of [server].  A hash table is a [gmap] once it
    exists; before [searpc_server_init] and after [searpc_server_final] it is [None], and using
    it is undefined.  The dispatcher runs over the pair of the server and the world of the RPC
    implementations. *)
From S2P Require Import Prelude Json Runtime Utils GObject Marshal.

(** ** Time *)
Record timeval := mkTime { tv_sec : Z; tv_usec : Z }.

Definition G_USEC_PER_SEC : Z := 1000000.

(** [timersub] of sys/time.h. *)
Definition timersub (a b : timeval) : timeval :=
  let sec := tv_sec a - tv_sec b in
  let usec := tv_usec a - tv_usec b in
  if usec <? 0 then mkTime (sec - 1) (usec + 1000000) else mkTime sec usec.

(** ** The slow log *)

(** A [FILE *]. *)
Inductive file := f_stdout | f_file (id : nat).

#[export] Instance file_eq_dec : EqDecision file.
Proof. solve_decision. Defined.

(** One line of the log: whether it carries the [seafile-slow-rpc] tag, the start time, the
    service, the text of the call and the duration in microseconds (printed in seconds). *)
Record log_line := mkLine {
  ll_tag : bool; ll_time : Z; ll_service : string; ll_call : string; ll_usec : Z
}.

Section Server.
Context `{Jansson} `{GObjectClasses} {W : Type}.

(** ** Data *)

Record MarshalItem := mkMarshal {
  mfunc : cfunction W -> json -> run W string;
  signature : string
}.

Record FuncItem := mkFunc { func : cfunction W; fname : string; marshal : MarshalItem }.

(** A node of a function table.  [g_hash_table_insert] under a key that is there already keeps
    the old key pointer, which belongs to the item it frees: [key_dangling] says the node's
    key points into a freed item. *)
Record func_node := mkNode { key_dangling : bool; item : FuncItem }.

Record SearpcService := mkService { name : string; func_table : gmap string func_node }.

Record server := mkServer {
  marshal_table : option (gmap string MarshalItem);
  service_table : option (gmap string SearpcService);
  slow_log_fp : option file;
  slow_threshold : Z;
  filtered_funcs : list string;
  log_to_stdout : bool;
  slow_log : list (file * log_line)   (* what was written, newest first *)
}.

(** The static variables at program start. *)
Definition server_start : server := mkServer None None None 0 [] false [].

Definition set_marshal_table (t : option (gmap string MarshalItem)) (s : server) : server :=
  mkServer t (service_table s) (slow_log_fp s) (slow_threshold s) (filtered_funcs s)
    (log_to_stdout s) (slow_log s).
Definition set_service_table (t : option (gmap string SearpcService)) (s : server) : server :=
  mkServer (marshal_table s) t (slow_log_fp s) (slow_threshold s) (filtered_funcs s)
    (log_to_stdout s) (slow_log s).
Definition set_slow_log_fp (f : option file) (to_stdout : bool) (s : server) : server :=
  mkServer (marshal_table s) (service_table s) f (slow_threshold s) (filtered_funcs s)
    to_stdout (slow_log s).
Definition set_slow_log_params (threshold : Z) (filtered : list string) (s : server) : server :=
  mkServer (marshal_table s) (service_table s) (slow_log_fp s) threshold filtered
    (log_to_stdout s) (slow_log s).
Definition add_log_line (f : file) (l : log_line) (s : server) : server :=
  mkServer (marshal_table s) (service_table s) (slow_log_fp s) (slow_threshold s)
    (filtered_funcs s) (log_to_stdout s) ((f, l) :: slow_log s).

(** A hash table that has to exist. *)
Definition table_of {A} (t : option (gmap string A)) : outcome (gmap string A) :=
  match t with
  | Some m => Ok m
  | None => Undef "hash table not created or destroyed"
  end.

(** ** Services *)

Definition searpc_create_service (svc_name : option string) (s : server)
  : outcome (Z * server) :=
  match svc_name with
  | None => Ok (-1, s)
  | Some n =>
      t <~ table_of (service_table s) ;;
      match t !! n with
      | Some _ => Ok (0, s)
      | None => Ok (0, set_service_table (Some (<[n := mkService n ∅]> t)) s)
      end
  end.

Definition searpc_remove_service (svc_name : option string) (s : server) : outcome server :=
  match svc_name with
  | None => Ok s
  | Some n =>
      t <~ table_of (service_table s) ;;
      Ok (set_service_table (Some (delete n t)) s)
  end.

(** ** Initialisation *)

(** [register_func] is the generated [register_marshals]. *)
Definition searpc_server_init (register_func : server -> outcome server) (s : server)
  : outcome server :=
  register_func (set_service_table (Some ∅) (set_marshal_table (Some ∅) s)).

(** [env] is the value of SEAFILE_LOG_TO_STDOUT, [opened] what [fopen] returns. *)
Definition searpc_server_init_with_slow_log (register_func : server -> outcome server)
  (env : option string) (slow_log_path : option string) (opened : option file)
  (slow_threshold_in : Z) (filtered_funcs_in : list string) (s : server)
  : outcome (Z * server) :=
  let finish s1 :=
    s2 <~ searpc_server_init register_func
            (set_slow_log_params slow_threshold_in filtered_funcs_in s1) ;;
    Ok (0, s2) in
  if decide (env = Some "true") then finish (set_slow_log_fp (Some f_stdout) true s)
  else
    match slow_log_path with
    | Some _ =>
        let s1 := set_slow_log_fp opened (log_to_stdout s) s in
        match opened with
        | None => Ok (-1, s1)
        | Some _ => finish s1
        end
    | None => finish s
    end.

(** [opened] is what [fopen] returns, [closed] whether [fclose] succeeds. *)
Definition searpc_server_reopen_slow_log (opened : option file) (closed : bool) (s : server)
  : outcome (Z * server) :=
  if log_to_stdout s then Ok (0, s)
  else
    match opened with
    | None => Ok (-1, s)
    | Some fp =>
        let oldfp := slow_log_fp s in
        let s1 := set_slow_log_fp (Some fp) (log_to_stdout s) s in
        match oldfp with
        | None => Undef "fclose of NULL"
        | Some _ => if closed then Ok (0, s1) else Ok (-1, s1)
        end
    end.

Definition searpc_server_final (s : server) : outcome server :=
  _ <~ table_of (service_table s) ;;
  _ <~ table_of (marshal_table s) ;;
  Ok (set_marshal_table None (set_service_table None s)).

(** ** Registration *)

Definition searpc_server_register_marshal (sig : option string)
  (marshal : option (cfunction W -> json -> run W string)) (s : server)
  : outcome (bool * server) :=
  match sig, marshal with
  | Some sg, Some m =>
      t <~ table_of (marshal_table s) ;;
      match t !! sg with
      | Some _ => Ok (false, s)
      | None => Ok (true, set_marshal_table (Some (<[sg := mkMarshal m sg]> t)) s)
      end
  | _, _ => Abort "signature != NULL && marshal != NULL"
  end.

(** [g_hash_table_insert] of an item under its own name: a key that is there stays, and the
    item that owned it is freed. *)
Definition insert_function (t : gmap string func_node) (it : FuncItem)
  : outcome (gmap string func_node) :=
  match t !! fname it with
  | None => Ok (<[fname it := mkNode false it]> t)
  | Some nd =>
      if key_dangling nd then Undef "comparison with a freed key"
      else Ok (<[fname it := mkNode true it]> t)
  end.

Definition searpc_server_register_function (svc_name : option string)
  (fn : option (cfunction W)) (fn_name sig : option string) (s : server)
  : outcome (bool * server) :=
  match svc_name, fn, fn_name, sig with
  | Some sn, Some f, Some n, Some sg =>
      services <~ table_of (service_table s) ;;
      match services !! sn with
      | None => Ok (false, s)
      | Some service =>
          marshals <~ table_of (marshal_table s) ;;
          match marshals !! sg with
          | None => Ok (false, s)
          | Some mitem =>
              t <~ insert_function (func_table service) (mkFunc f n mitem) ;;
              Ok (true, set_service_table
                          (Some (<[sn := mkService (name service) t]> services)) s)
          end
      end
  | _, _, _, _ => Abort "svc_name != NULL && func != NULL && fname != NULL && signature != NULL"
  end.

(** ** Errors *)

Definition error_to_json (code : Z) (msg : option string) : outcome string :=
  let object := json_object in
  let object := json_object_set_new object "err_code" (Some (json_integer code)) in
  let object := json_object_set_string_or_null_member object "err_msg" msg in
  dump_response object.

(** ** The slow log *)

Definition rpc_include_passwd (fn : string) (filtered : list string) : bool :=
  existsb (String.eqb fn) filtered.

Definition print_slow_log_if_necessary (svc_name call : string) (start intv : timeval)
  (fp : file) (s : server) : server :=
  let intv_in_usec := tv_sec intv * G_USEC_PER_SEC + tv_usec intv in
  let intv_in_msec := Z.quot intv_in_usec 1000 in
  if intv_in_msec <? slow_threshold s then s
  else add_log_line fp (mkLine (log_to_stdout s) (tv_sec start) svc_name call intv_in_usec) s.

(** ** The dispatcher *)

(** [g_hash_table_lookup (service->func_table, fname)]: hashing a NULL name, or comparing with
    a key that was freed, is undefined. *)
Definition lookup_function (t : gmap string func_node) (fn : option string)
  : outcome (option FuncItem) :=
  match fn with
  | None => Undef "g_str_hash of NULL"
  | Some n =>
      match t !! n with
      | None => Ok None
      | Some nd => if key_dangling nd then Undef "comparison with a freed key"
                   else Ok (Some (item nd))
      end
  end.

(** [start] and [finish] are what [gettimeofday] returns before and after the call. *)
Definition searpc_server_call_function (start finish : timeval) (svc_name : string)
  (call : string) : run (server * W) string :=
  fun '(s, w) =>
    services <~ table_of (service_table s) ;;
    match services !! svc_name with
    | None =>
        let buf := snprintf_text 255 ("cannot find service " +:+ svc_name +:+ ".") in
        ret <~ error_to_json 501 (Some buf) ;; Ok (ret, (s, w))
    | Some service =>
        match json_loadb call with
        | inl jerror =>
            let error := setjetoge jerror (ErrAt None) in
            let message := match error with ErrAt (Some e) => e_message e | _ => "" end in
            let buf := snprintf_text 511
                         ("failed to load RPC call: " +:+ message +:+ String "010" "") in
            ret <~ error_to_json 511 (Some buf) ;; Ok (ret, (s, w))
        | inr array =>
            let fn := json_string_value (json_array_get (Some array) 0) in
            fitem <~ lookup_function (func_table service) fn ;;
            match fitem with
            | None =>
                let buf := snprintf_text 255 ("cannot find function " +:+ printf_s fn +:+ ".") in
                ret <~ error_to_json 500 (Some buf) ;; Ok (ret, (s, w))
            | Some fitem =>
                rw <~ mfunc (marshal fitem) (func fitem) array w ;;
                let s1 :=
                  match slow_log_fp s with
                  | Some fp =>
                      if bool_decide (filtered_funcs s = []) ||
                         negb (rpc_include_passwd (fname fitem) (filtered_funcs s))
                      then print_slow_log_if_necessary svc_name call start
                             (timersub finish start) fp s
                      else s
                  | None => s
                  end in
                Ok (rw.1, (s1, rw.2))
            end
        end
    end.
End Server.

Arguments server {_} W.
Arguments MarshalItem {_} W.
Arguments FuncItem {_} W.
Arguments func_node {_} W.
Arguments SearpcService {_} W.

(** ** Signatures and the generated registration *)
Section Signature.
Context `{Jansson} `{GObjectClasses} {W : Type} (stack : nat).
(** The MD5 checksum of GLib, in hexadecimal. *)
Context (md5 : string -> string).

(** What [searpc_compute_signature] feeds to the checksum. *)
Definition signature_text (ret_type : string) (ptypes : list string) : string :=
  ret_type +:+ str_concat (List.map (fun p => ":" +:+ p) ptypes).

Definition searpc_compute_signature (ret_type : string) (ptypes : list string) : string :=
  md5 (signature_text ret_type ptypes).

(** [searpc_signature_<ret>__<args>], generated by generate_signature. *)
Definition generate_signature (ret_type : ctype) (arg_types : list ctype) : string :=
  searpc_compute_signature (ctype_name ret_type) (List.map ctype_name arg_types).

(** [register_marshals], generated by gen_marshal_register_function from the function table;
    the result of each registration is ignored. *)
Fixpoint register_marshals (table : list (ctype * list ctype)) (s : server W)
  : outcome (server W) :=
  match table with
  | [] => Ok s
  | (ret_type, arg_types) :: table' =>
      r <~ searpc_server_register_marshal (Some (generate_signature ret_type arg_types))
             (Some (generate_marshal stack ret_type arg_types)) s ;;
      register_marshals table' r.2
  end.
End Signature.

(** ** Well-formed servers *)
Section WellFormed.
Context `{Jansson} `{GObjectClasses} {W : Type}.

(** A node owns its key, under which its item is named, and its marshal is registered. *)
Definition node_wf (marshals : gmap string (MarshalItem W)) (fn : string) (nd : func_node W)
  : Prop :=
  key_dangling nd = false /\ fname (item nd) = fn /\
  marshals !! signature (marshal (item nd)) = Some (marshal (item nd)).

Definition service_wf (marshals : gmap string (MarshalItem W)) (n : string)
  (sv : SearpcService W) : Prop :=
  name sv = n /\ map_Forall (node_wf marshals) (func_table sv).

Definition tables_wf (marshals : gmap string (MarshalItem W))
  (services : gmap string (SearpcService W)) : Prop :=
  map_Forall (fun sg m => signature m = sg) marshals /\
  map_Forall (service_wf marshals) services.

Definition server_wf (s : server W) : Prop :=
  exists marshals services,
    marshal_table s = Some marshals /\ service_table s = Some services /\
    tables_wf marshals services.

(** The entry point [fn] of service [sn]. *)
Definition registered (s : server W) (sn fn : string) : option (FuncItem W) :=
  services ← service_table s;
  service ← services !! sn;
  nd ← func_table service !! fn;
  Some (item nd).

(** ** Operations as a step relation *)
Inductive server_op :=
| OpCreate (svc_name : option string)
| OpRemove (svc_name : option string)
| OpMarshal (sig : string) (m : cfunction W -> json -> run W string)
| OpRegister (svc_name : string) (f : cfunction W) (fn sig : string)
| OpReopen (opened : option file) (closed : bool).

Definition run_op (op : server_op) (s : server W) : outcome (server W) :=
  match op with
  | OpCreate n => r <~ searpc_create_service n s ;; Ok r.2
  | OpRemove n => searpc_remove_service n s
  | OpMarshal sg m => r <~ searpc_server_register_marshal (Some sg) (Some m) s ;; Ok r.2
  | OpRegister sn f n sg =>
      r <~ searpc_server_register_function (Some sn) (Some f) (Some n) (Some sg) s ;; Ok r.2
  | OpReopen o c => r <~ searpc_server_reopen_slow_log o c s ;; Ok r.2
  end.

(** No name is registered twice in a service. *)
Definition op_fresh (op : server_op) (s : server W) : Prop :=
  match op with
  | OpRegister sn _ n _ => registered s sn n = None
  | _ => True
  end.

Inductive reachable : server W -> Prop :=
| reach_init s s' :
    searpc_server_init (fun s => Ok s) s = Ok s' -> reachable s'
| reach_step s op s' :
    reachable s -> op_fresh op s -> run_op op s = Ok s' -> reachable s'.
End WellFormed.

Arguments server_op {_} W.
