(* ===== verification/ServerSafety.v ===== *)
(** * ServerSafety: invariants of the registry

    Preservation of [server_wf] by every operation, what registration installs, and the ways the
    registry's functions go wrong: registering a name twice, reopening a log that was never
    opened, using the tables outside their lifetime. *)
From S2P Require Import Prelude Json Runtime Utils GObject Marshal Server.

(** Unfold the [obind]s of a hypothesis [m = Ok x] into equations. *)
Ltac ok_steps H :=
  repeat match type of H with
  | obind _ _ = Ok _ => let x := fresh "x" in let Hx := fresh "Hx" in
                        apply obind_Ok in H as (x & Hx & H)
  end.

Section Registry.
Context `{Jansson} `{GObjectClasses} {W : Type}.
Implicit Types (s : server W) (marshals : gmap string (MarshalItem W))
  (services : gmap string (SearpcService W)).

Lemma table_of_Ok {A} (t : option (gmap string A)) m : table_of t = Ok m <-> t = Some m.
Proof. destruct t; naive_solver. Qed.

Lemma server_wf_tables s marshals services :
  marshal_table s = Some marshals -> service_table s = Some services ->
  server_wf s <-> tables_wf marshals services.
Proof.
  intros Hm Hs. split; [|by exists marshals, services].
  intros (ms & svcs & Hm' & Hs' & Hwf). by simplify_eq.
Qed.

Lemma tables_wf_create marshals services n :
  tables_wf marshals services -> tables_wf marshals (<[n := mkService n ∅]> services).
Proof.
  intros [Hm Hs]. split; [done|]. apply map_Forall_insert_2; [|done].
  split; [done|]. apply map_Forall_empty.
Qed.

Lemma tables_wf_remove marshals services n :
  tables_wf marshals services -> tables_wf marshals (delete n services).
Proof. intros [Hm Hs]. split; [done|]. by apply map_Forall_delete. Qed.

Lemma node_wf_marshal marshals sg m fn nd :
  marshals !! sg = None -> node_wf marshals fn nd ->
  node_wf (<[sg := mkMarshal m sg]> marshals) fn nd.
Proof.
  intros Hsg (Hd & Hn & Hm). split; [done|]. split; [done|].
  rewrite lookup_insert_ne; [done|]. intros ->. congruence.
Qed.

Lemma tables_wf_marshal marshals services sg m :
  marshals !! sg = None -> tables_wf marshals services ->
  tables_wf (<[sg := mkMarshal m sg]> marshals) services.
Proof.
  intros Hsg [Hm Hs]. split; [by apply map_Forall_insert_2|].
  intros n sv Hn. destruct (Hs n sv Hn) as [Hname Hf]. split; [done|].
  intros fn nd Hfn. apply node_wf_marshal; [done|]. by apply Hf.
Qed.

Lemma tables_wf_register marshals services sn sv f fn sg m :
  tables_wf marshals services -> services !! sn = Some sv -> marshals !! sg = Some m ->
  tables_wf marshals
    (<[sn := mkService (name sv) (<[fn := mkNode false (mkFunc f fn m)]> (func_table sv))]> services).
Proof.
  intros [Hm Hs] Hsv Hsg. split; [done|]. apply map_Forall_insert_2; [|done].
  destruct (Hs sn sv Hsv) as [Hname Hf]. split; [done|]. apply map_Forall_insert_2; [|done].
  split; [done|]. split; [done|]. simpl. by rewrite (Hm _ _ Hsg).
Qed.

(** *** Inversion of the operations *)

Lemma create_Ok n s r :
  searpc_create_service n s = Ok r ->
  (n = None /\ r = (-1, s)) \/
  exists k services, n = Some k /\ service_table s = Some services /\
    ((is_Some (services !! k) /\ r = (0, s)) \/
     (services !! k = None /\
      r = (0, set_service_table (Some (<[k := mkService k ∅]> services)) s))).
Proof.
  destruct n as [k|]; simpl; intros Hr; [|left; naive_solver].
  ok_steps Hr. apply table_of_Ok in Hx. right. exists k, x. split; [done|]. split; [done|].
  destruct (x !! k) eqn:Hk; simplify_eq; [left|right]; eauto.
Qed.

Lemma register_marshal_Ok sg m s r :
  searpc_server_register_marshal (Some sg) (Some m) s = Ok r ->
  exists marshals, marshal_table s = Some marshals /\
    ((is_Some (marshals !! sg) /\ r = (false, s)) \/
     (marshals !! sg = None /\
      r = (true, set_marshal_table (Some (<[sg := mkMarshal m sg]> marshals)) s))).
Proof.
  simpl. intros Hr. ok_steps Hr. apply table_of_Ok in Hx. exists x. split; [done|].
  destruct (x !! sg) eqn:Hk; simplify_eq; [left|right]; eauto.
Qed.

Lemma register_function_Ok sn f fn sg s r :
  searpc_server_register_function (Some sn) (Some f) (Some fn) (Some sg) s = Ok r ->
  r = (false, s) \/
  exists marshals services sv m t, service_table s = Some services /\
    marshal_table s = Some marshals /\ services !! sn = Some sv /\ marshals !! sg = Some m /\
    insert_function (func_table sv) (mkFunc f fn m) = Ok t /\
    r = (true, set_service_table (Some (<[sn := mkService (name sv) t]> services)) s).
Proof.
  cbn [searpc_server_register_function]. intros Hr. ok_steps Hr. apply table_of_Ok in Hx.
  destruct (x !! sn) as [sv|] eqn:Hsv; [|left; naive_solver].
  ok_steps Hr. apply table_of_Ok in Hx0.
  destruct (x0 !! sg) as [m|] eqn:Hsg; [|left; naive_solver].
  ok_steps Hr. simplify_eq. right. exists x0, x, sv, m, x1. repeat split; done.
Qed.

Lemma reopen_tables o c s r :
  searpc_server_reopen_slow_log o c s = Ok r ->
  marshal_table r.2 = marshal_table s /\ service_table r.2 = service_table s.
Proof.
  unfold searpc_server_reopen_slow_log. intros Hr. by repeat (case_match; simplify_eq/=).
Qed.

Lemma insert_function_fresh t it :
  t !! fname it = None ->
  insert_function t it = Ok (<[fname it := mkNode (W := W) false it]> t).
Proof. unfold insert_function. by intros ->. Qed.

Lemma registered_lookup s services sn sv fn :
  service_table s = Some services -> services !! sn = Some sv ->
  registered s sn fn = item <$> func_table sv !! fn.
Proof.
  intros Hs Hsv. unfold registered. rewrite Hs. simpl. rewrite Hsv. simpl.
  by destruct (func_table sv !! fn).
Qed.

Lemma run_op_wf op s s' :
  server_wf s -> op_fresh op s -> run_op op s = Ok s' -> server_wf s'.
Proof.
  intros Hwf Hfresh Hop. pose proof Hwf as (ms & svcs & Hm & Hs & Ht).
  destruct op as [n|n|sg m|sn f fn sg|o c]; simpl in Hop.
  - ok_steps Hop. simplify_eq. apply create_Ok in Hx as [[-> ->]|(k & svs & -> & Hs' & Hc)]; [done|].
    assert (svs = svcs) as -> by congruence. destruct Hc as [[_ ->]|[Hk ->]]; [done|].
    exists ms, (<[k := mkService k ∅]> svcs). split; [done|]. split; [done|]. by apply tables_wf_create.
  - destruct n as [k|]; simpl in Hop; [|by simplify_eq]. rewrite Hs in Hop. simpl in Hop. simplify_eq.
    exists ms, (delete k svcs). split; [done|]. split; [done|]. by apply tables_wf_remove.
  - ok_steps Hop. simplify_eq. apply register_marshal_Ok in Hx as (ms' & Hm' & Hc).
    assert (ms' = ms) as -> by congruence.
    destruct Hc as [[_ ->]|[Hk ->]]; [done|].
    exists (<[sg := mkMarshal m sg]> ms), svcs. split; [done|]. split; [done|].
    by apply tables_wf_marshal.
  - apply obind_Ok in Hop as (r & Hx & Hop). injection Hop as <-.
    apply register_function_Ok in Hx as [->|(ms' & svs & sv & m & t & Hs' & Hm' & Hsv & Hsg & Hins & ->)];
      [done|].
    assert (svs = svcs) as -> by congruence. assert (ms' = ms) as -> by congruence.
    simpl in Hfresh. rewrite (registered_lookup s svcs sn sv fn Hs Hsv) in Hfresh.
    apply fmap_None in Hfresh. rewrite insert_function_fresh in Hins by done. simplify_eq.
    eexists _, _. split; [done|]. split; [done|]. simpl. by apply tables_wf_register with (sg := sg).
  - ok_steps Hop. simplify_eq. apply reopen_tables in Hx as [Hm' Hs'].
    exists ms, svcs. by rewrite Hm', Hs'.
Qed.

Lemma init_wf s s' : searpc_server_init (fun s => Ok s) s = Ok s' -> server_wf s'.
Proof.
  unfold searpc_server_init. intros [= <-]. exists ∅, ∅.
  split; [done|]. split; [done|]. split; apply map_Forall_empty.
Qed.

Lemma reachable_wf s : reachable s -> server_wf s.
Proof. induction 1; eauto using init_wf, run_op_wf. Qed.

(** *** The slow log file *)

Definition not_reopen (op : server_op W) : bool :=
  match op with OpReopen _ _ => false | _ => true end.

Fixpoint run_ops (ops : list (server_op W)) (s : server W) : outcome (server W) :=
  match ops with
  | [] => Ok s
  | op :: ops' => s1 <~ run_op op s ;; run_ops ops' s1
  end.

Lemma run_op_log op s s' :
  not_reopen op = true -> run_op op s = Ok s' ->
  slow_log_fp s' = slow_log_fp s /\ log_to_stdout s' = log_to_stdout s.
Proof.
  destruct op as [n|n|sg m|sn f fn sg|o c]; [| | | |done]; cbn [run_op]; intros _ Hop.
  - apply obind_Ok in Hop as (r & Hx & Hop). injection Hop as <-.
    apply create_Ok in Hx as [[-> ->]|(k & svs & -> & _ & [[_ ->]|[_ ->]])]; done.
  - destruct n; simpl in Hop; ok_steps Hop; by simplify_eq.
  - apply obind_Ok in Hop as (r & Hx & Hop). injection Hop as <-.
    apply register_marshal_Ok in Hx as (ms' & _ & [[_ ->]|[_ ->]]); done.
  - apply obind_Ok in Hop as (r & Hx & Hop). injection Hop as <-.
    apply register_function_Ok in Hx as [->|(? & ? & ? & ? & ? & _ & _ & _ & _ & _ & ->)]; done.
Qed.

Lemma run_ops_log ops s s' :
  forallb not_reopen ops = true -> run_ops ops s = Ok s' ->
  slow_log_fp s' = slow_log_fp s /\ log_to_stdout s' = log_to_stdout s.
Proof.
  revert s. induction ops as [|op ops IH]; intros s; simpl; [naive_solver|].
  intros Hops Hrun. split_bools. apply obind_Ok in Hrun as (s1 & Hop & Hrun).
  apply run_op_log in Hop as [<- <-]; [|done]. by apply IH.
Qed.
End Registry.

(** ** Signatures *)
Section SignatureFacts.
Context `{Jansson} `{GObjectClasses} {W : Type} (stack : nat) (md5 : string -> string).

Definition after_name (s : string) : bool :=
  match s with EmptyString => true | String c _ => Ascii.eqb c ":" end.

Lemma ctype_name_app t1 t2 a b :
  after_name a = true -> after_name b = true ->
  ctype_name t1 +:+ a = ctype_name t2 +:+ b -> t1 = t2 /\ a = b.
Proof.
  intros Ha Hb. destruct t1, t2; simpl; intros E; try discriminate E;
    injection E as E; cbv [String.append] in E; try (by split).
  all: exfalso; subst; first [vm_compute in Ha; congruence | vm_compute in Hb; congruence].
Qed.

Lemma after_name_args l : after_name (str_concat (List.map (fun p => ":" +:+ p) l)) = true.
Proof. by destruct l. Qed.

Lemma signature_args_inj a1 a2 :
  str_concat (List.map (fun p => ":" +:+ p) (List.map ctype_name a1)) =
  str_concat (List.map (fun p => ":" +:+ p) (List.map ctype_name a2)) -> a1 = a2.
Proof.
  revert a2. induction a1 as [|t1 a1 IH]; intros [|t2 a2]; simpl; intros E; try done.
  injection E as E.
  apply ctype_name_app in E as [-> E]; [by rewrite (IH a2)|apply after_name_args..].
Qed.

Lemma signature_text_inj_aux r1 a1 r2 a2 :
  signature_text (ctype_name r1) (List.map ctype_name a1) =
  signature_text (ctype_name r2) (List.map ctype_name a2) -> r1 = r2 /\ a1 = a2.
Proof.
  unfold signature_text. intros E.
  apply ctype_name_app in E as [-> E]; [|apply after_name_args..].
  split; [done|]. by apply signature_args_inj.
Qed.

(** MD5 does not collide on the signatures of a table. *)
Definition no_collision (table : list (ctype * list ctype)) : Prop :=
  forall r a r' a', In (r, a) table -> In (r', a') table ->
  generate_signature md5 r a = generate_signature md5 r' a' ->
  signature_text (ctype_name r) (List.map ctype_name a) =
  signature_text (ctype_name r') (List.map ctype_name a').

Definition generated_item (r : ctype) (a : list ctype) : MarshalItem W :=
  mkMarshal (generate_marshal stack r a) (generate_signature md5 r a).

Lemma register_marshals_spec full table s (marshals : gmap string (MarshalItem W)) :
  no_collision full -> (forall row, In row table -> In row full) ->
  marshal_table s = Some marshals ->
  (forall sg m, marshals !! sg = Some m -> exists r a, In (r, a) full /\
     sg = generate_signature md5 r a /\ m = generated_item r a) ->
  exists s' marshals', register_marshals stack md5 table s = Ok s' /\
    s' = set_marshal_table (Some marshals') s /\
    (forall sg m, marshals' !! sg = Some m -> exists r a, In (r, a) full /\
       sg = generate_signature md5 r a /\ m = generated_item r a) /\
    (forall sg m, marshals !! sg = Some m -> marshals' !! sg = Some m) /\
    (forall r a, In (r, a) table ->
       marshals' !! generate_signature md5 r a = Some (generated_item r a)).
Proof.
  intros Hnc. revert s marshals.
  induction table as [|[r a] table IH]; intros s marshals Hsub Hm Hgen.
  { exists s, marshals. split; [done|]. split; [|done]. destruct s; simpl in *; by subst. }
  cbn [register_marshals searpc_server_register_marshal]. rewrite Hm. cbn [table_of obind].
  set (sg := generate_signature md5 r a).
  destruct (marshals !! sg) as [m|] eqn:Hsg.
  - cbn [obind snd]. destruct (IH s marshals) as (s' & ms' & Hrun & Hs' & Hg & Hk & Hrows);
      [intros; apply Hsub; by right|done|done|].
    exists s', ms'. split; [done|]. split; [done|]. split; [done|]. split; [done|].
    intros r0 a0 [[= <- <-]|Hin]; [|by apply Hrows].
    apply Hk. fold sg. rewrite Hsg. f_equal.
    destruct (Hgen _ _ Hsg) as (r' & a' & Hin & Heq & ->).
    destruct (signature_text_inj_aux r' a' r a) as [-> ->]; [|done].
    symmetry. apply Hnc; [apply Hsub; by left|done|done].
  - cbn [obind snd]. fold (generated_item r a).
    destruct (IH (set_marshal_table (Some (<[sg := generated_item r a]> marshals)) s)
                (<[sg := generated_item r a]> marshals))
      as (s' & ms' & Hrun & -> & Hg & Hk & Hrows); [intros; apply Hsub; by right|done| |].
    { intros sg' m Hm'. apply lookup_insert_Some in Hm' as [[<- <-]|[_ Hm']]; [|by apply Hgen].
      exists r, a. split; [apply Hsub; by left|done]. }
    exists (set_marshal_table (Some ms') s), ms'. split; [done|]. split; [done|]. split; [done|].
    split; [intros sg' m Hm'; apply Hk; rewrite lookup_insert_ne; [done|congruence]|].
    intros r0 a0 [[= <- <-]|Hin]; [|by apply Hrows]. apply Hk. apply lookup_insert_eq.
Qed.
End SignatureFacts.

(** ** The registry's contract

    What the module promises, without tables or item ownership: which services exist, which
    marshal a signature selects, and which function a service runs under a name. *)
Section Contract.
Context `{Jansson} `{GObjectClasses} {W : Type}.

Record registry := mkRegistry {
  rg_service : string -> bool;
  rg_marshal : string -> option (MarshalItem W);
  rg_entry : string -> string -> option (FuncItem W)
}.

(** Registries are compared by what can be looked up in them. *)
Definition registry_equiv (a b : registry) : Prop :=
  (forall n, rg_service a n = rg_service b n) /\
  (forall sg, rg_marshal a sg = rg_marshal b sg) /\
  (forall n fn, rg_entry a n fn = rg_entry b n fn).

#[export] Instance registry_equivalence : Equivalence registry_equiv.
Proof.
  split.
  - by repeat split.
  - intros a b (? & ? & ?). by repeat split.
  - intros a b c (H1a & H2a & H3a) (H1b & H2b & H3b).
    repeat split; intros; [by rewrite H1a|by rewrite H2a|by rewrite H3a].
Qed.

Definition registry_op (op : server_op W) (a : registry) : registry :=
  match op with
  | OpCreate (Some n) =>
      mkRegistry (fun k => String.eqb k n || rg_service a k) (rg_marshal a) (rg_entry a)
  | OpRemove (Some n) =>
      mkRegistry (fun k => negb (String.eqb k n) && rg_service a k) (rg_marshal a)
        (fun k fn => if String.eqb k n then None else rg_entry a k fn)
  | OpMarshal sg m =>
      mkRegistry (rg_service a)
        (fun k => if String.eqb k sg
                  then Some (default (mkMarshal m sg) (rg_marshal a sg)) else rg_marshal a k)
        (rg_entry a)
  | OpRegister sn f n sg =>
      match rg_marshal a sg with
      | Some m =>
          mkRegistry (rg_service a) (rg_marshal a)
            (fun k fn => if rg_service a sn && (String.eqb k sn && String.eqb fn n)
                         then Some (mkFunc f n m) else rg_entry a k fn)
      | None => a
      end
  | _ => a
  end.

#[export] Instance registry_op_proper op : Proper (registry_equiv ==> registry_equiv) (registry_op op).
Proof.
  intros a b (Hs & Hm & He). destruct op as [[n|]|[n|]|sg m|sn f fn sg|o c]; simpl; try by repeat split.
  - repeat split; intros; simpl; [by rewrite Hs|done..].
  - repeat split; intros; simpl; [by rewrite Hs|done|by rewrite He].
  - repeat split; intros; simpl; [done|by rewrite !Hm|done].
  - rewrite Hm. destruct (rg_marshal b sg); [|by repeat split].
    repeat split; intros; simpl; [done..|by rewrite Hs, He].
Qed.

(** The contract state a server implements. *)
Definition registry_of (s : server W) : registry :=
  mkRegistry
    (fun n => bool_decide (is_Some (service_table s ≫= (fun t => t !! n))))
    (fun sg => marshal_table s ≫= (fun t => t !! sg))
    (registered s).

Implicit Types (s : server W).

Lemma create_refines n s :
  server_wf s ->
  exists s', run_op (OpCreate n) s = Ok s' /\
    registry_equiv (registry_of s') (registry_op (OpCreate n) (registry_of s)).
Proof.
  intros (ms & svcs & Hm & Hs & _). destruct n as [n|]; [|by exists s].
  simpl. rewrite ?Hs. simpl. destruct (svcs !! n) as [sv|] eqn:Hn; simpl.
  - exists s. split; [done|]. repeat split. intros k. simpl. rewrite ?Hs. simpl.
    destruct (String.eqb_spec k n) as [->|]; [|done]. by rewrite ?Hn, bool_decide_true.
  - eexists. split; [done|]. repeat split.
    + intros k. simpl. rewrite ?Hs. simpl. destruct (String.eqb_spec k n) as [->|].
      * by rewrite lookup_insert_eq, bool_decide_true.
      * by rewrite lookup_insert_ne.
    + intros k fn. unfold registered. simpl. unfold registered. rewrite ?Hs. simpl.
      destruct (decide (k = n)) as [->|].
      * by rewrite lookup_insert_eq, ?Hn.
      * by rewrite lookup_insert_ne.
Qed.

Lemma remove_refines n s :
  server_wf s ->
  exists s', run_op (OpRemove n) s = Ok s' /\
    registry_equiv (registry_of s') (registry_op (OpRemove n) (registry_of s)).
Proof.
  intros (ms & svcs & Hm & Hs & _). destruct n as [n|]; [|by exists s].
  simpl. rewrite ?Hs. simpl. eexists. split; [done|]. repeat split.
  - intros k. simpl. rewrite ?Hs. simpl. destruct (String.eqb_spec k n) as [->|].
    + by rewrite lookup_delete_eq, bool_decide_false by (intros [? ?]; done).
    + by rewrite lookup_delete_ne.
  - intros k fn. simpl. unfold registered. simpl. rewrite ?Hs. simpl.
    destruct (String.eqb_spec k n) as [->|].
    + by rewrite lookup_delete_eq.
    + by rewrite lookup_delete_ne.
Qed.

Lemma marshal_refines sg m s :
  server_wf s ->
  exists s', run_op (OpMarshal sg m) s = Ok s' /\
    registry_equiv (registry_of s') (registry_op (OpMarshal sg m) (registry_of s)).
Proof.
  intros (ms & svcs & Hm & Hs & _).
  simpl. rewrite ?Hm. simpl. destruct (ms !! sg) as [m'|] eqn:Hsg; simpl.
  - exists s. split; [done|]. repeat split. intros k. simpl. rewrite ?Hm. simpl.
    destruct (String.eqb_spec k sg) as [->|]; [by rewrite ?Hsg|done].
  - eexists. split; [done|]. repeat split. intros k. simpl. rewrite ?Hm. simpl.
    destruct (String.eqb_spec k sg) as [->|].
    + by rewrite lookup_insert_eq, ?Hsg.
    + by rewrite lookup_insert_ne.
Qed.

Lemma register_refines sn f fn sg s :
  server_wf s -> op_fresh (OpRegister sn f fn sg) s ->
  exists s', run_op (OpRegister sn f fn sg) s = Ok s' /\
    registry_equiv (registry_of s') (registry_op (OpRegister sn f fn sg) (registry_of s)).
Proof.
  intros (ms & svcs & Hm & Hs & _) Hfresh.
  assert (forall k, rg_service (registry_of s) k = bool_decide (is_Some (svcs !! k))) as Hsvc
    by (intros k; simpl; by rewrite Hs).
  assert (rg_marshal (registry_of s) sg = ms !! sg) as Hmsg by (simpl; by rewrite Hm).
  cbn [run_op searpc_server_register_function registry_op]. rewrite Hmsg.
  rewrite Hs, Hm. cbn [table_of obind].
  destruct (svcs !! sn) as [sv|] eqn:Hsn; cycle 1.
  { exists s. split; [done|]. destruct (ms !! sg); [|done].
    split; [done|]. split; [done|]. intros k fn'. cbn [rg_entry].
    rewrite Hsvc, Hsn. by rewrite bool_decide_false by (intros [? ?]; done). }
  destruct (ms !! sg) as [m|] eqn:Hsg; [|by exists s]. cbn [obind].
  simpl in Hfresh. rewrite (registered_lookup s svcs sn sv fn Hs Hsn) in Hfresh.
  apply fmap_None in Hfresh. rewrite insert_function_fresh by done. cbn [obind snd].
  eexists. split; [done|]. split; [|split; [done|]].
  - intros k. cbn [rg_service]. rewrite Hsvc. simpl. destruct (decide (k = sn)) as [->|].
    + by rewrite lookup_insert_eq, Hsn, !bool_decide_true.
    + by rewrite lookup_insert_ne.
  - intros k fn'. cbn [rg_entry]. rewrite Hsvc, Hsn, bool_decide_true by done. simpl.
    unfold registered. simpl. rewrite Hs. simpl.
    destruct (String.eqb_spec k sn) as [->|]; simpl; [|by rewrite lookup_insert_ne].
    rewrite lookup_insert_eq, Hsn. simpl. destruct (String.eqb_spec fn' fn) as [->|].
    + by rewrite lookup_insert_eq.
    + by rewrite lookup_insert_ne.
Qed.

Lemma op_refines op s :
  server_wf s -> op_fresh op s -> not_reopen op = true ->
  exists s', run_op op s = Ok s' /\
    registry_equiv (registry_of s') (registry_op op (registry_of s)).
Proof.
  destruct op; intros Hwf Hfresh Hno;
    eauto using create_refines, remove_refines, marshal_refines, register_refines.
  done.
Qed.

(** No operation of the list registers a name that is taken when its turn comes. *)
Fixpoint registry_fresh (ops : list (server_op W)) (a : registry) : Prop :=
  match ops with
  | [] => True
  | op :: ops' =>
      match op with OpRegister sn _ n _ => rg_entry a sn n = None | _ => True end /\
      registry_fresh ops' (registry_op op a)
  end.

Lemma registry_fresh_proper ops a b :
  registry_equiv a b -> registry_fresh ops a -> registry_fresh ops b.
Proof.
  revert a b. induction ops as [|op ops IH]; intros a b Hab; [done|]. simpl.
  intros [Hop Hops]. split.
  - destruct Hab as (_ & _ & He). destruct op; [done..|by rewrite <- He|done].
  - eapply IH; [|exact Hops]. by apply registry_op_proper.
Qed.

(** C19: the registry implements its contract: starting from a well-formed server, any sequence
    of creations, removals and registrations in which no function name is taken when it is
    registered runs to the end, leaves the server well formed, and what can then be looked up
    is what the contract says. *)
Theorem registry_refines ops s :
  server_wf s -> forallb not_reopen ops = true -> registry_fresh ops (registry_of s) ->
  exists s', run_ops ops s = Ok s' /\ server_wf s' /\
    registry_equiv (registry_of s') (fold_left (fun a op => registry_op op a) ops (registry_of s)).
Proof.
  revert s. induction ops as [|op ops IH]; intros s Hwf Hno Hfresh; [by exists s|].
  simpl in *. split_bools.
  assert (op_fresh op s) as Hop by (by destruct op).
  destruct (op_refines op s) as (s1 & Hrun & Heq); [done..|].
  pose proof (run_op_wf op s s1 Hwf Hop Hrun) as Hwf1. rewrite Hrun. simpl.
  destruct (IH s1) as (s' & Hrun' & Hwf' & Heq'); [done|done| |].
  { eapply registry_fresh_proper; [|done]. by symmetry. }
  exists s'. split; [done|]. split; [done|]. rewrite Heq'.
  clear -Heq. revert Heq. generalize (registry_op op (registry_of s)), (registry_of s1).
  induction ops as [|op' ops IH]; intros b a Hab; [done|]. simpl. apply IH.
  by apply registry_op_proper.
Qed.

(** C21: every server state reached from [searpc_server_init] by any operations, in any order,
    in which no name is registered twice in a service is well formed: both tables exist, every
    function node owns its key, carries its item's name, and its marshal is the registered one
    of its signature. *)
Theorem reachable_server_wf s : reachable s -> server_wf s.
Proof. apply reachable_wf. Qed.

(** A server started with [searpc_server_init] alone has no slow log, and log rotation on
    it closes a NULL stream, whatever services and functions were registered in between. *)
Theorem reopen_without_log table stack md5 s0 s ops fp closed :
  searpc_server_init (register_marshals stack md5 table) server_start = Ok s0 ->
  forallb not_reopen ops = true -> run_ops ops s0 = Ok s ->
  exists why, searpc_server_reopen_slow_log (Some fp) closed s = Undef why.
Proof.
  intros Hinit Hops Hrun.
  assert (slow_log_fp s0 = None /\ log_to_stdout s0 = false) as [Hfp Hout].
  { unfold searpc_server_init in Hinit. revert Hinit.
    set (s1 := set_service_table (Some ∅) (set_marshal_table (Some ∅) server_start)).
    assert (slow_log_fp s1 = None /\ log_to_stdout s1 = false) as Hs1 by done.
    revert Hs1. generalize s1. clear. induction table as [|[r a] table IH]; intros s1 Hs1 Hinit.
    - by simplify_eq/=.
    - cbn [register_marshals] in Hinit. apply obind_Ok in Hinit as (x & Hx & Hinit).
      apply IH in Hinit; [done|].
      apply register_marshal_Ok in Hx as (ms & _ & [[_ ->]|[_ ->]]); done. }
  apply run_ops_log in Hrun as [Hfp' Hout']; [|done].
  unfold searpc_server_reopen_slow_log. rewrite Hout', Hfp', Hout, Hfp. by eexists.
Qed.

(** After initialisation with a function table on whose signatures MD5 does not collide,
    the signature generated for each row selects the marshal generated for that row, and no
    other signature selects anything. *)
Theorem init_installs_marshals table stack md5 s :
  no_collision md5 table ->
  exists s' marshals, searpc_server_init (register_marshals stack md5 table) s = Ok s' /\
    marshal_table s' = Some marshals /\ service_table s' = Some ∅ /\
    (forall r a, In (r, a) table ->
       marshals !! generate_signature md5 r a = Some (generated_item stack md5 r a)) /\
    (forall sg m, marshals !! sg = Some m ->
       exists r a, In (r, a) table /\ sg = generate_signature md5 r a).
Proof.
  intros Hnc. unfold searpc_server_init.
  destruct (register_marshals_spec (W := W) stack md5 table table
              (set_service_table (Some ∅) (set_marshal_table (Some ∅) s)) ∅)
    as (s' & ms & Hrun & -> & Hgen & _ & Hrows); [done..|].
  exists (set_marshal_table (Some ms) (set_service_table (Some ∅) (set_marshal_table (Some ∅) s))), ms.
  repeat split; try done. intros sg m Hm. destruct (Hgen _ _ Hm) as (r & a & ? & ? & _). eauto.
Qed.
End Contract.

(** The text [searpc_compute_signature] hashes determines the prototype: functions with
    different return or parameter types never have the same text. *)
Theorem signature_text_injective r1 a1 r2 a2 :
  signature_text (ctype_name r1) (List.map ctype_name a1) =
  signature_text (ctype_name r2) (List.map ctype_name a2) -> r1 = r2 /\ a1 = a2.
Proof. apply signature_text_inj_aux. Qed.
