(* ===== verification/Responses.v ===== *)
(** * Responses: what a response carries

    The responses of lib/searpc-server.c as JSON values: the object an error response dumps to,
    the value the return setters put under "ret" for each return type, and the fields an RPC
    error adds.  Shared by the server's and the client's theorems. *)
From S2P Require Import Prelude Json Runtime Utils GObject Marshal Server.

(** How deep an object may nest inside a response: the parser allows 2048 levels, the response
    and an object list take one each. *)
Definition wire_depth : nat := Z.to_nat 2046.

Section ResponseData.
Context `{Jansson} `{GObjectClasses}.

(** The fields of an error; [json_string] drops a message that is not UTF-8. *)
Definition error_members (code : Z) (msg : string) : list (string * json) :=
  ("err_code", JInteger code) :: if utf8_valid msg then [("err_msg", JString msg)] else [].

Definition gerror_members (error : option GError) : list (string * json) :=
  match error with
  | Some e => error_members (e_code e) (e_message e)
  | None => []
  end.

Definition gerror_ok (error : option GError) : Prop :=
  match error with
  | Some e => is_int (e_code e) = true /\ nul_free (e_message e) = true
  | None => True
  end.

(** Return values a response can carry, for their return type. *)
Definition ret_ok (n : nat) (t : ctype) (r : cret) : Prop :=
  match t, r with
  | T_string, RString None => True
  | T_string, RString (Some s) => text_ok s = true
  | T_int, RInt z => is_int z = true
  | T_int64, RInt64 z => is_int64 z = true
  | T_object, RObject None => True
  | T_object, RObject (Some o) => portable_obj n o
  | T_objlist, RObjlist l => Forall (portable_obj n) l
  | T_json, RJson None => True
  | T_json, RJson (Some v) => portable_elem v = true
  | _, _ => False
  end.
End ResponseData.

Section ResponseFacts.
Context `{JanssonLaws} `{GObjectLaws}.

(** What [ret] of a response is for a return value; [m] is the receiver's stack. *)
Definition ret_wire (n m : nat) (t : ctype) (r : cret) (v : json) : Prop :=
  match t, r with
  | T_string, RString s => v = match s with Some s => JString s | None => JNull end
  | T_int, RInt z => v = JInteger z
  | T_int64, RInt64 z => v = JInteger z
  | T_object, RObject None => v = JNull
  | T_object, RObject (Some o) => exists o', object_carried n m o v o'
  | T_objlist, RObjlist [] => v = JNull
  | T_objlist, RObjlist l =>
      exists vs, v = JArray vs /\ Forall2 (fun o v => exists o', object_carried n m o v o') l vs
  | T_json, RJson x => v = match x with Some x => x | None => JNull end
  | _, _ => False
  end.

Lemma dump_response_ok ms :
  portable (JObject ms) = true ->
  exists s, dump_response (JObject ms) = Ok s /\ json_loadb s = inr (JObject ms) /\ text_ok s = true.
Proof.
  intros Hp. destruct (dump_load JSON_COMPACT (JObject ms)) as (s & Hs & Hl & Ht); [done..|].
  exists s. unfold dump_response. by rewrite Hs.
Qed.

Lemma error_members_keys code msg :
  List.map fst (error_members code msg) = if utf8_valid msg then ["err_code"; "err_msg"] else ["err_code"].
Proof. unfold error_members. by destruct (utf8_valid msg). Qed.

Lemma ascii_text_ok k : ascii_only k && nul_free k = true -> text_ok k = true.
Proof. apply text_ok_ascii. Qed.

Lemma error_members_ok code msg :
  is_int64 code = true -> nul_free msg = true ->
  forallb (fun m => text_ok m.1 && portable_elem m.2) (error_members code msg) = true.
Proof.
  intros Hc Hn. unfold error_members.
  cbn [forallb fst snd]. rewrite ascii_text_ok by done.
  rewrite portable_elem_scalar by done. simpl.
  destruct (utf8_valid msg) eqn:Hu; [|done]. cbn [forallb fst snd].
  rewrite ascii_text_ok by done. rewrite portable_elem_scalar; [done| |done].
  simpl. unfold text_ok. by rewrite Hu, Hn.
Qed.

(** [error_to_json] always answers, and the answer loads to the error's fields. *)
Lemma error_to_json_spec code msg :
  is_int64 code = true -> nul_free msg = true ->
  exists s, error_to_json code (Some msg) = Ok s /\
    json_loadb s = inr (JObject (error_members code msg)) /\ text_ok s = true.
Proof.
  intros Hc Hn. unfold error_to_json, json_object_set_string_or_null_member.
  rewrite json_object_eq, json_integer_eq, set_member by done. cbn [member_set].
  assert (json_object_set_new (JObject [("err_code", JInteger code)]) "err_msg" (json_string msg) =
          JObject (error_members code msg)) as ->.
  { unfold error_members. rewrite json_string_eq by done. destruct (utf8_valid msg).
    - by rewrite set_member by done.
    - by rewrite json_object_set_new_null. }
  apply dump_response_ok, portable_object; [|by apply error_members_ok].
  rewrite error_members_keys. destruct (utf8_valid msg); by apply (bool_decide_unpack _).
Qed.

(** [searpc_marshal_set_ret_common] keeps the return value and adds the error's fields. *)
Lemma set_ret_common_spec v error :
  portable_elem v = true -> gerror_ok error ->
  exists s, searpc_marshal_set_ret_common (JObject [("ret", v)]) error = Ok s /\
    json_loadb s = inr (JObject (("ret", v) :: gerror_members error)) /\ text_ok s = true.
Proof.
  intros Hv He. unfold searpc_marshal_set_ret_common.
  assert (match error with
          | Some e => json_object_set_new
              (json_object_set_new (JObject [("ret", v)]) "err_code" (Some (json_integer (e_code e))))
              "err_msg" (json_string (e_message e))
          | None => JObject [("ret", v)]
          end = JObject (("ret", v) :: gerror_members error)) as ->.
  { destruct error as [e|]; [|done]. destruct He as [_ Hm]. simpl.
    rewrite json_integer_eq, set_member by done. cbn [member_set String.eqb Ascii.eqb Bool.eqb].
    unfold error_members. rewrite json_string_eq by done. destruct (utf8_valid (e_message e)).
    - by rewrite set_member by done.
    - by rewrite json_object_set_new_null. }
  apply dump_response_ok, portable_object.
  - destruct error as [e|]; cbn [gerror_members List.map fst];
      [rewrite error_members_keys; destruct (utf8_valid (e_message e))|];
      by apply (bool_decide_unpack _).
  - cbn [forallb fst snd]. rewrite ascii_text_ok, Hv by done. simpl.
    destruct error as [e|]; [|done]. destruct He as [Hc Hm].
    apply error_members_ok; [|done]. by apply (wrap_signed_mono 32 64).
Qed.

Lemma object_carried_elem n m o v o' :
  (n <= wire_depth)%nat -> object_carried n m o v o' -> portable_elem v = true.
Proof.
  intros Hn (_ & Hok & Hd & _). unfold portable_elem. rewrite Hok. simpl. apply Nat.ltb_lt.
  unfold wire_depth, max_depth in *. lia.
Qed.

Lemma serialize_objlist_spec stack l vs acc :
  Forall2 (fun o v => json_gobject_serialize stack o = Ok v) l vs ->
  serialize_objlist stack (JArray acc) l = Ok (JArray (acc ++ vs)).
Proof.
  intros Hl. revert acc. induction Hl as [|o v l vs Hv _ IH]; intros acc; simpl.
  - by rewrite app_nil_r.
  - rewrite Hv. simpl. rewrite json_array_append_new_eq, IH. by rewrite <- app_assoc.
Qed.

Lemma objects_carried n m l :
  Forall (portable_obj n) l -> (n <= m)%nat ->
  exists vs, Forall2 (fun o v => exists o', object_carried n m o v o') l vs.
Proof.
  intros Hl Hm. apply Forall_choice. eapply Forall_impl; [exact Hl|].
  intros o Ho. destruct (object_carries n m o Ho Hm) as (v & o' & Hc). eauto.
Qed.

Lemma objlist_elem n m l vs :
  (n <= wire_depth)%nat ->
  Forall2 (fun o v => exists o', object_carried n m o v o') l vs ->
  portable_elem (JArray vs) = true.
Proof.
  intros Hn Hl. unfold portable_elem.
  assert (Forall (fun v => json_ok v = true /\ (json_depth v <= n)%nat) vs) as Hvs.
  { induction Hl as [|o v l vs (o' & _ & Hok & Hd & _) _ IH]; by constructor. }
  apply andb_true_iff. split.
  - simpl. rewrite forallb_forall. intros v Hv. rewrite Forall_forall in Hvs.
    apply list_elem_of_In in Hv. by apply Hvs.
  - apply Nat.ltb_lt. cbn [json_depth].
    enough (list_max (List.map json_depth vs) <= n)%nat by (unfold wire_depth, max_depth in *; lia).
    apply list_max_le_iff. apply Forall_map. eapply Forall_impl; [exact Hvs|]. simpl. tauto.
Qed.

(** Each setter puts the wire form of the return value under "ret". *)
Lemma convert_ret_spec n m stack t r :
  ret_ok n t r -> (n <= stack)%nat -> (n <= m)%nat -> (n <= wire_depth)%nat ->
  exists v, convert_ret stack t json_object r = Ok (JObject [("ret", v)]) /\
    portable_elem v = true /\ ret_wire n m t r v.
Proof.
  intros Hr Hst Hm Hn. rewrite json_object_eq.
  assert (forall v, json_object_set_new (JObject []) "ret" (Some v) = JObject [("ret", v)]) as Hset
    by (intros v; by rewrite set_member).
  destruct t, r as [[s|]|z|z|[o|]|[|o l]|[x|]]; try done; simpl in Hr;
    unfold convert_ret, searpc_set_string_to_ret_object, searpc_set_int_to_ret_object,
      searpc_set_object_to_ret_object, searpc_set_objlist_to_ret_object,
      searpc_set_json_to_ret_object; rewrite ?json_null_eq, ?json_integer_eq, ?Hset.
  all: try (eexists; split; [done|]; split; [by apply portable_elem_scalar|done]).
  - rewrite json_string_text, Hset by done.
    eexists. split; [done|]. split; [by apply portable_elem_scalar|done].
  - eexists. split; [done|]. split; [|done].
    apply portable_elem_scalar; [|done]. by apply (wrap_signed_mono 32 64).
  - destruct (object_carries n m o Hr Hm) as (v & o' & Hc).
    rewrite (serialize_mono n stack o v Hst) by apply Hc. simpl. rewrite Hset.
    exists v. split; [done|]. split; [by eapply object_carried_elem|by exists o'].
  - destruct (objects_carried n m (o :: l) Hr Hm) as (vs & Hvs).
    rewrite json_array_eq. rewrite (serialize_objlist_spec stack (o :: l) vs []).
    + simpl. rewrite Hset. exists (JArray vs). split; [done|].
      split; [by eapply objlist_elem|by exists vs].
    + eapply Forall2_impl; [exact Hvs|]. intros x v (x' & Hc & _). by eapply serialize_mono.
  - eexists. split; [done|]. by split.
Qed.

(** What a generated marshal answers, once the parameters are read and its function returned. *)
Lemma marshal_runs {W} n m stack (f : cfunction W) array params w r error w' :
  get_parameters (c_params f) array 1 = Some params ->
  c_body f params w = Ok ((r, error), w') ->
  ret_ok n (c_ret f) r -> gerror_ok error -> (n <= stack)%nat -> (n <= m)%nat -> (n <= wire_depth)%nat ->
  exists resp v,
    generate_marshal stack (c_ret f) (c_params f) f array w = Ok (resp, w') /\
    json_loadb resp = inr (JObject (("ret", v) :: gerror_members error)) /\ text_ok resp = true /\
    ret_wire n m (c_ret f) r v.
Proof.
  intros Hp Hbody Hr He Hst Hm Hn.
  destruct (convert_ret_spec n m stack (c_ret f) r) as (v & Hconv & Hv & Hw); [done..|].
  destruct (set_ret_common_spec v error Hv He) as (resp & Hresp & Hl & Ht).
  exists resp, v. split; [|done]. unfold generate_marshal. rewrite Hp, decide_True by done.
  rewrite (rbind_step _ _ _ _ _ Hbody). cbn [fst snd]. unfold rlift. rewrite Hconv. cbn [obind].
  by rewrite Hresp.
Qed.
End ResponseFacts.
