(* ===== verification/Dispatch.v ===== *)
(** * Dispatch: the contract of searpc_server_call_function

    The dispatcher answers a call from the registry's contract alone: which services exist and
    which function a service runs under a name.  [resolve] is that contract; the refinement
    theorem says the dispatcher on a well-formed server implements it, error responses and slow
    log included.  The other theorems are the ways out of the contract. *)
From S2P Require Import Prelude Json Runtime Utils GObject Marshal Server ServerSafety Responses.

Section DispatchContract.
Context `{Jansson} `{GObjectClasses} {W : Type}.

(** What a call amounts to. *)
Inductive resolution :=
| Reject (code : Z) (text : string)
| NoName
| Invoke (fitem : FuncItem W) (array : json).

Definition resolve (a : registry) (svc call : string) : resolution :=
  if rg_service a svc then
    match json_loadb call with
    | inl e => Reject 511 (snprintf_text 511 ("failed to load RPC call: " +:+ e +:+ String "010" ""))
    | inr array =>
        match json_string_value (json_array_get (Some array) 0) with
        | None => NoName
        | Some fn =>
            match rg_entry a svc fn with
            | None => Reject 500 (snprintf_text 255 ("cannot find function " +:+ fn +:+ "."))
            | Some fitem => Invoke fitem array
            end
        end
    end
  else Reject 501 (snprintf_text 255 ("cannot find service " +:+ svc +:+ ".")).

Definition usec_total (t : timeval) : Z := tv_sec t * G_USEC_PER_SEC + tv_usec t.

(** The line a call adds to the slow log: there is a log, the function is not filtered, and the
    call took at least the threshold, counted in whole milliseconds. *)
Definition slow_line (s : server W) (start finish : timeval) (svc fn call : string)
  : list (file * log_line) :=
  match slow_log_fp s with
  | None => []
  | Some fp =>
      let d := usec_total finish - usec_total start in
      if existsb (String.eqb fn) (filtered_funcs s) then []
      else if Z.quot d 1000 <? slow_threshold s then []
      else [(fp, mkLine (log_to_stdout s) (tv_sec start) svc call d)]
  end.

Definition add_lines (l : list (file * log_line)) (s : server W) : server W :=
  mkServer (marshal_table s) (service_table s) (slow_log_fp s) (slow_threshold s)
    (filtered_funcs s) (log_to_stdout s) (l ++ slow_log s).
End DispatchContract.

Arguments resolution {_} W.

Section DispatchFacts.
Context `{JanssonLaws} `{GObjectClasses} {W : Type}.
Implicit Types (s : server W) (w : W).

Lemma nul_free_snprintf n t : nul_free t = true -> nul_free (snprintf_text n t) = true.
Proof. apply str_forall_take. Qed.

Lemma nul_free_app a b : nul_free a = true -> nul_free b = true -> nul_free (a +:+ b) = true.
Proof. unfold nul_free. intros. rewrite str_forall_app. join_bools. Qed.

Lemma timersub_total a b : usec_total (timersub a b) = usec_total a - usec_total b.
Proof. unfold usec_total, timersub, G_USEC_PER_SEC. cbv zeta. destruct (_ <? 0); simpl; lia. Qed.

(** The name of a loaded call is a C string. *)
Lemma call_name_text call array fn :
  json_loadb call = inr array ->
  json_string_value (json_array_get (Some array) 0) = Some fn -> text_ok fn = true.
Proof.
  intros Hl Hf. apply json_loadb_ok in Hl as [Hp _]. unfold portable in Hp. split_bools.
  rewrite json_array_get_eq, json_string_value_eq in Hf.
  destruct array as [|l| | | | | |]; try done. destruct l as [|[| |s| | | | |] l]; simplify_eq/=.
  by split_bools.
Qed.

(** The dispatcher's bookkeeping after the call, written once. *)
Lemma log_update s start finish svc fn call :
  match slow_log_fp s with
  | Some fp =>
      if bool_decide (filtered_funcs s = []) || negb (rpc_include_passwd fn (filtered_funcs s))
      then print_slow_log_if_necessary svc call start (timersub finish start) fp s
      else s
  | None => s
  end = add_lines (slow_line s start finish svc fn call) s.
Proof.
  assert (add_lines [] s = s) as Hnil by (by destruct s).
  unfold slow_line. destruct (slow_log_fp s) as [fp|] eqn:Hfp; [|done].
  unfold rpc_include_passwd.
  assert (bool_decide (filtered_funcs s = []) || negb (existsb (String.eqb fn) (filtered_funcs s)) =
          negb (existsb (String.eqb fn) (filtered_funcs s))) as ->
    by (by destruct (filtered_funcs s)).
  destruct (existsb _ _); simpl; [done|].
  unfold print_slow_log_if_necessary. rewrite <- timersub_total. fold (usec_total (timersub finish start)).
  destruct (_ <? _); [done|]. unfold add_lines, add_log_line. simpl. by rewrite Hfp.
Qed.

Lemma lookup_wf marshals sv n fn :
  service_wf marshals n sv ->
  lookup_function (func_table sv) (Some fn) = Ok (item (W := W) <$> func_table sv !! fn).
Proof.
  intros [_ Hsv]. unfold lookup_function.
  destruct (func_table sv !! fn) as [nd|] eqn:Hn; [|done].
  destruct (Hsv _ _ Hn) as (-> & _). done.
Qed.

Lemma entry_name s svc fn fitem :
  server_wf s -> registered s svc fn = Some fitem -> fname fitem = fn.
Proof.
  intros (ms & svcs & _ & Hs & _ & Hsv) Hr. unfold registered in Hr. rewrite Hs in Hr. simpl in Hr.
  destruct (svcs !! svc) as [sv|] eqn:Hn; [|done]. simpl in Hr.
  destruct (func_table sv !! fn) as [nd|] eqn:Hf; [|done]. simplify_eq/=.
  by destruct (Hsv _ _ Hn) as [_ Hw]; destruct (Hw _ _ Hf) as (_ & ? & _).
Qed.

(** The dispatcher, case by case of the contract. *)
Lemma dispatch_spec start finish svc call s w :
  server_wf s -> nul_free svc = true ->
  match resolve (registry_of s) svc call with
  | Reject code text =>
      exists resp, searpc_server_call_function start finish svc call (s, w) = Ok (resp, (s, w)) /\
        json_loadb resp = inr (JObject (error_members code text)) /\ text_ok resp = true
  | NoName => exists why, searpc_server_call_function start finish svc call (s, w) = Undef why
  | Invoke fitem array =>
      searpc_server_call_function start finish svc call (s, w) =
        (rw <~ mfunc (marshal fitem) (func fitem) array w ;;
         Ok (rw.1, (add_lines (slow_line s start finish svc (fname fitem) call) s, rw.2)))
  end.
Proof.
  intros Hwf Hsvc. pose proof Hwf as (ms & svcs & Hm & Hs & Hmw & Hsw).
  assert (forall code text, is_int64 code = true -> nul_free text = true ->
    exists resp, (ret <~ error_to_json code (Some text) ;; Ok (ret, (s, w))) = Ok (resp, (s, w)) /\
      json_loadb resp = inr (JObject (error_members code text)) /\ text_ok resp = true) as Herr.
  { intros code text Hc Ht. destruct (error_to_json_spec code text Hc Ht) as (r & -> & ? & ?). by exists r. }
  assert (rg_service (registry_of s) svc = bool_decide (is_Some (svcs !! svc))) as Hrg
    by (simpl; by rewrite Hs).
  unfold resolve, searpc_server_call_function. rewrite Hrg, Hs. cbn [table_of obind rg_entry registry_of].
  destruct (svcs !! svc) as [sv|] eqn:Hn; cycle 1.
  { rewrite bool_decide_false by (intros [? ?]; done).
    apply Herr; [done|]. apply nul_free_snprintf. repeat apply nul_free_app; done. }
  rewrite bool_decide_true by done.
  destruct (json_loadb call) as [e|array] eqn:Hl.
  { unfold setjetoge, g_set_error. cbn [e_message]. apply Herr; [done|]. apply nul_free_snprintf.
    repeat apply nul_free_app; try done. by eapply json_loadb_error. }
  destruct (json_string_value (json_array_get (Some array) 0)) as [fn|] eqn:Hfn; [|by eexists].
  rewrite (lookup_wf ms sv svc fn) by (by apply Hsw). cbn [obind].
  rewrite (registered_lookup s svcs svc sv fn Hs Hn).
  destruct (func_table sv !! fn) as [nd|] eqn:Hf; cbn [fmap option_fmap option_map printf_s default from_option].
  - destruct (mfunc _ _ _ _) as [[r w']|why|why]; [|done|done]. cbn [obind fst snd]. by rewrite log_update.
  - apply Herr; [done|]. apply nul_free_snprintf. repeat apply nul_free_app; try done.
    eapply call_name_text in Hfn; [|done]. unfold text_ok in Hfn. by split_bools.
Qed.

(** A call changes nothing of the server but its slow log. *)
Lemma call_keeps_tables start finish svc call s w resp s' w' :
  server_wf s -> nul_free svc = true ->
  searpc_server_call_function start finish svc call (s, w) = Ok (resp, (s', w')) ->
  exists lines, s' = add_lines lines s /\ (length lines <= 1)%nat.
Proof.
  intros Hwf Hsvc Hc. pose proof (dispatch_spec start finish svc call s w Hwf Hsvc) as Hd.
  destruct (resolve _ _ _) as [code text| |fitem array].
  - destruct Hd as (r & Hr & _). rewrite Hr in Hc. simplify_eq.
    exists []. split; [by destruct s'|simpl; lia].
  - destruct Hd as [why Hd]. by rewrite Hd in Hc.
  - rewrite Hd in Hc. apply obind_Ok in Hc as (rw & _ & Hc). simplify_eq.
    eexists. split; [done|]. unfold slow_line. repeat case_match; simpl; lia.
Qed.

(** Registering a taken name leaves a node whose key is freed. *)
Lemma register_taken sn f fn sg s marshals services sv m nd :
  service_table s = Some services -> marshal_table s = Some marshals ->
  services !! sn = Some sv -> marshals !! sg = Some m ->
  func_table sv !! fn = Some nd -> key_dangling nd = false ->
  searpc_server_register_function (Some sn) (Some f) (Some fn) (Some sg) s =
    Ok (true, set_service_table
      (Some (<[sn := mkService (name sv) (<[fn := mkNode true (mkFunc f fn m)]> (func_table sv))]> services)) s).
Proof.
  intros Hs Hm Hsn Hsg Hnd Hd. cbn [searpc_server_register_function].
  rewrite Hs, Hm. cbn [table_of obind]. rewrite Hsn. rewrite Hsg.
  unfold insert_function. cbn [fname]. by rewrite Hnd, Hd.
Qed.

Lemma registered_inv s sn fn fitem :
  registered s sn fn = Some fitem ->
  exists services sv nd, service_table s = Some services /\ services !! sn = Some sv /\
    func_table sv !! fn = Some nd /\ item nd = fitem.
Proof.
  unfold registered. destruct (service_table s) as [services|] eqn:Hs; [|done]. simpl.
  destruct (services !! sn) as [sv|] eqn:Hn; [|done]. simpl.
  destruct (func_table sv !! fn) as [nd|] eqn:Hf; [|done]. simpl. intros [= <-].
  by exists services, sv, nd.
Qed.
End DispatchFacts.

(** ** Properties *)
Section DispatchProperties.
Context `{JanssonLaws} `{GObjectClasses} {W : Type}.
Implicit Types (s : server W) (w : W).

(** C10: the dispatcher refines its contract: on every well-formed server and whatever the call,
    an unknown service, a text that does not load and an unknown function are answered with a
    response that loads to error 501, 511 or 500 and its (truncated) message, with the server
    and the RPC state as they were; any other call is the registered function's marshal applied
    to the loaded call, after which only the slow log has grown, by the line of a slow call. *)
Theorem dispatch_refines start finish svc call s w :
  server_wf s -> nul_free svc = true -> resolve (registry_of s) svc call <> NoName ->
  match resolve (registry_of s) svc call with
  | Reject code text =>
      exists resp, searpc_server_call_function start finish svc call (s, w) = Ok (resp, (s, w)) /\
        json_loadb resp = inr (JObject (error_members code text))
  | NoName => False
  | Invoke fitem array =>
      searpc_server_call_function start finish svc call (s, w) =
        (rw <~ mfunc (marshal fitem) (func fitem) array w ;;
         Ok (rw.1, (add_lines (slow_line s start finish svc (fname fitem) call) s, rw.2)))
  end.
Proof.
  intros Hwf Hsvc Hname. pose proof (dispatch_spec start finish svc call s w Hwf Hsvc) as Hd.
  destruct (resolve _ _ _); naive_solver.
Qed.

(** C39: a call whose first element is not a string (a number, an empty array, an object) crashes
    the dispatcher of any existing service: the NULL name is hashed. *)
Theorem nameless_call_undefined start finish svc call array s w :
  server_wf s -> nul_free svc = true -> rg_service (registry_of s) svc = true ->
  json_loadb call = inr array ->
  (forall fn l, array <> JArray (JString fn :: l)) ->
  exists why, searpc_server_call_function start finish svc call (s, w) = Undef why.
Proof.
  intros Hwf Hsvc Hr Hl Hno. pose proof (dispatch_spec start finish svc call s w Hwf Hsvc) as Hd.
  unfold resolve in Hd. rewrite Hr, Hl in Hd.
  destruct (json_string_value (json_array_get (Some array) 0)) as [fn|] eqn:Hfn; [|done].
  exfalso. rewrite json_array_get_eq, json_string_value_eq in Hfn.
  destruct array as [|l| | | | | |]; try done. destruct l as [|[| |fn'| | | | |] l]; simplify_eq/=.
  by eapply Hno.
Qed.

(** C40: registering a function name a second time reports success, and the next call of that
    name compares it with a freed key. *)
Theorem reregistered_call_undefined start finish sn f fn sg s w m call l :
  server_wf s -> is_Some (registered s sn fn) -> rg_marshal (registry_of s) sg = Some m ->
  json_loadb call = inr (JArray (JString fn :: l)) ->
  exists s', searpc_server_register_function (Some sn) (Some f) (Some fn) (Some sg) s = Ok (true, s') /\
    exists why, searpc_server_call_function start finish sn call (s', w) = Undef why.
Proof.
  intros Hwf [fitem Hr] Hm Hl. pose proof Hwf as (ms & svcs & Hms & Hs & _ & Hsw).
  apply registered_inv in Hr as (svcs' & sv & nd & Hs' & Hsn & Hnd & _).
  assert (svcs' = svcs) as -> by congruence.
  simpl in Hm. rewrite Hms in Hm. simpl in Hm.
  destruct (Hsw _ _ Hsn) as [_ Hf]. destruct (Hf _ _ Hnd) as (Hd & _).
  eexists. split; [by eapply register_taken|].
  unfold searpc_server_call_function. cbn [service_table set_service_table table_of obind].
  rewrite lookup_insert_eq, Hl, json_array_get_eq, json_string_value_eq. cbn.
  rewrite lookup_insert_eq. cbn. by eexists.
Qed.

(** Every call leaves a well-formed server well formed, with the same services, marshals
    and functions. *)
Theorem call_preserves_server start finish svc call s w resp s' w' :
  server_wf s -> nul_free svc = true ->
  searpc_server_call_function start finish svc call (s, w) = Ok (resp, (s', w')) ->
  server_wf s' /\ registry_equiv (registry_of s') (registry_of s) /\
  exists lines, slow_log s' = lines ++ slow_log s /\ (length lines <= 1)%nat.
Proof.
  intros Hwf Hsvc Hc. destruct (call_keeps_tables start finish svc call s w resp s' w') as (lines & -> & Hl);
    [done..|].
  split; [by destruct Hwf as (ms & svcs & ? & ? & ?); exists ms, svcs|]. split; [done|]. by exists lines.
Qed.
End DispatchProperties.
