(* ===== verification/TypeSafety.v ===== *)
(** * TypeSafety: function pointers and their types

    The registry stores functions as [void *] and calls them through the marshal function that
    the signature text selects.  A server is built type-correctly when each marshal is registered
    under the signature generated with it, and each function under the signature of its own
    prototype; then no call goes through a pointer of another type, and calls do not get stuck. *)
From S2P Require Import Prelude Json Runtime Utils GObject Marshal Server ServerSafety Responses Dispatch.

(** ** Typed parameters *)
Section Parameters.
Context `{Jansson} `{GObjectClasses}.

(** The generator has a getter for the type. *)
Definition takeable (t : ctype) : bool :=
  match t with T_object | T_objlist => false | _ => true end.

(** A C argument of the parameter type [t]. *)
Definition param_ok (t : ctype) (p : cparam) : Prop :=
  match t, p with
  | T_string, PString None => True
  | T_string, PString (Some s) => text_ok s = true
  | T_int, PInt z => is_int z = true
  | T_int64, PInt64 z => is_int64 z = true
  | T_json, PJson None => True
  | T_json, PJson (Some v) => json_ok v = true
  | _, _ => False
  end.
End Parameters.

Section ParameterFacts.
Context `{JanssonLaws} `{GObjectClasses}.

Lemma array_element_ok array i v :
  json_ok array = true -> json_array_get (Some array) i = Some v -> json_ok v = true.
Proof.
  intros Hok Hget. rewrite json_array_get_eq in Hget. destruct array as [|l| | | | | |]; try done.
  simpl in Hok. rewrite forallb_forall in Hok. apply Hok, list_elem_of_In.
  by apply list_elem_of_lookup_2 in Hget.
Qed.

(** Whatever JSON a request holds, a getter yields an argument of its type. *)
Lemma get_parameter_ok t array i :
  takeable t = true -> json_ok array = true ->
  exists p, get_parameter t array i = Some p /\ param_ok t p.
Proof.
  intros Ht Hok. destruct t; try done; (eexists; split; [done|]); cbn [param_ok].
  - unfold json_array_get_string_or_null_element.
    destruct (json_array_get (Some array) i) as [v|] eqn:Hv; [|done].
    apply array_element_ok in Hv; [|done]. rewrite json_string_value_eq. by destruct v.
  - apply wrap_signed_range. lia.
  - unfold json_array_get_int_element.
    destruct (json_array_get (Some array) i) as [v|] eqn:Hv; rewrite json_integer_value_eq; [|done].
    apply array_element_ok in Hv; [|done]. by destruct v.
  - unfold json_array_get_json_or_null_element.
    destruct (json_array_get (Some array) i) as [v|] eqn:Hv; [|done]. by apply array_element_ok in Hv.
Qed.

Lemma get_parameters_ok types array i :
  forallb takeable types = true -> json_ok array = true ->
  exists ps, get_parameters types array i = Some ps /\ Forall2 param_ok types ps.
Proof.
  intros Ht Hok. revert i. induction types as [|t types IH]; intros i; [by exists []|].
  simpl in Ht. split_bools. destruct (get_parameter_ok t array i) as (p & Hp & Hpt); [done..|].
  destruct (IH ltac:(done) (S i)) as (ps & Hps & Hpst).
  exists (p :: ps). cbn [get_parameters]. rewrite Hp, Hps. split; [done|]. by constructor.
Qed.
End ParameterFacts.

(** ** Typed servers *)
Section Typed.
Context `{JanssonLaws} `{GObjectLaws} {W : Type}.
(** The prototypes of the program, the depth of the objects its functions return, the stack. *)
Context (md5 : string -> string) (table : list (ctype * list ctype)) (n stack : nat).
Implicit Types (s : server W) (f : cfunction W) (w : W).

(** A function of one of the prototypes that returns, on arguments of its parameter types, a
    value of its return type. *)
Definition well_behaved f : Prop :=
  In (c_ret f, c_params f) table /\
  forall params w, Forall2 param_ok (c_params f) params ->
    exists r e w', c_body f params w = Ok ((r, e), w') /\ ret_ok n (c_ret f) r /\ gerror_ok e.

(** Marshals go under the signature generated with them, functions under that of their type. *)
Definition op_typed (op : server_op W) : Prop :=
  match op with
  | OpMarshal sg m =>
      exists r a, In (r, a) table /\ sg = generate_signature md5 r a /\ m = generate_marshal stack r a
  | OpRegister _ f _ sg => well_behaved f /\ sg = generate_signature md5 (c_ret f) (c_params f)
  | _ => True
  end.

(** The life of a server: started, then administered and called in any order. *)
Inductive typed_run : server W -> Prop :=
| typed_start s s' : searpc_server_init (fun s => Ok s) s = Ok s' -> typed_run s'
| typed_op s op s' :
    typed_run s -> op_fresh op s -> op_typed op -> run_op op s = Ok s' -> typed_run s'
| typed_call s start finish svc call w resp s' w' :
    typed_run s -> nul_free svc = true ->
    searpc_server_call_function start finish svc call (s, w) = Ok (resp, (s', w')) -> typed_run s'.

(** The invariant, on the registry's contract. *)
Definition item_typed (it : FuncItem W) : Prop :=
  well_behaved (func it) /\
  mfunc (marshal it) = generate_marshal stack (c_ret (func it)) (c_params (func it)).

Definition registry_typed (a : registry) : Prop :=
  (forall sg m, rg_marshal a sg = Some m -> exists r ps, In (r, ps) table /\
     sg = generate_signature md5 r ps /\ m = generated_item stack md5 r ps) /\
  (forall sn fn it, rg_entry a sn fn = Some it -> item_typed it).

#[local] Instance registry_typed_proper : Proper (registry_equiv ==> iff) registry_typed.
Proof.
  intros a b (_ & Hm & He). unfold registry_typed.
  split; intros [H1' H2']; (split; [intros ??|intros ???]); rewrite ?Hm, ?He || rewrite <- ?Hm, <- ?He; eauto.
Qed.

Context (distinct : no_collision md5 table).

(** A signature of a prototype selects the marshal generated for it. *)
Lemma typed_marshal a f m :
  registry_typed a -> In (c_ret f, c_params f) table ->
  rg_marshal a (generate_signature md5 (c_ret f) (c_params f)) = Some m ->
  mfunc m = generate_marshal (W := W) stack (c_ret f) (c_params f).
Proof.
  intros [Hms _] Hin Hm. destruct (Hms _ _ Hm) as (r & ps & Hin' & Hsg & ->).
  destruct (signature_text_inj_aux (c_ret f) (c_params f) r ps) as [-> ->]; [|done].
  by apply distinct.
Qed.

Lemma registry_op_typed op a :
  registry_typed a -> op_typed op -> registry_typed (registry_op op a).
Proof.
  intros Ha Hop. pose proof Ha as [Hms Hes].
  destruct op as [[sn|]|[sn|]|sg m|sn f fn sg|o c]; try done; cbn [registry_op].
  - split; [exact Hms|]. intros k fn it. cbn [rg_entry]. case_match; [done|]. apply Hes.
  - split; [|exact Hes]. intros sg' m'. cbn [rg_marshal].
    destruct (String.eqb_spec sg' sg) as [->|]; [|apply Hms]. destruct Hop as (r & ps & Hin & -> & ->).
    destruct (rg_marshal a (generate_signature md5 r ps)) as [m|] eqn:Hm; simpl; intros [= <-]; [by apply Hms|].
    by exists r, ps.
  - destruct Hop as [Hf ->]. destruct (rg_marshal a _) as [m|] eqn:Hm; [|done].
    split; [exact Hms|]. intros k fn' it. cbn [rg_entry]. case_match; [|apply Hes].
    intros [= <-]. split; [exact Hf|]. cbn [func marshal]. by eapply typed_marshal; [|apply Hf|].
Qed.

Lemma typed_run_ok s : typed_run s -> server_wf s /\ registry_typed (registry_of s).
Proof.
  induction 1 as [s s' Hinit|s op s' _ [Hwf Hty] Hfresh Hop Hrun|s start finish svc call w resp s' w' _ [Hwf Hty] Hsvc Hc].
  - split; [by eapply init_wf|]. unfold searpc_server_init in Hinit. simplify_eq.
    split; [intros sg m Hm|intros sn fn it Hit]; by (simpl in * || done).
  - split; [by eapply run_op_wf|]. destruct (not_reopen op) eqn:Hno.
    + destruct (op_refines op s) as (s'' & Hrun' & Heq); [done..|].
      rewrite Hrun in Hrun'. simplify_eq. rewrite Heq. by apply registry_op_typed.
    + destruct op; try done. simpl in Hrun. apply obind_Ok in Hrun as (r & Hr & [= <-]).
      apply reopen_tables in Hr as [Hm Hs]. unfold registry_of, registered. by rewrite Hm, Hs.
  - destruct (call_keeps_tables start finish svc call s w resp s' w') as (lines & -> & _); [done..|].
    split; [|exact Hty]. by destruct Hwf as (ms & svcs & ? & ? & ?); exists ms, svcs.
Qed.

(** ** Properties *)

(** C22: types of function pointers: however a server was administered, if marshals were registered
    under their generated signatures and functions under the signatures of their own prototypes,
    on which MD5 does not collide, then the marshal kept for any function is the one generated for
    exactly its return type and parameter types. *)
Theorem function_pointers_typed s sn fn it :
  typed_run s -> registered s sn fn = Some it ->
  mfunc (marshal it) = generate_marshal stack (c_ret (func it)) (c_params (func it)).
Proof. intros Hs Hit. destruct (typed_run_ok s Hs) as [_ [_ He]]. by eapply He. Qed.

(** The call: the dispatcher's contract, the marshal of the prototype, the arguments it takes out of
    the request and the value the function returns. *)
Lemma typed_call_answered s start finish svc call w :
  typed_run s -> forallb (fun row => forallb takeable row.2) table = true ->
  (n <= stack)%nat -> (n <= wire_depth)%nat -> nul_free svc = true ->
  (forall array, json_loadb call = inr array -> exists fn l, array = JArray (JString fn :: l)) ->
  exists resp s' w' members,
    searpc_server_call_function start finish svc call (s, w) = Ok (resp, (s', w')) /\
    json_loadb resp = inr (JObject members) /\ text_ok resp = true.
Proof.
  intros Hs Htable Hst Hn Hsvc Hname. destruct (typed_run_ok s Hs) as [Hwf [_ He]].
  pose proof (dispatch_spec start finish svc call s w Hwf Hsvc) as Hd.
  unfold resolve in Hd. destruct (rg_service (registry_of s) svc); [|naive_solver].
  destruct (json_loadb call) as [e|array] eqn:Hl; [naive_solver|].
  destruct (Hname array eq_refl) as (fn & l & ->).
  rewrite json_array_get_eq, json_string_value_eq in Hd. cbn [lookup list_lookup] in Hd.
  destruct (rg_entry (registry_of s) svc fn) as [it|] eqn:Hit; [|naive_solver].
  destruct (He svc fn it Hit) as [[Hin Hbody] Hmar].
  apply json_loadb_ok in Hl as [Hp _]. unfold portable in Hp. split_bools.
  rewrite forallb_forall in Htable. apply Htable in Hin.
  destruct (get_parameters_ok (c_params (func it)) (JArray (JString fn :: l)) 1) as (ps & Hps & Hpt); [done..|].
  destruct (Hbody ps w Hpt) as (r & e & w' & Hrun & Hr & Herr).
  destruct (marshal_runs n n stack (func it) _ ps w r e w' Hps Hrun) as (resp & v & Hm & Hresp & Htr & _);
    [done..|].
  rewrite Hmar, Hm in Hd. cbn [obind fst snd] in Hd. by eexists resp, _, w', _.
Qed.

(** C23: calls do not get stuck: on such a server, whose functions return values of their types on
    arguments of their types, every call, whatever its text, whose first element (if it loads) is
    a string is answered with a C string that is a JSON object, and leaves such a server. *)
Theorem typed_calls_answered s start finish svc call w :
  typed_run s -> forallb (fun row => forallb takeable row.2) table = true ->
  (n <= stack)%nat -> (n <= wire_depth)%nat -> nul_free svc = true ->
  (forall array, json_loadb call = inr array -> exists fn l, array = JArray (JString fn :: l)) ->
  exists resp s' w' members,
    searpc_server_call_function start finish svc call (s, w) = Ok (resp, (s', w')) /\
    json_loadb resp = inr (JObject members) /\ text_ok resp = true /\ typed_run s'.
Proof.
  intros Hs Htable Hst Hn Hsvc Hname.
  destruct (typed_call_answered s start finish svc call w) as (resp & s' & w' & ms & Hc & Hl & Ht); try done.
  exists resp, s', w', ms. repeat split; try done. by eapply typed_call.
Qed.
End Typed.
