(* ===== verification/Client.v ===== *)
(** * Client: lib/searpc-client.c

    A client is its two transports.  A call is turned into the JSON text of a request
    ([fcall_to_str] reads the variable arguments), sent through the transport, and the reply is
    parsed by the function of the return type.  A reply is a heap buffer and the length the
    transport stored in [*ret_len]. *)
From S2P Require Import Prelude Json Runtime Utils GObject.

Record reply := mkReply { r_buf : cbuf; r_len : nat }.

(** TRANSPORT_ERROR and TRANSPORT_ERROR_CODE of searpc-client.h. *)
Definition TRANSPORT_ERROR : string := "Transport Error".
Definition TRANSPORT_ERROR_CODE : Z := 500.

(** The stack both sides have for objects: deeper than any value the JSON parser accepts. *)
Definition client_stack : nat := Z.to_nat 2049.

Section Client.
Context `{Jansson} `{GObjectClasses}.
(** [W]: the world transports act on; [Arg], [AsyncArg]: what the two [void *] arguments of the
    transports point to; [CbData]: what the user data of an asynchronous call points to. *)
Context {W Arg AsyncArg CbData : Type}.

(** ** Variable arguments *)

(** A value in the argument list.  Each parameter is a type name and a pointer-sized value. *)
Inductive cvalue :=
| VWord (z : Z)                    (* an integer passed in a pointer *)
| VInt64 (p : option Z)            (* gint64 * *)
| VString (s : option string)      (* char * *)
| VJson (v : option json).         (* const json_t * *)

Definition va_list : Type := list (string * cvalue).

(** The loop of [fcall_to_str]; [Ok None] is the NULL return for an unknown type.  Reading past
    the arguments, or reading an argument as what it is not, is undefined. *)
Fixpoint append_params (n : nat) (args : va_list) (array : json) : outcome (option json) :=
  match n with
  | O => Ok (Some array)
  | S n' =>
      match args with
      | [] => Undef "va_arg past the last argument"
      | (type, value) :: args' =>
          if String.eqb type "int" then
            match value with
            | VWord z =>
                append_params n' args' (json_array_append_new array (Some (json_integer (to_int z))))
            | _ => Undef "argument of another type"
            end
          else if String.eqb type "int64" then
            match value with
            | VInt64 (Some z) =>
                append_params n' args' (json_array_append_new array (Some (json_integer z)))
            | VInt64 None => Undef "NULL gint64 pointer"
            | _ => Undef "argument of another type"
            end
          else if String.eqb type "string" then
            match value with
            | VString s =>
                append_params n' args' (json_array_add_string_or_null_element array s)
            | _ => Undef "argument of another type"
            end
          else if String.eqb type "json" then
            match value with
            | VJson v =>
                append_params n' args' (json_array_add_json_or_null_element array v)
            | _ => Undef "argument of another type"
            end
          else Ok None
      end
  end.

Definition fcall_to_str (fname : string) (n_params : Z) (args : va_list)
  : outcome (option (string * nat)) :=
  let array := json_array_append_new json_array (json_string fname) in
  params <~ append_params (Z.to_nat n_params) args array ;;
  match params with
  | None => Ok None
  | Some array =>
      match json_dumps JSON_COMPACT array with
      | Some data => Ok (Some (data, String.length data))
      | None => Undef "strlen of NULL"
      end
  end.

(** ** Parsing replies *)

(** [inl error]: -1 with the error set; [inr object]: 0 with the loaded object. *)
Definition handle_ret_common (data : cbuf) (len : nat) (error : gerror_ptr)
  : outcome (gerror_ptr + json) :=
  bytes <~ cbuf_read data len ;;
  match json_loadb bytes with
  | inl jerror => Ok (inl (setjetoge jerror error))
  | inr object =>
      match json_object_get (Some object) "err_code" with
      | Some _ =>
          let err_code :=
            to_int (json_integer_value (json_object_get (Some object) "err_code")) in
          let err_msg := json_string_value (json_object_get (Some object) "err_msg") in
          Ok (inl (g_set_error error DFT_DOMAIN err_code (printf_s err_msg)))
      | None => Ok (inr object)
      end
  end.

(** What the five parsers below share: [dflt] on error, [k] on the loaded object. *)
Definition fret {A} (dflt : A) (k : json -> gerror_ptr -> outcome (A * gerror_ptr))
  (data : cbuf) (len : nat) (error : gerror_ptr) : outcome (A * gerror_ptr) :=
  r <~ handle_ret_common data len error ;;
  match r with
  | inl error => Ok (dflt, error)
  | inr object => k object error
  end.

Definition searpc_client_fret__string : cbuf -> nat -> gerror_ptr
  -> outcome (option string * gerror_ptr) :=
  fret None (fun object error =>
    Ok (json_object_get_string_or_null_member (Some object) "ret", error)).

Definition searpc_client_fret__int : cbuf -> nat -> gerror_ptr -> outcome (Z * gerror_ptr) :=
  fret (-1) (fun object error =>
    Ok (to_int (json_integer_value (json_object_get (Some object) "ret")), error)).

Definition searpc_client_fret__int64 : cbuf -> nat -> gerror_ptr -> outcome (Z * gerror_ptr) :=
  fret (-1) (fun object error =>
    Ok (json_integer_value (json_object_get (Some object) "ret"), error)).

Definition searpc_client_fret__object (gtype : gtype) : cbuf -> nat -> gerror_ptr
  -> outcome (option gobject * gerror_ptr) :=
  fret None (fun object error =>
    let member := json_object_get (Some object) "ret" in
    if json_is_null member then Ok (None, error)
    else
      ret <~ json_gobject_deserialize client_stack gtype member ;;
      Ok (Some ret, error)).

(** The loop over the array from index [i], [n] elements to go; [ret] is built by prepending.
    ([json_gobject_deserialize] never returns NULL, so the 503 branch is not taken.) *)
Fixpoint deserialize_objlist (gtype : gtype) (array : option json) (n i : nat)
  (ret : list gobject) : outcome (list gobject) :=
  match n with
  | O => Ok ret
  | S n' =>
      let member := json_array_get array i in
      obj <~ json_gobject_deserialize client_stack gtype member ;;
      deserialize_objlist gtype array n' (S i) (obj :: ret)
  end.

Definition searpc_client_fret__objlist (gtype : gtype) : cbuf -> nat -> gerror_ptr
  -> outcome (list gobject * gerror_ptr) :=
  fret [] (fun object error =>
    let array := json_object_get (Some object) "ret" in
    if json_is_null array then Ok ([], error)
    else
      match array with
      | None => Abort "array"
      | Some _ =>
          ret <~ deserialize_objlist gtype array (json_array_size array) 0 [] ;;
          Ok (List.rev ret, error)
      end).

Definition searpc_client_fret__json : cbuf -> nat -> gerror_ptr
  -> outcome (option json * gerror_ptr) :=
  fret None (fun object error =>
    let ret_obj := json_object_get (Some object) "ret" in
    match ret_obj with
    | None => Ok (None, error)
    | Some _ =>
        if json_is_null ret_obj then Ok (None, error)
        else Ok (json_deep_copy ret_obj, error)
    end).

(** ** Clients *)

(** The private data of an asynchronous call; the callback gets the result, the user data and
    the error. *)
Inductive call_result :=
| CNone                            (* NULL *)
| CInt (z : Z)
| CInt64 (z : Z)
| CString (s : option string)
| CObject (o : option gobject)
| CObjlist (l : list gobject)
| CJson (v : option json).

Record AsyncCallData := mkAsync {
  callback : call_result -> CbData -> option GError -> run W unit;
  ret_type : string;
  gtype_of : option gtype;         (* 0 when the return type is not an object type *)
  cbdata : CbData
}.

Record SearpcClient := mkClient {
  send : option (Arg -> string -> nat -> run W (option reply));
  arg : option Arg;
  async_send : option (AsyncArg -> string -> nat -> AsyncCallData -> run W Z);
  async_arg : option AsyncArg
}.

Definition searpc_client_new : SearpcClient := mkClient None None None None.

Definition searpc_client_transport_send (client : SearpcClient) (fcall_str : string)
  (fcall_len : nat) : run W (option reply) :=
  match send client, arg client with
  | Some f, Some a => f a fcall_str fcall_len
  | _, _ => fun _ => Undef "no transport"
  end.

(** ** Synchronous calls *)

(** The body the typed calls share; [dflt] is their value when a precondition or the transport
    fails. *)
Definition client_call {A} (dflt : A) (parse : cbuf -> nat -> gerror_ptr -> outcome (A * gerror_ptr))
  (client : SearpcClient) (fname : option string) (error : gerror_ptr) (n_params : Z)
  (args : va_list) : run W (A * gerror_ptr) :=
  match fname with
  | None => rret (dflt, error)
  | Some fname =>
      fstr <- rlift (fcall_to_str fname n_params args) ;;
      match fstr with
      | None => rret (dflt, g_set_error error DFT_DOMAIN 0 "Invalid Parameter")
      | Some (fstr, len) =>
          fret <- searpc_client_transport_send client fstr len ;;
          match fret with
          | None => rret (dflt, g_set_error error DFT_DOMAIN TRANSPORT_ERROR_CODE TRANSPORT_ERROR)
          | Some fret => rlift (parse (r_buf fret) (r_len fret) error)
          end
      end
  end.

Definition searpc_client_call__int := client_call 0 searpc_client_fret__int.
Definition searpc_client_call__int64 := client_call 0 searpc_client_fret__int64.
Definition searpc_client_call__string := client_call None searpc_client_fret__string.
Definition searpc_client_call__json := client_call None searpc_client_fret__json.

(** [object_type] is 0 when it is [None]. *)
Definition searpc_client_call__object (client : SearpcClient) (fname : option string)
  (object_type : option gtype) (error : gerror_ptr) (n_params : Z) (args : va_list)
  : run W (option gobject * gerror_ptr) :=
  match fname, object_type with
  | Some _, Some t =>
      client_call None (searpc_client_fret__object t) client fname error n_params args
  | _, _ => rret (None, error)
  end.

Definition searpc_client_call__objlist (client : SearpcClient) (fname : option string)
  (object_type : option gtype) (error : gerror_ptr) (n_params : Z) (args : va_list)
  : run W (list gobject * gerror_ptr) :=
  match fname, object_type with
  | Some _, Some t =>
      client_call [] (searpc_client_fret__objlist t) client fname error n_params args
  | _, _ => rret ([], error)
  end.

(** A parser whose result is stored through [ret_ptr]. *)
Definition store {A} (wrap : A -> call_result)
  (r : outcome (A * gerror_ptr)) : outcome (option call_result * gerror_ptr) :=
  p <~ r ;; Ok (Some (wrap p.1), p.2).

(** The type of an object return value, which the caller has to give. *)
Definition need_type {A} (t : option gtype) (k : gtype -> outcome A) : outcome A :=
  match t with
  | Some t => k t
  | None => Undef "object type 0"
  end.

(** The generic call: [Some r] is what was stored in [*ret_ptr], [None] when it was not
    touched.  The string branch passes [len], the length of the request. *)
Definition searpc_client_call (client : SearpcClient) (fname ret_type : option string)
  (gobject_type : option gtype) (error : gerror_ptr) (n_params : Z) (args : va_list)
  : run W (option call_result * gerror_ptr) :=
  match fname, ret_type with
  | Some fname, Some ret_type =>
      fstr <- rlift (fcall_to_str fname n_params args) ;;
      match fstr with
      | None => rret (None, g_set_error error DFT_DOMAIN 0 "Invalid Parameter")
      | Some (fstr, len) =>
          fret <- searpc_client_transport_send client fstr len ;;
          match fret with
          | None => rret (None, g_set_error error DFT_DOMAIN TRANSPORT_ERROR_CODE TRANSPORT_ERROR)
          | Some fret =>
              let data := r_buf fret in
              let ret_len := r_len fret in
              rlift
                (if String.eqb ret_type "int" then
                   store CInt (searpc_client_fret__int data ret_len error)
                 else if String.eqb ret_type "int64" then
                   store CInt64 (searpc_client_fret__int64 data ret_len error)
                 else if String.eqb ret_type "string" then
                   store CString (searpc_client_fret__string data len error)
                 else if String.eqb ret_type "object" then
                   need_type gobject_type (fun t =>
                     store CObject (searpc_client_fret__object t data ret_len error))
                 else if String.eqb ret_type "objlist" then
                   need_type gobject_type (fun t =>
                     store CObjlist (searpc_client_fret__objlist t data ret_len error))
                 else if String.eqb ret_type "json" then
                   store CJson (searpc_client_fret__json data ret_len error)
                 else Ok (None, error))
          end
      end
  | _, _ => rret (None, error)
  end.

(** ** Asynchronous calls *)

(** What the callback's caller frees after it. *)
Inductive freed := FreeError (e : GError) | FreeResult (r : call_result) | FreeData.

Definition error_of (p : gerror_ptr) : option GError :=
  match p with ErrAt e => e | ErrNull => None end.

(** The result of an asynchronous call, and the error. *)
Definition parse_result (data : AsyncCallData) (retstr : cbuf) (len : nat)
  : outcome (call_result * option GError) :=
  let done r := p <~ r ;; Ok (default CNone p.1, error_of p.2) in
  let error := ErrAt None in
  if String.eqb (ret_type data) "int" then
    done (store CInt (searpc_client_fret__int retstr len error))
  else if String.eqb (ret_type data) "int64" then
    done (store CInt64 (searpc_client_fret__int64 retstr len error))
  else if String.eqb (ret_type data) "string" then
    done (store CString (searpc_client_fret__string retstr len error))
  else if String.eqb (ret_type data) "object" then
    done (need_type (gtype_of data) (fun t =>
      store CObject (searpc_client_fret__object t retstr len error)))
  else if String.eqb (ret_type data) "objlist" then
    done (need_type (gtype_of data) (fun t =>
      store CObjlist (searpc_client_fret__objlist t retstr len error)))
  else if String.eqb (ret_type data) "json" then
    done (store CJson (searpc_client_fret__json retstr len error))
  else Ok (CNone, None).

(** What the callback owns nothing of: strings, objects, lists and JSON values are freed. *)
Definition free_result (r : call_result) : list freed :=
  match r with
  | CString (Some _) | CObject (Some _) | CObjlist (_ :: _) | CJson (Some _) => [FreeResult r]
  | _ => []
  end.

(** [errstr] is the transport's error; the result is 0 and what was freed, in order. *)
Definition searpc_client_generic_callback (retstr : cbuf) (len : nat) (data : AsyncCallData)
  (errstr : option string) : run W (Z * list freed) :=
  match errstr with
  | Some errstr =>
      let error := mkGError DFT_DOMAIN 500 ("Transport error: " +:+ errstr) in
      _ <- callback data CNone (cbdata data) (Some error) ;;
      rret (0, [FreeError error; FreeData])
  | None =>
      re <- rlift (parse_result data retstr len) ;;
      _ <- callback data re.1 (cbdata data) re.2 ;;
      rret (0, free_result re.1 ++ [FreeData])
  end.

Definition searpc_client_async_call_v (client : SearpcClient) (fname : string)
  (callback : call_result -> CbData -> option GError -> run W unit) (ret_type : string)
  (gtype : option gtype) (cbdata : CbData) (n_params : Z) (args : va_list) : run W Z :=
  fstr <- rlift (fcall_to_str fname n_params args) ;;
  match fstr with
  | None => rret (-1)
  | Some (fstr, len) =>
      let data := mkAsync callback ret_type gtype cbdata in
      match async_send client, async_arg client with
      | Some f, Some a =>
          ret <- f a fstr len data ;;
          rret (if ret <? 0 then -1 else 0)
      | _, _ => fun _ => Undef "no transport"
      end
  end.

(** The typed wrappers. *)
Definition async_call (ret_type : string) (gtype : option gtype) (client : SearpcClient)
  (fname : option string) (callback : call_result -> CbData -> option GError -> run W unit)
  (cbdata : CbData) (n_params : Z) (args : va_list) : run W Z :=
  match fname with
  | None => rret (-1)
  | Some fname =>
      searpc_client_async_call_v client fname callback ret_type gtype cbdata n_params args
  end.

Definition searpc_client_async_call__int := async_call "int" None.
Definition searpc_client_async_call__int64 := async_call "int64" None.
Definition searpc_client_async_call__string := async_call "string" None.
Definition searpc_client_async_call__object (object_type : gtype) :=
  async_call "object" (Some object_type).
Definition searpc_client_async_call__objlist (object_type : gtype) :=
  async_call "objlist" (Some object_type).
Definition searpc_client_async_call__json := async_call "json" None.
End Client.

Arguments SearpcClient {_} W Arg AsyncArg CbData.
Arguments AsyncCallData {_} W CbData.
