(* ===== verification/ClientSafety.v ===== *)
(** * ClientSafety: what a client sends and what it makes of replies

    Requests: the array a call sends, and that the marshal on the other side reads the same
    parameters out of it.  Replies: the parsers on arbitrary bytes, and on the responses the
    server makes. *)
From S2P Require Import Prelude Json Runtime Utils GObject Marshal Server Responses Client.

(** ** Requests *)
Section RequestData.
Context `{Jansson} `{GObjectClasses}.

(** The variable arguments of a call with parameters of the given types. *)
Definition va_of (types : list ctype) (vals : list cvalue) : va_list :=
  zip_with (fun t v => (ctype_name t, v)) types vals.

(** A value a parameter type can send. *)
Definition arg_ok (t : ctype) (v : cvalue) : Prop :=
  match t, v with
  | T_string, VString None => True
  | T_string, VString (Some s) => text_ok s = true
  | T_int, VWord _ => True
  | T_int64, VInt64 (Some z) => is_int64 z = true
  | T_json, VJson None => True
  | T_json, VJson (Some v) => portable_elem v = true
  | _, _ => False
  end.

(** The element that carries it. *)
Definition arg_json (t : ctype) (v : cvalue) : json :=
  match v with
  | VString (Some s) => JString s
  | VWord z => JInteger (to_int z)
  | VInt64 (Some z) => JInteger z
  | VJson (Some v) => v
  | _ => JNull
  end.

(** The parameter the RPC function gets: a NULL [json_t] arrives as the JSON value null. *)
Definition arg_param (t : ctype) (v : cvalue) : cparam :=
  match v with
  | VString s => PString s
  | VWord z => PInt (to_int z)
  | VInt64 p => PInt64 (default 0 p)
  | VJson v => PJson (Some (default JNull v))
  end.
End RequestData.

Section RequestFacts.
Context `{JanssonLaws} `{GObjectClasses}.

Lemma append_params_spec types vals rest acc :
  Forall2 arg_ok types vals ->
  append_params (length types) (va_of types vals ++ rest) (JArray acc) =
    Ok (Some (JArray (acc ++ zip_with arg_json types vals))).
Proof.
  intros Hargs. revert acc. induction Hargs as [|t v types vals Hv _ IH]; intros acc; simpl.
  - by rewrite app_nil_r.
  - assert (forall j, append_params (length types) (va_of types vals ++ rest) (JArray (acc ++ [j])) =
      Ok (Some (JArray (acc ++ j :: zip_with arg_json types vals)))) as IH'
      by (intros j; by rewrite IH, <- app_assoc).
    destruct t, v as [z|[z|]|[s|]|[x|]]; try done; simpl in Hv |- *;
      unfold json_array_add_json_or_null_element;
      rewrite ?json_integer_eq, ?json_null_eq, ?json_deep_copy_eq, ?json_string_text by done;
      by rewrite json_array_append_new_eq, IH'.
Qed.

Lemma arg_json_elem t v : arg_ok t v -> portable_elem (arg_json t v) = true.
Proof.
  destruct t, v as [z|[z|]|[s|]|[x|]]; simpl; intros Hv; try done;
    apply portable_elem_scalar; try done.
  apply (wrap_signed_mono 32 64); [done|]. by apply wrap_signed_range.
Qed.

Lemma request_spec fname types vals rest :
  text_ok fname = true -> Forall2 arg_ok types vals ->
  exists s, fcall_to_str fname (Z.of_nat (length types)) (va_of types vals ++ rest) =
      Ok (Some (s, String.length s)) /\
    json_loadb s = inr (JArray (JString fname :: zip_with arg_json types vals)) /\
    text_ok s = true.
Proof.
  intros Hf Hargs. unfold fcall_to_str. rewrite Nat2Z.id, json_array_eq, json_string_text by done.
  rewrite json_array_append_new_eq, append_params_spec by done. simpl.
  destruct (dump_load JSON_COMPACT (JArray (JString fname :: zip_with arg_json types vals)))
    as (s & -> & Hl & Ht); [|done|by exists s].
  apply portable_array. simpl. rewrite portable_elem_scalar by done. simpl.
  clear -Hargs H0. induction Hargs as [|t v types vals Hv _ IH]; [done|].
  simpl. by rewrite (arg_json_elem t v Hv).
Qed.

(** The marshal's getters read back what the client put in. *)
Lemma get_parameters_spec types vals acc :
  Forall2 arg_ok types vals ->
  get_parameters types (JArray (acc ++ zip_with arg_json types vals)) (length acc) =
    Some (zip_with arg_param types vals).
Proof.
  intros Hargs. revert acc. induction Hargs as [|t v types vals Hv _ IH]; intros acc; [done|].
  cbn [get_parameters zip_with]. specialize (IH (acc ++ [arg_json t v])).
  rewrite <- app_assoc, length_app, Nat.add_comm in IH. cbn [app length Nat.add] in IH. rewrite IH.
  assert (json_array_get (Some (JArray (acc ++ arg_json t v :: zip_with arg_json types vals))) (length acc) =
          Some (arg_json t v)) as Hget
    by (by rewrite json_array_get_eq, list_lookup_middle).
  assert (get_parameter t (JArray (acc ++ arg_json t v :: zip_with arg_json types vals)) (length acc) =
          Some (arg_param t v)) as ->; [|done].
  unfold get_parameter, json_array_get_string_or_null_element, json_array_get_int_element,
    json_array_get_json_or_null_element. rewrite Hget.
  destruct t, v as [z|[z|]|[s|]|[x|]]; try done; simpl;
    rewrite ?json_string_value_eq, ?json_integer_value_eq; try done.
  do 2 f_equal. apply wrap_signed_id; [done|]. by apply wrap_signed_range.
Qed.

Lemma request_parameters fname types vals :
  Forall2 arg_ok types vals ->
  get_parameters types (JArray (JString fname :: zip_with arg_json types vals)) 1 =
    Some (zip_with arg_param types vals).
Proof. apply (get_parameters_spec types vals [JString fname]). Qed.

(** A type that is not one of the four ends the loop. *)
Lemma append_params_unknown types vals rest ty v n acc :
  Forall2 arg_ok types vals -> (length types < n)%nat ->
  forallb (fun k => negb (String.eqb ty k)) ["int"; "int64"; "string"; "json"] = true ->
  append_params n (va_of types vals ++ (ty, v) :: rest) (JArray acc) = Ok None.
Proof.
  intros Hargs Hn Hty. revert n acc Hn.
  induction Hargs as [|t x types vals Hv _ IH]; intros n acc Hn; (destruct n as [|n]; [simpl in Hn; lia|]).
  - simpl in *. rewrite !andb_true_r in Hty. split_bools.
    repeat match goal with Hb : negb ?b = true |- _ => apply negb_true_iff in Hb; rewrite Hb end. done.
  - assert (forall j, append_params n (va_of types vals ++ (ty, v) :: rest) (JArray (acc ++ [j])) = Ok None)
      as IH' by (intros j; apply IH; simpl in Hn; lia).
    destruct t, x as [z|[z|]|[s|]|[x|]]; try done; simpl in Hv |- *;
      unfold json_array_add_json_or_null_element;
      rewrite ?json_integer_eq, ?json_null_eq, ?json_deep_copy_eq, ?json_string_text by done;
      by rewrite json_array_append_new_eq, IH'.
Qed.
End RequestFacts.

(** ** Replies *)
Section ReplyFacts.
Context `{JanssonLaws} `{GObjectLaws}.

(** A reply that can be read: [len] written bytes. *)
Definition readable (data : cbuf) (len : nat) (bytes : string) : Prop :=
  cbuf_read data len = Ok bytes.

Lemma handle_ret_total data len bytes error :
  readable data len bytes -> exists r, handle_ret_common data len error = Ok r /\
    (forall o, r = inr o -> json_loadb bytes = inr o /\ json_object_get (Some o) "err_code" = None).
Proof.
  unfold readable, handle_ret_common. intros ->. cbn [obind].
  destruct (json_loadb bytes) as [e|o] eqn:Hl; [by eexists; split; [done|]|].
  destruct (json_object_get (Some o) "err_code") eqn:He; [by eexists; split; [done|]|].
  eexists. split; [done|]. by intros ? [= <-].
Qed.

(** A parser returns as soon as its continuation does on the values that load. *)
Lemma fret_total {A} (dflt : A) k data len bytes error :
  readable data len bytes ->
  (forall o, json_loadb bytes = inr o -> json_object_get (Some o) "err_code" = None ->
     exists r, k o error = Ok r) ->
  exists r, fret dflt k data len error = Ok r.
Proof.
  intros Hr Hk. destruct (handle_ret_total data len bytes error Hr) as (r & Hh & Ho).
  unfold fret. rewrite Hh. cbn [obind]. destruct r as [e|o]; [by eexists|].
  destruct (Ho o eq_refl). by apply Hk.
Qed.

Lemma loaded_member_depth bytes o k v :
  json_loadb bytes = inr o -> json_object_get (Some o) k = Some v -> (json_depth v < client_stack)%nat.
Proof.
  intros Hl Hg. apply json_loadb_ok in Hl as [Hp _]. unfold portable in Hp. split_bools.
  rewrite json_object_get_eq in Hg. destruct o as [ms| | | | | | |]; try done.
  apply member_get_In in Hg. apply Nat.leb_le in H5. cbn [json_depth] in H5.
  assert (json_depth v <= list_max (List.map (fun m => json_depth m.2) ms))%nat.
  { pose proof (proj1 (list_max_le_iff _ _) (Nat.le_refl (list_max (List.map (fun m => json_depth m.2) ms)))) as Hf.
    rewrite Forall_forall in Hf. apply Hf, list_elem_of_In, in_map_iff. by exists (k, v). }
  unfold client_stack, max_depth in *. lia.
Qed.

Lemma deserialize_objlist_total t array n i ret :
  (forall j v, json_array_get array j = Some v -> (json_depth v < client_stack)%nat) ->
  exists l, deserialize_objlist t array n i ret = Ok l.
Proof.
  intros Hd. revert i ret. induction n as [|n IH]; intros i ret; [by eexists|].
  cbn [deserialize_objlist]. destruct (json_array_get array i) as [v|] eqn:Hv.
  - destruct (deserialize_total client_stack t v) as (o & -> & _); [by eapply Hd|]. cbn [obind]. apply IH.
  - destruct (deserialize_null client_stack t) as (o & -> & _); [unfold client_stack; lia|].
    cbn [obind]. apply IH.
Qed.

Lemma element_depth v n i :
  (json_depth v < n)%nat ->
  forall x, json_array_get (Some v) i = Some x -> (json_depth x < n)%nat.
Proof.
  intros Hv x Hx. rewrite json_array_get_eq in Hx. destruct v as [|l| | | | | |]; try done.
  cbn [json_depth] in Hv.
  assert (json_depth x <= list_max (List.map json_depth l))%nat; [|lia].
  pose proof (proj1 (list_max_le_iff _ _) (Nat.le_refl (list_max (List.map json_depth l)))) as Hf.
  rewrite Forall_forall in Hf. apply Hf, list_elem_of_In, in_map.
  apply list_elem_of_In. by eapply list_elem_of_lookup_2.
Qed.

(** *** Replies that are the server's responses *)

Lemma member_get_ret v ms : member_get (("ret", v) :: ms) "ret" = Some v.
Proof. done. Qed.

(** A response without an error reaches the continuation with its object. *)
Lemma fret_success {A} (dflt : A) k data len bytes v error :
  readable data len bytes -> json_loadb bytes = inr (JObject [("ret", v)]) ->
  fret dflt k data len error = k (JObject [("ret", v)]) error.
Proof.
  unfold readable, fret, handle_ret_common. intros -> Hl. cbn [obind].
  rewrite Hl, json_object_get_eq. done.
Qed.

(** A response with an error makes every parser report it. *)
Lemma fret_error {A} (dflt : A) k data len bytes ms code msg :
  readable data len bytes -> is_int code = true ->
  json_loadb bytes = inr (JObject (ms ++ error_members code msg)) ->
  member_get ms "err_code" = None -> member_get ms "err_msg" = None ->
  fret dflt k data len (ErrAt None) =
    Ok (dflt, ErrAt (Some (mkGError DFT_DOMAIN code (if utf8_valid msg then msg else "(null)")))).
Proof.
  unfold readable, fret, handle_ret_common. intros -> Hc Hl H1' H2'. cbn [obind]. rewrite Hl.
  rewrite !json_object_get_eq.
  assert (forall key e, member_get ms key = None -> member_get (ms ++ e) key = member_get e key) as Hmem.
  { clear. intros key e. induction ms as [|[k v] ms IH]; simpl; [done|]. by destruct (String.eqb k key). }
  rewrite !Hmem by done.
  unfold error_members. simpl. rewrite json_integer_value_eq, wrap_signed_id by done.
  destruct (utf8_valid msg); simpl; by rewrite json_string_value_eq.
Qed.
End ReplyFacts.

(** ** Properties *)
Section RequestProperties.
Context `{JanssonLaws} `{GObjectClasses}.

(** C20: requests round trip: for every list of parameter types a function table can use and
    values they can send, [fcall_to_str] returns the text and its length, the text loads to an
    array that starts with the function's name, and the getters the marshal generator emits for
    those types read back exactly the parameters that were passed (a NULL [json_t] as null). *)
Theorem request_roundtrip fname types vals rest :
  text_ok fname = true -> Forall2 arg_ok types vals ->
  exists s array, fcall_to_str fname (Z.of_nat (length types)) (va_of types vals ++ rest) =
      Ok (Some (s, String.length s)) /\
    json_loadb s = inr array /\
    json_string_value (json_array_get (Some array) 0) = Some fname /\
    get_parameters types array 1 = Some (zip_with arg_param types vals).
Proof.
  intros Hf Hargs. destruct (request_spec fname types vals rest Hf Hargs) as (s & Hs & Hl & _).
  exists s, (JArray (JString fname :: zip_with arg_json types vals)).
  split; [done|]. split; [done|]. split; [|by apply request_parameters].
  by rewrite json_array_get_eq, json_string_value_eq.
Qed.

(** A string argument that is not UTF-8 is left out of the request, so the argument after it
    arrives in its place: the function is called with other values than the caller passed. *)
Theorem invalid_string_shifts fname bad good :
  text_ok fname = true -> nul_free bad = true -> utf8_valid bad = false -> text_ok good = true ->
  exists s array, fcall_to_str fname 2 [("string", VString (Some bad)); ("string", VString (Some good))] =
      Ok (Some (s, String.length s)) /\
    json_loadb s = inr array /\
    get_parameters [T_string; T_string] array 1 = Some [PString (Some good); PString None].
Proof.
  intros Hf Hn Hbad Hgood. unfold fcall_to_str.
  rewrite json_array_eq, json_string_text, json_array_append_new_eq by done. simpl.
  rewrite json_string_invalid, json_array_append_new_null, json_string_text,
    json_array_append_new_eq by done. simpl.
  destruct (dump_load JSON_COMPACT (JArray [JString fname; JString good])) as (s & -> & Hl & _).
  - apply portable_array. simpl. by rewrite !portable_elem_scalar.
  - done.
  - exists s, (JArray [JString fname; JString good]). split; [done|]. split; [done|].
    unfold json_array_get_string_or_null_element. simpl.
    by rewrite !json_array_get_eq, json_string_value_eq.
Qed.

(** A function name that is not UTF-8 is left out too: the server is asked for the function
    named by the first argument. *)
Theorem invalid_name_calls_argument fname arg :
  nul_free fname = true -> utf8_valid fname = false -> text_ok arg = true ->
  exists s array, fcall_to_str fname 1 [("string", VString (Some arg))] = Ok (Some (s, String.length s)) /\
    json_loadb s = inr array /\
    json_string_value (json_array_get (Some array) 0) = Some arg.
Proof.
  intros Hn Hbad Harg. unfold fcall_to_str.
  rewrite json_array_eq, json_string_invalid, json_array_append_new_null by done. simpl.
  rewrite json_string_text, json_array_append_new_eq by done. simpl.
  destruct (dump_load JSON_COMPACT (JArray [JString arg])) as (s & -> & Hl & _).
  - apply portable_array. simpl. by rewrite portable_elem_scalar.
  - done.
  - exists s, (JArray [JString arg]). split; [done|]. split; [done|].
    by rewrite json_array_get_eq, json_string_value_eq.
Qed.

Context {W Arg AsyncArg CbData : Type}.

(** A parameter of an unknown type, after any number of good ones, ends the call with the
    error "Invalid Parameter" before anything is sent. *)
Theorem unknown_parameter_type (client : SearpcClient W Arg AsyncArg CbData) fname types vals ty v rest n w :
  text_ok fname = true -> Forall2 arg_ok types vals -> Z.of_nat (length types) < n ->
  forallb (fun k => negb (String.eqb ty k)) ["int"; "int64"; "string"; "json"] = true ->
  searpc_client_call__string client (Some fname) (ErrAt None) n
    (va_of types vals ++ (ty, v) :: rest) w =
  Ok ((None, ErrAt (Some (mkGError DFT_DOMAIN 0 "Invalid Parameter"))), w).
Proof.
  intros Hf Hargs Hn Hty. unfold searpc_client_call__string, client_call, fcall_to_str.
  rewrite json_array_eq, json_string_text, json_array_append_new_eq by done.
  rewrite append_params_unknown by (done || lia). done.
Qed.
End RequestProperties.

Section ReplyProperties.
Context `{JanssonLaws} `{GObjectLaws}.

(** C27: the reply parsers are total: on any readable reply, whatever its bytes, the string,
    integer, object and JSON parsers return; the object list parser returns too, unless the
    reply is a JSON value with neither "err_code" nor "ret". *)
Theorem reply_parsers_total t data len bytes error :
  readable data len bytes ->
  (exists r, searpc_client_fret__string data len error = Ok r) /\
  (exists r, searpc_client_fret__int data len error = Ok r) /\
  (exists r, searpc_client_fret__int64 data len error = Ok r) /\
  (exists r, searpc_client_fret__object t data len error = Ok r) /\
  (exists r, searpc_client_fret__json data len error = Ok r) /\
  ((forall o, json_loadb bytes = inr o -> json_object_get (Some o) "ret" <> None) ->
    exists r, searpc_client_fret__objlist t data len error = Ok r).
Proof.
  intros Hr. repeat split; try (eapply fret_total; [exact Hr|]; intros o Hl He; by eexists).
  - eapply fret_total; [exact Hr|]. intros o Hl He. cbv beta zeta.
    destruct (json_is_null (json_object_get (Some o) "ret")); [by eexists|].
    destruct (json_object_get (Some o) "ret") as [v|] eqn:Hv.
    + destruct (deserialize_total client_stack t v) as (x & -> & _);
        [by eapply loaded_member_depth|by eexists].
    + destruct (deserialize_null client_stack t) as (x & -> & _); [unfold client_stack; lia|by eexists].
  - eapply fret_total; [exact Hr|]. intros o Hl He.
    cbv beta zeta. destruct (json_object_get (Some o) "ret") as [v|]; [|by eexists].
    destruct (json_is_null (Some v)); by eexists.
  - intros Hret. eapply fret_total; [exact Hr|]. intros o Hl He. cbv beta zeta.
    apply Hret in Hl as Hret'.
    destruct (json_object_get (Some o) "ret") as [v|] eqn:Hv; [|done].
    destruct (json_is_null (Some v)); [by eexists|].
    destruct (deserialize_objlist_total t (Some v) (json_array_size (Some v)) 0 []) as [l ->];
      [|by eexists].
    intros i x. apply element_depth. by eapply loaded_member_depth.
Qed.

(** A reply without "err_code" and "ret" makes the object list parser abort the client. *)
Theorem objlist_missing_ret_aborts t data len bytes o error :
  readable data len bytes -> json_loadb bytes = inr o ->
  json_object_get (Some o) "err_code" = None -> json_object_get (Some o) "ret" = None ->
  exists why, searpc_client_fret__objlist t data len error = Abort why.
Proof.
  unfold readable, searpc_client_fret__objlist, fret, handle_ret_common.
  intros -> Hl He Hr. cbn [obind]. rewrite Hl, He. cbn [obind]. rewrite Hr, json_is_null_eq.
  by eexists.
Qed.

(** A null in an object list does not give error 503 but an object with default
    properties. *)
Theorem objlist_null_element t data len bytes :
  readable data len bytes -> json_loadb bytes = inr (JObject [("ret", JArray [JNull])]) ->
  searpc_client_fret__objlist t data len (ErrAt None) = Ok ([g_object_newv t []], ErrAt None).
Proof.
  intros Hr Hl. unfold searpc_client_fret__objlist. rewrite (fret_success _ _ _ _ _ _ _ Hr Hl).
  rewrite json_object_get_eq, member_get_ret, json_is_null_eq, json_array_size_eq.
  cbn [length deserialize_objlist]. rewrite json_array_get_eq. cbn [lookup list_lookup].
  assert (json_gobject_deserialize client_stack t (Some JNull) = Ok (g_object_newv t [])) as ->; [|done].
  unfold client_stack. destruct (Z.to_nat 2049) as [|k] eqn:Hk; [lia|].
  cbn [json_gobject_deserialize]. by rewrite json_object_iter_eq.
Qed.

Context {W Arg AsyncArg CbData : Type}.

(** [searpc_client_call] for a string reads as many bytes of the reply as the request had:
    a reply shorter than the request is read past its end. *)
Theorem generic_string_call_overreads (client : SearpcClient W Arg AsyncArg CbData) fname n args
    req error w body w' :
  fcall_to_str fname n args = Ok (Some (req, String.length req)) ->
  searpc_client_transport_send client req (String.length req) w =
    Ok (Some (mkReply (mkCbuf body (String.length body)) (String.length body)), w') ->
  (String.length body < String.length req)%nat ->
  exists why, searpc_client_call client (Some fname) (Some "string") None error n args w = Undef why.
Proof.
  intros Hreq Hsend Hlt. unfold searpc_client_call.
  rewrite (rbind_step _ _ _ (Some (req, String.length req)) w) by (by rewrite Hreq).
  rewrite (rbind_step _ _ _ _ _ Hsend). cbn. unfold searpc_client_fret__string, fret, handle_ret_common, cbuf_read.
  cbn. destruct (Nat.leb_spec (String.length req) (String.length body)); [lia|]. by eexists.
Qed.

(** The error of an asynchronous call belongs to the library when the transport failed (it is
    freed after the callback) and to nobody when the reply carried it (it is never freed). *)
Theorem callback_error_ownership (data : AsyncCallData W CbData) retstr len bytes ms code msg w u w' errstr :
  ret_type data = "int" -> readable retstr len bytes -> is_int code = true ->
  json_loadb bytes = inr (JObject (ms ++ error_members code msg)) ->
  member_get ms "err_code" = None -> member_get ms "err_msg" = None ->
  (forall r d e, callback data r d e w = Ok (u, w')) ->
  (exists e, searpc_client_generic_callback retstr len data (Some errstr) w =
     Ok ((0, [FreeError e; FreeData]), w')) /\
  parse_result data retstr len =
    Ok (CInt (-1), Some (mkGError DFT_DOMAIN code (if utf8_valid msg then msg else "(null)"))) /\
  searpc_client_generic_callback retstr len data None w = Ok ((0, [FreeData]), w').
Proof.
  intros Ht Hr Hc Hl Hm1 Hm2 Hcb.
  assert (parse_result data retstr len =
    Ok (CInt (-1), Some (mkGError DFT_DOMAIN code (if utf8_valid msg then msg else "(null)")))) as Hp.
  { unfold parse_result. rewrite Ht. simpl. unfold searpc_client_fret__int.
    by rewrite (fret_error _ _ _ _ _ _ _ _ Hr Hc Hl Hm1 Hm2). }
  split; [|split; [done|]].
  - eexists. unfold searpc_client_generic_callback. by rewrite (rbind_step _ _ _ _ _ (Hcb _ _ _)).
  - unfold searpc_client_generic_callback. rewrite (rbind_step _ _ _ _ w) by (by rewrite Hp).
    by rewrite (rbind_step _ _ _ _ _ (Hcb _ _ _)).
Qed.
End ReplyProperties.
