(* ===== verification/Rpc.v ===== *)
(** * Rpc: remote calls end to end

    [Transport] is what a client expects of its transport: it delivers a request to the server
    and brings the response back.  The transparency theorem is proved against that interface; the
    in-process transport of this file and the named pipe discharge it. *)
From S2P Require Import Prelude Json Runtime Utils GObject Marshal Server ServerSafety Responses Dispatch Client ClientSafety.

(** ** The interface *)

(** [X] is the client's world, [S] the server's; [tr_rel] relates them, and [tr_fits] says which
    requests and responses the transport can carry. *)
Class Transport `{Jansson} `{GObjectLib} {X Arg AsyncArg CbData S : Type}
    (client : SearpcClient X Arg AsyncArg CbData) (serve : string -> run S string) : Type := {
  tr_rel : X -> S -> Prop;
  tr_fits : string -> string -> Prop;
  tr_deliver req x st resp st' :
    tr_rel x st -> text_ok req = true -> serve req st = Ok (resp, st') -> tr_fits req resp ->
    exists buf x',
      searpc_client_transport_send client req (String.length req) x =
        Ok (Some (mkReply buf (String.length resp)), x') /\
      cbuf_read buf (String.length resp) = Ok resp /\ tr_rel x' st'
}.

(** ** Calls by return type *)
Section TypedCalls.
Context `{Jansson} `{GObjectClasses} {X Arg AsyncArg CbData : Type}.

Definition wrap_result {A} (f : A -> call_result) (p : A * gerror_ptr) : call_result * gerror_ptr :=
  (f p.1, p.2).

(** The family [searpc_client_call__...], by return type. *)
Definition typed_call (t : ctype) (gt : gtype) (client : SearpcClient X Arg AsyncArg CbData)
  (fname : option string) (error : gerror_ptr) (n : Z) (args : va_list)
  : run X (call_result * gerror_ptr) :=
  match t with
  | T_string =>
      p <- searpc_client_call__string client fname error n args ;; rret (wrap_result CString p)
  | T_int => p <- searpc_client_call__int client fname error n args ;; rret (wrap_result CInt p)
  | T_int64 =>
      p <- searpc_client_call__int64 client fname error n args ;; rret (wrap_result CInt64 p)
  | T_object =>
      p <- searpc_client_call__object client fname (Some gt) error n args ;;
      rret (wrap_result CObject p)
  | T_objlist =>
      p <- searpc_client_call__objlist client fname (Some gt) error n args ;;
      rret (wrap_result CObjlist p)
  | T_json => p <- searpc_client_call__json client fname error n args ;; rret (wrap_result CJson p)
  end.

(** The family [searpc_client_fret__...]. *)
Definition typed_parse (t : ctype) (gt : gtype) (data : cbuf) (len : nat) (error : gerror_ptr)
  : outcome (call_result * gerror_ptr) :=
  match t with
  | T_string => p <~ searpc_client_fret__string data len error ;; Ok (wrap_result CString p)
  | T_int => p <~ searpc_client_fret__int data len error ;; Ok (wrap_result CInt p)
  | T_int64 => p <~ searpc_client_fret__int64 data len error ;; Ok (wrap_result CInt64 p)
  | T_object => p <~ searpc_client_fret__object gt data len error ;; Ok (wrap_result CObject p)
  | T_objlist => p <~ searpc_client_fret__objlist gt data len error ;; Ok (wrap_result CObjlist p)
  | T_json => p <~ searpc_client_fret__json data len error ;; Ok (wrap_result CJson p)
  end.

(** What the client sees when the reply carries an error. *)
Definition error_result (t : ctype) : call_result :=
  match t with
  | T_string => CString None
  | T_int => CInt (-1)
  | T_int64 => CInt64 (-1)
  | T_object => CObject None
  | T_objlist => CObjlist []
  | T_json => CJson None
  end.

(** The client's value [c] is the function's return value [r]: objects agree on every listed
    property, and a JSON null is NULL. *)
Definition same_value (n : nat) (t : ctype) (r : cret) (c : call_result) : Prop :=
  match t, r, c with
  | T_string, RString s, CString s' => s' = s
  | T_int, RInt z, CInt z' => z' = z
  | T_int64, RInt64 z, CInt64 z' => z' = z
  | T_object, RObject None, CObject None => True
  | T_object, RObject (Some o), CObject (Some o') => obj_same n o o'
  | T_objlist, RObjlist l, CObjlist l' => Forall2 (obj_same n) l l'
  | T_json, RJson v, CJson v' => v' = match v with Some JNull => None | _ => v end
  | _, _, _ => False
  end.

(** The objects of a return value have the type the client asks for. *)
Definition ret_typed (gt : gtype) (r : cret) : Prop :=
  match r with
  | RObject (Some o) => g_object_type o = gt
  | RObjlist l => Forall (fun o => g_object_type o = gt) l
  | _ => True
  end.

(** The error the client reports for an RPC error. *)
Definition client_error (code : Z) (msg : string) : GError :=
  mkGError DFT_DOMAIN code (if utf8_valid msg then msg else "(null)").
End TypedCalls.

Section RpcFacts.
Context `{JanssonLaws} `{GObjectLaws} {X Arg AsyncArg CbData : Type}.
Implicit Types (client : SearpcClient X Arg AsyncArg CbData).

Lemma typed_call_step t gt client fname n args req x rep x' :
  fcall_to_str fname n args = Ok (Some (req, String.length req)) ->
  searpc_client_transport_send client req (String.length req) x = Ok (Some rep, x') ->
  typed_call t gt client (Some fname) (ErrAt None) n args x =
    rlift (typed_parse t gt (r_buf rep) (r_len rep) (ErrAt None)) x'.
Proof.
  intros Hreq Hsend.
  assert (forall A (dflt : A) parse, client_call dflt parse client (Some fname) (ErrAt None) n args x =
            rlift (parse (r_buf rep) (r_len rep) (ErrAt None)) x') as Hcall.
  { intros A dflt parse. unfold client_call.
    rewrite (rbind_step _ _ _ (Some (req, String.length req)) x) by (by rewrite Hreq).
    by rewrite (rbind_step _ _ _ _ _ Hsend). }
  destruct t; unfold typed_call, searpc_client_call__string, searpc_client_call__int,
    searpc_client_call__int64, searpc_client_call__object, searpc_client_call__objlist,
    searpc_client_call__json; unfold rbind at 1; rewrite Hcall; unfold typed_parse, rlift;
    match goal with |- context [obind ?m _] => destruct m as [[]| |]; done end.
Qed.

Lemma deserialize_objlist_spec gt vs os pre acc :
  Forall2 (fun v o => json_gobject_deserialize client_stack gt (Some v) = Ok o) vs os ->
  deserialize_objlist gt (Some (JArray (pre ++ vs))) (length vs) (length pre) acc =
    Ok (List.rev os ++ acc).
Proof.
  intros Hvs. revert pre acc. induction Hvs as [|v o vs os Hv _ IH]; intros pre acc; [done|].
  cbn [length deserialize_objlist]. rewrite json_array_get_eq, list_lookup_middle by done.
  rewrite Hv. cbn [obind]. specialize (IH (pre ++ [v]) (o :: acc)).
  rewrite <- app_assoc, length_app, Nat.add_comm in IH. cbn [app length Nat.add] in IH. rewrite IH.
  simpl. by rewrite <- app_assoc.
Qed.

Lemma parse_error t gt data len bytes ms code msg :
  readable data len bytes -> is_int code = true ->
  json_loadb bytes = inr (JObject (ms ++ error_members code msg)) ->
  member_get ms "err_code" = None -> member_get ms "err_msg" = None ->
  typed_parse t gt data len (ErrAt None) =
    Ok (error_result t, ErrAt (Some (client_error code msg))).
Proof.
  intros Hr Hc Hl H1' H2'.
  destruct t; unfold typed_parse, searpc_client_fret__string, searpc_client_fret__int,
    searpc_client_fret__int64, searpc_client_fret__object, searpc_client_fret__objlist,
    searpc_client_fret__json; by rewrite (fret_error _ _ _ _ _ _ _ _ Hr Hc Hl H1' H2').
Qed.

(** The parser of the return type gives back the value the setter packed. *)
Lemma parse_success n t gt r data len bytes v :
  readable data len bytes -> json_loadb bytes = inr (JObject [("ret", v)]) ->
  ret_ok n t r -> ret_typed gt r -> ret_wire n client_stack t r v ->
  exists c, typed_parse t gt data len (ErrAt None) = Ok (c, ErrAt None) /\ same_value n t r c.
Proof.
  intros Hr Hl Hok Hty Hw.
  destruct t, r as [[s|]|z|z|[o|]|[|o l]|[x|]]; try done; simpl in Hok, Hw;
    unfold typed_parse, searpc_client_fret__string, searpc_client_fret__int,
      searpc_client_fret__int64, searpc_client_fret__object, searpc_client_fret__objlist,
      searpc_client_fret__json;
    rewrite (fret_success _ _ _ _ _ _ _ Hr Hl); cbv beta zeta;
    unfold json_object_get_string_or_null_member;
    rewrite ?json_object_get_eq, ?member_get_ret, ?json_string_value_eq, ?json_integer_value_eq,
      ?json_is_null_eq, ?json_deep_copy_eq; subst;
    try (eexists; split; [done|]; simpl; try done; by apply wrap_signed_id).
  - destruct Hw as (o' & _ & _ & _ & (ms & ->) & Hd & _ & Hsame). simpl in Hty. subst.
    rewrite Hd. by eexists.
  - destruct Hw as (vs & -> & Hvs).
    assert (exists os, Forall2 (fun v o => json_gobject_deserialize client_stack gt (Some v) = Ok o) vs os /\
              Forall2 (obj_same n) (o :: l) os) as (os & Hos & Hsame).
    { simpl in Hty. clear -Hvs Hty. revert Hvs Hty. generalize (o :: l). clear.
      intros l Hvs. induction Hvs as [|o v l vs (o' & _ & _ & _ & _ & Hd & _ & Hs) _ IH]; intros Hty.
      - exists []. by split.
      - apply Forall_cons in Hty as [<- Hty]. destruct (IH Hty) as (os & ? & ?).
        exists (o' :: os). split; by constructor. }
    pose proof (deserialize_objlist_spec gt vs os [] [] Hos) as E. cbn [app length] in E.
    rewrite json_array_size_eq, E.
    eexists. split; [done|]. simpl. by rewrite app_nil_r, rev_involutive.
  - destruct x; eexists; (split; [done|]); done.
Qed.

(** What the generated marshal answers for a call of its own function. *)
Lemma marshal_spec {W} n stack (f : cfunction W) fname vals w r error w' :
  Forall2 arg_ok (c_params f) vals ->
  c_body f (zip_with arg_param (c_params f) vals) w = Ok ((r, error), w') ->
  ret_ok n (c_ret f) r -> gerror_ok error -> (n <= stack)%nat -> (n <= wire_depth)%nat ->
  exists resp v,
    generate_marshal stack (c_ret f) (c_params f) f
      (JArray (JString fname :: zip_with arg_json (c_params f) vals)) w = Ok (resp, w') /\
    json_loadb resp = inr (JObject (("ret", v) :: gerror_members error)) /\ text_ok resp = true /\
    ret_wire n client_stack (c_ret f) r v.
Proof.
  intros Hargs Hbody Hr He Hst Hn.
  apply (marshal_runs n client_stack stack f _ (zip_with arg_param (c_params f) vals) w r error w'); try done.
  - by apply request_parameters.
  - unfold client_stack, wire_depth in *. lia.
Qed.
End RpcFacts.

(** ** The in-process transport *)
Section InProcess.
Context `{Jansson} `{GObjectClasses} {W AsyncArg CbData : Type}.
Context (start finish : timeval).

(** A transport function whose argument is the service's name and which calls the server in
    the same process, as the transports of tests/searpc.c do. *)
Definition local_send (svc : string) (fcall_str : string) (fcall_len : nat)
  : run (server W * W) (option reply) :=
  ret <- searpc_server_call_function start finish svc (str_take fcall_len fcall_str) ;;
  rret (Some (mkReply (cbuf_of_string ret) (String.length ret))).

Definition local_client (svc : string) : SearpcClient (server W * W) string AsyncArg CbData :=
  mkClient (Some local_send) (Some svc) None None.

#[export] Instance local_transport svc :
  Transport (local_client svc) (searpc_server_call_function (W := W) start finish svc).
Proof.
  refine {| tr_rel := eq; tr_fits _ _ := True |}.
  intros req x st resp st' -> Hreq Hserve _.
  exists (cbuf_of_string resp), st'. split; [|split; [apply cbuf_read_string|done]].
  unfold searpc_client_transport_send. cbn [send arg local_client]. unfold local_send.
  rewrite str_take_all by done. by rewrite (rbind_step _ _ _ _ _ Hserve).
Defined.
End InProcess.

(** ** Properties *)
Section Transparency.
Context `{JanssonLaws} `{GObjectLaws} {W X Arg AsyncArg CbData : Type}.
Context (start finish : timeval) (svc : string).
Context (client : SearpcClient X Arg AsyncArg CbData)
  `{!Transport client (searpc_server_call_function (W := W) start finish svc)}.

(** The function a server runs under [fname], with the marshal generated for its type. *)
Definition serves (s : server W) (fname : string) (stack : nat) (f : cfunction W) : Prop :=
  exists item, registered s svc fname = Some item /\ func item = f /\
    mfunc (marshal item) = generate_marshal stack (c_ret f) (c_params f).

(** The server's answer to a request for a function it runs, and what it carries. *)
Lemma call_answered n stack s fname f vals rest w r error w' :
  server_wf s -> nul_free svc = true -> text_ok fname = true -> serves s fname stack f ->
  Forall2 arg_ok (c_params f) vals ->
  c_body f (zip_with arg_param (c_params f) vals) w = Ok ((r, error), w') ->
  ret_ok n (c_ret f) r -> gerror_ok error -> (n <= stack)%nat -> (n <= wire_depth)%nat ->
  exists req resp v lines,
    fcall_to_str fname (Z.of_nat (length (c_params f))) (va_of (c_params f) vals ++ rest) =
      Ok (Some (req, String.length req)) /\ text_ok req = true /\ (0 < String.length req)%nat /\
    searpc_server_call_function start finish svc req (s, w) = Ok (resp, (add_lines lines s, w')) /\
    json_loadb resp = inr (JObject (("ret", v) :: gerror_members error)) /\ text_ok resp = true /\
    ret_wire n client_stack (c_ret f) r v.
Proof.
  intros Hwf Hsvc Hfn (item & Hreg & Hf & Hmar) Hargs Hbody Hr He Hst Hn.
  destruct (request_spec fname (c_params f) vals rest Hfn Hargs) as (req & Hreq & Hl & Htext).
  destruct (marshal_spec n stack f fname vals w r error w') as (resp & v & Hm & Hresp & Hrt & Hw);
    try done.
  apply loaded_not_empty in Hl as Hpos.
  pose proof (dispatch_spec start finish svc req s w Hwf Hsvc) as Hd.
  assert (resolve (registry_of s) svc req =
          Invoke item (JArray (JString fname :: zip_with arg_json (c_params f) vals))) as Hres.
  { unfold resolve. apply registered_inv in Hreg as Hinv.
    destruct Hinv as (services & sv & nd & Hs & Hsv & _).
    assert (rg_service (registry_of s) svc = true) as ->.
    { simpl. rewrite Hs. simpl. by rewrite Hsv, bool_decide_true. }
    rewrite Hl, json_array_get_eq, json_string_value_eq. simpl. by rewrite Hreg. }
  rewrite Hres in Hd. rewrite Hmar, Hf, Hm in Hd. cbn [obind fst snd] in Hd.
  by eexists req, resp, v, _.
Qed.

(** What a client has to see of a call that returned [r] and set [error]. *)
Definition call_outcome (n : nat) (t : ctype) (r : cret) (error : option GError) (c : call_result)
  (e : gerror_ptr) : Prop :=
  match error with
  | None => same_value n t r c /\ e = ErrAt None
  | Some err => c = error_result t /\ e = ErrAt (Some (client_error (e_code err) (e_message err)))
  end.

Lemma answer_parsed n t gt r error data len resp v :
  readable data len resp -> json_loadb resp = inr (JObject (("ret", v) :: gerror_members error)) ->
  ret_wire n client_stack t r v -> ret_ok n t r -> ret_typed gt r -> gerror_ok error ->
  exists c e, typed_parse t gt data len (ErrAt None) = Ok (c, e) /\ call_outcome n t r error c e.
Proof.
  intros Hr Hl Hw Hok Hty He. destruct error as [err|].
  - destruct He as [Hcode Hmsg]. cbn [gerror_members] in Hl.
    rewrite (parse_error _ gt data len resp [("ret", v)] (e_code err) (e_message err)) by done.
    by eexists _, _.
  - destruct (parse_success n t gt r data len resp v) as (c & -> & Hsame); try done.
    by eexists _, _.
Qed.

Lemma transparent_aux n gt stack s fname f vals rest x w r error w' :
  tr_rel x (s, w) -> server_wf s -> nul_free svc = true -> text_ok fname = true ->
  serves s fname stack f ->
  Forall2 arg_ok (c_params f) vals ->
  c_body f (zip_with arg_param (c_params f) vals) w = Ok ((r, error), w') ->
  ret_ok n (c_ret f) r -> ret_typed gt r -> gerror_ok error ->
  (n <= stack)%nat -> (n <= wire_depth)%nat ->
  (forall req len resp st',
     fcall_to_str fname (Z.of_nat (length (c_params f))) (va_of (c_params f) vals ++ rest) = Ok (Some (req, len)) ->
     searpc_server_call_function start finish svc req (s, w) = Ok (resp, st') -> tr_fits req resp) ->
  exists c e x' lines,
    typed_call (c_ret f) gt client (Some fname) (ErrAt None) (Z.of_nat (length (c_params f)))
      (va_of (c_params f) vals ++ rest) x = Ok ((c, e), x') /\
    tr_rel x' (add_lines lines s, w') /\ call_outcome n (c_ret f) r error c e.
Proof.
  intros Hx Hwf Hsvc Hfn Hserves Hargs Hbody Hr Hty He Hst Hn Hfits.
  destruct (call_answered n stack s fname f vals rest w r error w')
    as (req & resp & v & lines & Hreq & Htext & _ & Hserve & Hresp & _ & Hw); try done.
  destruct (tr_deliver req x (s, w) resp (add_lines lines s, w')) as (buf & x' & Hsend & Hread & Hx');
    [done..|by eapply Hfits|].
  rewrite (typed_call_step _ gt client fname _ _ req x _ x' Hreq Hsend). cbn [r_buf r_len].
  destruct (answer_parsed n (c_ret f) gt r error buf (String.length resp) resp v) as (c & e & Hp & Hc);
    try done.
  unfold rlift. rewrite Hp. by eexists c, e, x', lines.
Qed.

(** C1: remote calls are transparent over any transport: when a well-formed server runs a
    function under a name with the marshal generated for its type, a client call of that name
    with arguments of the parameter types returns what the function returns on the parameters,
    objects compared by their listed properties and NULL identified with JSON null; when the
    function sets an error, the client reports that error's code and message and the error value
    of the return type.  The server keeps its registry and may log the call. *)
Theorem rpc_transparent n gt stack s fname f vals rest x w r error w' :
  tr_rel x (s, w) -> server_wf s -> nul_free svc = true -> text_ok fname = true ->
  serves s fname stack f ->
  Forall2 arg_ok (c_params f) vals ->
  c_body f (zip_with arg_param (c_params f) vals) w = Ok ((r, error), w') ->
  ret_ok n (c_ret f) r -> ret_typed gt r -> gerror_ok error ->
  (n <= stack)%nat -> (n <= wire_depth)%nat ->
  (forall req len resp st',
     fcall_to_str fname (Z.of_nat (length (c_params f))) (va_of (c_params f) vals ++ rest) =
       Ok (Some (req, len)) ->
     searpc_server_call_function start finish svc req (s, w) = Ok (resp, st') -> tr_fits req resp) ->
  exists c e x' lines,
    typed_call (c_ret f) gt client (Some fname) (ErrAt None) (Z.of_nat (length (c_params f)))
      (va_of (c_params f) vals ++ rest) x = Ok ((c, e), x') /\
    tr_rel x' (add_lines lines s, w') /\ call_outcome n (c_ret f) r error c e.
Proof. apply transparent_aux. Qed.

(** C31: a call the server rejects (unknown service, unknown function) is reported to the client
    as that error, whatever return type was asked for, and changes nothing on the server. *)
Theorem rejected_call_reported t gt s fname types vals rest x w code text :
  tr_rel x (s, w) -> server_wf s -> nul_free svc = true -> text_ok fname = true ->
  Forall2 arg_ok types vals ->
  (forall req len, fcall_to_str fname (Z.of_nat (length types)) (va_of types vals ++ rest) =
     Ok (Some (req, len)) ->
     resolve (registry_of s) svc req = Reject code text /\
     forall resp st', searpc_server_call_function start finish svc req (s, w) = Ok (resp, st') ->
       tr_fits req resp) ->
  is_int code = true ->
  exists x',
    typed_call t gt client (Some fname) (ErrAt None) (Z.of_nat (length types))
      (va_of types vals ++ rest) x =
      Ok ((error_result t, ErrAt (Some (client_error code text))), x') /\ tr_rel x' (s, w).
Proof.
  intros Hx Hwf Hsvc Hfn Hargs Hrej Hcode.
  destruct (request_spec fname types vals rest Hfn Hargs) as (req & Hreq & _ & Htext).
  destruct (Hrej req _ Hreq) as [Hres Hfits].
  pose proof (dispatch_spec start finish svc req s w Hwf Hsvc) as Hd. rewrite Hres in Hd.
  destruct Hd as (resp & Hserve & Hl & _).
  destruct (tr_deliver req x (s, w) resp (s, w)) as (buf & x' & Hsend & Hread & Hx');
    [done..|by eapply Hfits|].
  exists x'. split; [|done].
  rewrite (typed_call_step _ gt client fname _ _ req x _ x' Hreq Hsend). cbn [r_buf r_len].
  unfold rlift. by rewrite (parse_error t gt buf _ resp [] code text).
Qed.
End Transparency.
