(* ===== verification/Async.v ===== *)
(** * Async: asynchronous calls end to end

    lib/searpc-client.c again: a call hands the request and its private data to the transport and
    returns; when the response is there, the transport gives both to
    [searpc_client_generic_callback].  Between the two the program may do anything. *)
From S2P Require Import Prelude Json Runtime Utils GObject Marshal Server ServerSafety Responses Dispatch Client ClientSafety Rpc.

Section Async.
Context `{JanssonLaws} `{GObjectLaws} {W X Arg AsyncArg CbData : Type}.
Implicit Types (client : SearpcClient X Arg AsyncArg CbData).
Implicit Types (cb : call_result -> CbData -> option GError -> run X unit).

(** The object type a call of return type [t] passes. *)
Definition async_gtype (t : ctype) (gt : gtype) : option gtype :=
  match t with T_object | T_objlist => Some gt | _ => None end.

(** The family [searpc_client_async_call__...], by return type. *)
Definition typed_async_call (t : ctype) (gt : gtype) client (fname : option string)
  (callback : call_result -> CbData -> option GError -> run X unit) (cbdata : CbData)
  (n : Z) (args : va_list) : run X Z :=
  match t with
  | T_string => searpc_client_async_call__string client fname callback cbdata n args
  | T_int => searpc_client_async_call__int client fname callback cbdata n args
  | T_int64 => searpc_client_async_call__int64 client fname callback cbdata n args
  | T_object => searpc_client_async_call__object gt client fname callback cbdata n args
  | T_objlist => searpc_client_async_call__objlist gt client fname callback cbdata n args
  | T_json => searpc_client_async_call__json client fname callback cbdata n args
  end.

(** The private data of such a call. *)
Definition typed_async_data (t : ctype) (gt : gtype)
  (callback : call_result -> CbData -> option GError -> run X unit) (cbdata : CbData)
  : AsyncCallData X CbData := mkAsync callback (ctype_name t) (async_gtype t gt) cbdata.

Lemma typed_async_call_send t gt client fname cb d n args f a req x :
  async_send client = Some f -> async_arg client = Some a ->
  fcall_to_str fname n args = Ok (Some (req, String.length req)) ->
  typed_async_call t gt client (Some fname) cb d n args x =
    (ret <- f a req (String.length req) (typed_async_data t gt cb d) ;;
     rret (if ret <? 0 then -1 else 0)) x.
Proof.
  intros Hf Ha Hreq. destruct t; unfold typed_async_call, searpc_client_async_call__string,
    searpc_client_async_call__int, searpc_client_async_call__int64, searpc_client_async_call__object,
    searpc_client_async_call__objlist, searpc_client_async_call__json, async_call,
    searpc_client_async_call_v;
    rewrite (rbind_step _ _ _ (Some (req, String.length req)) x) by (by rewrite Hreq);
    by rewrite Hf, Ha.
Qed.

(** The callback's library side reads a reply as the synchronous call of that type does. *)
Lemma parse_result_typed t gt cb (d : CbData) data len :
  parse_result (typed_async_data t gt cb d) data len =
    (p <~ typed_parse t gt data len (ErrAt None) ;; Ok (p.1, error_of p.2)).
Proof.
  unfold parse_result, typed_parse, store, need_type, typed_async_data, async_gtype. cbn [ret_type gtype_of].
  destruct t; simpl ctype_name; cbn [String.eqb Ascii.eqb Bool.eqb];
    match goal with |- context [obind ?m _] => by destruct m as [[]| |] end.
Qed.

Lemma generic_callback_typed t gt cb d data len c e (y : X) :
  typed_parse t gt data len (ErrAt None) = Ok (c, e) ->
  searpc_client_generic_callback data len (typed_async_data t gt cb d) None y =
    (_ <- cb c d (error_of e) ;; rret (0, free_result c ++ [FreeData])) y.
Proof.
  intros Hp. unfold searpc_client_generic_callback. unfold rbind at 1. unfold rlift.
  by rewrite parse_result_typed, Hp.
Qed.

(** ** Properties *)

(** C5: an asynchronous call is transparent over any transport: it hands the transport one request
    and the data of the call; the server answers that request by running the function, and
    whenever the response is given to the generic callback, with whatever state the program is
    in by then, the user's callback runs exactly once, with the function's value and no error or,
    when the function set an error, with the error value of the type and that error.  Afterwards
    the value and the data of the call are freed. *)
Theorem async_transparent start finish svc n gt stack (s : server W) client fname f vals rest w r error w'
    cb d send a :
  async_send client = Some send -> async_arg client = Some a ->
  server_wf s -> nul_free svc = true -> text_ok fname = true -> serves svc s fname stack f ->
  Forall2 arg_ok (c_params f) vals ->
  c_body f (zip_with arg_param (c_params f) vals) w = Ok ((r, error), w') ->
  ret_ok n (c_ret f) r -> ret_typed gt r -> gerror_ok error ->
  (n <= stack)%nat -> (n <= wire_depth)%nat ->
  exists req resp lines,
    (forall x, typed_async_call (c_ret f) gt client (Some fname) cb d (Z.of_nat (length (c_params f)))
                 (va_of (c_params f) vals ++ rest) x =
               (ret <- send a req (String.length req) (typed_async_data (c_ret f) gt cb d) ;;
                rret (if ret <? 0 then -1 else 0)) x) /\
    searpc_server_call_function start finish svc req (s, w) = Ok (resp, (add_lines lines s, w')) /\
    forall buf y, cbuf_read buf (String.length resp) = Ok resp ->
      exists c e, call_outcome n (c_ret f) r error c e /\
        searpc_client_generic_callback buf (String.length resp) (typed_async_data (c_ret f) gt cb d) None y =
          (_ <- cb c d (error_of e) ;; rret (0, free_result c ++ [FreeData])) y.
Proof.
  intros Hsend Ha Hwf Hsvc Hfn Hserves Hargs Hbody Hr Hty He Hst Hn.
  destruct (call_answered start finish svc n stack s fname f vals rest w r error w')
    as (req & resp & v & lines & Hreq & _ & _ & Hserve & Hresp & _ & Hw); try done.
  exists req, resp, lines. split; [|split; [exact Hserve|]].
  - intros x. by apply typed_async_call_send.
  - intros buf y Hbuf.
    destruct (answer_parsed n (c_ret f) gt r error buf (String.length resp) resp v)
      as (c & e & Hp & Hc); try done.
    exists c, e. split; [exact Hc|]. by apply generic_callback_typed.
Qed.
End Async.
