(* ===== verification/Pipe.v ===== *)
(** * Pipe: the framing of lib/searpc-named-pipe-transport.c

    A message is its length as a [guint32] in memory order (little endian here) and its bytes.
    The request text, and the framing of the client and of a connection's thread over the
    transfers of a platform; then, over any world with sockets, the read and write loops and both
    sides on POSIX (thread per connection, and epoll).  [endpoint] is the model of one: a stream
    socket whose system calls transfer as much as a schedule says, are interrupted, or fail. *)
From S2P Require Import Prelude Json Runtime Utils GObject Client.

(** ** System calls *)

(** What [read] returns: bytes (none at the end of the stream), or -1 with errno EINTR or not. *)
Inductive read_result := RGot (bytes : string) | RErr (eintr : bool).
(** What [write] returns: a count, or -1. *)
Inductive write_result := WGot (count : nat) | WErr (eintr : bool).

Class Sockets (X : Type) : Type := {
  sys_read : Z -> nat -> run X read_result;
  sys_write : Z -> string -> run X write_result;
  sys_close : Z -> run X Z;
  (** [epoll_ctl (epoll_fd, EPOLL_CTL_ADD, fd, ...)] *)
  sys_epoll_add : Z -> Z -> run X Z
}.

(** ** [guint32] in memory *)
Definition byte_of (z : Z) : ascii := ascii_of_N (Z.to_N (z mod 256)).
Definition of_byte (c : ascii) : Z := Z.of_N (N_of_ascii c).

Definition le32 (z : Z) : string :=
  String (byte_of z) (String (byte_of (Z.shiftr z 8))
    (String (byte_of (Z.shiftr z 16)) (String (byte_of (Z.shiftr z 24)) ""))).

Fixpoint le_decode (s : string) : Z :=
  match s with
  | EmptyString => 0
  | String c s' => of_byte c + 256 * le_decode s'
  end.

(** A variable of type [guint32] after [bytes] (at most four) were read over it. *)
Definition read_over (len : Z) (bytes : string) : Z :=
  le_decode (bytes +:+ str_drop (String.length bytes) (le32 len)).

(** [strlen] of the bytes of a buffer that ends with a NUL. *)
Fixpoint c_string (s : string) : string :=
  match s with
  | EmptyString => ""
  | String c s' => if Ascii.eqb c nul then "" else String c (c_string s')
  end.

(** ** Clients of a pipe *)

(** The size of the [path] members. *)
Definition PATH_SIZE : nat := 4096.

Record SearpcNamedPipeClient := mkPipeClient { path : string; pipe_fd : Z }.

Record ClientTransportData := mkTransportData { client : SearpcNamedPipeClient; service : string }.

(** [memcpy (client->path, path, strlen (path) + 1)] into a zeroed structure. *)
Definition searpc_create_named_pipe_client (p : string) : outcome SearpcNamedPipeClient :=
  if (String.length p + 1 <=? PATH_SIZE)%nat then Ok (mkPipeClient p 0)
  else Undef "memcpy past the end of path".

(** ** Transfers of a platform *)

(** The file has two pairs [pipe_read_n] and [pipe_write_n], for POSIX and for Windows, and two
    ways to end a connection; the framing below is written against this interface.  Reading
    yields the result and the bytes that were stored. *)
Class PipeIO (X : Type) : Type := {
  io_write_n : Z -> string -> run X Z;
  io_read_n : Z -> nat -> run X (Z * string);
  io_close : Z -> run X unit
}.

Section Transfers.
Context {X : Type} `{Sockets X}.
(** The number of rounds the loops get. *)
Context (fuel : nat).

(** The loop of [pipe_write_n]: [true] when everything was written. *)
Fixpoint write_loop (fuel : nat) (fd : Z) (ptr : string) : run X bool :=
  match ptr with
  | EmptyString => rret true
  | _ =>
      match fuel with
      | O => fun _ => Undef "pipe_write_n does not return"
      | S fuel' =>
          nwritten <- sys_write fd ptr ;;
          match nwritten with
          | WGot O => rret false
          | WGot k => write_loop fuel' fd (str_drop k ptr)
          | WErr eintr => if eintr then write_loop fuel' fd ptr else rret false
          end
      end
  end.

(** [vptr] are the [n] bytes to write. *)
Definition pipe_write_n (fd : Z) (vptr : string) : run X Z :=
  ok <- write_loop fuel fd vptr ;;
  rret (if ok : bool then Z.of_nat (String.length vptr) else -1).

(** The loop of [pipe_read_n], [nleft] bytes to go, [got] read so far. *)
Fixpoint read_loop (fuel : nat) (fd : Z) (nleft : nat) (got : string) : run X (bool * string) :=
  match nleft with
  | O => rret (true, got)
  | _ =>
      match fuel with
      | O => fun _ => Undef "pipe_read_n does not return"
      | S fuel' =>
          nread <- sys_read fd nleft ;;
          match nread with
          | RGot "" => rret (true, got)
          | RGot bytes =>
              read_loop fuel' fd (nleft - String.length bytes) (got +:+ bytes)
          | RErr eintr => if eintr then read_loop fuel' fd nleft got else rret (false, got)
          end
      end
  end.

(** The result and the bytes that were stored at [vptr]. *)
Definition pipe_read_n (fd : Z) (n : nat) : run X (Z * string) :=
  r <- read_loop fuel fd n "" ;;
  rret (if r.1 : bool then Z.of_nat (String.length r.2) else -1, r.2).

Definition posix_io : PipeIO X := {|
  io_write_n := pipe_write_n;
  io_read_n := pipe_read_n;
  io_close fd := _ <- sys_close fd ;; rret tt
|}.
End Transfers.

Section Requests.
Context `{Jansson}.

(** ** The request *)

Definition json_object_set_string_member (object : json) (key value : string) : json :=
  json_object_set_new object key (json_string value).

Definition json_object_get_string_member (object : json) (key : string) : option string :=
  let string := json_object_get (Some object) key in
  match string with
  | None => None
  | Some _ => json_string_value string
  end.

Definition request_to_json (service fcall_str : string) (fcall_len : nat) : option string :=
  let object := json_object in
  let temp_request := c_string (str_take fcall_len fcall_str) in
  let object := json_object_set_string_member object "service" service in
  let object := json_object_set_string_member object "request" temp_request in
  json_dumps JSON_DEFAULT object.

(** [None] for -1; otherwise the service and the call. *)
Definition request_from_json (content : cbuf) (len : nat) : outcome (option (string * string)) :=
  bytes <~ cbuf_read content len ;;
  match json_loadb bytes with
  | inl _ => Ok None
  | inr object =>
      match json_object_get_string_member object "service",
            json_object_get_string_member object "request" with
      | Some service, Some fcall_str => Ok (Some (service, fcall_str))
      | _, _ => Ok None
      end
  end.
End Requests.

(** ** The locals of a handler *)

(** A thread per connection: [bufsize] is a [guint32]. *)
Record handler_state := mkHandler { bufsize : Z; buf : cbuf }.

Definition handler_start : handler_state := mkHandler 4096 (g_malloc 4096).

(** [while (bufsize < len)]: double the buffer.  [None] when the rounds ran out. *)
Fixpoint grow (rounds : nat) (len : Z) (st : handler_state) : option handler_state :=
  if bufsize st <? len then
    match rounds with
    | O => None
    | S rounds' =>
        let bufsize := to_uint32 (bufsize st * 2) in
        grow rounds' len (mkHandler bufsize (g_realloc (buf st) (Z.to_nat bufsize)))
    end
  else Some st.

(** ** The framing *)
Section Framing.
Context `{Jansson} {X : Type} `{PipeIO X}.

(** [searpc_named_pipe_send], the client side. *)
Definition framed_send (data : ClientTransportData) (fcall_str : string)
  (fcall_len : nat) : run X (option reply) :=
  let fd := pipe_fd (client data) in
  match request_to_json (service data) fcall_str fcall_len with
  | None => fun _ => Undef "strlen of NULL"
  | Some json_str =>
      let len := to_uint32 (Z.of_nat (String.length json_str)) in
      w1 <- io_write_n fd (le32 len) ;;
      if w1 <? 0 then rret None else
      w2 <- io_write_n fd (str_take (Z.to_nat len) json_str) ;;
      if w2 <? 0 then rret None else
      r1 <- io_read_n fd 4 ;;
      if r1.1 <? 0 then rret None else
      let len := read_over len r1.2 in
      let buf := g_malloc (Z.to_nat len) in
      r2 <- io_read_n fd (Z.to_nat len) ;;
      if r2.1 <? 0 then rret None else
      rret (Some (mkReply (cbuf_write buf r2.2) (Z.to_nat len)))
  end.

(** The number of rounds the loops get. *)
Context (fuel : nat).
(** [searpc_server_call_function] at the server of the world: service, call. *)
Context (call_function : string -> string -> run X string).

(** One round of the loop of [named_pipe_client_handler]; [None]: break. *)
Definition framed_round (connfd : Z) (st : handler_state) : run X (option handler_state) :=
  r1 <- io_read_n connfd 4 ;;
  if r1.1 <? 0 then rret None else
  let len := read_over 0 r1.2 in
  if len =? 0 then rret None else
  match grow fuel len st with
  | None => fun _ => Undef "the buffer is doubled without end"
  | Some st =>
      r2 <- io_read_n connfd (Z.to_nat len) ;;
      let buf := cbuf_write (buf st) r2.2 in
      if (r2.1 <? 0) || (len =? 0) then rret None else
      req <- rlift (request_from_json buf (Z.to_nat len)) ;;
      match req with
      | None => rret None
      | Some (service, body) =>
          ret_str <- call_function service body ;;
          let ret_len := String.length ret_str in
          w1 <- io_write_n connfd (le32 (to_uint32 (Z.of_nat ret_len))) ;;
          if w1 <? 0 then rret None else
          w2 <- io_write_n connfd ret_str ;;
          if w2 <? 0 then rret None else
          rret (Some (mkHandler (bufsize st) buf))
      end
  end.

(** The loop, and what follows the break. *)
Fixpoint framed_loop (rounds : nat) (connfd : Z) (st : handler_state) : run X unit :=
  match rounds with
  | O => fun _ => Undef "the handler does not return"
  | S rounds' =>
      r <- framed_round connfd st ;;
      match r with
      | Some st => framed_loop rounds' connfd st
      | None => io_close connfd
      end
  end.
End Framing.

(** ** On POSIX *)
Section Pipe.
Context `{Jansson} {X : Type} `{Sockets X}.
(** The number of rounds the loops get. *)
Context (fuel : nat).

(** *** The client side *)

Definition searpc_named_pipe_send : ClientTransportData -> string -> nat -> run X (option reply) :=
  @framed_send _ X (posix_io fuel).

Definition searpc_client_with_named_pipe_transport {O : GObjectLib} {AsyncArg CbData : Type}
  (pipe_client : SearpcNamedPipeClient) (service : string)
  : SearpcClient X ClientTransportData AsyncArg CbData :=
  let new : SearpcClient X ClientTransportData AsyncArg CbData := searpc_client_new in
  let data := mkTransportData pipe_client service in
  mkClient (Some searpc_named_pipe_send) (Some data) (async_send new) (async_arg new).

(** *** One thread per connection *)

Context (call_function : string -> string -> run X string).

Definition handler_round : Z -> handler_state -> run X (option handler_state) :=
  @framed_round _ X (posix_io fuel) fuel call_function.

Definition handler_loop : nat -> Z -> handler_state -> run X unit :=
  @framed_loop _ X (posix_io fuel) fuel call_function.

Definition named_pipe_client_handler (rounds : nat) (connfd : Z) : run X unit :=
  handler_loop rounds connfd handler_start.

(** *** With epoll: one request, then the socket is watched again *)

(** The [ret] of the handler; the result of the second read goes through an [int]. *)
Definition epoll_request (epoll_fd connfd : Z) : run X Z :=
  r1 <- pipe_read_n fuel connfd 4 ;;
  if r1.1 <? 0 then rret (-1) else
  let len := read_over 0 r1.2 in
  if len <=? 0 then rret (-1) else
  let buf := g_malloc0 (Z.to_nat len) in
  r2 <- pipe_read_n fuel connfd (Z.to_nat len) ;;
  let n := to_int r2.1 in
  if n <? 0 then rret (-1) else
  req <- rlift (request_from_json (cbuf_write buf r2.2) (Z.to_nat len)) ;;
  match req with
  | None => rret (-1)
  | Some (service, body) =>
      ret_str <- call_function service body ;;
      let ret_len := String.length ret_str in
      w1 <- pipe_write_n fuel connfd (le32 (to_uint32 (Z.of_nat ret_len))) ;;
      if w1 <? 0 then rret (-1) else
      w2 <- pipe_write_n fuel connfd ret_str ;;
      if w2 <? 0 then rret (-1) else
      a <- sys_epoll_add epoll_fd connfd ;;
      rret (if a =? -1 then -1 else 0)
  end.

(** [true]: the connection is watched again; [false]: it was closed and its data freed. *)
Definition epoll_handler (epoll_fd connfd : Z) : run X bool :=
  ret <- epoll_request epoll_fd connfd ;;
  if ret <? 0 then _ <- sys_close connfd ;; rret false
  else rret true.
End Pipe.

(** ** A stream socket *)

(** What the next system call does: transfer at most so many bytes (at least one), be
    interrupted, or fail. *)
Inductive io_event := IoChunk (k : nat) | IoIntr | IoError.

(** The bytes that will arrive, the bytes that were written, and the schedules of the reads and
    the writes; past its schedule a call transfers all it can. *)
Record endpoint := mkEnd {
  inbox : string; outbox : string;
  read_events : list io_event; write_events : list io_event;
  closed : bool; watched : bool
}.

Definition take_chunk (limit : nat) (ep : endpoint) (events : list io_event) : read_result * endpoint :=
  (RGot (str_take limit (inbox ep)),
   mkEnd (str_drop limit (inbox ep)) (outbox ep) events (write_events ep) (closed ep) (watched ep)).

Definition ep_read (n : nat) (ep : endpoint) : read_result * endpoint :=
  match read_events ep with
  | IoIntr :: r => (RErr true, mkEnd (inbox ep) (outbox ep) r (write_events ep) (closed ep) (watched ep))
  | IoError :: r => (RErr false, mkEnd (inbox ep) (outbox ep) r (write_events ep) (closed ep) (watched ep))
  | IoChunk k :: r => take_chunk (Nat.min (Nat.max 1 k) n) ep r
  | [] => take_chunk n ep []
  end.

Definition put_chunk (k : nat) (s : string) (ep : endpoint) (events : list io_event)
  : write_result * endpoint :=
  (WGot k, mkEnd (inbox ep) (outbox ep +:+ str_take k s) (read_events ep) events (closed ep) (watched ep)).

Definition ep_write (s : string) (ep : endpoint) : write_result * endpoint :=
  match write_events ep with
  | IoIntr :: r => (WErr true, mkEnd (inbox ep) (outbox ep) (read_events ep) r (closed ep) (watched ep))
  | IoError :: r => (WErr false, mkEnd (inbox ep) (outbox ep) (read_events ep) r (closed ep) (watched ep))
  | IoChunk k :: r => put_chunk (Nat.min (Nat.max 1 k) (String.length s)) s ep r
  | [] => put_chunk (String.length s) s ep []
  end.

(** An endpoint beside the rest of a world.  A read that finds nothing in the inbox waits:
    [refill] is what the other end does meanwhile; if nothing arrives, the stream has ended. *)
Section EndpointSockets.
Context {T : Type} (refill : endpoint * T -> outcome (endpoint * T)).

Definition ep_wait (x : endpoint * T) : outcome (endpoint * T) :=
  match inbox x.1 with
  | EmptyString => refill x
  | _ => Ok x
  end.

#[export] Instance ep_sockets : Sockets (endpoint * T) := {|
  sys_read _ n x :=
    x' <~ ep_wait x ;; Ok ((ep_read n x'.1).1, ((ep_read n x'.1).2, x'.2));
  sys_write _ s x := Ok ((ep_write s x.1).1, ((ep_write s x.1).2, x.2));
  sys_close _ x :=
    Ok (0, (mkEnd (inbox x.1) (outbox x.1) (read_events x.1) (write_events x.1) true (watched x.1), x.2));
  sys_epoll_add _ _ x :=
    Ok (0, (mkEnd (inbox x.1) (outbox x.1) (read_events x.1) (write_events x.1) (closed x.1) true, x.2))
|}.
End EndpointSockets.
