(* ===== verification/PipeSafety.v ===== *)
(** * PipeSafety: framing over a socket that splits, interrupts and fails

    The read and write loops against any schedule, the request text, and what one round of the
    server's loop does with a framed request. *)
From S2P Require Import Prelude Json Runtime Utils GObject Responses Client Pipe.

(** A message on the wire. *)
Definition frame (s : string) : string := le32 (Z.of_nat (String.length s)) +:+ s.

(** A schedule without failures. *)
Definition smooth (events : list io_event) : bool :=
  forallb (fun e => match e with IoError => false | _ => true end) events.

Definition set_read (ep : endpoint) (i : string) (r : list io_event) : endpoint :=
  mkEnd i (outbox ep) r (write_events ep) (closed ep) (watched ep).
Definition set_written (ep : endpoint) (o : string) (w : list io_event) : endpoint :=
  mkEnd (inbox ep) o (read_events ep) w (closed ep) (watched ep).

(** Nothing more will arrive. *)
Definition no_peer {T} (x : endpoint * T) : outcome (endpoint * T) := Ok x.

(** ** [guint32] *)
Lemma of_byte_of z : of_byte (byte_of z) = z mod 256.
Proof.
  unfold of_byte, byte_of. pose proof (Z.mod_pos_bound z 256 ltac:(lia)).
  rewrite N_ascii_embedding by lia. lia.
Qed.

Lemma le_decode_le32 z : is_uint32 z = true -> le_decode (le32 z) = z.
Proof.
  unfold in_unsigned. intros Hz. cbn [le32 le_decode]. rewrite !of_byte_of.
  rewrite !Z.shiftr_div_pow2 by lia.
  change (2 ^ 8) with 256. change (2 ^ 16) with (256 * 256). change (2 ^ 24) with (256 * 256 * 256).
  rewrite <- !Z.div_div by lia.
  pose proof (Z.div_mod z 256 ltac:(lia)). pose proof (Z.div_mod (z / 256) 256 ltac:(lia)).
  pose proof (Z.div_mod (z / 256 / 256) 256 ltac:(lia)).
  rewrite (Z.mod_small (z / 256 / 256 / 256)); [lia|].
  split; [repeat apply Z.div_pos; lia|]. repeat apply Z.div_lt_upper_bound; lia.
Qed.

Lemma le32_length z : String.length (le32 z) = 4%nat.
Proof. done. Qed.

Lemma read_over_full z0 z : is_uint32 z = true -> read_over z0 (le32 z) = z.
Proof. apply le_decode_le32. Qed.

Lemma read_over_nothing z : is_uint32 z = true -> read_over z "" = z.
Proof. apply le_decode_le32. Qed.

Lemma c_string_id s : nul_free s = true -> c_string s = s.
Proof.
  unfold nul_free. induction s as [|c s IH]; [done|]. simpl. intros Hs. split_bools.
  destruct (Ascii.eqb c nul); [done|]. by rewrite IH.
Qed.

Lemma str_take_app_le n a b : (n <= String.length a)%nat -> str_take n (a +:+ b) = str_take n a.
Proof.
  revert a. induction n as [|n IH]; intros [|c a] Hn; simpl in Hn; try done; [lia|].
  rewrite str_app_cons. simpl. rewrite IH; [done|lia].
Qed.

Lemma str_drop_app_le n a b : (n <= String.length a)%nat -> str_drop n (a +:+ b) = str_drop n a +:+ b.
Proof.
  revert a. induction n as [|n IH]; intros [|c a] Hn; simpl in Hn; try done; [lia|].
  rewrite str_app_cons. simpl. rewrite IH; [done|lia].
Qed.

Lemma str_take_take n m s : str_take n s +:+ str_take m (str_drop n s) = str_take (n + m) s.
Proof.
  revert s. induction n as [|n IH]; intros [|c s]; try done; [by destruct m|].
  cbn [str_take str_drop Nat.add]. by rewrite str_app_cons, IH.
Qed.

Lemma str_drop_drop n m s : str_drop m (str_drop n s) = str_drop (n + m) s.
Proof. revert s. induction n as [|n IH]; intros [|c s]; try done; [by destruct m|]. apply IH. Qed.

(** ** The loops *)
Section Loops.
Context {T : Type} (refill : endpoint * T -> outcome (endpoint * T)).
Local Abbreviation sockets := (ep_sockets refill).

(** What a run of [write_loop] does: it appends a prefix, all of it when it succeeds; without
    failures in the schedule it succeeds. *)
Definition writes_prefix (fuel : nat) (fd : Z) (s : string) (ep : endpoint) (t : T) : Prop :=
  exists ok k w', @write_loop _ sockets fuel fd s (ep, t) =
      Ok (ok, (set_written ep (outbox ep +:+ str_take k s) w', t)) /\
    (length w' <= length (write_events ep))%nat /\
    (if ok : bool then k = String.length s else (k < String.length s)%nat) /\
    (smooth (write_events ep) = true -> ok = true /\ smooth w' = true).

Lemma write_loop_nil fuel fd ep (t : T) : writes_prefix fuel fd "" ep t.
Proof. exists true, O, (write_events ep). destruct fuel, ep; simpl; by rewrite str_app_nil_r. Qed.

Lemma write_loop_step fuel fd s r ep ep' (t : T) :
  (0 < String.length s)%nat -> ep_write s ep = (r, ep') ->
  @write_loop _ sockets (S fuel) fd s (ep, t) =
    match r with
    | WGot O => Ok (false, (ep', t))
    | WGot k => @write_loop _ sockets fuel fd (str_drop k s) (ep', t)
    | WErr eintr => if eintr then @write_loop _ sockets fuel fd s (ep', t) else Ok (false, (ep', t))
    end.
Proof.
  intros Hs Hw. destruct s as [|c s]; [simpl in Hs; lia|]. cbn [write_loop].
  rewrite (rbind_step _ _ (ep, t) r (ep', t)) by (simpl; by rewrite Hw).
  by destruct r as [[]|[]].
Qed.

Lemma write_loop_chunk fuel fd s k w ep (t : T) :
  (0 < k <= String.length s)%nat -> ep_write s ep = put_chunk k s ep w ->
  (length w <= length (write_events ep))%nat -> (smooth (write_events ep) = true -> smooth w = true) ->
  writes_prefix fuel fd (str_drop k s) (set_written ep (outbox ep +:+ str_take k s) w) t ->
  writes_prefix (S fuel) fd s ep t.
Proof.
  intros Hk Hw Hlen Hsm (ok & k' & w' & Hrun & Hl & Hok & Hs). rewrite str_drop_length in Hok.
  exists ok, (k + k')%nat, w'. split; [|split; [simpl in Hl; lia|split; [destruct ok; lia|naive_solver]]].
  rewrite (write_loop_step fuel fd s _ ep _ t ltac:(lia) Hw). destruct k as [|k]; [lia|].
  etransitivity; [exact Hrun|]. unfold set_written. cbn [inbox outbox read_events closed watched].
  by rewrite str_app_assoc, str_take_take.
Qed.

Lemma write_loop_spec fuel fd s ep (t : T) :
  (String.length s + length (write_events ep) <= fuel)%nat -> writes_prefix fuel fd s ep t.
Proof.
  revert s ep. induction fuel as [|fuel IH]; intros s ep Hf.
  { destruct s; [apply write_loop_nil|simpl in Hf; lia]. }
  destruct (decide (s = "")) as [->|Hne]; [apply write_loop_nil|].
  assert (0 < String.length s)%nat as Hpos by (destruct s; [done|simpl; lia]).
  destruct (write_events ep) as [|[k| |] r] eqn:Hev; simpl in Hf.
  - eapply (write_loop_chunk _ _ _ (String.length s) []); [lia|unfold ep_write; by rewrite Hev|simpl; lia|done|].
    apply IH. rewrite str_drop_length. simpl. lia.
  - eapply (write_loop_chunk _ _ _ (Nat.min (Nat.max 1 k) (String.length s)) r);
      [lia|unfold ep_write; by rewrite Hev|rewrite Hev; simpl; lia|by rewrite Hev|].
    apply IH. rewrite str_drop_length. simpl. lia.
  - destruct (IH s (set_written ep (outbox ep) r)) as (ok & k' & w' & Hrun & Hl & Hok & Hs); [simpl; lia|].
    exists ok, k', w'. rewrite Hev. split; [|split; [simpl in *; lia|done]].
    by rewrite (write_loop_step _ _ _ (WErr true) _ (set_written ep (outbox ep) r) _ Hpos)
      by (unfold ep_write; by rewrite Hev).
  - exists false, O, r. rewrite Hev. split; [|split; [simpl; lia|split; [lia|done]]].
    rewrite (write_loop_step _ _ _ (WErr false) _ (set_written ep (outbox ep) r) _ Hpos)
      by (unfold ep_write; by rewrite Hev).
    simpl. by rewrite str_app_nil_r.
Qed.

(** What a run of [read_loop] does: it takes a prefix of the inbox, all it was asked for or all
    there is when it succeeds; without failures in the schedule it succeeds. *)
Definition reads_prefix (fuel : nat) (fd : Z) (n : nat) (got : string) (ep : endpoint) (t : T) : Prop :=
  exists ok k r', @read_loop _ sockets fuel fd n got (ep, t) =
      Ok ((ok, got +:+ str_take k (inbox ep)), (set_read ep (str_drop k (inbox ep)) r', t)) /\
    (length r' <= length (read_events ep))%nat /\
    (k <= n `min` String.length (inbox ep))%nat /\
    (if ok : bool then k = (n `min` String.length (inbox ep))%nat else True) /\
    (smooth (read_events ep) = true -> ok = true /\ smooth r' = true).

(** The bytes are there or nothing more will come. *)
Definition settled (n : nat) (ep : endpoint) : Prop :=
  (n <= String.length (inbox ep))%nat \/ (forall x, inbox x.1 = "" -> refill x = Ok x).

Lemma settled_wait n ep (t : T) : settled (S n) ep -> ep_wait refill (ep, t) = Ok (ep, t).
Proof.
  intros Hin. unfold ep_wait. cbn [fst]. destruct (inbox ep) as [|c i] eqn:Hi; [|done].
  destruct Hin as [Hin|Hin]; [rewrite Hi in Hin; simpl in Hin; lia|]. by apply Hin.
Qed.

Lemma read_loop_step fuel fd n got r ep ep' (t : T) :
  settled (S n) ep -> ep_read (S n) ep = (r, ep') ->
  @read_loop _ sockets (S fuel) fd (S n) got (ep, t) =
    match r with
    | RGot "" => Ok ((true, got), (ep', t))
    | RGot bytes => @read_loop _ sockets fuel fd (S n - String.length bytes) (got +:+ bytes) (ep', t)
    | RErr eintr => if eintr then @read_loop _ sockets fuel fd (S n) got (ep', t)
                    else Ok ((false, got), (ep', t))
    end.
Proof.
  intros Hin Hr. cbn [read_loop]. rewrite (rbind_step _ _ (ep, t) r (ep', t)).
  - by destruct r as [[]|[]].
  - cbn [sys_read ep_sockets]. rewrite (settled_wait n) by done. cbn [obind fst snd]. by rewrite Hr.
Qed.

Lemma read_loop_chunk fuel fd n got k r ep (t : T) :
  settled (S n) ep -> (0 < k <= S n)%nat -> ep_read (S n) ep = take_chunk k ep r ->
  (length r <= length (read_events ep))%nat -> (smooth (read_events ep) = true -> smooth r = true) ->
  (forall j, (0 < j <= S n)%nat -> settled (S n - j) (set_read ep (str_drop j (inbox ep)) r) ->
     reads_prefix fuel fd (S n - j) (got +:+ str_take j (inbox ep)) (set_read ep (str_drop j (inbox ep)) r) t) ->
  reads_prefix (S fuel) fd (S n) got ep t.
Proof.
  intros Hin Hk Hr Hlen Hsm Hnext. pose proof (read_loop_step fuel fd n got _ ep _ t Hin Hr) as Hstep.
  destruct (decide (inbox ep = "")) as [He|Hne].
  { exists true, O, r. rewrite He in *. split; [|split; [done|split; [simpl; lia|split; [simpl; lia|naive_solver]]]].
    rewrite Hstep. destruct k; simpl; by rewrite str_app_nil_r. }
  set (j := (k `min` String.length (inbox ep))%nat).
  assert (0 < String.length (inbox ep))%nat by (destruct (inbox ep); [done|simpl; lia]).
  assert (str_take k (inbox ep) = str_take j (inbox ep) /\ str_drop k (inbox ep) = str_drop j (inbox ep)) as [Ht Hd].
  { destruct (Nat.le_ge_cases k (String.length (inbox ep))); [by replace j with k by lia|].
    by rewrite !str_take_all, !str_drop_all by lia. }
  destruct (Hnext j) as (ok & k' & r' & Hrun & Hl' & Hk' & Hok & Hs); [lia| |].
  { destruct Hin as [Hin|Hin]; [left|by right]. simpl. rewrite str_drop_length. lia. }
  cbn [inbox set_read read_events] in Hk', Hok, Hs, Hl'. rewrite str_drop_length in Hk', Hok.
  exists ok, (j + k')%nat, r'. split; [|split; [lia|split; [lia|split; [destruct ok; [lia|done]|naive_solver]]]].
  rewrite Hstep, Ht, Hd. pose proof (str_take_length j (inbox ep)) as Hlj.
  replace (j `min` String.length (inbox ep))%nat with j in Hlj by lia.
  destruct (str_take j (inbox ep)) as [|c i] eqn:Htj; [simpl in Hlj; lia|]. rewrite Hlj, <- Htj in *.
  etransitivity; [exact Hrun|]. cbn [inbox set_read]. rewrite str_app_assoc, str_take_take.
  unfold set_read. cbn [outbox write_events closed watched]. by rewrite str_drop_drop.
Qed.

Lemma read_loop_spec fuel fd n got ep (t : T) :
  settled n ep -> (n + length (read_events ep) < fuel)%nat -> reads_prefix fuel fd n got ep t.
Proof.
  revert n got ep. induction fuel as [|fuel IH]; intros n got ep Hin Hf; [lia|].
  destruct n as [|n].
  { exists true, O, (read_events ep). destruct ep; simpl. split; [by rewrite str_app_nil_r|]. by split. }
  destruct (read_events ep) as [|[k| |] r] eqn:Hev; cbn [length] in Hf.
  - eapply (read_loop_chunk _ _ _ _ (S n) []); [done|lia|unfold ep_read; by rewrite Hev|simpl; lia|done|].
    intros j Hj Hset. apply IH; [done|simpl; lia].
  - eapply (read_loop_chunk _ _ _ _ (Nat.min (Nat.max 1 k) (S n)) r);
      [done|lia|unfold ep_read; by rewrite Hev|rewrite Hev; simpl; lia|by rewrite Hev|].
    intros j Hj Hset. apply IH; [done|simpl; lia].
  - destruct (IH (S n) got (set_read ep (inbox ep) r)) as (ok & k' & r' & Hrun & Hl & Hk & Hok & Hs);
      [done|simpl; lia|].
    exists ok, k', r'. rewrite Hev. split; [|split; [simpl in *; lia|done]].
    by rewrite (read_loop_step _ _ _ _ (RErr true) _ (set_read ep (inbox ep) r) _ Hin)
      by (unfold ep_read; by rewrite Hev).
  - exists false, O, r. rewrite Hev. split; [|split; [simpl; lia|split; [lia|split; done]]].
    rewrite (read_loop_step _ _ _ _ (RErr false) _ (set_read ep (inbox ep) r) _ Hin)
      by (unfold ep_read; by rewrite Hev).
    cbn. by rewrite str_app_nil_r.
Qed.
End Loops.

(** ** Whole transfers *)
Section Transfers.
Context {T : Type} (refill : endpoint * T -> outcome (endpoint * T)).
Local Abbreviation sockets := (ep_sockets refill).

(** A read that finds nothing takes what the other end does meanwhile. *)
Lemma pipe_read_waits fuel fd n ep (t : T) ep' t' :
  inbox ep = "" -> refill (ep, t) = Ok (ep', t') -> inbox ep' <> "" ->
  @pipe_read_n _ sockets fuel fd (S n) (ep, t) = @pipe_read_n _ sockets fuel fd (S n) (ep', t').
Proof.
  intros Hin Hturn Hne. unfold pipe_read_n, rbind.
  enough (@read_loop _ sockets fuel fd (S n) "" (ep, t) =
          @read_loop _ sockets fuel fd (S n) "" (ep', t')) as E by (by rewrite E).
  destruct fuel as [|rounds]; [done|]. cbn [read_loop]. unfold rbind.
  enough (@sys_read _ sockets fd (S n) (ep, t) = @sys_read _ sockets fd (S n) (ep', t')) as -> by done.
  cbn [sys_read ep_sockets].
  assert (ep_wait refill (ep', t') = Ok (ep', t')) as ->
    by (unfold ep_wait; cbn [fst]; by destruct (inbox ep')).
  unfold ep_wait. cbn [fst]. by rewrite Hin, Hturn.
Qed.

Lemma pipe_write_smooth fuel fd s ep (t : T) :
  smooth (write_events ep) = true -> (String.length s + length (write_events ep) <= fuel)%nat ->
  exists w', @pipe_write_n _ sockets fuel fd s (ep, t) =
      Ok (Z.of_nat (String.length s), (set_written ep (outbox ep +:+ s) w', t)) /\
    smooth w' = true /\ (length w' <= length (write_events ep))%nat.
Proof.
  intros Hsm Hf. destruct (write_loop_spec refill fuel fd s ep t Hf) as (ok & k & w' & Hrun & Hl & Hok & Hs).
  destruct (Hs Hsm) as [-> Hsm']. subst k. exists w'. split; [|done].
  unfold pipe_write_n. rewrite (rbind_step _ _ _ _ _ Hrun). by rewrite str_take_all.
Qed.

Lemma pipe_read_smooth fuel fd a b ep (t : T) :
  inbox ep = a +:+ b -> smooth (read_events ep) = true ->
  (String.length a + length (read_events ep) < fuel)%nat ->
  exists r', @pipe_read_n _ sockets fuel fd (String.length a) (ep, t) =
      Ok ((Z.of_nat (String.length a), a), (set_read ep b r', t)) /\
    smooth r' = true /\ (length r' <= length (read_events ep))%nat.
Proof.
  intros Hin Hsm Hf.
  assert (String.length a <= String.length (inbox ep))%nat as Hle
    by (rewrite Hin, str_length_app; lia).
  destruct (read_loop_spec refill fuel fd (String.length a) "" ep t (or_introl Hle) Hf)
    as (ok & k & r' & Hrun & Hl & _ & Hok & Hs).
  destruct (Hs Hsm) as [-> Hsm']. rewrite Nat.min_l in Hok by done. subst k. exists r'. split; [|done].
  unfold pipe_read_n. rewrite (rbind_step _ _ _ _ _ Hrun). cbn [fst snd].
  rewrite Hin, str_take_app, str_drop_app by done. done.
Qed.
End Transfers.

(** At the end of the stream a read gets nothing. *)
Lemma pipe_read_eof {T} fuel fd n ep (t : T) :
  inbox ep = "" -> smooth (read_events ep) = true -> (n + length (read_events ep) < fuel)%nat ->
  exists r', @pipe_read_n _ (ep_sockets no_peer) fuel fd n (ep, t) = Ok ((0, ""), (set_read ep "" r', t)) /\
    smooth r' = true /\ (length r' <= length (read_events ep))%nat.
Proof.
  intros Hin Hsm Hf.
  destruct (read_loop_spec (T := T) no_peer fuel fd n "" ep t (or_intror (fun _ _ => eq_refl)) Hf)
    as (ok & k & r' & Hrun & Hl & Hk & _ & Hs).
  destruct (Hs Hsm) as [-> Hsm']. rewrite Hin in Hk. simpl in Hk. assert (k = 0%nat) as -> by lia.
  exists r'. split; [|done]. unfold pipe_read_n. rewrite (rbind_step _ _ _ _ _ Hrun). by rewrite Hin.
Qed.

(** ** The request text *)
Section RequestText.
Context `{JanssonLaws}.

Lemma request_text svc call :
  text_ok svc = true -> text_ok call = true ->
  exists j, request_to_json svc call (String.length call) = Some j /\ j <> "" /\
    forall buf, cbuf_read buf (String.length j) = Ok j ->
      request_from_json buf (String.length j) = Ok (Some (svc, call)).
Proof.
  intros Hs Hc. assert (nul_free call = true) as Hn by (unfold text_ok in Hc; by split_bools).
  unfold request_to_json, json_object_set_string_member.
  rewrite str_take_all, c_string_id, !json_string_text, json_object_eq, !set_member by done.
  cbn [member_set String.eqb Ascii.eqb Bool.eqb].
  destruct (dump_load JSON_DEFAULT (JObject [("service", JString svc); ("request", JString call)]))
    as (j & Hj & Hl & Ht); [|done|].
  - apply portable_object; [by apply (bool_decide_unpack _)|].
    cbn [forallb fst snd]. rewrite !ascii_text_ok, !portable_elem_scalar by done. done.
  - exists j. split; [done|]. split.
    { intros ->. destruct json_loadb_empty as [e He]. by rewrite He in Hl. }
    intros buf Hb. unfold request_from_json. rewrite Hb.
    cbn [obind]. rewrite Hl. unfold json_object_get_string_member.
    rewrite !json_object_get_eq. cbn [member_get String.eqb Ascii.eqb Bool.eqb].
    by rewrite !json_string_value_eq.
Qed.
End RequestText.

(** ** The buffer of the handler *)
Definition max_message : Z := 2 ^ 31.

(** The buffer is as large as its size says, a power of two of at least 4096 and at most 2^31. *)
Definition handler_ok (st : handler_state) : Prop :=
  cb_size (buf st) = Z.to_nat (bufsize st) /\ exists k, 12 <= k <= 31 /\ bufsize st = 2 ^ k.

Lemma handler_start_ok : handler_ok handler_start.
Proof. split; [done|]. by exists 12. Qed.

Lemma grow_spec rounds len st :
  handler_ok st -> len <= max_message -> (20 <= rounds)%nat ->
  exists st', grow rounds len st = Some st' /\ handler_ok st' /\ len <= bufsize st'.
Proof.
  intros Hst Hlen Hr.
  assert (forall k, 12 <= k <= 31 -> bufsize st = 2 ^ k -> (Z.to_nat (31 - k) <= rounds)%nat ->
    exists st', grow rounds len st = Some st' /\ handler_ok st' /\ len <= bufsize st') as Hgen.
  { clear Hr. intros k Hk Hb. destruct Hst as [Hsize _]. revert k st Hk Hb Hsize.
    induction rounds as [|rounds IH]; intros k st Hk Hb Hsize Hr; simpl;
      (destruct (Z.ltb_spec (bufsize st) len) as [Hlt|?];
       [|exists st; split; [done|]; split; [by split; [|exists k]|done]]).
    - exfalso. assert (k = 31) as -> by lia. unfold max_message in *. lia.
    - assert (k < 31) as Hk'.
      { destruct (decide (k = 31)) as [->|]; [unfold max_message in *; lia|lia]. }
      assert (to_uint32 (bufsize st * 2) = 2 ^ (k + 1)) as Hd.
      { rewrite Hb, Z.mul_comm, <- Z.pow_succ_r by lia. apply wrap_unsigned_id. unfold in_unsigned.
        assert (0 < 2 ^ Z.succ k) by (apply Z.pow_pos_nonneg; lia).
        assert (2 ^ Z.succ k < 2 ^ 32) by (apply Z.pow_lt_mono_r; lia). unfold Z.succ in *. lia. }
      apply (IH (k + 1)); cbn [bufsize buf g_realloc cb_size]; [lia|done|done|lia]. }
  destruct Hst as [Hsize (k & Hk & Hb)]. apply (Hgen k); [done|done|]. lia.
Qed.

(** ** The framing, from what its transfers do *)
Section FramingFacts.
Context `{JanssonLaws} {X : Type} {IO : PipeIO X}.

(** The client's transfers do not fail; the header of the response may be short. *)
Lemma framed_send_steps pc svc req j n1 n2 n3 n4 hdr len got (x1 x2 x3 x4 x5 : X) :
  request_to_json svc req (String.length req) = Some j -> Z.of_nat (String.length j) < 2 ^ 32 ->
  io_write_n (pipe_fd pc) (le32 (Z.of_nat (String.length j))) x1 = Ok (n1, x2) -> 0 <= n1 ->
  io_write_n (pipe_fd pc) j x2 = Ok (n2, x3) -> 0 <= n2 ->
  io_read_n (pipe_fd pc) 4 x3 = Ok ((n3, hdr), x4) -> 0 <= n3 ->
  read_over (Z.of_nat (String.length j)) hdr = Z.of_nat len ->
  io_read_n (pipe_fd pc) len x4 = Ok ((n4, got), x5) -> 0 <= n4 ->
  framed_send (mkTransportData pc svc) req (String.length req) x1 =
    Ok (Some (mkReply (cbuf_write (g_malloc len) got) len), x5).
Proof.
  intros Hj Hlen H1 ? H2 ? H3 ? Hov H4 ?. unfold framed_send. cbn [service client]. rewrite Hj. cbv zeta.
  rewrite wrap_unsigned_id by (unfold in_unsigned; lia).
  rewrite (rbind_step _ _ _ _ _ H1). destruct (Z.ltb_spec n1 0); [lia|].
  rewrite Nat2Z.id, str_take_all by done. rewrite (rbind_step _ _ _ _ _ H2).
  destruct (Z.ltb_spec n2 0); [lia|]. rewrite (rbind_step _ _ _ _ _ H3). cbn [fst snd].
  destruct (Z.ltb_spec n3 0); [lia|]. rewrite Hov, Nat2Z.id. rewrite (rbind_step _ _ _ _ _ H4). cbn [fst snd].
  by destruct (Z.ltb_spec n4 0); [lia|].
Qed.

(** The thread's transfers do not fail; the header announces the text [j], and the buffer holds it
    after the second read, wherever it came from. *)
Lemma framed_round_step fuel call fd st st1 svc body j resp n1 n2 n3 n4 got (x1 x2 x3 x4 x5 x6 : X) :
  text_ok svc = true -> text_ok body = true ->
  request_to_json svc body (String.length body) = Some j -> Z.of_nat (String.length j) <= max_message ->
  io_read_n fd 4 x1 = Ok ((n1, le32 (Z.of_nat (String.length j))), x2) -> 0 <= n1 ->
  grow fuel (Z.of_nat (String.length j)) st = Some st1 ->
  io_read_n fd (String.length j) x2 = Ok ((n2, got), x3) -> 0 <= n2 ->
  cbuf_read (cbuf_write (buf st1) got) (String.length j) = Ok j ->
  call svc body x3 = Ok (resp, x4) ->
  io_write_n fd (le32 (to_uint32 (Z.of_nat (String.length resp)))) x4 = Ok (n3, x5) -> 0 <= n3 ->
  io_write_n fd resp x5 = Ok (n4, x6) -> 0 <= n4 ->
  framed_round fuel call fd st x1 =
    Ok (Some (mkHandler (bufsize st1) (cbuf_write (buf st1) got)), x6).
Proof.
  intros Hsvc Hbody Hj Hlen H1 ? Hg H2 ? Hbuf Hcall H3 ? H4 ?.
  destruct (request_text svc body Hsvc Hbody) as (j' & Hj' & Hne & Hfrom).
  rewrite Hj in Hj'. injection Hj' as <-.
  assert (0 < String.length j)%nat as Hpos by (destruct j; [done|simpl; lia]).
  unfold framed_round. rewrite (rbind_step _ _ _ _ _ H1). cbn [fst snd].
  destruct (Z.ltb_spec n1 0); [lia|].
  rewrite read_over_full by (unfold in_unsigned, max_message in *; lia).
  destruct (Z.eqb_spec (Z.of_nat (String.length j)) 0); [lia|]. rewrite Hg, Nat2Z.id.
  rewrite (rbind_step _ _ _ _ _ H2). cbn [fst snd]. destruct (Z.ltb_spec n2 0); [lia|]. cbn [orb].
  rewrite (rbind_step _ _ _ (Some (svc, body)) x3) by (unfold rlift; by rewrite (Hfrom _ Hbuf)).
  rewrite (rbind_step _ _ _ _ _ Hcall), (rbind_step _ _ _ _ _ H3). destruct (Z.ltb_spec n3 0); [lia|].
  rewrite (rbind_step _ _ _ _ _ H4). by destruct (Z.ltb_spec n4 0); [lia|].
Qed.
End FramingFacts.

(** A round of the loop on a whole request. *)
Section Rounds.
Context `{JanssonLaws} {T : Type} (fuel : nat) (call : string -> string -> run T string).
Local Abbreviation sockets := (ep_sockets (T := T) no_peer).

(** The server beside its endpoint. *)
Definition call_beside {E} (service body : string) : run (E * T) string :=
  fun x => r <~ call service body x.2 ;; Ok (r.1, (x.1, r.2)).

(** Room for messages of up to [n] bytes on these schedules. *)
Definition rounds_for (n : nat) (ep : endpoint) : Prop :=
  (n + 4 + length (read_events ep) + length (write_events ep) + 20 < fuel)%nat.

Definition smooth_ep (ep : endpoint) : Prop :=
  smooth (read_events ep) = true /\ smooth (write_events ep) = true.

(** Writing a frame: the header, then the bytes. *)
Lemma write_frame fd s ep (t : T) :
  smooth_ep ep -> rounds_for (String.length s) ep -> Z.of_nat (String.length s) < 2 ^ 32 ->
  exists w1 w2,
    let hdr := le32 (to_uint32 (Z.of_nat (String.length s))) in
    let ep1 := set_written ep (outbox ep +:+ hdr) w1 in
    @pipe_write_n _ sockets fuel fd hdr (ep, t) = Ok (4, (ep1, t)) /\
    @pipe_write_n _ sockets fuel fd s (ep1, t) =
      Ok (Z.of_nat (String.length s), (set_written ep (outbox ep +:+ frame s) w2, t)) /\
    smooth w2 = true /\ (length w2 <= length (write_events ep))%nat.
Proof.
  intros [_ Hsm] Hf Hs. unfold rounds_for in Hf. unfold frame.
  rewrite wrap_unsigned_id by (unfold in_unsigned; lia).
  destruct (pipe_write_smooth no_peer fuel fd (le32 (Z.of_nat (String.length s))) ep t Hsm)
    as (w1 & H1 & Hs1 & Hl1); [rewrite le32_length; lia|].
  destruct (pipe_write_smooth no_peer fuel fd s
              (set_written ep (outbox ep +:+ le32 (Z.of_nat (String.length s))) w1) t)
    as (w2 & H2 & Hs2 & Hl2); [done|simpl in *; lia|].
  exists w1, w2. split; [exact H1|]. split; [|split; [done|simpl in *; lia]].
  rewrite H2. unfold set_written. cbn [outbox inbox read_events closed watched]. by rewrite str_app_assoc.
Qed.

(** Reading a frame: the header, then that many bytes. *)
Lemma read_frame fd j rest ep (t : T) :
  inbox ep = frame j +:+ rest -> smooth_ep ep -> rounds_for (String.length j) ep ->
  exists r1 r2,
    @pipe_read_n _ sockets fuel fd 4 (ep, t) =
      Ok ((4, le32 (Z.of_nat (String.length j))), (set_read ep (j +:+ rest) r1, t)) /\
    @pipe_read_n _ sockets fuel fd (String.length j) (set_read ep (j +:+ rest) r1, t) =
      Ok ((Z.of_nat (String.length j), j), (set_read ep rest r2, t)) /\
    smooth r2 = true /\ (length r2 <= length (read_events ep))%nat.
Proof.
  intros Hin [Hsm _] Hf. unfold frame in Hin. rewrite str_app_assoc in Hin. unfold rounds_for in Hf.
  destruct (pipe_read_smooth no_peer fuel fd _ _ ep t Hin Hsm) as (r1 & H1 & Hs1 & Hl1);
    [rewrite le32_length; lia|].
  destruct (pipe_read_smooth no_peer fuel fd j rest (set_read ep (j +:+ rest) r1) t eq_refl Hs1)
    as (r2 & H2 & Hs2 & Hl2); [simpl; lia|].
  exists r1, r2. split; [exact H1|]. split; [exact H2|]. split; [done|simpl in *; lia].
Qed.

(** A round in which the header announces the text [j] and the buffer holds it after the second
    read, wherever it came from. *)
Lemma handler_round_step fd st st1 svc body j resp ep i1 r1 i2 r2 n got t t' :
  text_ok svc = true -> text_ok body = true ->
  request_to_json svc body (String.length body) = Some j ->
  Z.of_nat (String.length j) <= max_message -> Z.of_nat (String.length resp) < 2 ^ 32 ->
  smooth (write_events ep) = true -> smooth r2 = true -> (length r2 <= length (read_events ep))%nat ->
  rounds_for (String.length resp) ep ->
  @pipe_read_n _ sockets fuel fd 4 (ep, t) =
    Ok ((4, le32 (Z.of_nat (String.length j))), (set_read ep i1 r1, t)) ->
  @pipe_read_n _ sockets fuel fd (String.length j) (set_read ep i1 r1, t) =
    Ok ((Z.of_nat n, got), (set_read ep i2 r2, t)) ->
  grow fuel (Z.of_nat (String.length j)) st = Some st1 ->
  cbuf_read (cbuf_write (buf st1) got) (String.length j) = Ok j ->
  call svc body t = Ok (resp, t') ->
  exists w', @handler_round _ _ sockets fuel call_beside fd st (ep, t) =
      Ok (Some (mkHandler (bufsize st1) (cbuf_write (buf st1) got)),
          (mkEnd i2 (outbox ep +:+ frame resp) r2 w' (closed ep) (watched ep), t')) /\
    smooth w' = true /\ (length w' <= length (write_events ep))%nat.
Proof.
  intros Hsvc Hbody Hj Hjlen Hrlen Hsw Hsr Hlr Hf H1 H2 Hg Hbuf Hcall.
  destruct (write_frame fd resp (set_read ep i2 r2) t') as (w1 & w2 & Hw1 & Hw2 & Hs2 & Hl2);
    [done|unfold rounds_for in *; simpl; lia|done|].
  exists w2. split; [|done].
  assert (call_beside svc body (set_read ep i2 r2, t) = Ok (resp, (set_read ep i2 r2, t'))) as Hc
    by (unfold call_beside; cbn [snd]; by rewrite Hcall).
  eapply (framed_round_step (IO := posix_io fuel) fuel call_beside fd st st1 svc body j resp);
    eauto; lia.
Qed.

Lemma grow_room st n :
  handler_ok st -> Z.of_nat n <= max_message -> (20 <= fuel)%nat ->
  exists st1, grow fuel (Z.of_nat n) st = Some st1 /\ handler_ok st1 /\
    forall s, (String.length s = n)%nat -> cbuf_read (cbuf_write (buf st1) s) n = Ok s.
Proof.
  intros Hst Hn Hf. destruct (grow_spec fuel (Z.of_nat n) st Hst Hn Hf) as (st1 & Hg & Hst1 & Hfit).
  exists st1. split; [done|]. split; [done|]. intros s <-. apply cbuf_read_written.
  destruct Hst1 as [-> _]. lia.
Qed.

Lemma handler_round_spec fd st svc body j resp rest ep t t' :
  handler_ok st -> text_ok svc = true -> text_ok body = true ->
  request_to_json svc body (String.length body) = Some j ->
  Z.of_nat (String.length j) <= max_message -> Z.of_nat (String.length resp) < 2 ^ 32 ->
  inbox ep = frame j +:+ rest -> smooth_ep ep ->
  rounds_for (String.length j) ep -> rounds_for (String.length resp) ep ->
  call svc body t = Ok (resp, t') ->
  exists st' r' w', @handler_round _ _ sockets fuel call_beside fd st (ep, t) =
      Ok (Some st', (mkEnd rest (outbox ep +:+ frame resp) r' w' (closed ep) (watched ep), t')) /\
    handler_ok st' /\ smooth r' = true /\ smooth w' = true /\
    (length r' <= length (read_events ep))%nat /\ (length w' <= length (write_events ep))%nat /\
    cbuf_read (buf st') (String.length j) = Ok j.
Proof.
  intros Hst Hsvc Hbody Hj Hjlen Hrlen Hin Hsm Hfj Hfr Hcall.
  destruct (read_frame fd j rest ep t Hin Hsm Hfj) as (r1 & r2 & H1 & H2 & Hs2 & Hl2).
  destruct (grow_room st (String.length j) Hst Hjlen) as (st1 & Hg & Hst1 & Hbuf);
    [unfold rounds_for in Hfj; lia|].
  destruct (handler_round_step fd st st1 svc body j resp ep
    (j +:+ rest) r1 rest r2 (String.length j) j t t')
    as (w' & Hrun & Hsw & Hlw); try done; [apply Hsm|by apply Hbuf|].
  eexists _, r2, w'. split; [exact Hrun|]. repeat split; try done; [apply Hst1|apply Hst1|by apply Hbuf].
Qed.

(** A header alone, on a buffer that still holds a request of that length. *)
Lemma handler_round_stale fd st svc body j resp ep t t' :
  handler_ok st -> text_ok svc = true -> text_ok body = true ->
  request_to_json svc body (String.length body) = Some j ->
  Z.of_nat (String.length j) <= bufsize st -> Z.of_nat (String.length resp) < 2 ^ 32 ->
  cbuf_read (buf st) (String.length j) = Ok j ->
  inbox ep = le32 (Z.of_nat (String.length j)) -> smooth_ep ep ->
  rounds_for (String.length j) ep -> rounds_for (String.length resp) ep ->
  call svc body t = Ok (resp, t') ->
  exists st' r' w', @handler_round _ _ sockets fuel call_beside fd st (ep, t) =
      Ok (Some st', (mkEnd "" (outbox ep +:+ frame resp) r' w' (closed ep) (watched ep), t')) /\
    smooth r' = true /\ (length r' <= length (read_events ep))%nat.
Proof.
  intros Hst Hsvc Hbody Hj Hjlen Hrlen Hbuf Hin Hsm Hfj Hfr Hcall. unfold rounds_for in Hfj.
  assert (Z.of_nat (String.length j) <= max_message) as Hjm.
  { destruct Hst as [_ (k & Hk & Hb)]. unfold max_message.
    assert (2 ^ k <= 2 ^ 31) by (apply Z.pow_le_mono_r; lia). lia. }
  destruct (pipe_read_smooth no_peer fuel fd (le32 (Z.of_nat (String.length j))) "" ep t) as (r1 & H1 & Hs1 & Hl1);
    [by rewrite str_app_nil_r|apply Hsm|rewrite le32_length; lia|].
  destruct (pipe_read_eof (T := T) fuel fd (String.length j) (set_read ep "" r1) t) as (r2 & H2 & Hs2 & Hl2);
    [done|done|simpl; lia|].
  destruct (handler_round_step fd st st svc body j resp ep "" r1 "" r2 0 "" t t')
    as (w' & Hrun & Hsw & Hlw); try done; [apply Hsm|simpl in *; lia| |].
  - destruct fuel; [lia|]. simpl. by destruct (Z.ltb_spec (bufsize st) (Z.of_nat (String.length j))); [lia|].
  - eexists _, r2, w'. split; [exact Hrun|]. split; [done|simpl in *; lia].
Qed.

(** With epoll: the request is answered and the connection watched again. *)
Lemma epoll_handler_spec efd fd svc body j resp rest ep t t' :
  text_ok svc = true -> text_ok body = true ->
  request_to_json svc body (String.length body) = Some j ->
  Z.of_nat (String.length j) < max_message -> Z.of_nat (String.length resp) < 2 ^ 32 ->
  inbox ep = frame j +:+ rest -> smooth_ep ep ->
  rounds_for (String.length j) ep -> rounds_for (String.length resp) ep ->
  call svc body t = Ok (resp, t') ->
  exists r' w', @epoll_handler _ _ sockets fuel call_beside efd fd (ep, t) =
    Ok (true, (mkEnd rest (outbox ep +:+ frame resp) r' w' (closed ep) true, t')) /\
    smooth r' = true /\ smooth w' = true.
Proof.
  intros Hsvc Hbody Hj Hjlen Hrlen Hin Hsm Hfj Hfr Hcall.
  destruct (request_text svc body Hsvc Hbody) as (j' & Hj' & Hne & Hfrom).
  rewrite Hj in Hj'. injection Hj' as <-.
  destruct (read_frame fd j rest ep t Hin Hsm Hfj) as (r1 & r2 & H1 & H2 & Hs2 & Hl2).
  assert (is_uint32 (Z.of_nat (String.length j)) = true) as Hu
    by (unfold in_unsigned, max_message in *; lia).
  assert (0 < String.length j)%nat as Hpos by (destruct j; [done|simpl; lia]).
  destruct (write_frame fd resp (set_read ep rest r2) t') as (w1 & w2 & Hw1 & Hw2 & Hsw2 & _);
    [by split; [|apply Hsm]|unfold rounds_for in *; simpl; lia|done|].
  exists r2, w2. split; [|done]. unfold epoll_handler, epoll_request.
  rewrite (rbind_step _ _ (ep, t) 0
    (mkEnd rest (outbox ep +:+ frame resp) r2 w2 (closed ep) true, t')); [done|].
  rewrite (rbind_step _ _ _ _ _ H1). cbn [fst snd].
  change (4 <? 0) with false. cbv iota. rewrite read_over_full by done.
  destruct (Z.leb_spec (Z.of_nat (String.length j)) 0); [lia|]. rewrite Nat2Z.id.
  rewrite (rbind_step _ _ _ _ _ H2). cbn [fst snd].
  rewrite wrap_signed_id by (unfold in_signed, max_message in *; lia).
  destruct (Z.ltb_spec (Z.of_nat (String.length j)) 0); [lia|].
  rewrite (rbind_step _ _ _ (Some (svc, body)) (set_read ep rest r2, t)).
  - rewrite (rbind_step _ _ _ resp (set_read ep rest r2, t'))
      by (unfold call_beside; cbn [snd]; by rewrite Hcall).
    rewrite (rbind_step _ _ _ _ _ Hw1). change (4 <? 0) with false. cbv iota.
    rewrite (rbind_step _ _ _ _ _ Hw2).
    by destruct (Z.ltb_spec (Z.of_nat (String.length resp)) 0); [lia|].
  - unfold rlift. rewrite Hfrom; [done|]. by apply cbuf_read_written.
Qed.
End Rounds.

(** A message longer than 2^31 bytes: the size wraps to 0 and doubling it changes nothing. *)
Lemma grow_diverges rounds len st :
  handler_ok st -> max_message < len -> grow rounds len st = None.
Proof.
  intros Hst Hlen.
  assert (bufsize st = 0 \/ exists k, 12 <= k <= 31 /\ bufsize st = 2 ^ k) as Hb
    by (right; apply Hst).
  clear Hst. revert st Hb. unfold max_message in Hlen. induction rounds as [|rounds IH]; intros st Hb; simpl.
  all: assert (bufsize st < len) as Hlt by
    (destruct Hb as [->|(k & Hk & ->)]; [lia|]; assert (2 ^ k <= 2 ^ 31) by (apply Z.pow_le_mono_r; lia); lia).
  all: destruct (Z.ltb_spec (bufsize st) len); [|lia]; try done.
  apply IH. cbn [bufsize]. unfold wrap_unsigned. destruct Hb as [->|(k & Hk & ->)]; [by left|].
  destruct (decide (k = 31)) as [->|]; [by left|]. right. exists (k + 1). split; [lia|].
  rewrite Z.mul_comm, <- Z.pow_succ_r by lia. apply Z.mod_small.
  assert (0 < 2 ^ Z.succ k) by (apply Z.pow_pos_nonneg; lia).
  split; [lia|]. apply Z.pow_lt_mono_r; lia.
Qed.

(** ** Properties *)

(** C28: [pipe_write_n] on any schedule of partial writes, interruptions and failures returns (as
    many rounds as there are bytes and scheduled events are enough); it returns the number of
    bytes, and then exactly they were written, or -1, and then a proper prefix was; without a
    failure in the schedule it returns the number of bytes. *)
Theorem pipe_write_n_prefix {T} (refill : endpoint * T -> outcome (endpoint * T)) fuel fd s ep (t : T) :
  (String.length s + length (write_events ep) <= fuel)%nat ->
  exists r k w', @pipe_write_n _ (ep_sockets refill) fuel fd s (ep, t) =
      Ok (r, (set_written ep (outbox ep +:+ str_take k s) w', t)) /\
    ((r = Z.of_nat (String.length s) /\ str_take k s = s) \/ (r = -1 /\ (k < String.length s)%nat)) /\
    (smooth (write_events ep) = true -> r = Z.of_nat (String.length s)).
Proof.
  intros Hf. destruct (write_loop_spec refill fuel fd s ep t Hf) as (ok & k & w' & Hrun & _ & Hok & Hs).
  exists (if ok then Z.of_nat (String.length s) else -1), k, w'. split; [|split].
  - unfold pipe_write_n. by rewrite (rbind_step _ _ _ _ _ Hrun).
  - destruct ok; [left; by rewrite Hok, str_take_all|by right].
  - intros Hsm. by destruct (Hs Hsm) as [-> _].
Qed.

(** C29: [pipe_read_n] on any schedule returns; it stores a prefix of what arrives, as long as
    what it returns unless that is -1, and without a failure that is all that was asked for or
    all there is. *)
Theorem pipe_read_n_prefix {T} fuel fd n ep (t : T) :
  (n + length (read_events ep) < fuel)%nat ->
  exists r k r', @pipe_read_n _ (ep_sockets no_peer) fuel fd n (ep, t) =
      Ok ((r, str_take k (inbox ep)), (set_read ep (str_drop k (inbox ep)) r', t)) /\
    (k <= n `min` String.length (inbox ep))%nat /\
    ((r = Z.of_nat k /\ k = (n `min` String.length (inbox ep))%nat) \/ r = -1) /\
    (smooth (read_events ep) = true -> r = Z.of_nat k).
Proof.
  intros Hf.
  destruct (read_loop_spec (T := T) no_peer fuel fd n "" ep t (or_intror (fun _ _ => eq_refl)) Hf)
    as (ok & k & r' & Hrun & _ & Hk & Hok & Hs).
  assert (String.length (str_take k (inbox ep)) = k) as Hl by (rewrite str_take_length; lia).
  exists (if ok then Z.of_nat k else -1), k, r'. split; [|split; [done|split]].
  - unfold pipe_read_n. rewrite (rbind_step _ _ _ _ _ Hrun). cbn [fst snd].
    change ("" +:+ str_take k (inbox ep)) with (str_take k (inbox ep)). by rewrite Hl.
  - destruct ok; [by left|by right].
  - intros Hsm. by destruct (Hs Hsm) as [-> _].
Qed.

(** C30: the buffer of a connection's thread starts at 4096 bytes and is doubled in 32 bits: for a
    message of up to 2^31 bytes twenty doublings are enough and the result has room for it; for a
    longer one the size wraps to 0 and the loop never ends. *)
Theorem handler_buffer_growth st len :
  handler_ok st -> is_uint32 len = true ->
  (len <= max_message ->
    exists st', grow 20 len st = Some st' /\ handler_ok st' /\ len <= Z.of_nat (cb_size (buf st'))) /\
  (max_message < len -> forall rounds, grow rounds len st = None).
Proof.
  intros Hst Hlen. split.
  - intros Hle. destruct (grow_spec 20 len st Hst Hle) as (st' & Hg & Hst' & Hfit); [lia|].
    exists st'. split; [done|]. split; [done|]. destruct Hst' as [-> _]. lia.
  - intros Hlt rounds. by apply grow_diverges.
Qed.

Section PipeProperties.
Context `{JanssonLaws}.

(** The text of a request names its service and carries the call: [request_from_json] of a
    buffer that holds what [request_to_json] made gives both back. *)
Theorem request_text_roundtrip svc call :
  text_ok svc = true -> text_ok call = true ->
  exists j, request_to_json svc call (String.length call) = Some j /\
    request_from_json (cbuf_of_string j) (String.length j) = Ok (Some (svc, call)).
Proof.
  intros Hs Hc. destruct (request_text svc call Hs Hc) as (j & Hj & _ & Hfrom).
  exists j. split; [done|]. apply Hfrom. apply cbuf_read_string.
Qed.

Context {T : Type} (call : string -> string -> run T string).

(** With epoll, one whole request, however it is split, is answered by one framed response,
    the rest of the stream is left for later, and the connection is watched again. *)
Theorem epoll_handler_serves fuel efd fd svc body j resp rest ep t t' :
  text_ok svc = true -> text_ok body = true ->
  request_to_json svc body (String.length body) = Some j ->
  Z.of_nat (String.length j) < max_message -> Z.of_nat (String.length resp) < 2 ^ 32 ->
  inbox ep = frame j +:+ rest -> smooth_ep ep ->
  rounds_for fuel (String.length j) ep -> rounds_for fuel (String.length resp) ep ->
  call svc body t = Ok (resp, t') ->
  exists r' w', @epoll_handler _ _ (ep_sockets no_peer) fuel (call_beside call) efd fd (ep, t) =
    Ok (true, (mkEnd rest (outbox ep +:+ frame resp) r' w' (closed ep) true, t')).
Proof.
  intros Hsvc Hbody Hj Hjl Hrl Hin Hsm Hf1 Hf2 Hc.
  destruct (epoll_handler_spec fuel call efd fd svc body j resp rest ep t t') as (r' & w' & Hrun & _); try done.
  by exists r', w'.
Qed.
End PipeProperties.
