(* ===== verification/PipeServer.v ===== *)
(** * PipeServer: the server side of a connection

    What the thread of a connection makes of a stream of requests, the handler with epoll, and
    the two sides put together: the named pipe as a transport in the sense of Rpc. *)
From S2P Require Import Prelude Json Runtime Utils GObject Marshal Server ServerSafety Responses Dispatch Client ClientSafety Rpc Pipe PipeSafety.

(** ** The loop of a connection's thread *)
Section Loop.
Context `{Jansson} {X : Type} `{PipeIO X} (fuel : nat) (call : string -> string -> run X string).

Lemma framed_loop_next rounds fd st st' x x' :
  framed_round fuel call fd st x = Ok (Some st', x') ->
  framed_loop fuel call (S rounds) fd st x = framed_loop fuel call rounds fd st' x'.
Proof. intros Hr. cbn [framed_loop]. by rewrite (rbind_step _ _ _ _ _ Hr). Qed.

(** At the end of the stream the length stays 0. *)
Lemma framed_loop_eof rounds fd st x x' :
  io_read_n fd 4 x = Ok ((0, ""), x') ->
  framed_loop fuel call (S rounds) fd st x = io_close fd x'.
Proof. intros Hr. cbn [framed_loop]. unfold framed_round, rbind at 1 2. by rewrite Hr. Qed.
End Loop.

(** ** A stream of requests *)
Section Stream.
Context `{JanssonLaws} {T : Type} (fuel : nat) (call : string -> string -> run T string).
Local Abbreviation sockets := (ep_sockets (T := T) no_peer).

(** The contract: the calls one after the other. *)
Fixpoint serve_stream (reqs : list (string * string)) (t : T) : outcome (list string * T) :=
  match reqs with
  | [] => Ok ([], t)
  | (svc, body) :: reqs' =>
      x <~ call svc body t ;;
      y <~ serve_stream reqs' x.2 ;;
      Ok (x.1 :: y.1, y.2)
  end.

(** A request a client can send, and its text. *)
Definition request_of (n : nat) (req : string * string) (j : string) : Prop :=
  text_ok req.1 = true /\ text_ok req.2 = true /\
  request_to_json req.1 req.2 (String.length req.2) = Some j /\ (String.length j <= n)%nat.

Definition stream_of (texts : list string) : string := str_concat (List.map frame texts).

Lemma handler_loop_spec n reqs js : forall rounds fd st ep t resps t',
  handler_ok st -> Forall2 (request_of n) reqs js -> Z.of_nat n <= max_message ->
  inbox ep = stream_of js -> smooth_ep ep -> rounds_for fuel n ep ->
  serve_stream reqs t = Ok (resps, t') -> Forall (fun r => (String.length r <= n)%nat) resps ->
  (length reqs < rounds)%nat ->
  exists r' w',
    @handler_loop _ _ sockets fuel (call_beside call) rounds fd st (ep, t) =
      Ok (tt, (mkEnd "" (outbox ep +:+ stream_of resps) r' w' true (watched ep), t')).
Proof.
  induction reqs as [|[svc body] reqs IH] in js |- *;
    intros rounds fd st ep t resps t' Hst Hreqs Hn Hin Hsm Hf Hserve Hresps Hr;
    (destruct rounds as [|rounds]; [simpl in Hr; lia|]).
  - apply Forall2_nil_inv_l in Hreqs as ->. simpl in Hserve. simplify_eq.
    assert (inbox ep = "") as He by done. destruct Hsm as [Hsm _].
    destruct (pipe_read_eof (T := T) fuel fd 4 ep t' He Hsm) as (r' & Hread & _);
      [unfold rounds_for in Hf; lia|].
    exists r', (write_events ep). unfold handler_loop. erewrite framed_loop_eof; [|exact Hread].
    cbn. by rewrite str_app_nil_r.
  - apply Forall2_cons_inv_l in Hreqs as (j & js' & (Hsvc & Hbody & Hj & Hjn) & Hreqs & ->).
    cbn [serve_stream] in Hserve. apply obind_Ok in Hserve as ([resp t1] & Hcall & Hserve).
    apply obind_Ok in Hserve as ([resps' t2] & Hserve & Heq).
    cbn [fst snd] in *. injection Heq as <- <-.
    apply Forall_cons in Hresps as [Hresp Hresps].
    destruct (handler_round_spec fuel call fd st svc body j resp (stream_of js') ep t t1)
      as (st' & r1 & w1 & Hround & Hst' & Hs1 & Hs2 & Hl1 & Hl2 & _); try done.
    { lia. } { unfold max_message in Hn. lia. }
    { unfold rounds_for in *. lia. } { unfold rounds_for in *. lia. }
    destruct (IH js' rounds fd st'
      (mkEnd (stream_of js') (outbox ep +:+ frame resp) r1 w1 (closed ep) (watched ep)) t1 resps' t2)
      as (r' & w' & Hrun); try done.
    { unfold rounds_for in *. simpl. lia. } { simpl in Hr. lia. }
    exists r', w'. unfold handler_loop in *. erewrite framed_loop_next by exact Hround. rewrite Hrun.
    cbn [outbox watched]. by rewrite str_app_assoc.
Qed.
End Stream.

(** ** The two sides *)
Section Connection.
Context `{Jansson} {T : Type} (fuel : nat) (connfd : Z) (call : string -> string -> run T string).

(** The server's end, the locals of its thread (none once it has returned), and its state. *)
Record pipe_peer := mkPeer {
  pe_end : endpoint; pe_handler : option handler_state; pe_state : T
}.

Definition with_inbox (ep : endpoint) (i : string) : endpoint :=
  mkEnd i (outbox ep) (read_events ep) (write_events ep) (closed ep) (watched ep).
Definition with_outbox (ep : endpoint) (o : string) : endpoint :=
  mkEnd (inbox ep) o (read_events ep) (write_events ep) (closed ep) (watched ep).

(** While the client waits, what it wrote arrives at the server, the server's thread does a
    round of its loop, and what that wrote arrives at the client. *)
Definition server_turn (x : endpoint * pipe_peer) : outcome (endpoint * pipe_peer) :=
  let '(ep, pe) := x in
  match pe_handler pe with
  | None => Ok x
  | Some st =>
      let se := with_inbox (pe_end pe) (inbox (pe_end pe) +:+ outbox ep) in
      r <~ @handler_round _ _ (ep_sockets no_peer) fuel (call_beside call) connfd st (se, pe_state pe) ;;
      Ok (with_inbox (with_outbox ep "") (outbox r.2.1),
          mkPeer (with_outbox r.2.1 "") r.1 r.2.2)
  end.

Definition pipe_sockets : Sockets (endpoint * pipe_peer) := ep_sockets server_turn.
End Connection.
Arguments pipe_peer : clear implicits.

Section PipeTransport.
Context `{JanssonLaws} {O : GObjectLib} {T AsyncArg CbData : Type}.
Context (fuel : nat) (connfd : Z) (pc : SearpcNamedPipeClient) (svc : string).
Context (call : string -> string -> run T string) (svc_ok : text_ok svc = true).
Local Abbreviation sockets := (pipe_sockets fuel connfd call).

(** A quiet connection: nothing in transit, the server's thread waiting for a request, and no
    failure ahead. *)
Definition quiet (x : endpoint * pipe_peer T) (t : T) : Prop :=
  inbox x.1 = "" /\ outbox x.1 = "" /\ inbox (pe_end x.2) = "" /\ outbox (pe_end x.2) = "" /\
  smooth_ep x.1 /\ smooth_ep (pe_end x.2) /\ pe_state x.2 = t /\
  exists st, pe_handler x.2 = Some st /\ handler_ok st.

(** Room for messages of up to [n] bytes on both sides. *)
Definition roomy (n : nat) (x : endpoint * pipe_peer T) : Prop :=
  rounds_for fuel n x.1 /\ rounds_for fuel n (pe_end x.2).

Lemma frame_not_empty s : frame s <> "".
Proof. done. Qed.

(** The turn of a server whose thread finds one whole request. *)
Lemma server_turn_answers req j resp ep pe st t' :
  text_ok req = true -> request_to_json svc req (String.length req) = Some j ->
  Z.of_nat (String.length j) <= max_message -> Z.of_nat (String.length resp) < 2 ^ 32 ->
  outbox ep = frame j -> inbox (pe_end pe) = "" -> outbox (pe_end pe) = "" -> smooth_ep (pe_end pe) ->
  rounds_for fuel (String.length j) (pe_end pe) -> rounds_for fuel (String.length resp) (pe_end pe) ->
  pe_handler pe = Some st -> handler_ok st -> call svc req (pe_state pe) = Ok (resp, t') ->
  exists st' sr sw,
    server_turn fuel connfd call (ep, pe) =
      Ok (with_inbox (with_outbox ep "") (frame resp),
          mkPeer (mkEnd "" "" sr sw (closed (pe_end pe)) (watched (pe_end pe))) (Some st') t') /\
    handler_ok st' /\ smooth sr = true /\ smooth sw = true /\
    (length sr <= length (read_events (pe_end pe)))%nat /\
    (length sw <= length (write_events (pe_end pe)))%nat.
Proof.
  intros Hreq Hj Hjm Hrm Ho Hsi Hso Hsm Hf Hf' Hst Hok Hcall.
  destruct (handler_round_spec fuel call connfd st svc req j resp ""
    (with_inbox (pe_end pe) (inbox (pe_end pe) +:+ outbox ep)) (pe_state pe) t')
    as (st' & sr & sw & Hround & Hst' & Hsr & Hsw & Hlr & Hlw & _); try done;
    [by rewrite Hsi, Ho, str_app_nil_r|].
  exists st', sr, sw. split; [|done]. unfold server_turn. rewrite Hst, Hround. cbn. by rewrite Hso.
Qed.

(** One exchange over the pipe. *)
Lemma pipe_exchange req j resp x t t' n :
  quiet x t -> roomy n x -> text_ok req = true ->
  request_to_json svc req (String.length req) = Some j ->
  (String.length j <= n)%nat -> (String.length resp <= n)%nat ->
  Z.of_nat (String.length j) <= max_message -> Z.of_nat (String.length resp) < 2 ^ 32 ->
  call svc req t = Ok (resp, t') ->
  exists buf x', @searpc_named_pipe_send _ _ sockets fuel (mkTransportData pc svc) req (String.length req) x =
      Ok (Some (mkReply buf (String.length resp)), x') /\
    cbuf_read buf (String.length resp) = Ok resp /\ quiet x' t' /\ roomy n x'.
Proof.
  destruct x as [ep pe]. intros (Hi & Ho & Hsi & Hso & Hsm & Hssm & Ht & st & Hst & Hok) [Hf Hsf]
    Hreq Hj Hjn Hrn Hjm Hrm Hcall. cbn [fst snd] in *. subst t.
  unfold rounds_for in Hf, Hsf. destruct Hsm as [Hrs Hws].
  destruct (pipe_write_smooth (server_turn fuel connfd call) fuel (pipe_fd pc)
    (le32 (Z.of_nat (String.length j))) ep pe Hws) as (w1 & Hw1 & Hs1 & Hl1); [rewrite le32_length; lia|].
  rewrite le32_length, Ho in Hw1. cbn [String.append] in Hw1.
  set (ep1 := set_written ep (le32 (Z.of_nat (String.length j))) w1) in *.
  destruct (pipe_write_smooth (server_turn fuel connfd call) fuel (pipe_fd pc) j ep1 pe Hs1)
    as (w2 & Hw2 & Hs2 & Hl2); [simpl in *; lia|].
  set (ep2 := set_written ep1 (outbox ep1 +:+ j) w2) in *.
  destruct (server_turn_answers req j resp ep2 pe st t')
    as (st' & sr & sw & Hturn & Hst' & Hsr & Hsw & Hlr & Hlw); try done; [unfold rounds_for; lia..|].
  set (pe' := mkPeer (mkEnd "" "" sr sw (closed (pe_end pe)) (watched (pe_end pe))) (Some st') t') in *.
  set (ep3 := with_inbox (with_outbox ep2 "") (frame resp)) in *.
  destruct (pipe_read_smooth (server_turn fuel connfd call) fuel (pipe_fd pc)
    (le32 (Z.of_nat (String.length resp))) resp ep3 pe' eq_refl Hrs) as (r1 & Hr1 & Hsr1 & Hlr1);
    [rewrite le32_length; simpl; lia|].
  destruct (pipe_read_smooth (server_turn fuel connfd call) fuel (pipe_fd pc) resp ""
    (set_read ep3 resp r1) pe') as (r2 & Hr2 & Hsr2 & Hlr2);
    [by rewrite str_app_nil_r|done|simpl in *; lia|].
  exists (cbuf_write (g_malloc (String.length resp)) resp), (set_read (set_read ep3 resp r1) "" r2, pe').
  split; [|split; [by apply cbuf_read_written|split]].
  - rewrite le32_length in Hr1.
    pose proof (eq_trans (pipe_read_waits (server_turn fuel connfd call) fuel (pipe_fd pc) 3 ep2 pe ep3 pe' Hi Hturn (frame_not_empty resp)) Hr1) as Hread.
    assert (read_over (Z.of_nat (String.length j)) (le32 (Z.of_nat (String.length resp))) =
      Z.of_nat (String.length resp)) as Hov by (apply read_over_full; unfold in_unsigned; lia).
    eapply (framed_send_steps (IO := @posix_io _ sockets fuel) pc svc req j);
      eauto; unfold max_message in *; lia.
  - repeat split; try done. by exists st'.
  - split; unfold rounds_for; simpl in *; lia.
Qed.
End PipeTransport.

(** The pipe discharges the interface of Rpc: messages of up to [n] bytes. *)
Section Instance_.
Context `{JanssonLaws} `{GObjectClasses} {W AsyncArg CbData : Type}.
Context (fuel : nat) (connfd : Z) (pc : SearpcNamedPipeClient) (svc : string) (n : nat).
Context (start finish : timeval).
Context (svc_ok : text_ok svc = true) (n_ok : Z.of_nat n <= max_message).

Definition dispatch (service body : string) : run (server W * W) string :=
  searpc_server_call_function start finish service body.

Definition pipe_client : SearpcClient (endpoint * pipe_peer (server W * W)) ClientTransportData AsyncArg CbData :=
  @searpc_client_with_named_pipe_transport _ _ (pipe_sockets fuel connfd dispatch) fuel _ _ _ pc svc.

(** Requests and responses the pipe carries. *)
Definition pipe_fits (req resp : string) : Prop :=
  (exists j, request_to_json svc req (String.length req) = Some j /\ (String.length j <= n)%nat) /\
  (String.length resp <= n)%nat.

#[export] Instance pipe_transport :
  Transport pipe_client (searpc_server_call_function (W := W) start finish svc).
Proof using svc_ok n_ok H0.
  refine {| tr_rel := fun x st => quiet x st /\ roomy fuel n x; tr_fits := pipe_fits |}.
  intros req x st resp st' [Hq Hr] Hreq Hserve [(j & Hj & Hjn) Hrn].
  destruct (pipe_exchange fuel connfd pc svc dispatch svc_ok req j resp x st st' n)
    as (buf & x' & Hsend & Hread & Hq' & Hr'); try done; [lia|unfold max_message in *; lia|].
  by exists buf, x'.
Defined.
End Instance_.

(** ** Properties *)
Section PipeServerProperties.
Context `{JanssonLaws} {T : Type} (call : string -> string -> run T string).

(** C7: a connection's thread serves its stream: any sequence of framed requests, split and
    interrupted in any way, is answered by the framed responses in the same order, the calls
    being made one after the other on the server's state; at the end of the stream the thread
    closes the connection and returns. *)
Theorem pipe_server_stream fuel n rounds fd reqs js ep t resps t' :
  Forall2 (request_of n) reqs js -> Z.of_nat n <= max_message ->
  inbox ep = stream_of js -> smooth_ep ep -> rounds_for fuel n ep ->
  serve_stream call reqs t = Ok (resps, t') -> Forall (fun r => (String.length r <= n)%nat) resps ->
  (length reqs < rounds)%nat ->
  exists r' w',
    @named_pipe_client_handler _ _ (ep_sockets no_peer) fuel (call_beside call) rounds fd (ep, t) =
      Ok (tt, (mkEnd "" (outbox ep +:+ stream_of resps) r' w' true (watched ep), t')).
Proof.
  intros Hreqs Hn Hin Hsm Hf Hserve Hresps Hr. unfold named_pipe_client_handler.
  by eapply handler_loop_spec; [apply handler_start_ok|..].
Qed.

(** C35: a client that sends a request, then the header of another of the same length, and
    disconnects, makes the thread run the first request a second time: the result of the short
    read is not compared with the length, and the buffer still holds the old text. *)
Theorem truncated_request_replays fuel rounds fd svc body j resp1 resp2 ep t t1 t2 :
  text_ok svc = true -> text_ok body = true ->
  request_to_json svc body (String.length body) = Some j ->
  Z.of_nat (String.length j) <= max_message ->
  Z.of_nat (String.length resp1) < 2 ^ 32 -> Z.of_nat (String.length resp2) < 2 ^ 32 ->
  inbox ep = frame j +:+ le32 (Z.of_nat (String.length j)) -> smooth_ep ep ->
  rounds_for fuel (String.length j) ep ->
  rounds_for fuel (String.length resp1) ep -> rounds_for fuel (String.length resp2) ep ->
  call svc body t = Ok (resp1, t1) -> call svc body t1 = Ok (resp2, t2) ->
  (3 <= rounds)%nat ->
  exists r' w',
    @named_pipe_client_handler _ _ (ep_sockets no_peer) fuel (call_beside call) rounds fd (ep, t) =
      Ok (tt, (mkEnd "" (outbox ep +:+ frame resp1 +:+ frame resp2) r' w' true (watched ep), t2)).
Proof.
  intros Hsvc Hbody Hj Hjl Hl1 Hl2 Hin Hsm Hf Hf1 Hf2 Hc1 Hc2 Hr.
  destruct rounds as [|[|[|rounds]]]; [lia..|]. clear Hr.
  destruct (handler_round_spec fuel call fd handler_start svc body j resp1
    (le32 (Z.of_nat (String.length j))) ep t t1)
    as (st1 & r1 & w1 & Hrun1 & Hst1 & Hs1 & Hsw1 & Hlr1 & Hlw1 & Hbuf); try done.
  { apply handler_start_ok. }
  destruct (handler_round_stale fuel call fd st1 svc body j resp2
    (mkEnd (le32 (Z.of_nat (String.length j))) (outbox ep +:+ frame resp1) r1 w1 (closed ep) (watched ep)) t1 t2)
    as (st2 & r2 & w2 & Hrun2 & Hs2 & Hlr2); try done;
    [|unfold rounds_for in *; simpl; lia..|].
  { unfold cbuf_read in Hbuf. destruct Hst1 as [Hsz (k & Hk & Hb)].
    assert (0 < 2 ^ k) by (apply Z.pow_pos_nonneg; lia).
    destruct (Nat.leb_spec (String.length j) (cb_size (buf st1))); [lia|done]. }
  destruct (pipe_read_eof (T := T) fuel fd 4
    (mkEnd "" ((outbox ep +:+ frame resp1) +:+ frame resp2) r2 w2 (closed ep) (watched ep)) t2)
    as (r3 & Hrun3 & _); [done|done|unfold rounds_for in *; simpl in *; lia|].
  exists r3, w2. unfold named_pipe_client_handler, handler_loop.
  erewrite framed_loop_next by exact Hrun1. erewrite framed_loop_next by exact Hrun2.
  cbn [outbox closed watched]. erewrite framed_loop_eof; [|exact Hrun3]. cbn. by rewrite str_app_assoc.
Qed.
End PipeServerProperties.

Section PipeClientProperties.
Context `{JanssonLaws} `{GObjectLaws} {W AsyncArg CbData : Type}.

(** C36: when the server goes away after the request was sent, the end of the stream is taken
    for a response as long as the request: the client parses a buffer nobody has written. *)
Theorem lost_response_uninitialised {T} fuel pc svc fname n args req ep (t : T) error :
  text_ok svc = true -> text_ok req = true ->
  fcall_to_str fname n args = Ok (Some (req, String.length req)) ->
  inbox ep = "" -> smooth_ep ep ->
  (forall j, request_to_json svc req (String.length req) = Some j ->
     Z.of_nat (String.length j) < 2 ^ 32 /\ rounds_for fuel (String.length j) ep) ->
  exists why,
    searpc_client_call__string
      (@searpc_client_with_named_pipe_transport _ _ (ep_sockets (T := T) no_peer) fuel _ AsyncArg CbData pc svc)
      (Some fname) error n args (ep, t) = Undef why.
Proof.
  intros Hsvc Htext Hreq Hin [Hrs Hws] Hj. unfold searpc_client_call__string, client_call.
  rewrite (rbind_step _ _ _ (Some (req, String.length req)) (ep, t)) by (by rewrite Hreq).
  destruct (request_text svc req Hsvc Htext) as (j & Hjson & Hne & _).
  destruct (Hj j Hjson) as [Hlen Hf]. clear Hj. unfold rounds_for in Hf.
  destruct (pipe_write_smooth (T := T) no_peer fuel (pipe_fd pc)
    (le32 (Z.of_nat (String.length j))) ep t Hws) as (w1 & Hw1 & Hs1 & Hl1); [rewrite le32_length; lia|].
  destruct (pipe_write_smooth (T := T) no_peer fuel (pipe_fd pc) j
    (set_written ep (outbox ep +:+ le32 (Z.of_nat (String.length j))) w1) t Hs1)
    as (w2 & Hw2 & Hs2 & Hl2); [simpl in *; lia|].
  set (ep2 := set_written _ _ w2) in Hw2.
  destruct (pipe_read_eof (T := T) fuel (pipe_fd pc) 4 ep2 t Hin Hrs) as (r1 & Hr1 & Hsr1 & Hlr1);
    [simpl in *; lia|].
  destruct (pipe_read_eof (T := T) fuel (pipe_fd pc) (String.length j) (set_read ep2 "" r1) t eq_refl Hsr1)
    as (r2 & Hr2 & _); [simpl in *; lia|].
  eexists. unfold searpc_client_transport_send. cbn [send arg searpc_client_with_named_pipe_transport].
  rewrite (rbind_step _ _ _ (Some (mkReply (cbuf_write (g_malloc (String.length j)) "") (String.length j)))
    (set_read (set_read ep2 "" r1) "" r2, t)).
  - cbn [r_buf r_len]. unfold rlift, searpc_client_fret__string, fret, handle_ret_common, cbuf_read.
    cbn. rewrite Nat.leb_refl. destruct j; [done|]. cbn. done.
  - assert (read_over (Z.of_nat (String.length j)) "" = Z.of_nat (String.length j)) as Hov
      by (apply read_over_nothing; unfold in_unsigned; lia).
    eapply (framed_send_steps (IO := @posix_io _ (ep_sockets (T := T) no_peer) fuel) pc svc req j);
      eauto; rewrite ?le32_length; lia.
Qed.
End PipeClientProperties.

Section PipeRpc.
Context `{JanssonLaws} `{GObjectLaws} {W AsyncArg CbData : Type}.

(** C2: remote calls over the named pipe are transparent: on a quiet connection whose schedules
    of partial transfers and interruptions are arbitrary, the client's call returns what the
    function returns or reports the error it set, and the connection is quiet again, ready for
    the next call, for requests and responses of up to [m] bytes, [m] at most 2^31. *)
Theorem rpc_over_pipe fuel connfd pc svc m start finish n gt stack s fname f vals rest x w r error w' :
  text_ok svc = true -> Z.of_nat m <= max_message ->
  quiet x (s, w) -> roomy fuel m x -> server_wf s -> text_ok fname = true ->
  serves (W := W) svc s fname stack f ->
  Forall2 arg_ok (c_params f) vals ->
  c_body f (zip_with arg_param (c_params f) vals) w = Ok ((r, error), w') ->
  ret_ok n (c_ret f) r -> ret_typed gt r -> gerror_ok error ->
  (n <= stack)%nat -> (n <= wire_depth)%nat ->
  (forall req len resp st',
     fcall_to_str fname (Z.of_nat (length (c_params f))) (va_of (c_params f) vals ++ rest) =
       Ok (Some (req, len)) ->
     searpc_server_call_function start finish svc req (s, w) = Ok (resp, st') ->
     pipe_fits svc m req resp) ->
  exists c e x' lines,
    typed_call (c_ret f) gt
      (pipe_client (AsyncArg := AsyncArg) (CbData := CbData) fuel connfd pc svc start finish)
      (Some fname) (ErrAt None) (Z.of_nat (length (c_params f))) (va_of (c_params f) vals ++ rest) x =
      Ok ((c, e), x') /\
    quiet x' (add_lines lines s, w') /\ roomy fuel m x' /\
    match error with
    | None => same_value n (c_ret f) r c /\ e = ErrAt None
    | Some err => c = error_result (c_ret f) /\
                  e = ErrAt (Some (client_error (e_code err) (e_message err)))
    end.
Proof.
  intros Hsvc Hm Hq Hr Hwf Hfn Hserves Hargs Hbody Hret Hty He Hst Hn Hfits.
  destruct (transparent_aux start finish svc
    (pipe_client (AsyncArg := AsyncArg) (CbData := CbData) fuel connfd pc svc start finish)
    (Transport0 := pipe_transport fuel connfd pc svc m start finish Hsvc Hm)
    n gt stack s fname f vals rest x w r error w')
    as (c & e & x' & lines & Hc & [Hq' Hr'] & Hres); try done.
  { unfold text_ok in Hsvc. by split_bools. }
  by exists c, e, x', lines.
Qed.
End PipeRpc.
