(* ===== verification/Listener.v ===== *)
(** * Listener: setting connections up, in lib/searpc-named-pipe-transport.c

    Creating servers and clients, the start of a server, connecting and releasing a client, and
    the two accept loops.  What a system call returns is an input ([sys_env], or the arguments of
    a step); what the code does to descriptors is a set of open descriptors.  The event loop with
    epoll and its workers is a step relation: the loop and any number of workers interleave. *)
From S2P Require Import Prelude Runtime Pipe.

(** ** Servers *)

(** [pool]: whether there is a thread pool. *)
Record SearpcNamedPipeServer := mkPipeServer {
  srv_path : string; srv_pipe_fd : Z; srv_use_epoll : bool; srv_epoll_fd : Z;
  srv_pool : bool; srv_pool_size : Z
}.

Definition searpc_create_named_pipe_server (p : string) : outcome SearpcNamedPipeServer :=
  if (String.length p + 1 <=? PATH_SIZE)%nat then Ok (mkPipeServer p 0 false 0 false 0)
  else Undef "memcpy past the end of path".

(** [pool_created]: whether [g_thread_pool_new] returns a pool. *)
Definition searpc_create_named_pipe_server_with_threadpool (p : string) (pool_size : Z)
  (pool_created : bool) : outcome (option SearpcNamedPipeServer) :=
  if (String.length p + 1 <=? PATH_SIZE)%nat then
    if pool_created then Ok (Some (mkPipeServer p 0 false 0 true pool_size)) else Ok None
  else Undef "memcpy past the end of path".

(** ** Starting a server *)

(** [sizeof (saddr.sun_path)]. *)
Definition SUN_PATH : nat := 108.

(** The results of the system calls of one run. *)
Record sys_env := mkEnv {
  env_socket : Z; env_exists : bool; env_unlink : Z; env_bind : string -> Z;
  env_listen : Z -> Z; env_chmod : Z; env_epoll_create : Z;
  env_getfl : Z; env_setfl : Z -> Z; env_epoll_ctl : Z; env_connect : string -> Z
}.

Definition O_NONBLOCK : Z := 2048.

Definition set_nonblocking (env : sys_env) (fd : Z) : Z :=
  let flags := env_getfl env in
  if flags <? 0 then -1 else env_setfl env (Z.lor flags O_NONBLOCK).

(** [g_strlcpy (saddr.sun_path, path, sizeof (saddr.sun_path))]. *)
Definition sun_path_of (p : string) : string := str_take (SUN_PATH - 1) p.

Definition searpc_named_pipe_server_start (env : sys_env) (server : SearpcNamedPipeServer)
  (fds : gset Z) : Z * SearpcNamedPipeServer * gset Z :=
  let pipe_fd := env_socket env in
  if pipe_fd <? 0 then (-1, server, fds) else
  let fds := {[ pipe_fd ]} ∪ fds in
  let failed (fds : gset Z) := (-1, server, fds ∖ {[ pipe_fd ]}) in
  if (SUN_PATH - 1 <? String.length (srv_path server))%nat then failed fds else
  if env_exists env && (env_unlink env <? 0) then failed fds else
  if env_bind env (sun_path_of (srv_path server)) <? 0 then failed fds else
  let backlog := if srv_use_epoll server then 1024 else 10 in
  if env_listen env backlog <? 0 then failed fds else
  if env_chmod env <? 0 then failed fds else
  if srv_use_epoll server then
    let epoll_fd := env_epoll_create env in
    if epoll_fd <? 0 then failed fds else
    let fds := {[ epoll_fd ]} ∪ fds in
    if set_nonblocking env pipe_fd <? 0 then failed fds else
    if env_epoll_ctl env =? -1 then failed fds else
    (0, mkPipeServer (srv_path server) pipe_fd true epoll_fd (srv_pool server) (srv_pool_size server), fds)
  else
    (0, mkPipeServer (srv_path server) pipe_fd false (srv_epoll_fd server) (srv_pool server)
          (srv_pool_size server), fds).

(** ** Clients *)

(** [close]: [true] when the descriptor was open. *)
Definition sys_close_fd (fd : Z) (fds : gset Z) : bool * gset Z :=
  (bool_decide (fd ∈ fds), fds ∖ {[ fd ]}).

(** The descriptor is stored before [connect] and is left there when that fails. *)
Definition searpc_named_pipe_client_connect (env : sys_env) (client : SearpcNamedPipeClient)
  (fds : gset Z) : Z * SearpcNamedPipeClient * gset Z :=
  let fd := env_socket env in
  let client := mkPipeClient (path client) fd in
  let fds := if fd <? 0 then fds else {[ fd ]} ∪ fds in
  if env_connect env (sun_path_of (path client)) <? 0 then (-1, client, (sys_close_fd fd fds).2)
  else (0, client, fds).

(** Whether the [close] was of an open descriptor, and the descriptors left. *)
Definition searpc_free_client_with_pipe_transport (data : ClientTransportData) (fds : gset Z)
  : bool * gset Z :=
  let pipe_client := client data in
  sys_close_fd (pipe_fd pipe_client) fds.

(** ** The event loop with epoll *)

(** The [ServerHandlerData] of a connection lives at an address. *)
Definition addr : Type := nat.

Record ServerHandlerData := mkHandlerData { connfd : Z; use_epoll : bool }.

(** The heap of handler data, epoll's interest list (descriptor to [data.ptr]), the open
    descriptors of connections, the data handed to workers, and the events of the last
    [epoll_wait] that are still to be handled. *)
Record loop_state := mkLoop {
  heap : gmap addr ServerHandlerData;
  interest : gmap Z addr;
  open_fds : gset Z;
  busy : gset addr;
  batch : list (addr * bool)       (* EPOLLHUP or EPOLLRDHUP set? *)
}.

Definition loop_start : loop_state := mkLoop ∅ ∅ ∅ ∅ [].

(** One connection accepted: [data] is the fresh address, [added] whether [epoll_ctl] worked. *)
Definition accept_connection (fd : Z) (data : addr) (added : bool) (s : loop_state) : loop_state :=
  if added then
    mkLoop (<[data := mkHandlerData fd true]> (heap s)) (<[fd := data]> (interest s))
      ({[ fd ]} ∪ open_fds s) (busy s) (batch s)
  else
    (* EPOLL_CTL_DEL, close, g_free *)
    mkLoop (heap s) (delete fd (interest s)) (open_fds s) (busy s) (batch s).

(** The handling of one event of a connection: reading freed data is undefined. *)
Definition handle_event (data : addr) (hup : bool) (s : loop_state) : outcome loop_state :=
  match heap s !! data with
  | None => Undef "handler data used after it was freed"
  | Some d =>
      let fd := connfd d in
      if hup then
        Ok (mkLoop (delete data (heap s)) (delete fd (interest s)) (open_fds s ∖ {[ fd ]})
              (busy s) (batch s))
      else
        Ok (mkLoop (heap s) (delete fd (interest s)) (open_fds s) ({[ data ]} ∪ busy s) (batch s))
  end.

(** The end of [epoll_handler] on a worker: [ret] is what [epoll_request] gave. *)
Definition worker_done (data : addr) (ret : Z) (s : loop_state) : outcome loop_state :=
  match heap s !! data with
  | None => Undef "handler data used after it was freed"
  | Some d =>
      let fd := connfd d in
      if ret <? 0 then
        Ok (mkLoop (delete data (heap s)) (interest s) (open_fds s ∖ {[ fd ]}) (busy s ∖ {[ data ]})
              (batch s))
      else
        Ok (mkLoop (heap s) (<[fd := data]> (interest s)) (open_fds s) (busy s ∖ {[ data ]}) (batch s))
  end.

Definition set_batch (b : list (addr * bool)) (s : loop_state) : loop_state :=
  mkLoop (heap s) (interest s) (open_fds s) (busy s) b.

(** The listener and the workers: [epoll_wait] reports watched connections, each at most once;
    [accept] returns a descriptor that is not open; [g_new0] an address that is not in use. *)
Inductive loop_step : loop_state -> outcome loop_state -> Prop :=
| step_wait s events :
    batch s = [] -> NoDup events.*1 ->
    Forall (fun e => exists fd, interest s !! fd = Some e.1) events ->
    loop_step s (Ok (set_batch events s))
| step_accept s fd data added :
    0 <= fd -> fd ∉ open_fds s -> heap s !! data = None ->
    loop_step s (Ok (accept_connection fd data added s))
| step_event s data hup rest :
    batch s = (data, hup) :: rest ->
    loop_step s (handle_event data hup (set_batch rest s))
| step_worker s data ret :
    data ∈ busy s -> loop_step s (worker_done data ret s).

Inductive loop_reachable : loop_state -> Prop :=
| loop_init : loop_reachable loop_start
| loop_next s s' : loop_reachable s -> loop_step s (Ok s') -> loop_reachable s'.

(** ** The accept loop with a thread per connection *)

(** One round of [named_pipe_listen]: the handler is started whatever [accept] returned. *)
Definition named_pipe_listen_round (accepted : Z) : ServerHandlerData := mkHandlerData accepted false.
