(* ===== verification/ListenerSafety.v ===== *)
(** * ListenerSafety: ownership of connections

    The invariant of the event loop: the data of a connection is live exactly while the
    connection is watched or served, never both, and its descriptor is open exactly as long. *)
From S2P Require Import Prelude Runtime Pipe Listener.

(** ** The invariant *)
Record loop_ok (s : loop_state) : Prop := {
  (** watched: the data is live and names the descriptor *)
  ok_interest fd data : interest s !! fd = Some data ->
    heap s !! data = Some (mkHandlerData fd true) /\ data ∉ busy s;
  (** served: the data is live and its descriptor is not watched *)
  ok_busy data : data ∈ busy s -> exists fd, heap s !! data = Some (mkHandlerData fd true) /\ interest s !! fd = None;
  (** live: watched or served, with an open descriptor of its own *)
  ok_heap data d : heap s !! data = Some d -> data ∈ busy s \/ interest s !! connfd d = Some data;
  ok_open fd : fd ∈ open_fds s <-> exists data, heap s !! data = Some (mkHandlerData fd true);
  ok_fds data1 data2 d : heap s !! data1 = Some d -> heap s !! data2 = Some d -> data1 = data2;
  (** the events still to be handled are of watched connections, each once *)
  ok_batch : NoDup (batch s).*1 /\ Forall (fun e => exists fd, interest s !! fd = Some e.1) (batch s)
}.

Section Facts.
Implicit Types s : loop_state.

Lemma ok_flag s data d : loop_ok s -> heap s !! data = Some d -> d = mkHandlerData (connfd d) true.
Proof.
  intros Hs Hd. destruct (ok_heap s Hs data d Hd) as [Hb|Hi].
  - destruct (ok_busy s Hs data Hb) as (fd & Hfd & _). by simplify_eq.
  - apply (ok_interest s Hs) in Hi as [Hi _]. by simplify_eq.
Qed.

Lemma wait_ok s events :
  loop_ok s -> NoDup events.*1 -> Forall (fun e => exists fd, interest s !! fd = Some e.1) events ->
  loop_ok (set_batch events s).
Proof. intros [] Hnd Hev. by constructor. Qed.

Lemma accept_ok s fd data added :
  loop_ok s -> fd ∉ open_fds s -> heap s !! data = None -> loop_ok (accept_connection fd data added s).
Proof.
  intros Hs Hfd Hdata.
  assert (forall a, heap s !! a <> Some (mkHandlerData fd true)) as Hnew.
  { intros a Ha. apply Hfd, (ok_open s Hs). by exists a. }
  assert (interest s !! fd = None) as Hint.
  { destruct (interest s !! fd) as [a|] eqn:Ha; [|done].
    apply (ok_interest s Hs) in Ha as [Ha _]. by apply Hnew in Ha. }
  destruct added; unfold accept_connection; cycle 1.
  { rewrite delete_id by done. by destruct s. }
  assert (data ∉ busy s) as Hbusy.
  { intros Hb. apply (ok_busy s Hs) in Hb as (fd' & Hb & _). congruence. }
  constructor; cbn [heap interest open_fds busy batch].
  - intros fd' a Ha. apply lookup_insert_Some in Ha as [[<- <-]|[Hne Ha]].
    + split; [by rewrite lookup_insert_eq|done].
    + apply (ok_interest s Hs) in Ha as [Ha Hb]. split; [|done].
      rewrite lookup_insert_ne; [done|congruence].
  - intros a Ha. destruct (ok_busy s Hs a Ha) as (fd' & Hfd' & Hn). exists fd'.
    rewrite !lookup_insert_ne; [done|naive_solver|congruence].
  - intros a d Ha. apply lookup_insert_Some in Ha as [[<- <-]|[Hne Ha]].
    + right. by rewrite lookup_insert_eq.
    + destruct (ok_heap s Hs a d Ha) as [Hb|Hi]; [by left|right].
      rewrite lookup_insert_ne; [done|congruence].
  - intros fd'. rewrite elem_of_union, elem_of_singleton, (ok_open s Hs). split.
    + intros [->|[a Ha]]; [exists data; by rewrite lookup_insert_eq|].
      exists a. rewrite lookup_insert_ne; [done|congruence].
    + intros [a Ha]. apply lookup_insert_Some in Ha as [[_ Ha]|[_ Ha]]; [left|right; by exists a].
      by injection Ha.
  - intros a1 a2 d H1 H2.
    apply lookup_insert_Some in H1 as [[<- <-]|[Hn1 H1]], H2 as [[<- H2]|[Hn2 H2]]; try done.
    + by apply Hnew in H2.
    + subst d. by apply Hnew in H1.
    + by apply (ok_fds s Hs a1 a2 d).
  - destruct (ok_batch s Hs) as [Hnd Hb]. split; [done|]. eapply Forall_impl; [exact Hb|].
    intros e [fd' He]. exists fd'. rewrite lookup_insert_ne; [done|]. intros ->. congruence.
Qed.

(** Events of other connections stay in place when one connection is no longer watched. *)
Lemma batch_unwatch s fd data hup rest :
  loop_ok s -> batch s = (data, hup) :: rest -> interest s !! fd = Some data ->
  NoDup rest.*1 /\ Forall (fun e => exists fd', delete fd (interest s) !! fd' = Some e.1) rest.
Proof.
  intros Hs Hb Hfd. destruct (ok_batch s Hs) as [Hnd Hf]. rewrite Hb in Hnd, Hf. simpl in Hnd.
  apply NoDup_cons in Hnd as [Hn Hnd]. apply Forall_cons in Hf as [_ Hf]. split; [done|].
  rewrite Forall_forall in Hf |- *. intros e He. destruct (Hf e He) as [fd' He'].
  exists fd'. rewrite lookup_delete_ne; [done|]. intros <-.
  apply Hn. assert (e.1 = data) as <- by congruence. by apply list_elem_of_fmap_2.
Qed.

Lemma unwatch_ok s fd data hup rest :
  loop_ok s -> batch s = (data, hup) :: rest -> interest s !! fd = Some data ->
  loop_ok (mkLoop (heap s) (delete fd (interest s)) (open_fds s) ({[ data ]} ∪ busy s) rest).
Proof.
  intros Hs Hb Hfd. destruct (ok_interest s Hs fd data Hfd) as [Hheap Hnb].
  constructor; cbn [heap interest open_fds busy batch].
  - intros fd' a Ha. apply lookup_delete_Some in Ha as [Hne Ha].
    apply (ok_interest s Hs) in Ha as [Ha Hab]. split; [done|].
    rewrite elem_of_union, elem_of_singleton. intros [->|?]; [|done]. congruence.
  - intros a. rewrite elem_of_union, elem_of_singleton. intros [->|Ha].
    + exists fd. split; [done|apply lookup_delete_eq].
    + destruct (ok_busy s Hs a Ha) as (fd' & Hfd' & Hn). exists fd'. split; [done|].
      apply lookup_delete_None. by right.
  - intros a d Ha. destruct (decide (a = data)) as [->|Hne]; [left; set_solver|].
    destruct (ok_heap s Hs a d Ha) as [Hab|Hi]; [left; set_solver|right].
    rewrite lookup_delete_ne; [done|]. intros ->. congruence.
  - apply (ok_open s Hs).
  - apply (ok_fds s Hs).
  - by eapply batch_unwatch.
Qed.

Lemma close_ok s fd data rest :
  loop_ok s -> heap s !! data = Some (mkHandlerData fd true) ->
  (NoDup rest.*1 /\ Forall (fun e => exists fd', delete fd (interest s) !! fd' = Some e.1) rest) ->
  loop_ok (mkLoop (delete data (heap s)) (delete fd (interest s)) (open_fds s ∖ {[ fd ]})
             (busy s ∖ {[ data ]}) rest).
Proof.
  intros Hs Hheap Hrest.
  assert (forall a, heap s !! a = Some (mkHandlerData fd true) -> a = data) as Huniq
    by (intros a Ha; by eapply (ok_fds s Hs)).
  constructor; cbn [heap interest open_fds busy batch].
  - intros fd' a Ha. apply lookup_delete_Some in Ha as [Hne Ha].
    apply (ok_interest s Hs) in Ha as [Ha Hab]. split; [|set_solver].
    rewrite lookup_delete_ne; [done|]. intros <-. congruence.
  - intros a. rewrite elem_of_difference, elem_of_singleton. intros [Ha Hne].
    destruct (ok_busy s Hs a Ha) as (fd' & Hfd' & Hn). exists fd'.
    rewrite lookup_delete_ne by done. split; [done|]. apply lookup_delete_None. by right.
  - intros a d Ha. apply lookup_delete_Some in Ha as [Hne Ha].
    destruct (ok_heap s Hs a d Ha) as [Hab|Hi]; [left; set_solver|right].
    rewrite lookup_delete_ne; [done|]. intros ->. apply Hne. symmetry. apply Huniq.
    by rewrite Ha, (ok_flag s a d Hs Ha).
  - intros fd'. rewrite elem_of_difference, elem_of_singleton, (ok_open s Hs). split.
    + intros [[a Ha] Hne]. exists a. rewrite lookup_delete_ne; [done|]. intros <-. congruence.
    + intros [a Ha]. apply lookup_delete_Some in Ha as [Hne Ha]. split; [by exists a|].
      intros ->. by apply Hne, eq_sym, Huniq.
  - intros a1 a2 d H1 H2. apply lookup_delete_Some in H1 as [_ H1], H2 as [_ H2].
    by apply (ok_fds s Hs a1 a2 d).
  - done.
Qed.

(** The event at the head of a batch is of a live, watched connection. *)
Lemma head_watched s data hup rest :
  loop_ok s -> batch s = (data, hup) :: rest ->
  exists fd, interest s !! fd = Some data /\ heap s !! data = Some (mkHandlerData fd true) /\ data ∉ busy s.
Proof.
  intros Hs Hb. destruct (ok_batch s Hs) as [_ Hf]. rewrite Hb in Hf.
  apply Forall_cons in Hf as [[fd Hfd] _]. simpl in Hfd. exists fd. split; [done|].
  by apply (ok_interest s Hs).
Qed.

Lemma event_ok s data hup rest :
  loop_ok s -> batch s = (data, hup) :: rest ->
  exists s', handle_event data hup (set_batch rest s) = Ok s' /\ loop_ok s'.
Proof.
  intros Hs Hb. destruct (head_watched s data hup rest Hs Hb) as (fd & Hfd & Hheap & Hnb).
  unfold handle_event. cbn [set_batch heap interest open_fds busy batch]. rewrite Hheap.
  cbn [connfd]. destruct hup; eexists; (split; [done|]).
  - replace (busy s) with (busy s ∖ {[data]}) by set_solver.
    apply close_ok; [done|done|]. by eapply batch_unwatch.
  - by eapply unwatch_ok.
Qed.

Lemma worker_ok s data ret :
  loop_ok s -> data ∈ busy s -> exists s', worker_done data ret s = Ok s' /\ loop_ok s'.
Proof.
  intros Hs Hb. destruct (ok_busy s Hs data Hb) as (fd & Hheap & Hint).
  unfold worker_done. rewrite Hheap. cbn [connfd].
  destruct (ret <? 0); eexists; (split; [done|]).
  - pose proof (close_ok s fd data (batch s) Hs Hheap) as Hc.
    rewrite delete_id in Hc by done. apply Hc, (ok_batch s Hs).
  - constructor; cbn [heap interest open_fds busy batch].
    + intros fd' a Ha. apply lookup_insert_Some in Ha as [[<- <-]|[Hne Ha]]; [split; [done|set_solver]|].
      apply (ok_interest s Hs) in Ha as [Ha Hab]. split; [done|set_solver].
    + intros a. rewrite elem_of_difference, elem_of_singleton. intros [Ha Hne].
      destruct (ok_busy s Hs a Ha) as (fd' & Hfd' & Hn). exists fd'. split; [done|].
      rewrite lookup_insert_ne; [done|]. intros <-. by apply Hne, (ok_fds s Hs a data _ Hfd').
    + intros a d Ha. destruct (decide (a = data)) as [->|Hne].
      { right. assert (d = mkHandlerData fd true) as -> by congruence. apply lookup_insert_eq. }
      destruct (ok_heap s Hs a d Ha) as [Hab|Hi]; [left; set_solver|right].
      rewrite lookup_insert_ne; [done|]. intros ->. congruence.
    + apply (ok_open s Hs).
    + apply (ok_fds s Hs).
    + destruct (ok_batch s Hs) as [Hnd Hf]. split; [done|]. eapply Forall_impl; [exact Hf|].
      intros e [fd' He]. exists fd'. rewrite lookup_insert_ne; [done|]. intros <-. congruence.
Qed.

Lemma step_ok s r : loop_ok s -> loop_step s r -> exists s', r = Ok s' /\ loop_ok s'.
Proof.
  intros Hs Hstep.
  destruct Hstep as [s events|s fd data added|s data hup rest Hb|s data ret Hb].
  - eexists. split; [done|]. by apply wait_ok.
  - eexists. split; [done|]. by apply accept_ok.
  - by eapply event_ok.
  - by apply worker_ok.
Qed.

Lemma start_ok : loop_ok loop_start.
Proof.
  constructor; unfold loop_start; cbn [heap interest open_fds busy batch].
  - intros fd data Hd. by rewrite lookup_empty in Hd.
  - set_solver.
  - intros data d Hd. by rewrite lookup_empty in Hd.
  - intros fd. split; [set_solver|]. intros [data Hd]. by rewrite lookup_empty in Hd.
  - intros a1 a2 d Hd. by rewrite lookup_empty in Hd.
  - split; constructor.
Qed.

Lemma reachable_ok s : loop_reachable s -> loop_ok s.
Proof.
  induction 1 as [|s s' _ IH Hstep]; [apply start_ok|].
  destruct (step_ok s (Ok s') IH Hstep) as (s'' & [= ->] & Hs). exact Hs.
Qed.
End Facts.

(** ** Properties *)

(** C33: the event loop and its workers never use the data of a connection after it was freed:
    from every state the listener and any interleaving of workers can reach, every further step
    (waiting, accepting, handling an event, finishing a request) goes through. *)
Theorem epoll_loop_safe s r :
  loop_reachable s -> loop_step s r -> exists s', r = Ok s' /\ loop_reachable s'.
Proof.
  intros Hs Hstep. destruct (step_ok s r (reachable_ok s Hs) Hstep) as (s' & -> & _).
  exists s'. split; [done|]. by eapply loop_next.
Qed.

(** In every reachable state a connection is either watched or being served by one worker, so
    requests of one connection are served one at a time; a descriptor is open exactly while the
    data of its connection is live, and two connections never share one. *)
Theorem epoll_connections_owned s data d :
  loop_reachable s -> heap s !! data = Some d ->
  ((data ∈ busy s /\ interest s !! connfd d = None) \/
   (data ∉ busy s /\ interest s !! connfd d = Some data)) /\
  connfd d ∈ open_fds s /\
  (forall data' d', heap s !! data' = Some d' -> connfd d' = connfd d -> data' = data).
Proof.
  intros Hr Hd. pose proof (reachable_ok s Hr) as Hs. pose proof (ok_flag s data d Hs Hd) as Hflag.
  split; [|split].
  - destruct (decide (data ∈ busy s)) as [Hb|Hb].
    + left. split; [done|]. destruct (ok_busy s Hs data Hb) as (fd & Hfd & Hn). by simplify_eq.
    + right. split; [done|]. by destruct (ok_heap s Hs data d Hd).
  - apply (ok_open s Hs). exists data. by rewrite Hd, Hflag at 1.
  - intros data' d' Hd' Heq. apply (ok_fds s Hs data' data d); [|done].
    by rewrite Hd', (ok_flag s data' d' Hs Hd'), Heq, <- Hflag.
Qed.

(** Starting a server: it answers 0 or -1; 0 means the socket (and with epoll the epoll
    descriptor) is open and stored; -1 means the server is unchanged and the socket closed again.
    But when a step after [epoll_create1] fails, the epoll descriptor stays open and nothing
    refers to it any more. *)
Theorem server_start_descriptors env server fds :
  env_socket env ∉ fds -> env_epoll_create env ∉ {[ env_socket env ]} ∪ fds ->
  let '(ret, server', fds') := searpc_named_pipe_server_start env server fds in
  (ret = 0 /\ srv_pipe_fd server' = env_socket env /\ (String.length (srv_path server) < SUN_PATH)%nat /\
   fds' = (if srv_use_epoll server then {[ env_epoll_create env ]} else ∅) ∪ ({[ env_socket env ]} ∪ fds) /\
   (srv_use_epoll server = true -> srv_epoll_fd server' = env_epoll_create env)) \/
  (ret = -1 /\ server' = server /\
   (fds' = fds \/
    (srv_use_epoll server = true /\ 0 <= env_epoll_create env /\
     (set_nonblocking env (env_socket env) < 0 \/ env_epoll_ctl env = -1) /\
     fds' = {[ env_epoll_create env ]} ∪ fds))).
Proof.
  intros Hs He. unfold searpc_named_pipe_server_start.
  assert (forall x : gset Z, env_socket env ∉ x -> ({[ env_socket env ]} ∪ x) ∖ {[ env_socket env ]} = x) as Hcl
    by (intros; set_solver).
  assert (({[ env_epoll_create env ]} ∪ ({[ env_socket env ]} ∪ fds)) ∖ {[ env_socket env ]} =
          {[ env_epoll_create env ]} ∪ fds) as Hcl2 by set_solver.
  destruct (Z.ltb_spec (env_socket env) 0); [by right; repeat split; left|].
  destruct (Nat.ltb_spec (SUN_PATH - 1) (String.length (srv_path server)));
    [by right; repeat split; left; apply Hcl|].
  destruct (env_exists env && (env_unlink env <? 0)); [by right; repeat split; left; apply Hcl|].
  destruct (env_bind env _ <? 0); [by right; repeat split; left; apply Hcl|].
  destruct (env_listen env _ <? 0); [by right; repeat split; left; apply Hcl|].
  destruct (env_chmod env <? 0); [by right; repeat split; left; apply Hcl|].
  destruct (srv_use_epoll server) eqn:Hep; cycle 1.
  { left. repeat split; [unfold SUN_PATH in *; lia|set_solver|done]. }
  destruct (Z.ltb_spec (env_epoll_create env) 0); [by right; repeat split; left; apply Hcl|].
  destruct (Z.ltb_spec (set_nonblocking env (env_socket env)) 0).
  { right. split; [done|]. split; [done|]. right. repeat split; [done|by left|done]. }
  destruct (Z.eqb_spec (env_epoll_ctl env) (-1)).
  { right. split; [done|]. split; [done|]. right. repeat split; [done|by right|done]. }
  left. repeat split. unfold SUN_PATH in *. lia.
Qed.

(** After a failed connect the client still names the descriptor it closed, and releasing the
    client closes that number a second time; another part of the program may own it by then. *)
Theorem failed_connect_double_close env pc fds svc :
  0 <= env_socket env -> env_socket env ∉ fds ->
  env_connect env (sun_path_of (path pc)) < 0 ->
  let '(ret, pc', fds') := searpc_named_pipe_client_connect env pc fds in
  ret = -1 /\ fds' = fds /\
  searpc_free_client_with_pipe_transport (mkTransportData pc' svc) fds' = (false, fds) /\
  forall others, env_socket env ∈ others ->
    (searpc_free_client_with_pipe_transport (mkTransportData pc' svc) others).2 =
      others ∖ {[ env_socket env ]}.
Proof.
  intros Hs Hfd Hc. unfold searpc_named_pipe_client_connect. cbn [path].
  destruct (Z.ltb_spec (env_socket env) 0); [lia|].
  destruct (Z.ltb_spec (env_connect env (sun_path_of (path pc))) 0); [|lia].
  cbn [sys_close_fd snd]. assert (({[ env_socket env ]} ∪ fds) ∖ {[ env_socket env ]} = fds) as -> by set_solver.
  split; [done|]. split; [done|]. unfold searpc_free_client_with_pipe_transport, sys_close_fd.
  cbn [client pipe_fd]. split; [|done].
  rewrite bool_decide_false by done. f_equal. set_solver.
Qed.

(** A socket path of 108 bytes or more: the server refuses to start, but the client cuts the
    path and connects to whatever listens under its first 107 bytes. *)
Theorem long_path_truncated env server pc fds :
  path pc = srv_path server -> (SUN_PATH <= String.length (path pc))%nat ->
  (searpc_named_pipe_server_start env server fds).1.1 = -1 /\
  (0 <= env_connect env (str_take (SUN_PATH - 1) (path pc)) ->
   (searpc_named_pipe_client_connect env pc fds).1.1 = 0).
Proof.
  intros Hp Hlen. split.
  - unfold searpc_named_pipe_server_start. destruct (env_socket env <? 0); [done|].
    rewrite <- Hp. destruct (Nat.ltb_spec (SUN_PATH - 1) (String.length (path pc))); [done|].
    unfold SUN_PATH in *. lia.
  - intros Hc. unfold searpc_named_pipe_client_connect, sun_path_of. cbn [path].
    by destruct (Z.ltb_spec (env_connect env (str_take (SUN_PATH - 1) (path pc))) 0); [lia|].
Qed.
