(* ===== verification/Liveness.v ===== *)
(** * Liveness: every request the event loop hears of is served

    Infinite runs of the event loop of lib/searpc-named-pipe-transport.c, as sequences of states.
    Fairness is what the program leaves to its surroundings: the listener thread gets on with a
    batch it has begun (it can be held up only by the accept loop), and every worker returns from
    its request. *)
From S2P Require Import Prelude Runtime Pipe Listener ListenerSafety.

(** ** Runs *)

(** The listener handles this event; a worker finishes with this connection. *)
Definition handles (s : loop_state) (data : addr) (hup : bool) (s' : loop_state) : Prop :=
  exists rest, batch s = (data, hup) :: rest /\ handle_event data hup (set_batch rest s) = Ok s'.
Definition finishes (s : loop_state) (data : addr) (ret : Z) (s' : loop_state) : Prop :=
  data ∈ busy s /\ worker_done data ret s = Ok s'.

Definition loop_run (run : nat -> loop_state) : Prop :=
  run 0%nat = loop_start /\ forall n, loop_step (run n) (Ok (run (S n))).

Record fair (run : nat -> loop_state) : Prop := {
  fair_listener n : batch (run n) <> [] ->
    exists m data hup, (n <= m)%nat /\ handles (run m) data hup (run (S m));
  fair_workers n data : data ∈ busy (run n) ->
    exists m ret, (n <= m)%nat /\ finishes (run m) data ret (run (S m))
}.

(** ** Facts *)
Lemma run_reachable run n : loop_run run -> loop_reachable (run n).
Proof.
  intros [H0 Hstep]. induction n as [|n IH]; [rewrite H0; constructor|]. by eapply loop_next.
Qed.

(** The batch is consumed from its head, and refilled only when it is empty. *)
Lemma handles_batch s data hup s' :
  handles s data hup s' -> batch s = (data, hup) :: batch s'.
Proof.
  intros (rest & Hb & Hrun). rewrite Hb. f_equal. unfold handle_event in Hrun.
  destruct (heap _ !! data); [|done]. by destruct hup; simplify_eq.
Qed.

Lemma step_batch s s' :
  loop_step s (Ok s') -> batch s <> [] ->
  batch s' = batch s \/ exists data hup, handles s data hup s'.
Proof.
  intros Hstep Hne. inversion Hstep; subst; try done.
  - left. unfold accept_connection. by destruct added.
  - right. eexists _, _. eexists. by split.
  - left. unfold worker_done in *. destruct (heap s !! data); [|done].
    by destruct (ret <? 0); simplify_eq.
Qed.

(** A served connection stays with its worker until that is finished. *)
Lemma step_busy s s' data :
  loop_step s (Ok s') -> data ∈ busy s -> data ∈ busy s' \/ exists ret, finishes s data ret s'.
Proof.
  intros Hstep Hd. inversion Hstep; subst.
  - by left.
  - left. unfold accept_connection. by destruct added.
  - left. match goal with H : handle_event ?d ?h _ = _ |- _ => unfold handle_event in H; destruct (heap _ !! d); [|done];
      destruct h; simplify_eq; simpl in *; set_solver end.
  - match goal with H : worker_done ?d ?r _ = _ |- _ => destruct (decide (d = data)) as [->|Hne];
      [right; by exists r|left; unfold worker_done in H; destruct (heap s !! d); [|done];
       destruct (r <? 0); simplify_eq; simpl; set_solver] end.
Qed.

(** An event of the batch is handled: its position can only decrease. *)
Lemma event_handled run data hup k n :
  loop_run run -> fair run -> batch (run n) !! k = Some (data, hup) ->
  exists m, (n <= m)%nat /\ handles (run m) data hup (run (S m)).
Proof.
  intros [H0 Hstep] Hfair. revert n. induction k as [k IH] using lt_wf_ind. intros n Hk.
  destruct (fair_listener run Hfair n) as (m & d & h & Hnm & Hh); [by intros E; rewrite E in Hk|].
  assert (forall j n, batch (run n) !! k = Some (data, hup) -> (m = n + j)%nat ->
    exists m', (n <= m')%nat /\ handles (run m') data hup (run (S m'))) as Hfrom;
    [|by apply (Hfrom (m - n)%nat); [|lia]].
  clear n Hk Hnm.
  assert (forall n d h, batch (run n) !! k = Some (data, hup) -> handles (run n) d h (run (S n)) ->
    exists m', (n <= m')%nat /\ handles (run m') data hup (run (S m'))) as Hhead.
  { intros n d' h' Hk Hh'. pose proof (handles_batch _ _ _ _ Hh') as Hb. rewrite Hb in Hk.
    destruct k as [|k]; [injection Hk as -> ->; by exists n|].
    destruct (IH k ltac:(lia) (S n) Hk) as (m' & ? & ?). exists m'. split; [lia|done]. }
  intros j. induction j as [|j IHj]; intros n Hk Hm.
  { rewrite Nat.add_0_r in Hm. subst m. by eapply Hhead. }
  destruct (step_batch (run n) (run (S n)) (Hstep n)) as [Hsame|(d' & h' & Hh')];
    [by intros E; rewrite E in Hk| |by eapply Hhead].
  destruct (IHj (S n)) as (m' & ? & ?); [by rewrite Hsame|lia|]. exists m'. split; [lia|done].
Qed.

Lemma worker_finishes run data n :
  loop_run run -> fair run -> data ∈ busy (run n) ->
  exists m ret, (n <= m)%nat /\ finishes (run m) data ret (run (S m)) /\
    forall i, (n <= i <= m)%nat -> data ∈ busy (run i).
Proof.
  intros [H0 Hstep] Hfair Hd. destruct (fair_workers run Hfair n data Hd) as (m & ret & Hnm & Hf).
  assert (forall j n, data ∈ busy (run n) -> (m = n + j)%nat ->
    exists m ret, (n <= m)%nat /\ finishes (run m) data ret (run (S m)) /\
      forall i, (n <= i <= m)%nat -> data ∈ busy (run i)) as Hfrom; [|by apply (Hfrom (m - n)%nat); [|lia]].
  clear n Hd Hnm.
  intros j. induction j as [|j IH]; intros n Hd Hm.
  { rewrite Nat.add_0_r in Hm. subst m. exists n, ret. split; [done|]. split; [done|].
    intros i Hi. by replace i with n by lia. }
  destruct (step_busy (run n) (run (S n)) data (Hstep n) Hd) as [Hd'|[r Hr]].
  - destruct (IH (S n) Hd' ltac:(lia)) as (m' & r & ? & ? & Hi). exists m', r.
    split; [lia|]. split; [done|]. intros i Hi'. destruct (decide (i = n)) as [->|]; [done|]. apply Hi. lia.
  - exists n, r. split; [done|]. split; [done|]. intros i Hi. by replace i with n by lia.
Qed.

(** What a finished worker leaves. *)
Lemma finishes_result s data ret s' :
  loop_ok s -> finishes s data ret s' ->
  data ∉ busy s' /\
  ((ret < 0 /\ heap s' !! data = None) \/
   (0 <= ret /\ exists fd, heap s' !! data = Some (mkHandlerData fd true) /\ interest s' !! fd = Some data)).
Proof.
  intros Hs [Hb Hrun]. destruct (ok_busy s Hs data Hb) as (fd & Hheap & _).
  unfold worker_done in Hrun. rewrite Hheap in Hrun. cbn [connfd] in Hrun.
  destruct (Z.ltb_spec ret 0); simplify_eq; cbn [busy heap interest]; (split; [set_solver|]).
  - left. by rewrite lookup_delete_eq.
  - right. split; [done|]. exists fd. by rewrite lookup_insert_eq.
Qed.

(** ** Properties *)

(** C24: in every fair run, an event that [epoll_wait] reported is handled: a connection that hung
    up is closed and its data freed; a readable one is handed to a worker, stays with it until it
    is finished, and is then watched again or, after a failure, closed. *)
Theorem events_served run n data hup :
  loop_run run -> fair run -> (data, hup) ∈ batch (run n) ->
  exists m, (n <= m)%nat /\ handles (run m) data hup (run (S m)) /\
    if hup then heap (run (S m)) !! data = None
    else exists m' ret, (m < m')%nat /\ (forall i, (m < i <= m')%nat -> data ∈ busy (run i)) /\
      finishes (run m') data ret (run (S m')) /\ data ∉ busy (run (S m')) /\
      ((ret < 0 /\ heap (run (S m')) !! data = None) \/
       (0 <= ret /\ exists fd, heap (run (S m')) !! data = Some (mkHandlerData fd true) /\
          interest (run (S m')) !! fd = Some data)).
Proof.
  intros Hrun Hfair Hin. apply list_elem_of_lookup in Hin as [k Hk].
  destruct (event_handled run data hup k n Hrun Hfair Hk) as (m & Hnm & Hh).
  exists m. split; [done|]. split; [done|]. pose proof Hh as (rest & _ & Hev). unfold handle_event in Hev.
  destruct (heap (set_batch rest (run m)) !! data) as [d|]; [|done].
  destruct hup; injection Hev as Hev.
  - rewrite <- Hev. cbn [heap]. apply lookup_delete_eq.
  - assert (data ∈ busy (run (S m))) as Hb by (rewrite <- Hev; cbn [busy]; set_solver).
    destruct (worker_finishes run data (S m) Hrun Hfair Hb) as (m' & ret & Hm & Hf & Hi).
    exists m', ret. split; [lia|]. split; [intros i ?; apply Hi; lia|]. split; [done|].
    apply (finishes_result (run m')); [by apply reachable_ok, run_reachable|done].
Qed.
