(* ===== verification/Concurrent.v ===== *)
(** * Concurrent: the connections of a server at the same time

    The server of lib/searpc-named-pipe-transport.c runs [named_pipe_client_handler] in a thread of
    its own for every connection.  A round of its loop is taken apart into what the thread does on
    its own (receiving a request, sending a response) and the call, which works on the state all
    threads share; a schedule says whose turn it is.  Here a call is one step; SlowLog takes it apart. *)
From S2P Require Import Prelude Json Runtime Utils GObject Client Pipe PipeSafety PipeServer.

(** ** A round in three parts *)
Section Phases.
Context `{Jansson} {X : Type} {IO : PipeIO X} (fuel : nat).

(** Up to [request_from_json]: the locals and the request; [None]: break. *)
Definition receive_request (connfd : Z) (st : handler_state)
  : run X (option (handler_state * (string * string))) :=
  r1 <- io_read_n connfd 4 ;;
  if r1.1 <? 0 then rret None else
  let len := read_over 0 r1.2 in
  if len =? 0 then rret None else
  match grow fuel len st with
  | None => fun _ => Undef "the buffer is doubled without end"
  | Some st =>
      r2 <- io_read_n connfd (Z.to_nat len) ;;
      let buf := cbuf_write (buf st) r2.2 in
      if (r2.1 <? 0) || (len =? 0) then rret None else
      req <- rlift (request_from_json buf (Z.to_nat len)) ;;
      match req with
      | None => rret None
      | Some (service, body) => rret (Some (mkHandler (bufsize st) buf, (service, body)))
      end
  end.

(** From the response on; [false]: break. *)
Definition send_response (connfd : Z) (ret_str : string) : run X bool :=
  let ret_len := String.length ret_str in
  w1 <- io_write_n connfd (le32 (to_uint32 (Z.of_nat ret_len))) ;;
  if w1 <? 0 then rret false else
  w2 <- io_write_n connfd ret_str ;;
  if w2 <? 0 then rret false else
  rret true.

Lemma framed_round_phases call connfd st x :
  framed_round fuel call connfd st x =
  (r <- receive_request connfd st ;;
   match r with
   | None => rret None
   | Some (st', (service, body)) =>
       ret_str <- call service body ;;
       ok <- send_response connfd ret_str ;;
       rret (if ok : bool then Some st' else None)
   end) x.
Proof.
  unfold framed_round, receive_request, send_response, rbind, rret, rlift.
  destruct (io_read_n connfd 4 x) as [[r1 x1]| |]; cbn [obind fst snd]; try done.
  destruct (r1.1 <? 0); [done|]. destruct (_ =? 0); [done|]. destruct (grow _ _ _) as [st1|]; [|done].
  destruct (io_read_n connfd _ x1) as [[r2 x2]| |]; cbn [obind fst snd]; try done.
  destruct (_ || _); [done|]. destruct (request_from_json _ _) as [[[svc body]|]| |]; cbn [obind fst snd]; try done.
  destruct (call svc body x2) as [[resp x3]| |]; cbn [obind fst snd]; try done.
  destruct (io_write_n connfd _ x3) as [[w1 x4]| |]; cbn [obind fst snd]; try done.
  destruct (w1 <? 0); [done|].
  destruct (io_write_n connfd resp x4) as [[w2 x5]| |]; cbn [obind fst snd]; try done.
  by destruct (w2 <? 0).
Qed.
End Phases.

(** ** Connections and their schedule *)

(** Where the thread of a connection is: it holds a request, or a response, or has returned. *)
Inductive conn_pc :=
| Receiving (st : handler_state)
| Calling (st : handler_state) (service body : string)
| Sending (st : handler_state) (ret_str : string)
| Gone.

Record conn := mkConn { cn_end : endpoint; cn_pc : conn_pc }.

(** A call that was made: the request and the response. *)
Definition call_event : Type := (string * string) * string.

Section System.
Context `{Jansson} {T : Type} (fuel : nat) (call : string -> string -> run T string).
Local Instance thread_io : PipeIO (endpoint * T) := @posix_io _ (ep_sockets no_peer) fuel.

(** The break: the thread closes the connection and returns. *)
Definition conn_close (connfd : Z) (x : endpoint * T) : outcome ((conn * option call_event) * T) :=
  c <~ io_close connfd x ;; Ok ((mkConn c.2.1 Gone, None), c.2.2).

(** The next part of a thread's round, and the call it made. *)
Definition conn_step (connfd : Z) (cn : conn) : run T (conn * option call_event) := fun t =>
  match cn_pc cn with
  | Receiving st =>
      r <~ receive_request fuel connfd st (cn_end cn, t) ;;
      match r.1 with
      | Some (st', (service, body)) => Ok ((mkConn r.2.1 (Calling st' service body), None), r.2.2)
      | None => conn_close connfd r.2
      end
  | Calling st service body =>
      x <~ call service body t ;;
      Ok ((mkConn (cn_end cn) (Sending st x.1), Some ((service, body), x.1)), x.2)
  | Sending st ret_str =>
      r <~ send_response connfd ret_str (cn_end cn, t) ;;
      if r.1 : bool then Ok ((mkConn r.2.1 (Receiving st), None), r.2.2) else conn_close connfd r.2
  | Gone => Ok ((cn, None), t)
  end.

Record system := mkSystem { sy_conns : gmap Z conn; sy_state : T }.

Definition system_step (connfd : Z) (s : system) : outcome (system * list (Z * call_event)) :=
  match sy_conns s !! connfd with
  | None => Ok (s, [])
  | Some cn =>
      r <~ conn_step connfd cn (sy_state s) ;;
      Ok (mkSystem (<[connfd := r.1.1]> (sy_conns s)) r.2,
          match r.1.2 with Some e => [(connfd, e)] | None => [] end)
  end.

(** The threads take turns; the calls that were made, in order. *)
Fixpoint run_schedule (turns : list Z) (s : system) : outcome (system * list (Z * call_event)) :=
  match turns with
  | [] => Ok (s, [])
  | connfd :: turns' =>
      x <~ system_step connfd s ;;
      y <~ run_schedule turns' x.1 ;;
      Ok (y.1, x.2 ++ y.2)
  end.

(** The calls of one connection. *)
Definition calls_of (connfd : Z) (h : list (Z * call_event)) : list call_event :=
  (filter (fun e => e.1 = connfd) h).*2.
End System.
Arguments system T : clear implicits.
