(* ===== verification/ConcurrentSafety.v ===== *)
(** * ConcurrentSafety: what the clients of a concurrent server see

    The invariant of one connection, whatever the others do; the calls of all connections as one
    sequence; the turns after which every request is answered. *)
From S2P Require Import Prelude Json Runtime Utils GObject Client Pipe PipeSafety PipeServer Concurrent.

(** ** The parts of a round *)
Section PhaseFacts.
Context `{JanssonLaws} {T : Type} (fuel : nat).
Local Abbreviation io := (@posix_io _ (ep_sockets (T := T) no_peer) fuel).

Lemma receive_request_spec n fd st svc body j rest ep (t : T) :
  handler_ok st -> request_of n (svc, body) j -> Z.of_nat n <= max_message ->
  inbox ep = frame j +:+ rest -> smooth_ep ep -> rounds_for fuel n ep ->
  exists st' r', @receive_request _ _ io fuel fd st (ep, t) =
      Ok (Some (st', (svc, body)), (set_read ep rest r', t)) /\
    handler_ok st' /\ smooth r' = true /\ (length r' <= length (read_events ep))%nat.
Proof.
  intros Hst (Hsvc & Hbody & Hj & Hjn) Hn Hin Hsm Hf. cbn [fst snd] in *.
  assert (rounds_for fuel (String.length j) ep) as Hfj by (unfold rounds_for in *; lia).
  destruct (request_text svc body Hsvc Hbody) as (j' & Hj' & Hne & Hfrom).
  rewrite Hj in Hj'. injection Hj' as <-.
  assert (0 < String.length j)%nat as Hpos by (destruct j; [done|simpl; lia]).
  destruct (read_frame fuel fd j rest ep t Hin Hsm Hfj) as (r1 & r2 & H1 & H2 & Hs2 & Hl2).
  destruct (grow_room fuel st (String.length j) Hst) as (st1 & Hg & Hst1 & Hbuf);
    [lia|unfold rounds_for in Hfj; lia|].
  exists (mkHandler (bufsize st1) (cbuf_write (buf st1) j)), r2.
  split; [|split; [by destruct Hst1|done]].
  unfold receive_request. rewrite (rbind_step _ _ _ _ _ H1). cbn [fst snd]. change (4 <? 0) with false.
  cbv iota. rewrite read_over_full by (unfold in_unsigned, max_message in *; lia).
  destruct (Z.eqb_spec (Z.of_nat (String.length j)) 0); [lia|]. rewrite Hg, Nat2Z.id.
  rewrite (rbind_step _ _ _ _ _ H2). cbn [fst snd].
  destruct (Z.ltb_spec (Z.of_nat (String.length j)) 0); [lia|]. cbn [orb].
  rewrite (rbind_step _ _ _ (Some (svc, body)) (set_read ep rest r2, t)); [done|].
  unfold rlift. by rewrite (Hfrom _ (Hbuf j eq_refl)).
Qed.

Lemma receive_request_eof fd st ep (t : T) :
  inbox ep = "" -> smooth_ep ep -> rounds_for fuel 0 ep ->
  exists r', @receive_request _ _ io fuel fd st (ep, t) = Ok (None, (set_read ep "" r', t)) /\
    smooth r' = true /\ (length r' <= length (read_events ep))%nat.
Proof.
  intros Hin [Hsm _] Hf. unfold rounds_for in Hf.
  destruct (pipe_read_eof (T := T) fuel fd 4 ep t Hin Hsm) as (r' & Hr & Hs & Hl); [lia|].
  exists r'. split; [|done]. unfold receive_request. by rewrite (rbind_step _ _ _ _ _ Hr).
Qed.

Lemma send_response_spec fd resp ep (t : T) :
  smooth_ep ep -> rounds_for fuel (String.length resp) ep -> Z.of_nat (String.length resp) < 2 ^ 32 ->
  exists w', @send_response _ io fd resp (ep, t) =
      Ok (true, (set_written ep (outbox ep +:+ frame resp) w', t)) /\
    smooth w' = true /\ (length w' <= length (write_events ep))%nat.
Proof.
  intros Hsm Hf Hlen. destruct (write_frame (T := T) fuel fd resp ep t Hsm Hf Hlen) as (w1 & w2 & H1 & H2 & Hs & Hl).
  exists w2. split; [|done]. unfold send_response. rewrite (rbind_step _ _ _ _ _ H1).
  change (4 <? 0) with false. cbv iota. rewrite (rbind_step _ _ _ _ _ H2).
  by destruct (Z.ltb_spec (Z.of_nat (String.length resp)) 0); [lia|].
Qed.
End PhaseFacts.

(** ** Histories *)
Definition requests (h : list call_event) : list (string * string) := h.*1.
Definition responses (h : list call_event) : list string := h.*2.

Lemma calls_of_app fd h1 h2 : calls_of fd (h1 ++ h2) = calls_of fd h1 ++ calls_of fd h2.
Proof. unfold calls_of. by rewrite filter_app, fmap_app. Qed.

Lemma calls_of_same fd e : calls_of fd [(fd, e)] = [e].
Proof. unfold calls_of. by rewrite filter_cons_True. Qed.

Lemma calls_of_other fd fd' e : fd' <> fd -> calls_of fd [(fd', e)] = [].
Proof. intros Hne. unfold calls_of. by rewrite filter_cons_False. Qed.

Lemma stream_of_app a b : stream_of (a ++ b) = stream_of a +:+ stream_of b.
Proof.
  unfold stream_of. induction a as [|x a IH]; [done|]. cbn [app List.map str_concat].
  by rewrite IH, str_app_assoc.
Qed.

Section Histories.
Context {T : Type} (call : string -> string -> run T string).

Lemma serve_stream_app reqs1 reqs2 t resps1 t1 resps2 t2 :
  serve_stream call reqs1 t = Ok (resps1, t1) -> serve_stream call reqs2 t1 = Ok (resps2, t2) ->
  serve_stream call (reqs1 ++ reqs2) t = Ok (resps1 ++ resps2, t2).
Proof.
  revert t resps1. induction reqs1 as [|[svc body] reqs1 IH]; intros t resps1 H1 H2.
  { simpl in H1. by simplify_eq. }
  cbn [serve_stream app] in *. apply obind_Ok in H1 as ([x t'] & Hc & H1).
  apply obind_Ok in H1 as ([y t''] & Hs & H1). simplify_eq/=. rewrite Hc. cbn [obind fst snd] in *.
  by rewrite (IH t' y Hs H2).
Qed.

Lemma serve_keeps (Inv : T -> Prop) reqs t resps t' :
  (forall svc body t resp t', Inv t -> call svc body t = Ok (resp, t') -> Inv t') ->
  Inv t -> serve_stream call reqs t = Ok (resps, t') -> Inv t'.
Proof.
  intros Hkeep. revert t resps. induction reqs as [|[svc body] reqs IH]; intros t resps Ht Hs; simpl in Hs.
  { by injection Hs as _ <-. }
  apply obind_Ok in Hs as ([x t1] & Hc & Hs). apply obind_Ok in Hs as ([y t2] & Hs & [= _ <-]).
  cbn [snd] in *. eauto.
Qed.
End Histories.

(** ** The threads share nothing but the calls *)
Section Sharing.
Context `{Jansson} {T : Type} (fuel : nat).
Local Abbreviation sockets := (ep_sockets (T := T) no_peer).
Local Abbreviation io := (@posix_io _ sockets fuel).

Lemma write_loop_local k fd s ep (t : T) ok x :
  @write_loop _ sockets k fd s (ep, t) = Ok (ok, x) -> x.2 = t.
Proof.
  revert s ep. induction k as [|k IH]; intros [|c s] ep; cbn [write_loop]; try by (intros [= _ <-]).
  intros Hrun. apply rbind_Ok in Hrun as (w & [ep1 t1] & Hw & Hrun). simpl in Hw.
  injection Hw as <- <- <-. destruct (ep_write (String c s) ep).1 as [[|m]|[|]];
    solve [by injection Hrun as _ <- | by apply IH in Hrun].
Qed.

Lemma no_peer_wait (x y : endpoint * T) : ep_wait no_peer x = Ok y -> y = x.
Proof. unfold ep_wait, no_peer. destruct (inbox x.1); by intros [= <-]. Qed.

Lemma read_loop_local k fd n got ep (t : T) r x :
  @read_loop _ sockets k fd n got (ep, t) = Ok (r, x) -> x.2 = t.
Proof.
  revert n got ep. induction k as [|k IH]; intros [|n] got ep; cbn [read_loop]; try by (intros [= _ <-]).
  intros Hrun. apply rbind_Ok in Hrun as (w & x1 & Hw & Hrun). cbn [sys_read ep_sockets] in Hw.
  apply obind_Ok in Hw as (y & Hy & Hw). apply no_peer_wait in Hy as ->. cbn [fst snd] in Hw.
  injection Hw as <- <-. destruct (ep_read (S n) ep).1 as [[|c bytes]|[|]];
    solve [by injection Hrun as _ <- | by apply IH in Hrun].
Qed.

Lemma io_write_local fd s ep (t : T) r x : @io_write_n _ io fd s (ep, t) = Ok (r, x) -> x.2 = t.
Proof.
  cbn [io_write_n posix_io]. unfold pipe_write_n. intros Hrun.
  apply rbind_Ok in Hrun as (ok & x1 & Hw & [= _ <-]). by eapply write_loop_local.
Qed.

Lemma io_read_local fd n ep (t : T) r x : @io_read_n _ io fd n (ep, t) = Ok (r, x) -> x.2 = t.
Proof.
  cbn [io_read_n posix_io]. unfold pipe_read_n. intros Hrun.
  apply rbind_Ok in Hrun as (ok & x1 & Hw & [= _ <-]). by eapply read_loop_local.
Qed.

Lemma receive_local fd st ep (t : T) r x : @receive_request _ _ io fuel fd st (ep, t) = Ok (r, x) -> x.2 = t.
Proof.
  unfold receive_request. intros Hrun. apply rbind_Ok in Hrun as (r1 & [ep1 t1] & H1 & Hrun).
  apply io_read_local in H1. cbn [snd] in H1. subst t1.
  destruct (r1.1 <? 0); [by injection Hrun as _ <-|]. cbv zeta in Hrun.
  destruct (_ =? 0); [by injection Hrun as _ <-|]. destruct (grow _ _ _) as [st1|]; [|done].
  apply rbind_Ok in Hrun as (r2 & [ep2 t2] & H2 & Hrun).
  apply io_read_local in H2. cbn [snd] in H2. subst t2.
  destruct (_ || _); [by injection Hrun as _ <-|]. apply rbind_Ok in Hrun as (req & x3 & H3 & Hrun).
  unfold rlift in H3. apply obind_Ok in H3 as (req' & _ & H3). injection H3 as -> <-.
  by destruct req as [[]|]; injection Hrun as _ <-.
Qed.

Lemma send_local fd s ep (t : T) r x : @send_response _ io fd s (ep, t) = Ok (r, x) -> x.2 = t.
Proof.
  unfold send_response. intros Hrun. apply rbind_Ok in Hrun as (w1 & [ep1 t1] & H1 & Hrun).
  apply io_write_local in H1. cbn [snd] in H1. subst t1.
  destruct (w1 <? 0); [by injection Hrun as _ <-|]. apply rbind_Ok in Hrun as (w2 & [ep2 t2] & H2 & Hrun).
  apply io_write_local in H2. cbn [snd] in H2. subst t2. by destruct (w2 <? 0); injection Hrun as _ <-.
Qed.

Context (call : string -> string -> run T string).

Lemma close_local fd x r t' : @conn_close T fuel fd x = Ok (r, t') -> t' = x.2 /\ r.2 = None.
Proof. destruct x. unfold conn_close. by intros [= <- <-]. Qed.

(** A step is of the thread alone, or it is a call. *)
Lemma conn_step_state fd cn t r t' :
  conn_step fuel call fd cn t = Ok (r, t') ->
  match r.2 with
  | None => t' = t
  | Some ((svc, body), resp) => call svc body t = Ok (resp, t')
  end.
Proof.
  unfold conn_step. destruct (cn_pc cn) as [st|st svc body|st resp|]; intros Hs.
  - apply obind_Ok in Hs as ([[[st' [svc body]]|] x] & Hr & Hs); apply receive_local in Hr.
    + by injection Hs as <- <-.
    + cbn [fst snd] in Hs. apply close_local in Hs as [-> ->]. done.
  - apply obind_Ok in Hs as ([resp t1] & Hc & Hs). by injection Hs as <- <-.
  - apply obind_Ok in Hs as ([ok x] & Hr & Hs). apply send_local in Hr. destruct ok; cbn [fst snd] in Hs.
    + by injection Hs as <- <-.
    + apply close_local in Hs as [-> ->]. done.
  - by injection Hs as <- <-.
Qed.

Lemma system_step_state fd s s' h :
  system_step fuel call fd s = Ok (s', h) ->
  serve_stream call (requests h.*2) (sy_state s) = Ok (responses h.*2, sy_state s').
Proof.
  unfold system_step. destruct (sy_conns s !! fd) as [cn|]; [|by intros [= <- <-]].
  intros Hs. apply obind_Ok in Hs as ([[cn' e] t'] & Hc & [= <- <-]). apply conn_step_state in Hc.
  cbn [fst snd sy_state] in *. destruct e as [[[svc body] resp]|]; [|by subst].
  cbn. by rewrite Hc.
Qed.

(** All calls are one sequence. *)
Lemma schedule_state turns s s' h :
  run_schedule fuel call turns s = Ok (s', h) ->
  serve_stream call (requests h.*2) (sy_state s) = Ok (responses h.*2, sy_state s').
Proof.
  revert s h. induction turns as [|fd turns IH]; intros s h Hrun; cbn [run_schedule] in Hrun.
  { by injection Hrun as <- <-. }
  apply obind_Ok in Hrun as ([s1 h1] & H1 & Hrun). apply obind_Ok in Hrun as ([s2 h2] & H2 & [= <- <-]).
  apply system_step_state in H1. apply IH in H2. cbn [fst snd] in *. unfold requests, responses.
  rewrite !fmap_app. by eapply serve_stream_app.
Qed.

(** Calls are made by connections. *)
Lemma schedule_events turns s s' h fd e :
  run_schedule fuel call turns s = Ok (s', h) -> (fd, e) ∈ h -> is_Some (sy_conns s !! fd).
Proof.
  revert s h. induction turns as [|fd1 turns IH]; intros s h Hrun Hin; cbn [run_schedule] in Hrun.
  { injection Hrun as _ <-. by apply not_elem_of_nil in Hin as []. }
  apply obind_Ok in Hrun as ([s1 h1] & H1 & Hrun). apply obind_Ok in Hrun as ([s2 h2] & H2 & [= -> <-]).
  cbn [fst snd] in *. unfold system_step in H1. destruct (sy_conns s !! fd1) as [cn|] eqn:Hcn.
  2: { injection H1 as <- <-. by eapply IH. }
  apply obind_Ok in H1 as ([[cn' ev] t'] & _ & [= <- <-]). cbn [fst snd sy_conns] in *.
  apply elem_of_app in Hin as [Hin|Hin].
  - destruct ev as [ev|]; [|by apply not_elem_of_nil in Hin as []].
    apply list_elem_of_singleton in Hin as [= -> _]. by rewrite Hcn.
  - apply (IH _ _ H2) in Hin. cbn [sy_conns] in Hin. destruct (decide (fd = fd1)) as [->|]; [by rewrite Hcn|].
    by rewrite lookup_insert_ne in Hin by done.
Qed.
End Sharing.

Lemma elem_of_calls_of fd e h : e ∈ calls_of fd h <-> (fd, e) ∈ h.
Proof.
  unfold calls_of. rewrite list_elem_of_fmap. split.
  - intros ([fd1 e1] & -> & Hin). by apply list_elem_of_filter in Hin as [[= ->] Hin].
  - intros Hin. exists (fd, e). split; [done|]. by apply list_elem_of_filter.
Qed.

(** ** One well-behaved connection *)
Section Served.
Context `{JanssonLaws} {T : Type} (fuel n : nat) (call : string -> string -> run T string).
Context (n_ok : Z.of_nat n <= max_message).

(** Where a connection is, after the calls [h] of its [reqs], when its client sent them all and
    reads what is written after [o0]. *)
Record conn_ok (reqs : list (string * string)) (o0 : string) (h : list call_event) (cn : conn) : Prop := {
  co_smooth : smooth_ep (cn_end cn);
  co_rounds : rounds_for fuel n (cn_end cn);
  co_next : exists rest js,
    reqs = requests h ++ rest /\ Forall2 (request_of n) rest js /\
    match cn_pc cn with
    | Receiving st =>
        handler_ok st /\ inbox (cn_end cn) = stream_of js /\
        outbox (cn_end cn) = o0 +:+ stream_of (responses h)
    | Calling st service body =>
        handler_ok st /\ (exists rest', rest = (service, body) :: rest') /\
        inbox (cn_end cn) = stream_of (tail js) /\
        outbox (cn_end cn) = o0 +:+ stream_of (responses h)
    | Sending st ret_str =>
        handler_ok st /\ inbox (cn_end cn) = stream_of js /\ (String.length ret_str <= n)%nat /\
        exists h' req, h = h' ++ [(req, ret_str)] /\
          outbox (cn_end cn) = o0 +:+ stream_of (responses h')
    | Gone =>
        rest = [] /\ closed (cn_end cn) = true /\
        outbox (cn_end cn) = o0 +:+ stream_of (responses h)
    end
}.

(** The turns a connection still needs. *)
Definition turns_left (reqs : list (string * string)) (h : list call_event) (cn : conn) : nat :=
  let k := (length reqs - length h)%nat in
  match cn_pc cn with
  | Receiving _ => (3 * k + 1)%nat
  | Calling _ _ _ => (3 * k)%nat
  | Sending _ _ => (3 * k + 2)%nat
  | Gone => 0%nat
  end.

Lemma conn_start reqs js st ep :
  Forall2 (request_of n) reqs js -> handler_ok st -> inbox ep = stream_of js -> smooth_ep ep ->
  rounds_for fuel n ep -> conn_ok reqs (outbox ep) [] (mkConn ep (Receiving st)).
Proof.
  intros Hreqs Hst Hin Hsm Hf. constructor; [done..|]. exists reqs, js. repeat split; try done.
  - apply Hst.
  - apply Hst.
  - cbn. by rewrite str_app_nil_r.
Qed.

Lemma rounds_le k (ep ep' : endpoint) :
  (k <= n)%nat -> (length (read_events ep') <= length (read_events ep))%nat ->
  (length (write_events ep') <= length (write_events ep))%nat ->
  rounds_for fuel n ep -> rounds_for fuel k ep'.
Proof. unfold rounds_for. lia. Qed.

(** A turn in which the thread works alone. *)
Lemma conn_ok_alone fd reqs o0 h cn t :
  conn_ok reqs o0 h cn ->
  match cn_pc cn with Calling _ _ _ => False | _ => True end ->
  exists cn', conn_step fuel call fd cn t = Ok ((cn', None), t) /\ conn_ok reqs o0 h cn' /\
    turns_left reqs h cn' = (turns_left reqs h cn - 1)%nat.
Proof.
  intros [Hsm Hf (rest & js & Hreqs & Hjs & Hpc)] Halone.
  assert (length reqs - length h = length rest)%nat as Hleft.
  { subst reqs. rewrite length_app. unfold requests. rewrite length_fmap. apply Nat.add_sub'. }
  unfold turns_left. rewrite Hleft. unfold conn_step, thread_io. destruct cn as [ep pc]. cbn [cn_pc cn_end] in *.
  destruct pc as [st| |st resp|]; [|done| |].
  - destruct Hpc as (Hst & Hin & Hout). destruct rest as [|[svc body] rest].
    + apply Forall2_nil_inv_l in Hjs as ->.
      destruct (receive_request_eof (T := T) fuel fd st ep t Hin Hsm) as (r' & -> & Hs' & Hl');
        [by apply (rounds_le 0 ep); [lia|..]|].
      eexists. split; [reflexivity|]. cbn [cn_pc]. split; [|simpl; lia].
      constructor; cbn [cn_end cn_pc]; [by split; [|apply Hsm]|by apply (rounds_le n ep)|].
      by exists [], [].
    + apply Forall2_cons_inv_l in Hjs as (j & js' & Hj & Hjs & ->).
      destruct (receive_request_spec (T := T) fuel n fd st svc body j (stream_of js') ep t Hst Hj n_ok Hin Hsm Hf)
        as (st' & r' & -> & Hst' & Hs' & Hl').
      eexists. split; [reflexivity|]. cbn [cn_pc length]. split; [|lia].
      constructor; cbn [cn_end cn_pc]; [by split; [|apply Hsm]|by apply (rounds_le n ep)|].
      exists ((svc, body) :: rest), (j :: js'). repeat split; try done; [by constructor|apply Hst'|apply Hst'|by exists rest].
  - destruct Hpc as (Hst & Hin & Hlen & h' & req & -> & Hout).
    destruct (send_response_spec (T := T) fuel fd resp ep t Hsm) as (w' & -> & Hs' & Hl');
      [by apply (rounds_le _ ep)|unfold max_message in *; lia|].
    eexists. split; [reflexivity|]. cbn [cn_pc]. split; [|lia].
    constructor; cbn [cn_end cn_pc]; [by split; [apply Hsm|]|by apply (rounds_le n ep)|].
    exists rest, js. repeat split; try done; [apply Hst|apply Hst|]. cbn [set_written outbox].
    unfold responses. rewrite fmap_app, stream_of_app, Hout. cbn.
    by rewrite str_app_nil_r, str_app_assoc.
  - eexists. split; [reflexivity|]. split; [|done]. constructor; [done..|]. by exists rest, js.
Qed.

(** The turn in which the call is made. *)
Lemma conn_ok_call fd reqs o0 h cn t st svc body resp t' :
  conn_ok reqs o0 h cn -> cn_pc cn = Calling st svc body ->
  call svc body t = Ok (resp, t') -> (String.length resp <= n)%nat ->
  exists cn', conn_step fuel call fd cn t = Ok ((cn', Some ((svc, body), resp)), t') /\
    conn_ok reqs o0 (h ++ [((svc, body), resp)]) cn' /\
    turns_left reqs (h ++ [((svc, body), resp)]) cn' = (turns_left reqs h cn - 1)%nat.
Proof.
  intros [Hsm Hf (rest & js & Hreqs & Hjs & Hpc)] Hcn Hc Hlen. destruct cn as [ep pc].
  cbn [cn_pc cn_end] in *. subst pc. destruct Hpc as (Hst & (rest' & ->) & Hin & Hout).
  apply Forall2_cons_inv_l in Hjs as (j & js' & Hj & Hjs & ->).
  unfold conn_step. cbn [cn_pc]. rewrite Hc. cbn [obind fst snd cn_end]. eexists.
  split; [reflexivity|]. split.
  - constructor; cbn [cn_end cn_pc]; [done..|]. exists rest', js'. repeat split; try done.
    + rewrite Hreqs. unfold requests. by rewrite fmap_app, <- app_assoc.
    + apply Hst.
    + apply Hst.
    + by exists h, (svc, body).
  - unfold turns_left. cbn [cn_pc]. subst reqs. unfold requests, call_event.
    rewrite !length_app, length_fmap. cbn [length]. lia.
Qed.

(** The request a connection is about to make is one of its own. *)
Lemma calling_request reqs o0 h cn st svc body :
  conn_ok reqs o0 h cn -> cn_pc cn = Calling st svc body -> (svc, body) ∈ reqs.
Proof.
  intros [_ _ (rest & js & -> & _ & Hpc)] Hcn. rewrite Hcn in Hpc.
  destruct Hpc as (_ & (rest' & ->) & _). apply elem_of_app. right. by left.
Qed.

(** A turn, of this connection or another one. *)
Lemma system_step_conn fd fd' reqs o0 h0 s s' h cn :
  (forall req resp t', req ∈ reqs -> call req.1 req.2 (sy_state s) = Ok (resp, t') -> (String.length resp <= n)%nat) ->
  system_step fuel call fd' s = Ok (s', h) ->
  sy_conns s !! fd = Some cn -> conn_ok reqs o0 h0 cn ->
  exists cn', sy_conns s' !! fd = Some cn' /\ conn_ok reqs o0 (h0 ++ calls_of fd h) cn' /\
    turns_left reqs (h0 ++ calls_of fd h) cn' =
      (turns_left reqs h0 cn - if decide (fd' = fd) then 1 else 0)%nat.
Proof.
  intros Hfits Hstep Hcn Hok. unfold system_step in Hstep.
  destruct (decide (fd' = fd)) as [->|Hne]; cycle 1.
  { exists cn. enough (sy_conns s' !! fd = Some cn /\ calls_of fd h = []) as [Hc' ->]
      by (rewrite app_nil_r; repeat split; [done|apply Hok..|lia]).
    destruct (sy_conns s !! fd') as [cn'|]; [|by injection Hstep as <- <-].
    apply obind_Ok in Hstep as ([[cn1 e] t1] & _ & [= <- <-]). cbn [sy_conns fst snd].
    rewrite lookup_insert_ne by done. split; [done|]. destruct e; [by apply calls_of_other|done]. }
  rewrite Hcn in Hstep. apply obind_Ok in Hstep as ([[cn1 e] t1] & Hs & [= <- <-]). cbn [fst snd sy_conns] in *.
  exists cn1. rewrite lookup_insert_eq. split; [done|].
  destruct (cn_pc cn) as [|st svc body| |] eqn:Hpc; cycle 1.
  { unfold conn_step in Hs. rewrite Hpc in Hs. apply obind_Ok in Hs as ([resp t2] & Hc & Hs).
    destruct (conn_ok_call fd reqs o0 h0 cn (sy_state s) st svc body resp t2) as (cn2 & Hs2 & Hok2 & Hl2);
      [done..|by eapply (Hfits (svc, body)), Hc; eapply calling_request|].
    unfold conn_step in Hs2. rewrite Hpc, Hc in Hs2. cbn [obind fst snd] in *.
    injection Hs as <- <- <-. injection Hs2 as <-. by rewrite calls_of_same. }
  all: destruct (conn_ok_alone fd reqs o0 h0 cn (sy_state s) Hok) as (cn2 & Hs2 & Hok2 & Hl2);
    [by rewrite Hpc|]; rewrite Hs in Hs2; injection Hs2 as -> -> ->;
    change (calls_of fd []) with (@nil call_event); by rewrite app_nil_r.
Qed.

Definition turns_of (fd : Z) (turns : list Z) : nat := length (filter (fun x => x = fd) turns).

Lemma turns_of_cons fd fd' turns :
  turns_of fd (fd' :: turns) = ((if decide (fd' = fd) then 1 else 0) + turns_of fd turns)%nat.
Proof. unfold turns_of. rewrite filter_cons. by destruct (decide (fd' = fd)). Qed.

(** Any turns: the connection gets on with its requests whatever the others are, as long as its
    responses are short in the states [P] that turns lead to. *)
Lemma schedule_conn (P : system T -> Prop) fd reqs o0 turns : forall h0 s s' h cn,
  (forall fd s s' h, P s -> system_step fuel call fd s = Ok (s', h) -> P s') ->
  (forall req s resp t', P s -> req ∈ reqs -> call req.1 req.2 (sy_state s) = Ok (resp, t') ->
     (String.length resp <= n)%nat) ->
  P s -> run_schedule fuel call turns s = Ok (s', h) ->
  sy_conns s !! fd = Some cn -> conn_ok reqs o0 h0 cn ->
  exists cn', sy_conns s' !! fd = Some cn' /\ conn_ok reqs o0 (h0 ++ calls_of fd h) cn' /\
    turns_left reqs (h0 ++ calls_of fd h) cn' = (turns_left reqs h0 cn - turns_of fd turns)%nat.
Proof.
  induction turns as [|fd' turns IH]; intros h0 s s' h cn Hkeep Hfits HP Hrun Hcn Hok; cbn [run_schedule] in Hrun.
  { injection Hrun as <- <-. exists cn. cbn. rewrite app_nil_r. split; [done|]. split; [done|lia]. }
  apply obind_Ok in Hrun as ([s1 h1] & H1 & Hrun). apply obind_Ok in Hrun as ([s2 h2] & H2 & [= <- <-]).
  destruct (system_step_conn fd fd' reqs o0 h0 s s1 h1 cn) as (cn1 & Hcn1 & Hok1 & Hl1);
    [by eauto|done..|].
  destruct (IH (h0 ++ calls_of fd h1) s1 s2 h2 cn1) as (cn2 & Hcn2 & Hok2 & Hl2); [by eauto..|].
  exists cn2. cbn [fst snd]. rewrite calls_of_app, app_assoc. split; [done|]. split; [done|].
  rewrite Hl2, Hl1, turns_of_cons. lia.
Qed.
End Served.

(** ** All connections *)
Section AllServed.
Context `{JanssonLaws} {T : Type} (fuel n : nat) (call : string -> string -> run T string).
Context (n_ok : Z.of_nat n <= max_message).
(** What the client of each descriptor sends, and a property of the shared state under which its
    calls return and which they keep. *)
Context (reqs : Z -> list (string * string)) (o0 : Z -> string) (Inv : T -> Prop).
Context (call_total : forall fd req t, req ∈ reqs fd -> Inv t ->
  exists resp t', call req.1 req.2 t = Ok (resp, t') /\ Inv t').
Context (call_fits : forall fd req t resp t', req ∈ reqs fd -> Inv t ->
  call req.1 req.2 t = Ok (resp, t') -> (String.length resp <= n)%nat).

Definition conns_ok (hs : Z -> list call_event) (s : system T) : Prop :=
  map_Forall (fun fd cn => conn_ok fuel n (reqs fd) (o0 fd) (hs fd) cn) (sy_conns s).

Lemma system_step_total fd hs s :
  conns_ok hs s -> Inv (sy_state s) ->
  exists s' h, system_step fuel call fd s = Ok (s', h) /\ Inv (sy_state s').
Proof.
  intros Hok Hinv. unfold system_step. destruct (sy_conns s !! fd) as [cn|] eqn:Hcn; [|by exists s, []].
  pose proof (Hok fd cn Hcn) as Hc. cbv beta in Hc.
  destruct (cn_pc cn) as [|st svc body| |] eqn:Hpc; cycle 1.
  { destruct (call_total fd (svc, body) (sy_state s)) as (resp & t' & Hcall & Hinv');
      [by eapply calling_request|done|].
    destruct (conn_ok_call fuel n call fd _ _ _ cn (sy_state s) st svc body resp t' Hc Hpc Hcall)
      as (cn' & -> & _); [|by eexists _, _].
    eapply (call_fits fd (svc, body)); [by eapply calling_request|exact Hinv|exact Hcall]. }
  all: destruct (conn_ok_alone fuel n call n_ok fd _ _ _ cn (sy_state s) Hc) as (cn' & -> & _);
    [by rewrite Hpc|by eexists _, _].
Qed.

Lemma system_step_keeps fd hs s s' h :
  system_step fuel call fd s = Ok (s', h) -> conns_ok hs s -> Inv (sy_state s) ->
  conns_ok (fun fd => hs fd ++ calls_of fd h) s'.
Proof.
  intros Hstep Hok Hinv fd' cn' Hcn'. destruct (sy_conns s !! fd') as [cn|] eqn:Hcn.
  - destruct (system_step_conn fuel n call n_ok fd' fd _ _ _ s s' h cn
      (fun req resp t' Hr => call_fits fd' req _ resp t' Hr Hinv) Hstep Hcn (Hok _ _ Hcn))
      as (cn'' & Hcn'' & Hok'' & _). by simplify_eq.
  - exfalso. unfold system_step in Hstep. destruct (sy_conns s !! fd) as [cn|] eqn:Hfd; [|by simplify_eq].
    apply obind_Ok in Hstep as (r & _ & [= <- <-]). cbn [sy_conns] in Hcn'.
    rewrite lookup_insert_ne in Hcn'; congruence.
Qed.

Lemma schedule_total turns : forall hs s,
  conns_ok hs s -> Inv (sy_state s) ->
  exists s' h, run_schedule fuel call turns s = Ok (s', h) /\ Inv (sy_state s').
Proof.
  induction turns as [|fd turns IH]; intros hs s Hok Hinv; [by exists s, []|].
  destruct (system_step_total fd hs s Hok Hinv) as (s1 & h1 & H1 & Hinv1).
  destruct (IH _ s1 (system_step_keeps fd hs s s1 h1 H1 Hok Hinv) Hinv1) as (s2 & h2 & H2 & Hinv2).
  exists s2, (h1 ++ h2). cbn [run_schedule]. rewrite H1. cbn [obind fst snd]. by rewrite H2.
Qed.

(** The states of this system. *)
Definition serving (s : system T) : Prop := (exists hs, conns_ok hs s) /\ Inv (sy_state s).

Lemma serving_step fd s s' h : serving s -> system_step fuel call fd s = Ok (s', h) -> serving s'.
Proof.
  intros [[hs Hok] Hinv] Hstep. split; [eexists; by eapply system_step_keeps|].
  destruct (system_step_total fd hs s Hok Hinv) as (s1 & h1 & H1 & Hinv1). rewrite Hstep in H1.
  by injection H1 as -> _.
Qed.
End AllServed.

(** ** One connection alone *)
Section Alone.
Context `{JanssonLaws} {T : Type} (fuel : nat) (call : string -> string -> run T string).
Local Abbreviation io := (@posix_io _ (ep_sockets (T := T) no_peer) fuel).
Local Abbreviation only fd cn t := (mkSystem {[ fd := cn ]} t).

Lemma only_step fd cn t cn' e t' :
  conn_step fuel call fd cn t = Ok ((cn', e), t') ->
  system_step fuel call fd (only fd cn t) =
    Ok (only fd cn' t', match e with Some e => [(fd, e)] | None => [] end).
Proof.
  intros Hs. unfold system_step. cbn [sy_conns sy_state].
  rewrite lookup_singleton_eq, Hs. cbn [obind fst snd]. by rewrite insert_singleton_eq.
Qed.

Lemma only_turn fd turns cn t cn' e t' s h :
  conn_step fuel call fd cn t = Ok ((cn', e), t') ->
  run_schedule fuel call turns (only fd cn' t') = Ok (s, h) ->
  exists h', run_schedule fuel call (fd :: turns) (only fd cn t) = Ok (s, h').
Proof.
  intros Hs Hrun. cbn [run_schedule]. rewrite (only_step _ _ _ _ _ _ Hs). cbn [obind fst snd].
  rewrite Hrun. by eexists.
Qed.

(** A round of the loop is up to three turns. *)
Lemma only_round fd st ep t r ep' t' :
  @handler_round _ _ (ep_sockets no_peer) fuel (call_beside call) fd st (ep, t) = Ok (r, (ep', t')) ->
  exists k, forall turns cn s h,
    match r with
    | Some st' => cn = mkConn ep' (Receiving st')
    | None => exists c, io_close (PipeIO := io) fd (ep', t') = Ok (tt, (c, t')) /\ cn = mkConn c Gone
    end ->
    run_schedule fuel call turns (only fd cn t') = Ok (s, h) ->
    exists h', run_schedule fuel call (replicate k fd ++ turns) (only fd (mkConn ep (Receiving st)) t) = Ok (s, h').
Proof.
  unfold handler_round. rewrite framed_round_phases. intros Hr.
  apply rbind_Ok in Hr as ([[st1 [svc body]]|] & [ep1 t1] & Hrecv & Hr).
  2: { injection Hr as <- <- <-. exists 1%nat. intros turns cn s h (c & Hc & ->) Hrun.
       eapply only_turn; [|exact Hrun]. unfold conn_step. cbn [cn_pc cn_end]. unfold thread_io. rewrite Hrecv.
       cbn [obind fst snd]. unfold conn_close, thread_io. by rewrite Hc. }
  apply rbind_Ok in Hr as (resp & [ep2 t2] & Hcall & Hr).
  unfold call_beside in Hcall. apply obind_Ok in Hcall as ([resp' t3] & Hcall & Heq).
  cbn [fst snd] in Hcall, Heq. injection Heq as -> -> ->.
  apply rbind_Ok in Hr as (ok & [ep3 t3] & Hsend & Hr). injection Hr as <- <- <-.
  exists 3%nat. intros turns cn s h Hcn Hrun.
  assert (exists e, conn_step fuel call fd (mkConn ep2 (Sending st1 resp)) t2 = Ok ((cn, e), t3)) as [e Hs3].
  { unfold conn_step. cbn [cn_pc cn_end]. unfold thread_io. rewrite Hsend. cbn [obind fst snd].
    destruct ok; [subst cn; by eexists|]. destruct Hcn as (c & Hc & ->).
    unfold conn_close, thread_io. rewrite Hc. by eexists. }
  destruct (only_turn fd turns _ _ _ _ _ _ _ Hs3 Hrun) as [h3 Hrun3].
  assert (conn_step fuel call fd (mkConn ep2 (Calling st1 svc body)) t1 =
    Ok ((mkConn ep2 (Sending st1 resp), Some ((svc, body), resp)), t2)) as Hs2
    by (unfold conn_step; cbn [cn_pc]; by rewrite Hcall).
  destruct (only_turn fd _ _ _ _ _ _ _ _ Hs2 Hrun3) as [h2 Hrun2].
  eapply only_turn; [|exact Hrun2]. unfold conn_step. cbn [cn_pc cn_end]. unfold thread_io. by rewrite Hrecv.
Qed.

Lemma only_loop rounds fd st ep t ep' t' :
  @handler_loop _ _ (ep_sockets no_peer) fuel (call_beside call) rounds fd st (ep, t) = Ok (tt, (ep', t')) ->
  exists k h, run_schedule fuel call (replicate k fd) (only fd (mkConn ep (Receiving st)) t) =
    Ok (only fd (mkConn ep' Gone) t', h).
Proof.
  revert st ep t. induction rounds as [|rounds IH]; intros st ep t Hrun; [done|].
  unfold handler_loop in *. cbn [framed_loop] in Hrun.
  apply rbind_Ok in Hrun as (r & [ep1 t1] & Hround & Hrun).
  destruct (only_round fd st ep t r ep1 t1 Hround) as [k Hk]. destruct r as [st1|].
  - destruct (IH st1 ep1 t1 Hrun) as (k' & h' & Hrun').
    destruct (Hk _ _ _ _ eq_refl Hrun') as [h Hall]. exists (k + k')%nat, h.
    by rewrite replicate_add.
  - cbn in Hrun. injection Hrun as <- <-.
    match goal with |- exists k h, _ = Ok (mkSystem {[ _ := ?cn ]} _, h) =>
      destruct (Hk [] cn _ [] (ex_intro _ _ (conj eq_refl eq_refl)) eq_refl) as [h Hall] end.
    exists k, h. by rewrite app_nil_r in Hall.
Qed.
End Alone.

(** ** Properties *)
Section ConcurrentProperties.
Context `{JanssonLaws} {T : Type} (call : string -> string -> run T string).

(** Connections whose threads have just been started, with what their clients send. *)
Definition fresh_conn (ep : endpoint) : conn := mkConn ep (Receiving handler_start).

Definition sends (fuel n : nat) (reqs : list (string * string)) (ep : endpoint) : Prop :=
  smooth_ep ep /\ rounds_for fuel n ep /\
  exists js, Forall2 (request_of n) reqs js /\ inbox ep = stream_of js.

(** The turns of a system of one connection are its handler. *)
Theorem lone_connection fuel rounds fd ep t ep' t' :
  @named_pipe_client_handler _ _ (ep_sockets no_peer) fuel (call_beside call) rounds fd (ep, t) =
    Ok (tt, (ep', t')) ->
  exists k h, run_schedule fuel call (replicate k fd) (mkSystem {[ fd := fresh_conn ep ]} t) =
    Ok (mkSystem {[ fd := mkConn ep' Gone ]} t', h).
Proof. apply only_loop. Qed.

(** Every connection to its end. *)
Lemma clients_served fuel n (reqs : Z -> list (string * string)) (Inv : T -> Prop) conns t turns :
  Z.of_nat n <= max_message ->
  (forall fd cn, conns !! fd = Some cn -> exists ep, cn = fresh_conn ep /\ sends fuel n (reqs fd) ep) ->
  (forall fd req t, req ∈ reqs fd -> Inv t -> exists resp t', call req.1 req.2 t = Ok (resp, t') /\ Inv t') ->
  (forall fd req t resp t', req ∈ reqs fd -> Inv t -> call req.1 req.2 t = Ok (resp, t') ->
     (String.length resp <= n)%nat) ->
  Inv t -> (forall fd, is_Some (conns !! fd) -> (3 * length (reqs fd) + 1 <= turns_of fd turns)%nat) ->
  exists s' h, run_schedule fuel call turns (mkSystem conns t) = Ok (s', h) /\ Inv (sy_state s') /\
    serve_stream call (requests h.*2) t = Ok (responses h.*2, sy_state s') /\
    forall fd ep, conns !! fd = Some (fresh_conn ep) ->
      requests (calls_of fd h) = reqs fd /\
      exists ep', sy_conns s' !! fd = Some (mkConn ep' Gone) /\ closed ep' = true /\
        outbox ep' = outbox ep +:+ stream_of (responses (calls_of fd h)).
Proof.
  intros Hn Hconns Htotal Hfits Hinv Hturns.
  set (o0 fd := match conns !! fd with Some cn => outbox (cn_end cn) | None => "" end).
  assert (conns_ok fuel n reqs o0 (fun _ => []) (mkSystem conns t)) as Hok.
  { intros fd cn Hcn. destruct (Hconns fd cn Hcn) as (ep & -> & Hsm & Hf & js & Hjs & Hin).
    unfold o0. cbn [sy_conns] in Hcn. rewrite Hcn. eapply conn_start; try done. apply handler_start_ok. }
  assert (serving fuel n reqs o0 Inv (mkSystem conns t)) as Hserving by (split; [by eexists|done]).
  destruct (schedule_total fuel n call Hn reqs o0 Inv Htotal Hfits turns _ _ Hok Hinv) as (s' & h & Hrun & Hinv').
  exists s', h. split; [done|]. split; [done|]. split; [by apply schedule_state in Hrun|].
  intros fd ep Hcn.
  destruct (schedule_conn fuel n call Hn (serving fuel n reqs o0 Inv) fd (reqs fd) (o0 fd) turns [] _ _ h _
    (fun fd s s' h => serving_step fuel n call Hn reqs o0 Inv Htotal Hfits fd s s' h)
    (fun req s resp t' HP Hr => Hfits fd req _ resp t' Hr (proj2 HP)) Hserving Hrun Hcn (Hok fd _ Hcn))
    as (cn' & Hcn' & [_ _ (rest & js & Hreqs & _ & Hpc)] & Hleft).
  assert (turns_left (reqs fd) ([] ++ calls_of fd h) cn' = 0%nat) as H0l.
  { rewrite Hleft. specialize (Hturns fd (ex_intro _ _ Hcn)). cbn [turns_left fresh_conn cn_pc length]. lia. }
  assert (o0 fd = outbox ep) as Ho by (unfold o0; by rewrite Hcn).
  destruct cn' as [ep' pc]. cbn [cn_pc cn_end app] in *. unfold turns_left in H0l. cbn [cn_pc] in H0l.
  destruct pc as [st|st svc body|st resp|]; [lia| |lia|].
  - exfalso. destruct Hpc as (_ & (rest' & ->) & _). rewrite Hreqs in H0l. unfold requests, call_event in H0l.
    rewrite length_app, length_fmap in H0l. cbn [length] in H0l. lia.
  - destruct Hpc as (-> & Hcl & Hout). rewrite app_nil_r in Hreqs. split; [done|].
    exists ep'. by rewrite Hout, Ho.
Qed.


End ConcurrentProperties.
