(* ===== verification/ConcurrentRpc.v ===== *)
(** * ConcurrentRpc: the whole server under concurrent clients

    The connections of Concurrent on the dispatcher of Server: the state the threads share is the
    registry and the state of the RPC functions, and TypeSafety discharges what Concurrent asks of
    a call. *)
From S2P Require Import Prelude Json Runtime Utils GObject Marshal Server ServerSafety Responses Dispatch TypeSafety Client Pipe PipeSafety PipeServer Concurrent ConcurrentSafety.

Section ConcurrentRpc.
Context `{JanssonLaws} `{GObjectLaws} {W : Type}.
Context (md5 : string -> string) (table : list (ctype * list ctype)) (depth stack : nat).
Context (distinct : no_collision md5 table) (start finish : timeval).
Implicit Types (x : server W * W).

(** A request the dispatcher can answer: the service is a C string, and a call that loads is an
    array that begins with a name. *)
Definition named_request (req : string * string) : Prop :=
  nul_free req.1 = true /\
  forall array, json_loadb req.2 = inr array -> exists fn l, array = JArray (JString fn :: l).

(** A response a client can read: the text of a JSON object, and a C string. *)
Definition is_response (resp : string) : Prop :=
  text_ok resp = true /\ exists members, json_loadb resp = inr (JObject members).

Context (takes : forallb (fun row => forallb takeable row.2) table = true) (stack_ok : (depth <= stack)%nat)
  (depth_ok : (depth <= wire_depth)%nat).

Lemma dispatch_total req x :
  named_request req -> typed_run md5 table depth stack x.1 ->
  exists resp x', dispatch start finish req.1 req.2 x = Ok (resp, x') /\ is_response resp /\
    typed_run md5 table depth stack x'.1.
Proof.
  intros [Hsvc Hname] Hs. destruct x as [s w].
  destruct (typed_call_answered md5 table depth stack distinct s start finish req.1 req.2 w)
    as (resp & s' & w' & ms & Hc & Hl & Ht); try done.
  exists resp, (s', w'). repeat split; try done; [by exists ms|]. by eapply typed_call.
Qed.

(** Every connection's responses come from calls that kept [R]. *)
Lemma serve_responses (Q : string * string -> Prop) (Inv : server W * W -> Prop) call reqs x :
  (forall req x resp x', Q req -> Inv x -> call req.1 req.2 x = Ok (resp, x') -> is_response resp /\ Inv x') ->
  forall resps x', Forall Q reqs -> Inv x -> serve_stream call reqs x = Ok (resps, x') -> Forall is_response resps.
Proof.
  intros Hstep. revert x. induction reqs as [|[svc body] reqs IH]; intros x resps x' HQ Hx Hs; simpl in Hs.
  { by injection Hs as <- _. }
  apply Forall_cons in HQ as [H1' HQ]. apply obind_Ok in Hs as ([r x1] & Hc & Hs).
  apply obind_Ok in Hs as ([rs x2] & Hs & [= <- _]). cbn [fst snd] in *.
  destruct (Hstep (svc, body) x r x1 H1' Hx Hc). constructor; [done|]. by eapply IH.
Qed.

End ConcurrentRpc.
