(* ===== verification/SlowLog.v ===== *)
(** * SlowLog: threads inside searpc_server_call_function

    Several threads call [searpc_server_call_function] of lib/searpc-server.c, others reopen the
    slow log (which a program does when its log files are rotated).  A thread is its locals and
    its place in the code; its steps are the accesses to what the threads share: [slow_log_fp], the
    mutex [slow_log_lock], the streams, the state of the RPC implementations (one step per call:
    an RPC function synchronizes with itself).  The hash tables are only read. *)
From S2P Require Import Prelude Json Runtime Utils GObject Marshal Server.

(** ** What is printed *)

(** The two [fprintf] of [print_slow_log_if_necessary]. *)
Inductive log_write :=
| w_tag
| w_entry (time : Z) (svc_name call : string) (usec : Z).

(** The writes a line of the log consists of. *)
Definition line_writes (l : log_line) : list log_write :=
  (if ll_tag l then [w_tag] else []) ++
  [w_entry (ll_time l) (ll_service l) (ll_call l) (ll_usec l)].

(** ** Threads *)
Definition tid : Type := nat.

(** The next thing a call does: the places of [searpc_server_call_function], and from [C_lock] on
    those of [print_slow_log_if_necessary]. *)
Inductive call_pc :=
| C_start      (* if (slow_log_fp) gettimeofday (&start, NULL) *)
| C_run        (* from the lookup of the service to the marshal function *)
| C_check      (* if (slow_log_fp), the filter, the threshold *)
| C_lock       (* pthread_mutex_lock *)
| C_tag        (* if (log_to_stdout) fprintf *)
| C_entry      (* fprintf *)
| C_flush      (* fflush *)
| C_unlock     (* pthread_mutex_unlock *)
| C_return.

(** The locals: [start] and [end] once they are set, [fitem->fname] once there is one, [ret]. *)
Record call_frame := mkCall {
  cf_pc : call_pc; cf_svc : string; cf_call : string;
  cf_start : option timeval; cf_end : option timeval;
  cf_fname : option string; cf_ret : option string
}.

(** The places of [searpc_server_reopen_slow_log], with [fp] and [oldfp]. *)
Inductive reopen_pc :=
| R_start
| R_lock (fp : file)
| R_swap (fp : file)
| R_unlock (oldfp : option file)
| R_close (oldfp : option file)
| R_return (ret : Z).

Inductive thread := ThCall (f : call_frame) | ThReopen (pc : reopen_pc).

Definition start_call (svc call : string) : thread :=
  ThCall (mkCall C_start svc call None None None None).
Definition start_reopen : thread := ThReopen R_start.

(** What the system calls of a step return: the time, whether [fopen] and [fclose] succeed. *)
Record sys_input := mkInput { in_now : timeval; in_fopen : bool; in_fclose : bool }.

(** What the clients and the readers of the log can see: a call was run, a line was completed. *)
Inductive log_event :=
| EvCall (t : tid) (svc call ret : string)
| EvLine (t : tid) (fp : file) (l : log_line).

Section SlowLog.
Context `{Jansson} `{GObjectClasses} {W : Type}.

(** ** What the threads share *)

(** The static variables, the state of the RPC implementations, the owner of [slow_log_lock], the
    open streams other than [stdout], the next one [fopen] gives, and all that was written. *)
Record shared := mkShared {
  sh_server : server W; sh_world : W; sh_lock : option tid;
  sh_open : gset nat; sh_next : nat; sh_writes : list (file * log_write)
}.

Definition set_sh_world (w : W) (sh : shared) : shared :=
  mkShared (sh_server sh) w (sh_lock sh) (sh_open sh) (sh_next sh) (sh_writes sh).
Definition set_sh_lock (l : option tid) (sh : shared) : shared :=
  mkShared (sh_server sh) (sh_world sh) l (sh_open sh) (sh_next sh) (sh_writes sh).
Definition set_sh_fp (fp : option file) (sh : shared) : shared :=
  mkShared (set_slow_log_fp fp (log_to_stdout (sh_server sh)) (sh_server sh)) (sh_world sh)
    (sh_lock sh) (sh_open sh) (sh_next sh) (sh_writes sh).

Definition is_open (fp : file) (sh : shared) : bool :=
  match fp with f_stdout => true | f_file id => bool_decide (id ∈ sh_open sh) end.

(** [fopen] of the log file, in append mode. *)
Definition sys_fopen (sh : shared) : file * shared :=
  (f_file (sh_next sh),
   mkShared (sh_server sh) (sh_world sh) (sh_lock sh) ({[ sh_next sh ]} ∪ sh_open sh)
     (S (sh_next sh)) (sh_writes sh)).

(** A stream is closed once. *)
Definition sys_fclose (fp : option file) (sh : shared) : outcome shared :=
  match fp with
  | None => Undef "fclose of NULL"
  | Some f_stdout => Ok sh
  | Some (f_file id) =>
      if bool_decide (id ∈ sh_open sh) then
        Ok (mkShared (sh_server sh) (sh_world sh) (sh_lock sh) (sh_open sh ∖ {[ id ]}) (sh_next sh)
              (sh_writes sh))
      else Undef "fclose of a closed stream"
  end.

(** [fprintf] or [fflush] to [slow_log_fp]. *)
Definition log_stream (sh : shared) : outcome file :=
  match slow_log_fp (sh_server sh) with
  | None => Undef "write to NULL"
  | Some fp => if is_open fp sh then Ok fp else Undef "write to a closed stream"
  end.

Definition sys_fprintf (w : log_write) (sh : shared) : outcome (file * shared) :=
  fp <~ log_stream sh ;;
  Ok (fp, mkShared (sh_server sh) (sh_world sh) (sh_lock sh) (sh_open sh) (sh_next sh)
            (sh_writes sh ++ [(fp, w)])).

(** [pthread_mutex_lock] waits ([None]) while the mutex is held. *)
Definition mutex_lock (t : tid) (sh : shared) : option shared :=
  match sh_lock sh with None => Some (set_sh_lock (Some t) sh) | Some _ => None end.

Definition mutex_unlock (t : tid) (sh : shared) : outcome shared :=
  if decide (sh_lock sh = Some t) then Ok (set_sh_lock None sh)
  else Undef "unlock of a mutex another thread holds".

(** ** A call *)

(** From the lookup of the service to the marshal function: the response, and the name of the
    function if one was called. *)
Definition call_phase (s : server W) (svc_name call : string) : run W (string * option string) :=
  fun w =>
    services <~ table_of (service_table s) ;;
    match services !! svc_name with
    | None =>
        let buf := snprintf_text 255 ("cannot find service " +:+ svc_name +:+ ".") in
        ret <~ error_to_json 501 (Some buf) ;; Ok ((ret, None), w)
    | Some service =>
        match json_loadb call with
        | inl jerror =>
            let error := setjetoge jerror (ErrAt None) in
            let message := match error with ErrAt (Some e) => e_message e | _ => "" end in
            let buf := snprintf_text 511
                         ("failed to load RPC call: " +:+ message +:+ String "010" "") in
            ret <~ error_to_json 511 (Some buf) ;; Ok ((ret, None), w)
        | inr array =>
            let fn := json_string_value (json_array_get (Some array) 0) in
            fitem <~ lookup_function (func_table service) fn ;;
            match fitem with
            | None =>
                let buf := snprintf_text 255 ("cannot find function " +:+ printf_s fn +:+ ".") in
                ret <~ error_to_json 500 (Some buf) ;; Ok ((ret, None), w)
            | Some fitem =>
                rw <~ mfunc (marshal fitem) (func fitem) array w ;;
                Ok ((rw.1, Some (fname fitem)), rw.2)
            end
        end
    end.

(** The line of a call that took from [start] to [finish]; [None] below the threshold. *)
Definition call_line (s : server W) (svc_name call : string) (start finish : timeval)
  : option log_line :=
  let intv := timersub finish start in
  let intv_in_usec := tv_sec intv * G_USEC_PER_SEC + tv_usec intv in
  let intv_in_msec := Z.quot intv_in_usec 1000 in
  if intv_in_msec <? slow_threshold s then None
  else Some (mkLine (log_to_stdout s) (tv_sec start) svc_name call intv_in_usec).

(** Whether calls of a function may be logged. *)
Definition call_logged (s : server W) (fn : string) : bool :=
  bool_decide (filtered_funcs s = []) || negb (rpc_include_passwd fn (filtered_funcs s)).

Definition set_pc (pc : call_pc) (f : call_frame) : call_frame :=
  mkCall pc (cf_svc f) (cf_call f) (cf_start f) (cf_end f) (cf_fname f) (cf_ret f).

(** The line a call is about to print. *)
Definition frame_line (s : server W) (f : call_frame) : outcome log_line :=
  match cf_start f, cf_end f with
  | Some start, Some finish =>
      match call_line s (cf_svc f) (cf_call f) start finish with
      | Some l => Ok l
      | None => Undef "below the threshold"
      end
  | _, _ => Undef "uninitialised timeval"
  end.

(** One step of a call; [None]: it waits. *)
Definition call_step (inp : sys_input) (t : tid) (f : call_frame) (sh : shared)
  : outcome (option (call_frame * shared * list log_event)) :=
  let s := sh_server sh in
  match cf_pc f with
  | C_start =>
      let start := match slow_log_fp s with Some _ => Some (in_now inp) | None => None end in
      Ok (Some (mkCall C_run (cf_svc f) (cf_call f) start None None None, sh, []))
  | C_run =>
      r <~ call_phase s (cf_svc f) (cf_call f) (sh_world sh) ;;
      let pc := match r.1.2 with Some _ => C_check | None => C_return end in
      Ok (Some (mkCall pc (cf_svc f) (cf_call f) (cf_start f) None r.1.2 (Some r.1.1),
                set_sh_world r.2 sh, [EvCall t (cf_svc f) (cf_call f) r.1.1]))
  | C_check =>
      match slow_log_fp s, cf_fname f with
      | Some _, Some fn =>
          if call_logged s fn then
            match cf_start f with
            | None => Undef "uninitialised timeval"
            | Some start =>
                let pc := match call_line s (cf_svc f) (cf_call f) start (in_now inp) with
                          | Some _ => C_lock | None => C_return end in
                Ok (Some (mkCall pc (cf_svc f) (cf_call f) (cf_start f) (Some (in_now inp))
                            (cf_fname f) (cf_ret f), sh, []))
            end
          else Ok (Some (set_pc C_return f, sh, []))
      | _, _ => Ok (Some (set_pc C_return f, sh, []))
      end
  | C_lock =>
      match mutex_lock t sh with
      | None => Ok None
      | Some sh => Ok (Some (set_pc C_tag f, sh, []))
      end
  | C_tag =>
      if log_to_stdout s then
        r <~ sys_fprintf w_tag sh ;; Ok (Some (set_pc C_entry f, r.2, []))
      else Ok (Some (set_pc C_entry f, sh, []))
  | C_entry =>
      l <~ frame_line s f ;;
      r <~ sys_fprintf (w_entry (ll_time l) (ll_service l) (ll_call l) (ll_usec l)) sh ;;
      Ok (Some (set_pc C_flush f, r.2, [EvLine t r.1 l]))
  | C_flush =>
      _ <~ log_stream sh ;; Ok (Some (set_pc C_unlock f, sh, []))
  | C_unlock =>
      sh <~ mutex_unlock t sh ;; Ok (Some (set_pc C_return f, sh, []))
  | C_return => Ok None
  end.

(** ** Reopening the log *)
Definition reopen_step (inp : sys_input) (t : tid) (pc : reopen_pc) (sh : shared)
  : outcome (option (reopen_pc * shared)) :=
  match pc with
  | R_start =>
      if log_to_stdout (sh_server sh) then Ok (Some (R_return 0, sh))
      else if in_fopen inp then
        let r := sys_fopen sh in Ok (Some (R_lock r.1, r.2))
      else Ok (Some (R_return (-1), sh))
  | R_lock fp =>
      match mutex_lock t sh with
      | None => Ok None
      | Some sh => Ok (Some (R_swap fp, sh))
      end
  | R_swap fp =>
      let oldfp := slow_log_fp (sh_server sh) in
      Ok (Some (R_unlock oldfp, set_sh_fp (Some fp) sh))
  | R_unlock oldfp =>
      sh <~ mutex_unlock t sh ;; Ok (Some (R_close oldfp, sh))
  | R_close oldfp =>
      sh <~ sys_fclose oldfp sh ;;
      Ok (Some (R_return (if in_fclose inp then 0 else -1), sh))
  | R_return _ => Ok None
  end.

(** ** The process *)
Record process := mkProcess { pr_threads : gmap tid thread; pr_shared : shared }.

Definition thread_step (inp : sys_input) (t : tid) (th : thread) (sh : shared)
  : outcome (option (thread * shared * list log_event)) :=
  match th with
  | ThCall f =>
      r <~ call_step inp t f sh ;;
      Ok (match r with Some (f', sh', ev) => Some (ThCall f', sh', ev) | None => None end)
  | ThReopen pc =>
      r <~ reopen_step inp t pc sh ;;
      Ok (match r with Some (pc', sh') => Some (ThReopen pc', sh', []) | None => None end)
  end.

(** The turn of a thread; a thread that waits or has returned lets it pass. *)
Definition process_step (inp : sys_input) (t : tid) (p : process)
  : outcome (process * list log_event) :=
  match pr_threads p !! t with
  | None => Ok (p, [])
  | Some th =>
      r <~ thread_step inp t th (pr_shared p) ;;
      match r with
      | None => Ok (p, [])
      | Some (th', sh', ev) => Ok (mkProcess (<[t := th']> (pr_threads p)) sh', ev)
      end
  end.

Fixpoint run_process (turns : list (tid * sys_input)) (p : process)
  : outcome (process * list log_event) :=
  match turns with
  | [] => Ok (p, [])
  | (t, inp) :: turns' =>
      x <~ process_step inp t p ;;
      y <~ run_process turns' x.1 ;;
      Ok (y.1, x.2 ++ y.2)
  end.
End SlowLog.

Arguments shared {_} W.
Arguments process {_} W.
