(* ===== verification/SlowLogSafety.v ===== *)
(** * SlowLogSafety: the slow log under concurrency

    The invariant of the threads of SlowLog: who holds the mutex, who owns which stream, what the
    locals of a call hold; then what a run leaves in the log and in the state of the RPC
    implementations, compared with the calls made one after the other. *)
From S2P Require Import Prelude Json Runtime Utils GObject Marshal Server ServerSafety Responses Dispatch SlowLog.

(** ** The parts of a call *)
Section Parts.
Context `{Jansson} `{GObjectClasses} {W : Type}.
Implicit Types (s : server W) (w : W).

(** The lines a call of function [fn] adds. *)
Definition logged_lines s (svc call : string) (start finish : timeval) (fn : option string)
  : list (file * log_line) :=
  match slow_log_fp s, fn with
  | Some fp, Some fn =>
      if call_logged s fn then
        match call_line s svc call start finish with Some l => [(fp, l)] | None => [] end
      else []
  | _, _ => []
  end.

Lemma call_function_phases start finish svc call s w :
  searpc_server_call_function start finish svc call (s, w) =
  (r <~ call_phase s svc call w ;;
   Ok (r.1.1, (add_lines (logged_lines s svc call start finish r.1.2) s, r.2))).
Proof.
  assert (forall l, l = [] -> add_lines l s = s) as Hnil by (intros ? ->; by destruct s).
  assert (forall fn, logged_lines s svc call start finish fn = [] ->
    add_lines (logged_lines s svc call start finish fn) s = s) as Hno by eauto.
  unfold searpc_server_call_function, call_phase.
  destruct (table_of (service_table s)) as [services| |]; cbn [obind]; [|done..].
  destruct (services !! svc) as [service|]; cycle 1.
  { destruct (error_to_json _ _); cbn [obind fst snd]; [|done..]. rewrite Hno; [done|].
    unfold logged_lines. by destruct (slow_log_fp s). }
  destruct (json_loadb call) as [e|array].
  { destruct (error_to_json _ _); cbn [obind fst snd]; [|done..]. rewrite Hno; [done|].
    unfold logged_lines. by destruct (slow_log_fp s). }
  destruct (lookup_function _ _) as [[fitem|]| |]; cbn [obind]; [|..|done|done].
  - destruct (mfunc _ _ _ _) as [[r w']| |]; cbn [obind fst snd]; [|done..].
    do 3 f_equal. unfold logged_lines. destruct (slow_log_fp s) as [fp|] eqn:Hfp; [|by rewrite Hnil].
    change (bool_decide (filtered_funcs s = []) || negb (rpc_include_passwd (fname fitem) (filtered_funcs s)))
      with (call_logged s (fname fitem)).
    destruct (call_logged _ _); [|by rewrite Hnil].
    unfold print_slow_log_if_necessary, call_line. destruct (_ <? _); [by rewrite Hnil|].
    unfold add_log_line, add_lines. by rewrite Hfp.
  - destruct (error_to_json _ _); cbn [obind fst snd]; [|done..]. rewrite Hno; [done|].
    unfold logged_lines. by destruct (slow_log_fp s).
Qed.
End Parts.

(** ** Ownership *)

(** The thread is between lock and unlock. *)
Definition in_section (th : thread) : bool :=
  match th with
  | ThCall f => match cf_pc f with C_tag | C_entry | C_flush | C_unlock => true | _ => false end
  | ThReopen pc => match pc with R_swap _ | R_unlock _ => true | _ => false end
  end.

(** The stream a thread has to itself: one it opened, or one it took out of [slow_log_fp]. *)
Definition held_stream (th : thread) : option file :=
  match th with
  | ThReopen (R_lock fp) | ThReopen (R_swap fp) => Some fp
  | ThReopen (R_unlock oldfp) | ThReopen (R_close oldfp) => oldfp
  | _ => None
  end.

(** The thread has returned. *)
Definition returned (th : thread) : bool :=
  match th with
  | ThCall f => match cf_pc f with C_return => true | _ => false end
  | ThReopen pc => match pc with R_return _ => true | _ => false end
  end.

Section Invariant.
Context `{Jansson} `{GObjectClasses} {W : Type}.
Implicit Types (s : server W) (w : W) (sh : shared W) (p : process W).

(** The locals of a call, on a server [s] (whatever its stream is): [logging] if there is one. *)
Definition frame_ok s (logging : Prop) (f : call_frame) : Prop :=
  let started := logging -> is_Some (cf_start f) in
  let ran := exists w w' ret, cf_ret f = Some ret /\
               call_phase s (cf_svc f) (cf_call f) w = Ok ((ret, cf_fname f), w') in
  match cf_pc f with
  | C_start => True
  | C_run => started
  | C_check => started /\ ran /\ is_Some (cf_fname f)
  | C_return =>
      ran /\ (logging -> forall fn, cf_fname f = Some fn -> call_logged s fn = true ->
        is_Some (cf_start f) /\ is_Some (cf_end f))
  | _ =>
      logging /\ ran /\ exists start finish fn l,
        cf_start f = Some start /\ cf_end f = Some finish /\ cf_fname f = Some fn /\
        call_logged s fn = true /\ call_line s (cf_svc f) (cf_call f) start finish = Some l
  end.

Definition thread_ok s (logging : Prop) (th : thread) : Prop :=
  match th with
  | ThCall f => frame_ok s logging f
  | ThReopen (R_unlock oldfp) | ThReopen (R_close oldfp) => is_Some oldfp
  | ThReopen _ => True
  end.

(** The invariant: [s] is the server as it was. *)
Record process_ok s p : Prop := {
  (** only the stream of the server changes *)
  po_server : exists fp, sh_server (pr_shared p) = set_slow_log_fp fp (log_to_stdout s) s /\
    (is_Some fp <-> is_Some (slow_log_fp s));
  (** without a log nobody reopens it *)
  po_logging : is_Some (slow_log_fp s) \/ forall t pc, pr_threads p !! t <> Some (ThReopen pc);
  (** the mutex is held by the thread that is inside *)
  po_lock t : sh_lock (pr_shared p) = Some t <->
    exists th, pr_threads p !! t = Some th /\ in_section th = true;
  (** the server's stream is open and nobody else's *)
  po_fp fp : slow_log_fp (sh_server (pr_shared p)) = Some fp -> is_open fp (pr_shared p) = true /\
    forall t th id, pr_threads p !! t = Some th -> held_stream th = Some (f_file id) -> fp <> f_file id;
  (** so are the streams of the threads *)
  po_held t th fp : pr_threads p !! t = Some th -> held_stream th = Some fp -> is_open fp (pr_shared p) = true;
  po_owned t th t' th' id : pr_threads p !! t = Some th -> pr_threads p !! t' = Some th' ->
    held_stream th = Some (f_file id) -> held_stream th' = Some (f_file id) -> t = t';
  (** every other open stream is in the hands of a thread *)
  po_all id : id ∈ sh_open (pr_shared p) -> slow_log_fp (sh_server (pr_shared p)) = Some (f_file id) \/
    exists t th, pr_threads p !! t = Some th /\ held_stream th = Some (f_file id);
  (** [fopen] gives new streams *)
  po_next id : id ∈ sh_open (pr_shared p) -> (id < sh_next (pr_shared p))%nat;
  po_threads t th : pr_threads p !! t = Some th -> thread_ok s (is_Some (slow_log_fp s)) th
}.

(** ** Every step keeps it *)

(** The turn changes the thread [t] from [th] to [th']. *)
Ltac turn_cases :=
  repeat match goal with
  | H : <[_:=_]> _ !! _ = Some _ |- _ => apply lookup_insert_Some in H as [[? ?]|[? H]]; subst
  end.

Lemma insert_exists (m : gmap tid thread) t th (P : thread -> Prop) u :
  (exists x, <[t:=th]> m !! u = Some x /\ P x) <-> (u = t /\ P th) \/ (u <> t /\ exists x, m !! u = Some x /\ P x).
Proof.
  split.
  - intros (x & Hx & HP). apply lookup_insert_Some in Hx as [[<- <-]|[Hne Hx]]; [by left|].
    right. split; [congruence|by exists x].
  - intros [[-> HP]|[Hne (x & Hx & HP)]]; [exists th; by rewrite lookup_insert_eq|].
    exists x. by rewrite lookup_insert_ne.
Qed.

(** A stream that was in somebody's hands, when [t]'s did not change. *)
Lemma holder_insert (m : gmap tid thread) t th th' (fp : file) :
  m !! t = Some th -> held_stream th' = held_stream th ->
  (exists u x, m !! u = Some x /\ held_stream x = Some fp) ->
  exists u x, <[t:=th']> m !! u = Some x /\ held_stream x = Some fp.
Proof.
  intros Hth Hheld (u & x & Hu & Hx). exists u. destruct (decide (u = t)) as [->|Hne].
  - exists th'. rewrite lookup_insert_eq. split; [done|]. congruence.
  - exists x. by rewrite lookup_insert_ne.
Qed.

(** Without a word to the others. *)
Lemma quiet_turn s p t th th' sh' :
  process_ok s p -> pr_threads p !! t = Some th ->
  in_section th' = in_section th -> held_stream th' = held_stream th ->
  (forall pc, th' = ThReopen pc -> exists pc', th = ThReopen pc') ->
  thread_ok s (is_Some (slow_log_fp s)) th' ->
  sh_server sh' = sh_server (pr_shared p) -> sh_lock sh' = sh_lock (pr_shared p) ->
  sh_open sh' = sh_open (pr_shared p) -> sh_next sh' = sh_next (pr_shared p) ->
  process_ok s (mkProcess (<[t:=th']> (pr_threads p)) sh').
Proof.
  intros Hp Hth Hin Hheld Hkind Hok Es El Eo En.
  assert (forall fp, is_open fp sh' = is_open fp (pr_shared p)) as Eop
    by (intros [|id]; [done|]; unfold is_open; by rewrite Eo).
  constructor; cbn [pr_threads pr_shared].
  - rewrite Es. apply Hp.
  - destruct (po_logging s p Hp) as [?|Hno]; [by left|right]. intros u pc Hu. turn_cases; [|by eapply Hno].
    destruct (Hkind pc eq_refl) as [pc' ->]. by eapply Hno.
  - intros u. rewrite El, (po_lock s p Hp), insert_exists. split.
    + intros (x & Hx & Hi). destruct (decide (u = t)) as [->|Hne]; [left; split; [done|]; congruence|].
      right. split; [done|by exists x].
    + intros [[-> Hi]|[_ Hx]]; [exists th; split; [done|congruence]|done].
  - intros fp Hfp. rewrite Es in Hfp. rewrite Eop. destruct (po_fp s p Hp fp Hfp) as [Ho Hn].
    split; [done|]. intros u x id Hu Hx. turn_cases; [|by eapply Hn]. rewrite Hheld in Hx. by eapply Hn.
  - intros u x fp Hu Hx. rewrite Eop. turn_cases; [rewrite Hheld in Hx|]; by eapply (po_held s p Hp).
  - intros u x u' x' id Hu Hu' Hx Hx'. turn_cases; rewrite ?Hheld in *; try done; by eapply (po_owned s p Hp).
  - rewrite Eo, Es. intros id Hid. destruct (po_all s p Hp id Hid) as [?|Hh]; [by left|right].
    by eapply holder_insert.
  - rewrite Eo, En. apply Hp.
  - intros u x Hu. turn_cases; [done|]. by eapply (po_threads s p Hp).
Qed.

(** Taking or releasing the mutex. *)
Lemma lock_turn s p t th th' l :
  process_ok s p -> pr_threads p !! t = Some th ->
  (sh_lock (pr_shared p) = None /\ in_section th' = true /\ l = Some t \/
   sh_lock (pr_shared p) = Some t /\ in_section th' = false /\ l = None) ->
  held_stream th' = held_stream th ->
  (forall pc, th' = ThReopen pc -> exists pc', th = ThReopen pc') ->
  thread_ok s (is_Some (slow_log_fp s)) th' ->
  process_ok s (mkProcess (<[t:=th']> (pr_threads p)) (set_sh_lock l (pr_shared p))).
Proof.
  intros Hp Hth Hl Hheld Hkind Hok.
  constructor; cbn [pr_threads pr_shared set_sh_lock sh_server sh_lock sh_open sh_next].
  - apply Hp.
  - destruct (po_logging s p Hp) as [?|Hno]; [by left|right]. intros u pc Hu. turn_cases; [|by eapply Hno].
    destruct (Hkind pc eq_refl) as [pc' ->]. by eapply Hno.
  - intros u. rewrite insert_exists, <- (po_lock s p Hp u).
    destruct Hl as [(-> & -> & ->)|(-> & -> & ->)]; naive_solver.
  - intros fp Hfp. destruct (po_fp s p Hp fp Hfp) as [Ho Hn].
    split; [done|]. intros u x id Hu Hx. turn_cases; [|by eapply Hn]. rewrite Hheld in Hx. by eapply Hn.
  - intros u x fp Hu Hx. turn_cases; [rewrite Hheld in Hx|]; by eapply (po_held s p Hp).
  - intros u x u' x' id Hu Hu' Hx Hx'. turn_cases; rewrite ?Hheld in *; try done; by eapply (po_owned s p Hp).
  - intros id Hid. destruct (po_all s p Hp id Hid) as [?|Hh]; [by left|right]. by eapply holder_insert.
  - apply Hp.
  - intros u x Hu. turn_cases; [done|]. by eapply (po_threads s p Hp).
Qed.

(** Opening a stream. *)
Lemma fopen_turn s p t :
  process_ok s p -> pr_threads p !! t = Some (ThReopen R_start) ->
  process_ok s (mkProcess (<[t:=ThReopen (R_lock (sys_fopen (pr_shared p)).1)]> (pr_threads p))
                  (sys_fopen (pr_shared p)).2).
Proof.
  intros Hp Hth. set (new := sh_next (pr_shared p)).
  assert (forall fp, is_open fp (pr_shared p) = true -> is_open fp (sys_fopen (pr_shared p)).2 = true) as Hmono.
  { intros [|id]; [done|]. cbn. rewrite !bool_decide_eq_true. set_solver. }
  assert (is_open (f_file new) (pr_shared p) <> true) as Hnew.
  { cbn. rewrite bool_decide_eq_true. intros Hin. apply (po_next s p Hp) in Hin. unfold new in Hin. lia. }
  constructor; cbn [pr_threads pr_shared].
  - apply Hp.
  - destruct (po_logging s p Hp) as [?|Hno]; [by left|by apply Hno in Hth].
  - intros u. rewrite insert_exists. cbn [sys_fopen snd sh_lock]. rewrite (po_lock s p Hp u). split.
    + intros (x & Hx & Hi). right. split; [intros ->; by simplify_eq|by exists x].
    + intros [[_ ?]|[_ Hx]]; done.
  - intros fp Hfp. cbn [sys_fopen snd sh_server] in Hfp. destruct (po_fp s p Hp fp Hfp) as [Ho Hn].
    split; [by apply Hmono|]. intros u x id Hu Hx. turn_cases; [|by eapply Hn].
    cbn [held_stream sys_fopen fst] in Hx. injection Hx as <-. intros ->. by apply Hnew.
  - intros u x fp Hu Hx. turn_cases.
    + cbn [held_stream sys_fopen fst] in Hx. injection Hx as <-. cbn. rewrite bool_decide_eq_true. set_solver.
    + apply Hmono. by eapply (po_held s p Hp).
  - intros u x u' x' id Hu Hu' Hx Hx'. turn_cases; try done; [..|by eapply (po_owned s p Hp)].
    + exfalso. cbn [held_stream sys_fopen fst] in Hx'. injection Hx' as <-. by eapply Hnew, (po_held s p Hp).
    + exfalso. cbn [held_stream sys_fopen fst] in Hx. injection Hx as <-. by eapply Hnew, (po_held s p Hp).
  - cbn. intros id. rewrite elem_of_union, elem_of_singleton. intros [->|Hid].
    + right. exists t. eexists. split; [apply lookup_insert_eq|done].
    + destruct (po_all s p Hp id Hid) as [?|(u & x & Hu & Hx)]; [by left|right]. exists u, x.
      split; [|done]. rewrite lookup_insert_ne; [done|]. intros ->. by simplify_eq.
  - cbn. intros id. rewrite elem_of_union, elem_of_singleton. intros [->|Hid]; [lia|].
    apply (po_next s p Hp) in Hid. lia.
  - intros u x Hu. turn_cases; [done|]. by eapply (po_threads s p Hp).
Qed.

(** The swap of the streams. *)
Lemma swap_turn s p t fp :
  process_ok s p -> pr_threads p !! t = Some (ThReopen (R_swap fp)) ->
  process_ok s (mkProcess (<[t:=ThReopen (R_unlock (slow_log_fp (sh_server (pr_shared p))))]> (pr_threads p))
                  (set_sh_fp (Some fp) (pr_shared p))).
Proof.
  intros Hp Hth.
  assert (is_Some (slow_log_fp s)) as Hlog by (destruct (po_logging s p Hp) as [?|Hno]; [done|by apply Hno in Hth]).
  destruct (po_server s p Hp) as (fp0 & Hs & Hsome). pose proof (proj2 Hsome Hlog) as [old ->].
  assert (slow_log_fp (sh_server (pr_shared p)) = Some old) as Hold by (by rewrite Hs).
  destruct (po_fp s p Hp old Hold) as [Hopen Halone]. rewrite Hold.
  constructor; cbn [pr_threads pr_shared set_sh_fp sh_server sh_lock sh_open sh_next].
  - exists (Some fp). split; [|split; [done|by eexists]]. by rewrite Hs.
  - by left.
  - intros u. rewrite insert_exists, (po_lock s p Hp u). split.
    + intros (x & Hx & Hi). destruct (decide (u = t)) as [->|Hne]; [by left|right; split; [done|by exists x]].
    + intros [[-> _]|[_ Hx]]; [by eexists|done].
  - cbn. intros fp' [= <-]. split; [by eapply (po_held s p Hp)|]. intros u x id Hu Hx. turn_cases.
    + cbn in Hx. injection Hx as ->. intros ->. by eapply Halone.
    + intros ->. cut (t = u); [done|]. by eapply (po_owned s p Hp).
  - intros u x fp' Hu Hx. turn_cases; [cbn in Hx; by injection Hx as ->|by eapply (po_held s p Hp)].
  - intros u x u' x' id Hu Hu' Hx Hx'. turn_cases; try done; [..|by eapply (po_owned s p Hp)].
    + exfalso. cbn in Hx'. injection Hx' as ->. by eapply (Halone u).
    + exfalso. cbn in Hx. injection Hx as ->. by eapply (Halone u').
  - cbn. intros id Hid. destruct (po_all s p Hp id Hid) as [Hfp|(u & x & Hu & Hx)].
    + right. exists t. eexists. split; [apply lookup_insert_eq|]. rewrite Hold in Hfp. by injection Hfp as ->.
    + destruct (decide (u = t)) as [->|Hne]; [left; rewrite Hth in Hu; by injection Hu as <-|].
      right. exists u, x. by rewrite lookup_insert_ne.
  - apply Hp.
  - intros u x Hu. turn_cases; [by eexists|]. by eapply (po_threads s p Hp).
Qed.

(** Closing the stream that was taken out. *)
Lemma fclose_turn s p t oldfp ret :
  process_ok s p -> pr_threads p !! t = Some (ThReopen (R_close oldfp)) ->
  exists sh', sys_fclose oldfp (pr_shared p) = Ok sh' /\
    process_ok s (mkProcess (<[t:=ThReopen (R_return ret)]> (pr_threads p)) sh').
Proof.
  intros Hp Hth. destruct (po_threads s p Hp t _ Hth) as [old ->].
  pose proof (po_held s p Hp t _ old Hth eq_refl) as Hopen.
  assert (exists sh', sys_fclose (Some old) (pr_shared p) = Ok sh' /\
    sh_server sh' = sh_server (pr_shared p) /\ sh_lock sh' = sh_lock (pr_shared p) /\
    sh_next sh' = sh_next (pr_shared p) /\ sh_open sh' ⊆ sh_open (pr_shared p) /\
    (forall id, old = f_file id -> id ∉ sh_open sh') /\
    forall fp, is_open fp (pr_shared p) = true -> (forall id, old = f_file id -> fp <> f_file id) ->
      is_open fp sh' = true) as (sh' & Hrun & Es & El & En & Eo & Hgone & Hmono).
  { destruct old as [|id]; cbn [sys_fclose is_open] in *; [by eexists|]. rewrite Hopen. eexists.
    split; [reflexivity|]. repeat split; cbn; [set_solver|set_solver|]. intros [|id'] Hid Hne; [done|].
    cbn in *. rewrite bool_decide_eq_true in *. specialize (Hne id eq_refl). set_solver. }
  exists sh'. split; [done|]. constructor; cbn [pr_threads pr_shared].
  - rewrite Es. apply Hp.
  - destruct (po_logging s p Hp) as [?|Hno]; [by left|by apply Hno in Hth].
  - intros u. rewrite insert_exists, El, (po_lock s p Hp u). split.
    + intros (x & Hx & Hi). right. split; [intros ->; by simplify_eq|by exists x].
    + intros [[_ ?]|[_ Hx]]; done.
  - intros fp Hfp. rewrite Es in Hfp. destruct (po_fp s p Hp fp Hfp) as [Ho Hn]. split.
    + apply Hmono; [done|]. intros id ->. by apply (Hn t _ id Hth).
    + intros u x id Hu Hx. turn_cases; [done|by eapply Hn].
  - intros u x fp Hu Hx. turn_cases; [done|]. apply Hmono; [by eapply (po_held s p Hp)|].
    intros id -> ->. cut (t = u); [done|]. by eapply (po_owned s p Hp).
  - intros u x u' x' id Hu Hu' Hx Hx'. turn_cases; try done. by eapply (po_owned s p Hp).
  - intros id Hid. rewrite Es. destruct (po_all s p Hp id (Eo id Hid)) as [?|(u & x & Hu & Hx)]; [by left|right].
    exists u, x. split; [|done]. rewrite lookup_insert_ne; [done|]. intros ->.
    rewrite Hth in Hu. injection Hu as <-. injection Hx as ->. by eapply Hgone.
  - intros id Hid. rewrite En. apply (po_next s p Hp), Eo, Hid.
  - intros u x Hu. turn_cases; [done|]. by eapply (po_threads s p Hp).
Qed.

(** The step of a call, when it takes one. *)
Definition call_turn_ok s p t f (r : outcome (option (call_frame * shared W * list log_event))) : Prop :=
  match r with
  | Ok (Some (f', sh', _)) => process_ok s (mkProcess (<[t:=ThCall f']> (pr_threads p)) sh')
  | Ok None => True
  | _ => cf_pc f = C_run /\ forall x, call_phase s (cf_svc f) (cf_call f) (sh_world (pr_shared p)) <> Ok x
  end.

Lemma quiet_call s p t f f' sh' :
  process_ok s p -> pr_threads p !! t = Some (ThCall f) ->
  in_section (ThCall f') = in_section (ThCall f) -> frame_ok s (is_Some (slow_log_fp s)) f' ->
  sh_server sh' = sh_server (pr_shared p) -> sh_lock sh' = sh_lock (pr_shared p) ->
  sh_open sh' = sh_open (pr_shared p) -> sh_next sh' = sh_next (pr_shared p) ->
  process_ok s (mkProcess (<[t:=ThCall f']> (pr_threads p)) sh').
Proof. intros. by eapply quiet_turn. Qed.

Lemma log_stream_ok s p :
  process_ok s p -> is_Some (slow_log_fp s) ->
  exists fp, slow_log_fp (sh_server (pr_shared p)) = Some fp /\ log_stream (pr_shared p) = Ok fp.
Proof.
  intros Hp Hlog. destruct (po_server s p Hp) as (fp & Hs & Hsome). pose proof (proj2 Hsome Hlog) as [fp' ->].
  assert (slow_log_fp (sh_server (pr_shared p)) = Some fp') as Hfp by (by rewrite Hs).
  exists fp'. split; [done|]. unfold log_stream. rewrite Hfp. by destruct (po_fp s p Hp fp' Hfp) as [-> _].
Qed.

(** Before the mutex. *)
Lemma call_step_outside inp s p t f :
  process_ok s p -> pr_threads p !! t = Some (ThCall f) ->
  match cf_pc f with C_start | C_run | C_check | C_lock => True | _ => False end ->
  call_turn_ok s p t f (call_step inp t f (pr_shared p)).
Proof.
  intros Hp Hth Hpc. destruct (po_server s p Hp) as (fp & Hs & Hsome).
  pose proof (po_threads s p Hp t _ Hth) as Hf. cbn [thread_ok] in Hf.
  unfold call_step, call_turn_ok. destruct f as [pc svc call start finish fn ret]. cbn [cf_pc cf_svc cf_call] in *.
  destruct pc; try done; cbn [cf_start cf_end cf_fname cf_ret].
  - apply (quiet_call s p t _ _ _ Hp Hth); try done. intros Hl. cbn. rewrite Hs. cbn.
    apply Hsome in Hl as [? ->]. by eexists.
  - assert (forall w, call_phase (sh_server (pr_shared p)) svc call w = call_phase s svc call w) as Hph
      by (intros; by rewrite Hs).
    rewrite Hph. destruct (call_phase s svc call (sh_world (pr_shared p))) as [[[r fn'] w']| |] eqn:Hrun;
      cbn [obind fst snd]; [|by split..].
    apply (quiet_call s p t _ _ _ Hp Hth); try done; [by destruct fn'|].
    assert (exists w w' ret, Some r = Some ret /\ call_phase s svc call w = Ok ((ret, fn'), w')) as Hran
      by (by eexists _, _, _).
    by destruct fn'; [split; [exact Hf|split; [exact Hran|by eexists]]|split].
  - destruct Hf as (Hst & Hran & [fn' Hfn]). cbn in Hst, Hran, Hfn. subst fn.
    assert (slow_log_fp (sh_server (pr_shared p)) = fp) as -> by (by rewrite Hs).
    assert (call_logged (sh_server (pr_shared p)) fn' = call_logged s fn') as -> by (by rewrite Hs).
    destruct fp as [fp|]; cycle 1.
    { apply (quiet_call s p t _ _ _ Hp Hth); try done. split; [done|]. intros Hl. by apply Hsome in Hl as [? ?]. }
    assert (is_Some (slow_log_fp s)) as Hl by (by apply Hsome). destruct (Hst Hl) as [start' ->].
    destruct (call_logged s fn') eqn:Hlog; cycle 1.
    { apply (quiet_call s p t _ _ _ Hp Hth); try done. split; [done|]. cbn. intros _ fn [= <-]. congruence. }
    assert (call_line (sh_server (pr_shared p)) svc call start' (in_now inp) =
            call_line s svc call start' (in_now inp)) as -> by (by rewrite Hs).
    destruct (call_line s svc call start' (in_now inp)) as [l|] eqn:Hline;
      apply (quiet_call s p t _ _ _ Hp Hth); try done.
    split; [done|]. split; [done|]. by exists start', (in_now inp), fn', l.
  - unfold mutex_lock. destruct (sh_lock (pr_shared p)) as [u|] eqn:Hl; [done|].
    eapply (lock_turn s p t); try done. left. done.
Qed.

(** With the mutex. *)
Lemma call_step_inside inp s p t f :
  process_ok s p -> pr_threads p !! t = Some (ThCall f) -> in_section (ThCall f) = true ->
  exists f' sh' ev, call_step inp t f (pr_shared p) = Ok (Some (f', sh', ev)) /\
    process_ok s (mkProcess (<[t:=ThCall f']> (pr_threads p)) sh').
Proof.
  intros Hp Hth Hin. destruct (po_server s p Hp) as (fp0 & Hs & Hsome).
  pose proof (po_threads s p Hp t _ Hth) as Hf. cbn [thread_ok] in Hf.
  assert (sh_lock (pr_shared p) = Some t) as Hlock by (apply (po_lock s p Hp); by eexists).
  assert (is_Some (slow_log_fp s)) as Hlog.
  { unfold frame_ok in Hf. cbn [in_section] in Hin. by destruct (cf_pc f); try done; destruct Hf. }
  destruct (log_stream_ok s p Hp Hlog) as (fp & Hfp & Hstream).
  unfold call_step. destruct f as [pc svc call start finish fn ret].
  cbn [cf_pc cf_svc cf_call in_section] in *. unfold frame_ok in Hf. cbn [cf_pc] in Hf.
  destruct pc; try done; unfold sys_fprintf, mutex_unlock; rewrite ?Hstream; cbn [obind].
  - destruct (log_to_stdout (sh_server (pr_shared p))); eexists _, _, _; (split; [reflexivity|]);
      by apply (quiet_call s p t _ _ _ Hp Hth).
  - pose proof Hf as (_ & _ & start' & finish' & fn' & l & Hs1 & Hs2 & _ & _ & Hl).
    cbn [cf_start cf_end cf_svc cf_call] in *. subst start finish.
    unfold frame_line. cbn [cf_start cf_end cf_svc cf_call].
    assert (call_line (sh_server (pr_shared p)) svc call start' finish' = Some l) as -> by (by rewrite Hs).
    cbn [obind fst snd]. eexists _, _, _. split; [reflexivity|]. by apply (quiet_call s p t _ _ _ Hp Hth).
  - eexists _, _, _. split; [reflexivity|]. by apply (quiet_call s p t _ _ _ Hp Hth).
  - rewrite decide_True by done. cbn [obind]. eexists _, _, _. split; [reflexivity|].
    eapply (lock_turn s p t); try done; [right; done|]. cbn.
    destruct Hf as (_ & Hran & start' & finish' & fn' & l & Hs1 & Hs2 & _).
    split; [exact Hran|]. cbn in *. intros _ _ _ _. split; by eexists.
Qed.

Lemma reopen_step_ok inp s p t pc :
  process_ok s p -> pr_threads p !! t = Some (ThReopen pc) ->
  exists r, reopen_step inp t pc (pr_shared p) = Ok r /\
    match r with
    | Some (pc', sh') => process_ok s (mkProcess (<[t:=ThReopen pc']> (pr_threads p)) sh')
    | None => True
    end.
Proof.
  intros Hp Hth. pose proof (po_threads s p Hp t _ Hth) as Hf. unfold reopen_step.
  assert (in_section (ThReopen pc) = true -> sh_lock (pr_shared p) = Some t) as Hlock
    by (intros; apply (po_lock s p Hp); by eexists).
  destruct pc as [|fp|fp|oldfp|oldfp|ret].
  - destruct (log_to_stdout _); [|destruct (in_fopen inp)]; (eexists; split; [reflexivity|]);
      [|by apply fopen_turn|]; by apply (quiet_turn s p t _ _ _ Hp Hth); try done; eexists.
  - unfold mutex_lock. destruct (sh_lock (pr_shared p)) as [u|] eqn:Hl; (eexists; split; [reflexivity|]); [done|].
    eapply (lock_turn s p t); try done; [by left|by eexists].
  - eexists. split; [reflexivity|]. by apply swap_turn.
  - unfold mutex_unlock. rewrite Hlock, decide_True by done. cbn [obind]. eexists. split; [reflexivity|].
    eapply (lock_turn s p t); try done; [right; by rewrite Hlock|by eexists].
  - destruct (fclose_turn s p t oldfp (if in_fclose inp then 0 else -1) Hp Hth) as (sh' & -> & Hok).
    cbn [obind]. by eexists.
  - by exists None.
Qed.

(** A turn keeps the invariant; only the dispatcher itself can go wrong. *)
Lemma process_step_ok inp s p t :
  process_ok s p ->
  match process_step inp t p with
  | Ok (p', _) => process_ok s p'
  | _ => exists f, pr_threads p !! t = Some (ThCall f) /\ cf_pc f = C_run /\
           forall x, call_phase s (cf_svc f) (cf_call f) (sh_world (pr_shared p)) <> Ok x
  end.
Proof.
  intros Hp. unfold process_step. destruct (pr_threads p !! t) as [[f|pc]|] eqn:Hth; [| |done].
  - assert (call_turn_ok s p t f (call_step inp t f (pr_shared p))) as Hok.
    { destruct (in_section (ThCall f)) eqn:Hin.
      - destruct (call_step_inside inp s p t f Hp Hth Hin) as (f' & sh' & ev & -> & Hok). exact Hok.
      - destruct (cf_pc f) eqn:Hpc; cbn [in_section] in Hin; rewrite ?Hpc in Hin; try done;
          try (apply call_step_outside; [done..|by rewrite Hpc]).
        unfold call_step. by rewrite Hpc. }
    unfold thread_step, call_turn_ok in *.
    destruct (call_step inp t f (pr_shared p)) as [[[[f' sh'] ev]|]| |]; cbn [obind]; [done|done|..];
      exists f; done.
  - destruct (reopen_step_ok inp s p t pc Hp Hth) as (r & Hr & Hok). unfold thread_step. rewrite Hr.
    cbn [obind]. by destruct r as [[pc' sh']|].
Qed.
End Invariant.
