(* ===== verification/SlowLogHistory.v ===== *)
(** * SlowLogHistory: what the calls of concurrent threads add up to

    The events of a run of SlowLog against the calls made one after the other, and against what is
    in the log files. *)
From S2P Require Import Prelude Json Runtime Utils GObject Marshal Server ServerSafety Responses Dispatch Pipe PipeSafety PipeServer Concurrent ConcurrentSafety SlowLog SlowLogSafety.

(** ** Reading a history *)
Definition ev_tid (e : log_event) : tid := match e with EvCall t _ _ _ | EvLine t _ _ => t end.
Definition events_of (t : tid) (evs : list log_event) : list log_event :=
  filter (fun e => ev_tid e = t) evs.

(** The calls in the order they were run, and their responses. *)
Definition calls_made (evs : list log_event) : list (string * string) :=
  omap (fun e => match e with EvCall _ svc call _ => Some (svc, call) | _ => None end) evs.
Definition rets_made (evs : list log_event) : list string :=
  omap (fun e => match e with EvCall _ _ _ ret => Some ret | _ => None end) evs.

(** What the completed lines put into the files. *)
Definition lines_written (evs : list log_event) : list (file * log_write) :=
  evs ≫= fun e => match e with
                  | EvLine _ fp l => (fun w => (fp, w)) <$> line_writes l
                  | _ => []
                  end.

Lemma events_of_app t a b : events_of t (a ++ b) = events_of t a ++ events_of t b.
Proof. apply filter_app. Qed.

Lemma events_of_mine t evs : Forall (fun e => ev_tid e = t) evs -> events_of t evs = evs.
Proof.
  induction 1 as [|e evs He _ IH]; [done|]. unfold events_of in *. by rewrite filter_cons_True, IH.
Qed.

Lemma events_of_others t u evs : Forall (fun e => ev_tid e = t) evs -> u <> t -> events_of u evs = [].
Proof.
  intros Hev Hne. induction Hev as [|e evs He _ IH]; [done|]. unfold events_of in *.
  rewrite filter_cons_False; [done|congruence].
Qed.

Section History.
Context `{Jansson} `{GObjectClasses} {W : Type}.
Implicit Types (s : server W) (w : W) (p : process W).

(** The calls one after the other: the dispatcher on the same tables. *)
Definition sequential_call s (svc call : string) : run W string :=
  fun w => x <~ searpc_server_call_function (mkTime 0 0) (mkTime 0 0) svc call (s, w) ;; Ok (x.1, x.2.2).

Lemma sequential_phase s svc call w :
  sequential_call s svc call w = (r <~ call_phase s svc call w ;; Ok (r.1.1, r.2)).
Proof.
  unfold sequential_call. rewrite call_function_phases.
  by destruct (call_phase s svc call w) as [[[r fn] w']| |].
Qed.

(** The tag of a line that is being written. *)
Definition thread_tag s (th : thread) : list (file * log_write) :=
  match th with
  | ThCall f =>
      match cf_pc f, slow_log_fp s with
      | C_entry, Some fp => if log_to_stdout s then [(fp, w_tag)] else []
      | _, _ => []
      end
  | ThReopen _ => []
  end.

Definition unfinished p : list (file * log_write) :=
  match sh_lock (pr_shared p) with
  | Some t =>
      match pr_threads p !! t with
      | Some th => thread_tag (sh_server (pr_shared p)) th
      | None => []
      end
  | None => []
  end.

(** The lines a call prints, from its locals. *)
Definition frame_lines s (f : call_frame) : list log_line :=
  match slow_log_fp s, cf_fname f, cf_start f, cf_end f with
  | Some _, Some fn, Some start, Some finish =>
      if call_logged s fn then option_list (call_line s (cf_svc f) (cf_call f) start finish) else []
  | _, _, _, _ => []
  end.

(** What a thread has done so far, from its place. *)
Definition thread_events s (t : tid) (th : thread) (evs : list log_event) : Prop :=
  match th with
  | ThReopen _ => evs = []
  | ThCall f =>
      let did lines := exists ret fp, cf_ret f = Some ret /\
        evs = EvCall t (cf_svc f) (cf_call f) ret :: (EvLine t fp <$> lines) in
      match cf_pc f with
      | C_start | C_run => evs = []
      | C_check => cf_end f = None /\ did []
      | C_lock | C_tag | C_entry => did []
      | _ => did (frame_lines s f)
      end
  end.

Record history_ok s (w0 : W) (wr0 : list (file * log_write)) p (evs : list log_event) : Prop := {
  ho_calls : serve_stream (sequential_call s) (calls_made evs) w0 = Ok (rets_made evs, sh_world (pr_shared p));
  ho_writes : sh_writes (pr_shared p) = wr0 ++ lines_written evs ++ unfinished p;
  ho_threads t th : pr_threads p !! t = Some th -> thread_events s t th (events_of t evs)
}.

(** ** Every step keeps it *)
Lemma history_turn s w0 wr0 p evs t th th' sh' ev :
  history_ok s w0 wr0 p evs -> pr_threads p !! t = Some th ->
  Forall (fun e => ev_tid e = t) ev ->
  serve_stream (sequential_call s) (calls_made ev) (sh_world (pr_shared p)) = Ok (rets_made ev, sh_world sh') ->
  (forall wr, sh_writes (pr_shared p) = wr ++ unfinished p ->
     sh_writes sh' = wr ++ lines_written ev ++ unfinished (mkProcess (<[t:=th']> (pr_threads p)) sh')) ->
  thread_events s t th' (events_of t evs ++ ev) ->
  history_ok s w0 wr0 (mkProcess (<[t:=th']> (pr_threads p)) sh') (evs ++ ev).
Proof.
  intros Hh Hth Hev Hcalls Hwr Hdone. constructor; cbn [pr_threads pr_shared].
  - unfold calls_made, rets_made. rewrite !omap_app. eapply serve_stream_app; [apply Hh|exact Hcalls].
  - unfold lines_written. rewrite bind_app, <- !app_assoc, (app_assoc wr0). apply Hwr.
    rewrite <- app_assoc. apply Hh.
  - intros u x Hu. rewrite events_of_app. apply lookup_insert_Some in Hu as [[<- <-]|[Hne Hu]].
    + by rewrite (events_of_mine t ev).
    + rewrite (events_of_others t u ev), app_nil_r by done. by apply (ho_threads _ _ _ _ _ Hh).
Qed.

(** The unfinished line is that of the thread inside. *)
Lemma unfinished_inside s p t th :
  process_ok s p -> pr_threads p !! t = Some th -> in_section th = true ->
  unfinished p = thread_tag (sh_server (pr_shared p)) th.
Proof.
  intros Hp Hth Hin. unfold unfinished.
  assert (sh_lock (pr_shared p) = Some t) as -> by (apply (po_lock s p Hp); eauto).
  by rewrite Hth.
Qed.

(** A turn of a thread outside, before and after, with the same stream. *)
Lemma unfinished_outside s p t th th' sh' :
  process_ok s p -> pr_threads p !! t = Some th -> in_section th = false ->
  sh_lock sh' = sh_lock (pr_shared p) -> sh_server sh' = sh_server (pr_shared p) ->
  unfinished (mkProcess (<[t:=th']> (pr_threads p)) sh') = unfinished p.
Proof.
  intros Hp Hth Hin El Es. unfold unfinished. cbn [pr_threads pr_shared]. rewrite El, Es.
  destruct (sh_lock (pr_shared p)) as [u|] eqn:Hl; [|done].
  rewrite lookup_insert_ne; [done|]. intros <-.
  apply (po_lock s p Hp) in Hl as (x & Hx & Hi). congruence.
Qed.

(** A thread inside that leaves. *)
Lemma unfinished_left p t th' sh' : sh_lock sh' = None -> unfinished (mkProcess (<[t:=th']> (pr_threads p)) sh') = [].
Proof. intros El. unfold unfinished. cbn [pr_shared]. by rewrite El. Qed.

Lemma history_quiet s w0 wr0 p evs t th th' sh' :
  history_ok s w0 wr0 p evs -> pr_threads p !! t = Some th ->
  sh_world sh' = sh_world (pr_shared p) -> sh_writes sh' = sh_writes (pr_shared p) ->
  unfinished (mkProcess (<[t:=th']> (pr_threads p)) sh') = unfinished p ->
  thread_events s t th' (events_of t evs) ->
  history_ok s w0 wr0 (mkProcess (<[t:=th']> (pr_threads p)) sh') (evs ++ []).
Proof.
  intros Hh Hth Ew Ewr Eu Hdone. eapply history_turn; try done.
  - cbn. by rewrite Ew.
  - intros wr Hwr. by rewrite Ewr, Eu.
  - by rewrite app_nil_r.
Qed.

(** A call outside the mutex. *)
Lemma call_history_outside inp s w0 wr0 p evs t f f' sh' ev :
  process_ok s p -> history_ok s w0 wr0 p evs -> pr_threads p !! t = Some (ThCall f) ->
  match cf_pc f with C_start | C_run | C_check | C_lock => True | _ => False end ->
  call_step inp t f (pr_shared p) = Ok (Some (f', sh', ev)) ->
  history_ok s w0 wr0 (mkProcess (<[t:=ThCall f']> (pr_threads p)) sh') (evs ++ ev).
Proof.
  intros Hp Hh Hth Hpc Hstep. destruct (po_server s p Hp) as (fp & Hs & Hsome).
  pose proof (ho_threads _ _ _ _ _ Hh t _ Hth) as Hev. pose proof (po_threads s p Hp t _ Hth) as Hok.
  destruct f as [pc svc call start finish fn ret]. unfold call_step in Hstep.
  cbn [thread_events thread_ok cf_pc cf_svc cf_call cf_ret cf_fname cf_start cf_end] in *.
  destruct pc; try done.
  - injection Hstep as <- <- <-. eapply history_quiet; try done.
    by eapply unfinished_outside.
  - assert (call_phase (sh_server (pr_shared p)) svc call (sh_world (pr_shared p)) =
            call_phase s svc call (sh_world (pr_shared p))) as Hph by (by rewrite Hs).
    rewrite Hph in Hstep. apply obind_Ok in Hstep as ([[r fn'] w'] & Hrun & Hstep).
    cbn [fst snd] in Hstep. injection Hstep as <- <- <-.
    eapply history_turn; try done.
    + by constructor.
    + cbn. by rewrite sequential_phase, Hrun.
    + intros wr Hwr. cbn [set_sh_world sh_writes]. rewrite Hwr. f_equal. symmetry. by eapply unfinished_outside.
    + rewrite Hev. cbn [app thread_events cf_pc]. destruct fn'; cbn [thread_events cf_pc cf_end].
      * split; [done|]. by exists r, f_stdout.
      * exists r, f_stdout. split; [done|]. unfold frame_lines. cbn. by destruct (slow_log_fp s).
  - destruct Hok as (Hst & Hran & [fn' Hfn]), Hev as (Hend & r & fp' & Hr & Hev). cbn in Hfn, Hend, Hst. subst fn finish ret.
    assert (slow_log_fp (sh_server (pr_shared p)) = fp) as Hfp by (by rewrite Hs). rewrite Hfp in Hstep.
    assert (call_logged (sh_server (pr_shared p)) fn' = call_logged s fn') as El by (by rewrite Hs).
    rewrite El in Hstep.
    assert (forall f'' , cf_svc f'' = svc -> cf_call f'' = call -> cf_ret f'' = Some r ->
      match cf_pc f'' with C_lock => True | C_return => frame_lines s f'' = [] | _ => False end ->
      sh' = pr_shared p -> ev = [] ->
      history_ok s w0 wr0 (mkProcess (<[t:=ThCall f'']> (pr_threads p)) sh') (evs ++ ev)) as Hgo.
    { intros f'' <- <- Hr' Hpc' -> ->. eapply history_quiet; try done; [by eapply unfinished_outside|].
      cbn [thread_events]. destruct (cf_pc f''); try done; rewrite ?Hpc', Hev; by exists r, fp'. }
    destruct fp as [fp|]; cycle 1.
    { injection Hstep as <- <- <-. apply Hgo; try done. unfold frame_lines. cbn.
      destruct (slow_log_fp s) eqn:Hl; [|done]. by destruct (proj2 Hsome ltac:(by eexists)). }
    destruct (call_logged s fn') eqn:Hlog; cycle 1.
    { injection Hstep as <- <- <-. apply Hgo; try done. unfold frame_lines.
      cbn [set_pc cf_fname cf_start cf_end]. by repeat case_match. }
    destruct start as [start|]; [|done].
    assert (call_line (sh_server (pr_shared p)) svc call start (in_now inp) =
            call_line s svc call start (in_now inp)) as El2 by (by rewrite Hs). rewrite El2 in Hstep.
    injection Hstep as <- <- <-. apply Hgo; try done. cbn [cf_pc].
    destruct (call_line s svc call start (in_now inp)) as [l|] eqn:Hl; [done|].
    unfold frame_lines. cbn [cf_fname cf_start cf_end cf_svc cf_call]. rewrite Hlog, Hl.
    by destruct (slow_log_fp s).
  - unfold mutex_lock in Hstep. destruct (sh_lock (pr_shared p)) as [u|] eqn:Hl; [done|].
    injection Hstep as <- <- <-. eapply history_quiet; try done.
    unfold unfinished. cbn. rewrite Hl, lookup_insert_eq. done.
Qed.

(** A call inside. *)
Lemma call_history_inside inp s w0 wr0 p evs t f f' sh' ev :
  process_ok s p -> history_ok s w0 wr0 p evs -> pr_threads p !! t = Some (ThCall f) ->
  in_section (ThCall f) = true ->
  call_step inp t f (pr_shared p) = Ok (Some (f', sh', ev)) ->
  process_ok s (mkProcess (<[t:=ThCall f']> (pr_threads p)) sh') ->
  history_ok s w0 wr0 (mkProcess (<[t:=ThCall f']> (pr_threads p)) sh') (evs ++ ev).
Proof.
  intros Hp Hh Hth Hin Hstep Hp'. destruct (po_server s p Hp) as (fp0 & Hs & Hsome).
  pose proof (ho_threads _ _ _ _ _ Hh t _ Hth) as Hev. pose proof (po_threads s p Hp t _ Hth) as Hok.
  pose proof (unfinished_inside s p t _ Hp Hth Hin) as Hu.
  assert (is_Some (slow_log_fp s)) as Hlog.
  { unfold thread_ok, frame_ok in Hok. cbn [in_section] in Hin. by destruct (cf_pc f); try done; destruct Hok. }
  destruct (log_stream_ok s p Hp Hlog) as (fp & Hfp & Hstream).
  assert (log_to_stdout (sh_server (pr_shared p)) = log_to_stdout s) as Hstd by (by rewrite Hs).
  assert (forall x, <[t:=x]> (pr_threads p) !! t = Some x) as Hmine by (intros; apply lookup_insert_eq).
  destruct f as [pc svc call start finish fn ret]. unfold call_step in Hstep.
  unfold thread_ok, frame_ok in Hok. cbn [in_section cf_pc] in *. destruct pc; try done.
  - (* the tag *)
    destruct (log_to_stdout (sh_server (pr_shared p))) eqn:Htag.
    + unfold sys_fprintf in Hstep. rewrite Hstream in Hstep. cbn [obind fst snd] in Hstep.
      injection Hstep as <- <- <-. eapply history_turn; try done.
      * intros wr Hwr. rewrite (unfinished_inside s _ t _ Hp' (Hmine _) eq_refl). cbn [sh_writes].
        rewrite Hwr, Hu. cbn. by rewrite Hfp, Htag, app_nil_r.
      * by rewrite app_nil_r.
    + injection Hstep as <- <- <-. eapply history_quiet; try done.
      rewrite Hu, (unfinished_inside s _ t _ Hp' (Hmine _) eq_refl). cbn. by rewrite Hfp, Htag.
  - (* the entry *)
    destruct Hok as (_ & _ & start' & finish' & fn' & l & Es1 & Es2 & Es3 & Hlg & Hl).
    cbn [cf_start cf_end cf_fname cf_svc cf_call] in *. subst start finish fn.
    unfold frame_line in Hstep. cbn [cf_start cf_end cf_svc cf_call] in Hstep.
    assert (call_line (sh_server (pr_shared p)) svc call start' finish' = Some l) as Hl' by (by rewrite Hs).
    rewrite Hl' in Hstep. unfold sys_fprintf in Hstep. cbn [obind] in Hstep. rewrite Hstream in Hstep.
    cbn [obind fst snd] in Hstep. injection Hstep as <- <- <-.
    assert (ll_tag l = log_to_stdout s) as Htag.
    { unfold call_line in Hl. destruct (_ <? _); [done|]. by injection Hl as <-. }
    destruct Hev as (r & fp' & Hr & Hev). cbn in Hr. subst ret.
    eapply history_turn; try done.
    + by constructor.
    + intros wr Hwr. rewrite (unfinished_inside s _ t _ Hp' (Hmine _) eq_refl). cbn [sh_writes].
      rewrite Hwr, Hu. cbn [thread_tag cf_pc set_pc]. rewrite Hfp, Hstd, <- app_assoc. f_equal.
      unfold lines_written. cbn [mbind list_bind]. rewrite !app_nil_r. unfold line_writes. rewrite Htag.
      by destruct (log_to_stdout s).
    + rewrite Hev. cbn. exists r, fp. split; [done|]. unfold frame_lines.
      cbn [set_pc cf_fname cf_start cf_end cf_svc cf_call]. rewrite Hlg, Hl. by destruct Hlog as [? ->].
  - rewrite Hstream in Hstep. cbn [obind] in Hstep. injection Hstep as <- <- <-.
    eapply history_quiet; try done. by rewrite Hu, (unfinished_inside s _ t _ Hp' (Hmine _) eq_refl).
  - unfold mutex_unlock in Hstep. destruct (decide _); [|done]. cbn [obind] in Hstep. injection Hstep as <- <- <-.
    by eapply history_quiet.
Qed.

Lemma reopen_history inp s w0 wr0 p evs t pc pc' sh' :
  process_ok s p -> history_ok s w0 wr0 p evs -> pr_threads p !! t = Some (ThReopen pc) ->
  reopen_step inp t pc (pr_shared p) = Ok (Some (pc', sh')) ->
  process_ok s (mkProcess (<[t:=ThReopen pc']> (pr_threads p)) sh') ->
  history_ok s w0 wr0 (mkProcess (<[t:=ThReopen pc']> (pr_threads p)) sh') (evs ++ []).
Proof.
  intros Hp Hh Hth Hstep Hp'. pose proof (ho_threads _ _ _ _ _ Hh t _ Hth) as Hev.
  assert (sh_world sh' = sh_world (pr_shared p) /\ sh_writes sh' = sh_writes (pr_shared p)) as [Ew Ewr].
  { unfold reopen_step, mutex_lock, mutex_unlock, sys_fclose in Hstep.
    repeat (case_match || simplify_eq/=); try done. }
  eapply history_quiet; try done.
  destruct (in_section (ThReopen pc)) eqn:Hin; destruct (in_section (ThReopen pc')) eqn:Hin'.
  - by rewrite (unfinished_inside s p t _ Hp Hth Hin), (unfinished_inside s _ t _ Hp' (lookup_insert_eq _ _ _) Hin').
  - rewrite (unfinished_inside s p t _ Hp Hth Hin). apply unfinished_left.
    unfold reopen_step, mutex_unlock in Hstep. destruct pc; try done; cbn in Hstep; [by injection Hstep as <- <-|].
    destruct (decide _); [|done]. by injection Hstep as <- <-.
  - rewrite (unfinished_inside s _ t (ThReopen pc') Hp' (lookup_insert_eq _ _ _) Hin').
    unfold reopen_step, mutex_lock in Hstep. unfold unfinished.
    destruct pc; try done; cbn in Hstep; [by repeat (case_match || simplify_eq/=)| |].
    + destruct (sh_lock (pr_shared p)) eqn:Hl; [done|]. done.
    + destruct (sys_fclose oldfp (pr_shared p)); [|done..]. cbn in Hstep. by simplify_eq.
  - eapply unfinished_outside; try done; unfold reopen_step, mutex_lock, mutex_unlock, sys_fclose in Hstep;
      by repeat (case_match || simplify_eq/=).
Qed.

Lemma process_step_history inp s w0 wr0 p evs t p' ev :
  process_ok s p -> history_ok s w0 wr0 p evs -> process_step inp t p = Ok (p', ev) ->
  process_ok s p' /\ history_ok s w0 wr0 p' (evs ++ ev).
Proof.
  intros Hp Hh Hstep. pose proof (process_step_ok inp s p t Hp) as Hp'. rewrite Hstep in Hp'.
  split; [done|]. unfold process_step in Hstep.
  destruct (pr_threads p !! t) as [[f|pc]|] eqn:Hth; [..|injection Hstep as <- <-; by rewrite app_nil_r];
    unfold thread_step in Hstep.
  - destruct (call_step inp t f (pr_shared p)) as [[[[f' sh'] ev']|]| |] eqn:Hc; cbn [obind] in Hstep; try done;
      injection Hstep as <- <-; [|by rewrite app_nil_r].
    destruct (in_section (ThCall f)) eqn:Hin.
    + by apply (call_history_inside inp s w0 wr0 p evs t f f' sh' ev').
    + apply (call_history_outside inp s w0 wr0 p evs t f f' sh' ev'); try done.
      unfold call_step in Hc. cbn [in_section] in Hin. by destruct (cf_pc f).
  - destruct (reopen_step inp t pc (pr_shared p)) as [[[pc' sh']|]| |] eqn:Hc; cbn [obind] in Hstep; try done;
      injection Hstep as <- <-; [|by rewrite app_nil_r].
    by apply (reopen_history inp s w0 wr0 p evs t pc pc' sh').
Qed.

Lemma run_process_history turns s w0 wr0 : forall p evs p' ev,
  process_ok s p -> history_ok s w0 wr0 p evs -> run_process turns p = Ok (p', ev) ->
  process_ok s p' /\ history_ok s w0 wr0 p' (evs ++ ev).
Proof.
  induction turns as [|[t inp] turns IH]; intros p evs p' ev Hp Hh Hrun; cbn [run_process] in Hrun.
  { injection Hrun as <- <-. by rewrite app_nil_r. }
  apply obind_Ok in Hrun as ([p1 ev1] & H1s & Hrun). apply obind_Ok in Hrun as ([p2 ev2] & H2s & [= <- <-]).
  destruct (process_step_history inp s w0 wr0 p evs t p1 ev1 Hp Hh H1s) as [Hp1 Hh1].
  cbn [fst snd] in *. rewrite app_assoc. by apply (IH p1).
Qed.

(** ** The start *)

(** Threads about to call the server or to reopen its log; the mutex is free and the log, if there
    is one, open. *)
Definition fresh_process s p : Prop :=
  sh_server (pr_shared p) = s /\ sh_lock (pr_shared p) = None /\
  (forall t th, pr_threads p !! t = Some th ->
     (exists svc call, th = start_call svc call) \/ (th = start_reopen /\ is_Some (slow_log_fp s))) /\
  (forall id, id ∈ sh_open (pr_shared p) <-> slow_log_fp s = Some (f_file id)) /\
  (forall id, slow_log_fp s = Some (f_file id) -> (id < sh_next (pr_shared p))%nat).

Lemma fresh_ok s p : fresh_process s p -> process_ok s p.
Proof.
  intros (Hs & Hl & Hth & Ho & Hn).
  assert (forall t th, pr_threads p !! t = Some th -> in_section th = false /\ held_stream th = None) as Hidle
    by (intros t th Ht; by destruct (Hth t th Ht) as [(svc & call & ->)|[-> _]]).
  constructor.
  - exists (slow_log_fp s). rewrite Hs. split; [by destruct s|done].
  - destruct (slow_log_fp s) as [fp|]; [left; by eexists|right]. intros t pc Ht.
    by destruct (Hth t _ Ht) as [(svc & call & ?)|[_ [? ?]]].
  - intros t. rewrite Hl. split; [done|]. intros (th & Ht & Hi). destruct (Hidle t th Ht). congruence.
  - intros fp Hfp. rewrite Hs in Hfp. split.
    + destruct fp as [|id]; [done|]. cbn. rewrite bool_decide_eq_true. by apply Ho.
    + intros t th id Ht Hx. destruct (Hidle t th Ht). congruence.
  - intros t th fp Ht Hx. destruct (Hidle t th Ht). congruence.
  - intros t th t' th' id Ht _ Hx. destruct (Hidle t th Ht). congruence.
  - intros id Hid. left. rewrite Hs. by apply Ho.
  - intros id Hid. by apply Hn, Ho.
  - intros t th Ht. by destruct (Hth t th Ht) as [(svc & call & ->)|[-> _]].
Qed.

Lemma fresh_history s p :
  fresh_process s p -> history_ok s (sh_world (pr_shared p)) (sh_writes (pr_shared p)) p [].
Proof.
  intros (Hs & Hl & Hth & _). constructor; [done| |].
  - unfold unfinished. by rewrite Hl, !app_nil_r.
  - intros t th Ht. by destruct (Hth t th Ht) as [(svc & call & ->)|[-> _]].
Qed.

(** ** Progress *)
Definition thread_rank (th : thread) : nat :=
  match th with
  | ThCall f =>
      match cf_pc f with
      | C_start => 8 | C_run => 7 | C_check => 6 | C_lock => 5 | C_tag => 4 | C_entry => 3
      | C_flush => 2 | C_unlock => 1 | C_return => 0
      end%nat
  | ThReopen pc =>
      match pc with
      | R_start => 5 | R_lock _ => 4 | R_swap _ => 3 | R_unlock _ => 2 | R_close _ => 1
      | R_return _ => 0
      end%nat
  end.

Definition total_rank (m : gmap tid thread) : nat := map_fold (fun _ th n => (thread_rank th + n)%nat) 0%nat m.

Lemma total_rank_delete m t th :
  m !! t = Some th -> total_rank m = (thread_rank th + total_rank (delete t m))%nat.
Proof. intros Ht. unfold total_rank. rewrite (map_fold_delete_L _ _ t th m); [done| |done]. intros. lia. Qed.

Lemma total_rank_insert m t th th' :
  m !! t = Some th -> (total_rank (<[t:=th']> m) + thread_rank th = total_rank m + thread_rank th')%nat.
Proof.
  intros Ht. rewrite (total_rank_delete m t th Ht), (total_rank_delete _ t th') by apply lookup_insert_eq.
  rewrite delete_insert_eq. lia.
Qed.

Lemma thread_step_rank inp t th (sh : shared W) th' sh' ev :
  thread_step inp t th sh = Ok (Some (th', sh', ev)) -> (thread_rank th' < thread_rank th)%nat.
Proof.
  unfold thread_step. destruct th as [f|pc].
  - destruct (call_step inp t f sh) as [[[[f' sh1] ev']|]| |] eqn:Hc; cbn [obind]; try done.
    intros [= <- <- <-]. unfold call_step in Hc. cbn [thread_rank].
    destruct (cf_pc f); unfold mutex_lock, mutex_unlock, frame_line in Hc;
      repeat (case_match || simplify_eq/= || (apply obind_Ok in Hc as (? & ? & Hc))); lia.
  - destruct (reopen_step inp t pc sh) as [[[pc' sh1]|]| |] eqn:Hc; cbn [obind]; try done.
    intros [= <- <- <-]. unfold reopen_step in Hc. cbn [thread_rank].
    destruct pc; unfold mutex_lock, mutex_unlock in Hc;
      repeat (case_match || simplify_eq/= || (apply obind_Ok in Hc as (? & ? & Hc))); lia.
Qed.

(** A turn lowers the rank, or lets things be. *)
Lemma process_step_rank inp t p p' ev :
  process_step inp t p = Ok (p', ev) ->
  (p' = p /\ ev = []) \/ (total_rank (pr_threads p') < total_rank (pr_threads p))%nat.
Proof.
  unfold process_step. destruct (pr_threads p !! t) as [th|] eqn:Ht; [|intros [= <- <-]; by left].
  intros Hs. apply obind_Ok in Hs as ([[[th' sh'] ev']|] & Hs & Hp); [|injection Hp as <- <-; by left].
  injection Hp as <- <-. right. cbn [pr_threads]. apply thread_step_rank in Hs.
  pose proof (total_rank_insert _ t th th' Ht). lia.
Qed.

(** A thread that waits, waits for the mutex. *)
Lemma waits_for_mutex inp t th (sh : shared W) :
  thread_step inp t th sh = Ok None -> returned th = true \/ (sh_lock sh <> None /\ in_section th = false).
Proof.
  unfold thread_step. destruct th as [f|pc].
  - destruct (call_step inp t f sh) as [[[[f' sh1] ev']|]| |] eqn:Hc; cbn [obind]; try done.
    intros _. unfold call_step in Hc. cbn [returned in_section].
    destruct (cf_pc f); unfold mutex_lock, mutex_unlock, frame_line in Hc; try (by left);
      repeat (case_match || simplify_eq/= || (apply obind_Ok in Hc as (? & ? & Hc))); by right.
  - destruct (reopen_step inp t pc sh) as [[[pc' sh1]|]| |] eqn:Hc; cbn [obind]; try done.
    intros _. unfold reopen_step in Hc. cbn [returned in_section].
    destruct pc; unfold mutex_lock, mutex_unlock in Hc; try (by left);
      repeat (case_match || simplify_eq/= || (apply obind_Ok in Hc as (? & ? & Hc))); by right.
Qed.
End History.

(** ** Properties *)
Section SlowLogProperties.
Context `{Jansson} `{GObjectClasses} {W : Type}.
Implicit Types (s : server W) (p : process W).


(** C11: the streams of the slow log: from every state the threads can reach, a further step can only
    go wrong inside the dispatcher (a call it does not survive alone either), so nothing is ever
    written to a closed stream or to none, no stream is closed twice and the mutex is released only
    by its owner; two threads are never inside together; the log is open; and once all threads have
    returned no other stream is. *)
Theorem slow_log_streams_safe s p turns p' evs :
  fresh_process s p -> run_process turns p = Ok (p', evs) ->
  (forall t inp, match process_step inp t p' with
     | Ok _ => True
     | _ => exists f, pr_threads p' !! t = Some (ThCall f) /\ cf_pc f = C_run /\
              forall x, call_phase s (cf_svc f) (cf_call f) (sh_world (pr_shared p')) <> Ok x
     end) /\
  (forall t t' th th', pr_threads p' !! t = Some th -> pr_threads p' !! t' = Some th' ->
     in_section th = true -> in_section th' = true -> t = t') /\
  (forall fp, slow_log_fp (sh_server (pr_shared p')) = Some fp -> is_open fp (pr_shared p') = true) /\
  (map_Forall (fun _ th => returned th = true) (pr_threads p') ->
   forall id, id ∈ sh_open (pr_shared p') -> slow_log_fp (sh_server (pr_shared p')) = Some (f_file id)).
Proof.
  intros Hfresh Hrun.
  destruct (run_process_history turns s _ _ p [] p' evs (fresh_ok s p Hfresh) (fresh_history s p Hfresh) Hrun)
    as [Hp _]. split; [|split; [|split]].
  - intros t inp. pose proof (process_step_ok inp s p' t Hp) as Hs.
    by destruct (process_step inp t p') as [[]| |].
  - intros t t' th th' Ht Ht' Hin Hin'.
    assert (sh_lock (pr_shared p') = Some t) as Hl by (apply (po_lock s p' Hp); eauto).
    assert (sh_lock (pr_shared p') = Some t') as Hl' by (apply (po_lock s p' Hp); eauto). congruence.
  - intros fp Hfp. by apply (po_fp s p' Hp).
  - intros Hall id Hid. destruct (po_all s p' Hp id Hid) as [?|(t & th & Ht & Hx)]; [done|].
    specialize (Hall t th Ht). cbv beta in Hall. destruct th as [f|[]]; try done; by destruct (cf_pc f).
Qed.

(** C15: no deadlock: a turn lets the process be or lowers its rank (8 for a call, 5 for a reopening at
    the start), and as long as some thread has not returned there is one whose turn lowers the
    rank, whatever the system calls answer, unless its dispatcher fails; so the mutex is always
    given back and all threads return. *)
Theorem slow_log_no_deadlock s p turns p' evs :
  fresh_process s p -> run_process turns p = Ok (p', evs) ->
  (forall t inp p'' ev, process_step inp t p' = Ok (p'', ev) ->
     (p'' = p' /\ ev = []) \/ (total_rank (pr_threads p'') < total_rank (pr_threads p'))%nat) /\
  (~ map_Forall (fun _ th => returned th = true) (pr_threads p') ->
   exists t, forall inp, match process_step inp t p' with
     | Ok (p'', _) => (total_rank (pr_threads p'') < total_rank (pr_threads p'))%nat
     | _ => exists f, pr_threads p' !! t = Some (ThCall f) /\ cf_pc f = C_run
     end).
Proof.
  intros Hfresh Hrun.
  destruct (run_process_history turns s _ _ p [] p' evs (fresh_ok s p Hfresh) (fresh_history s p Hfresh) Hrun)
    as [Hp _]. split; [intros; by eapply process_step_rank|]. intros Hno.
  assert (forall t th inp, pr_threads p' !! t = Some th -> returned th = false ->
    sh_lock (pr_shared p') = None \/ in_section th = true ->
    match process_step inp t p' with
    | Ok (p'', _) => (total_rank (pr_threads p'') < total_rank (pr_threads p'))%nat
    | _ => exists f, pr_threads p' !! t = Some (ThCall f) /\ cf_pc f = C_run
    end) as Hgo.
  { intros t th inp Ht Hr Hl. pose proof (process_step_ok inp s p' t Hp) as Hs.
    unfold process_step in *. rewrite Ht in *.
    destruct (thread_step inp t th (pr_shared p')) as [[[[th' sh'] ev]|]| |] eqn:Hstep; cbn [obind] in *;
      [|exfalso|naive_solver..].
    - apply thread_step_rank in Hstep. cbn [pr_threads]. pose proof (total_rank_insert _ t th th' Ht). lia.
    - apply waits_for_mutex in Hstep. destruct Hl as [Hl|Hl]; destruct Hstep as [?|[? ?]]; congruence. }
  destruct (sh_lock (pr_shared p')) as [u|] eqn:Hl.
  - apply (po_lock s p' Hp) in Hl as (th & Ht & Hin). exists u. intros inp. apply (Hgo u th inp Ht); [|by right].
    unfold in_section, returned in *. repeat case_match; congruence.
  - apply map_not_Forall in Hno as (t & th & Ht & Hr); [|apply _]. exists t. intros inp.
    apply (Hgo t th inp Ht); [by destruct (returned th)|by left].
Qed.

(** [slow_log_fp] is read without the mutex: a call may be about to read it while a thread that
    reopens the log, inside, is about to write it. *)
Theorem slow_log_fp_race s p svc call inp :
  fresh_process s p -> log_to_stdout s = false -> in_fopen inp = true ->
  pr_threads p = {[ 0%nat := start_call svc call; 1%nat := start_reopen ]} ->
  exists p' fp, run_process [(1%nat, inp); (1%nat, inp)] p = Ok (p', []) /\
    pr_threads p' !! 0%nat = Some (start_call svc call) /\
    pr_threads p' !! 1%nat = Some (ThReopen (R_swap fp)) /\ sh_lock (pr_shared p') = Some 1%nat.
Proof.
  intros (Hs & Hl & _) Hstd Hopen Hth. destruct p as [m sh]. cbn [pr_threads pr_shared] in *. subst m.
  cbn [run_process]. unfold process_step at 1. cbn [pr_threads pr_shared]. rewrite lookup_insert_ne, lookup_singleton_eq by done.
  cbn [thread_step start_reopen reopen_step]. rewrite Hs, Hstd, Hopen. cbn [obind fst snd].
  unfold process_step. cbn [pr_threads pr_shared]. rewrite lookup_insert_eq.
  cbn [thread_step reopen_step mutex_lock sys_fopen snd sh_lock]. rewrite Hl. cbn [obind fst snd].
  eexists _, _. split; [reflexivity|]. by repeat split.
Qed.
End SlowLogProperties.
