(* ===== verification/EpollServer.v ===== *)
(** * EpollServer: the server with epoll, as a whole

    The event loop of Listener put together with what its workers do in [epoll_handler]: endpoints
    for the connections, the parts of a worker's run, and the state of the server that all calls
    work on.  Forgetting the endpoints gives a run of Listener. *)
From S2P Require Import Prelude Json Runtime Utils GObject Client Pipe PipeSafety PipeServer Listener Concurrent.

(** ** The handler in parts *)
Section Phases.
Context `{Jansson} {X : Type} `{Sockets X} (fuel : nat).

(** Up to [request_from_json]. *)
Definition epoll_receive (connfd : Z) : run X (option (string * string)) :=
  r1 <- pipe_read_n fuel connfd 4 ;;
  if r1.1 <? 0 then rret None else
  let len := read_over 0 r1.2 in
  if len <=? 0 then rret None else
  let buf := g_malloc0 (Z.to_nat len) in
  r2 <- pipe_read_n fuel connfd (Z.to_nat len) ;;
  let n := to_int r2.1 in
  if n <? 0 then rret None else
  rlift (request_from_json (cbuf_write buf r2.2) (Z.to_nat len)).

(** The response, and the socket added to the interest list again. *)
Definition epoll_reply (epoll_fd connfd : Z) (ret_str : string) : run X Z :=
  ok <- @send_response _ (posix_io fuel) connfd ret_str ;;
  if ok : bool then
    a <- sys_epoll_add epoll_fd connfd ;;
    rret (if a =? -1 then -1 else 0)
  else rret (-1).

Lemma epoll_request_phases call epoll_fd connfd x :
  epoll_request fuel call epoll_fd connfd x =
  (req <- epoll_receive connfd ;;
   match req with
   | None => rret (-1)
   | Some (service, body) =>
       ret_str <- call service body ;;
       epoll_reply epoll_fd connfd ret_str
   end) x.
Proof.
  unfold epoll_request, epoll_receive, epoll_reply, send_response, rbind, rret, rlift. cbn [io_write_n posix_io].
  destruct (pipe_read_n fuel connfd 4 x) as [[r1 x1]| |]; cbn [obind fst snd]; try done.
  destruct (r1.1 <? 0); [done|]. destruct (_ <=? 0); [done|].
  destruct (pipe_read_n fuel connfd _ x1) as [[r2 x2]| |]; cbn [obind fst snd]; try done.
  destruct (to_int r2.1 <? 0); [done|].
  destruct (request_from_json _ _) as [[[svc body]|]| |]; cbn [obind fst snd]; try done.
  destruct (call svc body x2) as [[resp x3]| |]; cbn [obind fst snd]; try done.
  destruct (pipe_write_n fuel connfd _ x3) as [[w1 x4]| |]; cbn [obind fst snd]; try done.
  destruct (w1 <? 0); [done|].
  destruct (pipe_write_n fuel connfd resp x4) as [[w2 x5]| |]; cbn [obind fst snd]; try done.
  by destruct (w2 <? 0).
Qed.

(** ** The entry points of the workers *)

(** A thread of its own for the connection or for the request. *)
Definition handle_named_pipe_client_with_thread (call : string -> string -> run X string) (rounds : nat)
  (epoll_fd : Z) (handler_data : ServerHandlerData) : run X unit :=
  if use_epoll handler_data then
    _ <- epoll_handler fuel call epoll_fd (connfd handler_data) ;; rret tt
  else named_pipe_client_handler fuel call rounds (connfd handler_data).

(** A thread of the pool. *)
Definition handle_named_pipe_client_with_threadpool (call : string -> string -> run X string) (rounds : nat)
  (epoll_fd : Z) (data : ServerHandlerData) : run X unit :=
  if use_epoll data then
    _ <- epoll_handler fuel call epoll_fd (connfd data) ;; rret tt
  else named_pipe_client_handler fuel call rounds (connfd data).
End Phases.

(** ** Connections *)

(** Where the worker of a connection is; [sent]: whether the response was written. *)
Inductive worker_pc :=
| W_receive
| W_call (service body : string)
| W_send (ret_str : string)
| W_end (sent : bool).

(** A live connection: its socket, and whether the client has shut its side down.  For the theorems:
    the socket as it was accepted, the messages the client has sent, and the calls made for it. *)
Record epoll_conn := mkEpollConn {
  ec_end : endpoint; ec_hup : bool;
  ec_start : endpoint; ec_sent : list string; ec_calls : list call_event
}.

Section System.
Context `{Jansson} {T : Type} (fuel n : nat) (call : string -> string -> run T string).
Local Abbreviation sockets := (ep_sockets (T := T) no_peer).

(** The event loop, the workers and the connections by the address of their handler data, and the
    state of the server; [es_calls] are the calls of all connections. *)
Record epoll_system := mkEpollSystem {
  es_loop : loop_state; es_workers : gmap addr worker_pc; es_conns : gmap addr epoll_conn;
  es_state : T; es_calls : list call_event
}.

Definition epoll_start (t : T) : epoll_system := mkEpollSystem loop_start ∅ ∅ t [].

Definition set_worker (data : addr) (pc : worker_pc) (cx : epoll_conn) (s : epoll_system) : epoll_system :=
  mkEpollSystem (es_loop s) (<[data:=pc]> (es_workers s)) (<[data:=cx]> (es_conns s)) (es_state s) (es_calls s).

Definition set_end (ep : endpoint) (cx : epoll_conn) : epoll_conn :=
  mkEpollConn ep (ec_hup cx) (ec_start cx) (ec_sent cx) (ec_calls cx).

(** A socket that was just accepted: its schedules are arbitrary. *)
Definition accepted_end (ep : endpoint) : Prop :=
  inbox ep = "" /\ outbox ep = "" /\ closed ep = false /\ rounds_for fuel n ep.

(** What [epoll_wait] may report of a watched connection: it is readable, or was shut down. *)
Definition reportable (s : epoll_system) (e : addr * bool) : Prop :=
  (exists fd, interest (es_loop s) !! fd = Some e.1) /\
  exists cx, es_conns s !! e.1 = Some cx /\ (inbox (ec_end cx) <> "" \/ ec_hup cx = true) /\ e.2 = ec_hup cx.

(** After the listener has handled an event: the connection is gone, or has a worker. *)
Definition event_system (data : addr) (hup : bool) (l : loop_state) (s : epoll_system) : epoll_system :=
  if hup then mkEpollSystem l (es_workers s) (delete data (es_conns s)) (es_state s) (es_calls s)
  else mkEpollSystem l (<[data:=W_receive]> (es_workers s)) (es_conns s) (es_state s) (es_calls s).

(** After a worker has finished. *)
Definition end_system (data : addr) (ret : Z) (l : loop_state) (s : epoll_system) : epoll_system :=
  mkEpollSystem l (delete data (es_workers s))
    (if ret <? 0 then delete data (es_conns s) else es_conns s) (es_state s) (es_calls s).

Inductive epoll_step : epoll_system -> outcome epoll_system -> Prop :=
(** the listener *)
| es_wait s events :
    batch (es_loop s) = [] -> NoDup events.*1 -> Forall (reportable s) events ->
    epoll_step s (Ok (mkEpollSystem (set_batch events (es_loop s)) (es_workers s) (es_conns s) (es_state s) (es_calls s)))
| es_accept s fd data added ep :
    0 <= fd -> fd ∉ open_fds (es_loop s) -> heap (es_loop s) !! data = None -> accepted_end ep ->
    epoll_step s (Ok (mkEpollSystem (accept_connection fd data added (es_loop s)) (es_workers s)
      (if added then <[data := mkEpollConn ep false ep [] []]> (es_conns s) else es_conns s)
      (es_state s) (es_calls s)))
| es_event s data hup rest :
    batch (es_loop s) = (data, hup) :: rest ->
    epoll_step s (l <~ handle_event data hup (set_batch rest (es_loop s)) ;; Ok (event_system data hup l s))
(** the workers *)
| es_receive s data cx d :
    es_workers s !! data = Some W_receive -> es_conns s !! data = Some cx -> heap (es_loop s) !! data = Some d ->
    epoll_step s (r <~ @epoll_receive _ _ sockets fuel (connfd d) (ec_end cx, es_state s) ;;
      Ok (set_worker data (match r.1 with Some (svc, body) => W_call svc body | None => W_end false end)
            (set_end r.2.1 cx) s))
| es_call s data svc body cx :
    es_workers s !! data = Some (W_call svc body) -> es_conns s !! data = Some cx ->
    epoll_step s (x <~ call svc body (es_state s) ;;
      let cx' := mkEpollConn (ec_end cx) (ec_hup cx) (ec_start cx) (ec_sent cx)
                   (ec_calls cx ++ [((svc, body), x.1)]) in
      Ok (mkEpollSystem (es_loop s) (<[data:=W_send x.1]> (es_workers s)) (<[data:=cx']> (es_conns s))
            x.2 (es_calls s ++ [((svc, body), x.1)])))
| es_send s data ret_str cx d :
    es_workers s !! data = Some (W_send ret_str) -> es_conns s !! data = Some cx -> heap (es_loop s) !! data = Some d ->
    epoll_step s (r <~ @send_response _ (@posix_io _ sockets fuel) (connfd d) ret_str (ec_end cx, es_state s) ;;
      Ok (set_worker data (W_end r.1) (set_end r.2.1 cx) s))
| es_end s data sent added ret :
    es_workers s !! data = Some (W_end sent) -> ret = (if sent && added then 0 else -1) ->
    epoll_step s (l <~ worker_done data ret (es_loop s) ;; Ok (end_system data ret l s))
(** the clients: they send messages of at most [n] bytes, whatever is in them, and shut down *)
| es_client_sends s data cx msg :
    es_conns s !! data = Some cx -> ec_hup cx = false -> (String.length msg <= n)%nat ->
    epoll_step s (Ok (mkEpollSystem (es_loop s) (es_workers s)
      (<[data := mkEpollConn (with_inbox (ec_end cx) (inbox (ec_end cx) +:+ frame msg)) (ec_hup cx)
                   (ec_start cx) (ec_sent cx ++ [msg]) (ec_calls cx)]> (es_conns s)) (es_state s) (es_calls s)))
| es_client_closes s data cx :
    es_conns s !! data = Some cx ->
    epoll_step s (Ok (mkEpollSystem (es_loop s) (es_workers s)
      (<[data := mkEpollConn (ec_end cx) true (ec_start cx) (ec_sent cx) (ec_calls cx)]> (es_conns s))
      (es_state s) (es_calls s))).

Inductive epoll_reachable (t0 : T) : epoll_system -> Prop :=
| er_start : epoll_reachable t0 (epoll_start t0)
| er_step s s' : epoll_reachable t0 s -> epoll_step s (Ok s') -> epoll_reachable t0 s'.
End System.
Arguments epoll_system T : clear implicits.
