(* ===== verification/EpollServerSafety.v ===== *)
(** * EpollServerSafety: the server with epoll answers its clients

    The invariant of EpollServer: its event loop is a run of Listener, and every connection whose
    socket does not fail is at a definite point of its stream of messages. *)
From S2P Require Import Prelude Json Runtime Utils GObject Client Pipe PipeSafety PipeServer Listener ListenerSafety Concurrent ConcurrentSafety EpollServer.

(** ** Messages *)
Section Messages.
Context `{JanssonLaws} {T : Type} (fuel : nat).

(** The request a message holds. *)
Definition parses (msg : string) (req : string * string) : Prop :=
  request_from_json (mkCbuf msg (String.length msg)) (String.length msg) = Ok (Some req).

Lemma request_from_bytes b msg :
  cbuf_read b (String.length msg) = Ok msg ->
  request_from_json b (String.length msg) =
    request_from_json (mkCbuf msg (String.length msg)) (String.length msg) /\
  exists req, request_from_json b (String.length msg) = Ok req.
Proof.
  intros Hb. unfold request_from_json. rewrite Hb, cbuf_read_exact. split; [done|]. cbn [obind].
  by repeat case_match; eexists.
Qed.

Lemma read_over_0 : read_over 0 (le32 0) = 0.
Proof. done. Qed.

(** A worker on a whole message, whatever is in it. *)
Lemma epoll_receive_spec n fd msg rest ep (t : T) :
  (String.length msg <= n)%nat -> Z.of_nat n < max_message ->
  inbox ep = frame msg +:+ rest -> smooth_ep ep -> rounds_for fuel n ep ->
  exists req r', @epoll_receive _ _ (ep_sockets no_peer) fuel fd (ep, t) = Ok (req, (set_read ep rest r', t)) /\
    (forall x, req = Some x -> parses msg x) /\ smooth r' = true /\ (length r' <= length (read_events ep))%nat.
Proof.
  intros Hlen Hn Hin Hsm Hf.
  assert (rounds_for fuel (String.length msg) ep) as Hfm by (unfold rounds_for in *; lia).
  destruct (read_frame fuel fd msg rest ep t Hin Hsm Hfm) as (r1 & r2 & Hr1 & Hr2 & Hs2 & Hl2).
  assert (is_uint32 (Z.of_nat (String.length msg)) = true) as Hu
    by (unfold in_unsigned, max_message in *; lia).
  destruct (decide (msg = "")) as [->|Hne].
  - destruct (pipe_read_smooth (T := T) no_peer fuel fd (le32 0) rest ep t) as (r3 & Hr3 & Hs3 & Hl3);
      [done|apply Hsm|unfold rounds_for in *; rewrite le32_length; lia|].
    exists None, r3. split; [|done]. unfold epoll_receive. rewrite (rbind_step _ _ _ _ _ Hr3). done.
  - assert (0 < String.length msg)%nat as Hpos by (destruct msg; [done|simpl; lia]).
    destruct (request_from_bytes (cbuf_write (g_malloc0 (String.length msg)) msg) msg) as [Heq [req Hreq]];
      [by apply cbuf_read_written|].
    exists req, r2. split; [|split; [|done]].
    + unfold epoll_receive. rewrite (rbind_step _ _ _ _ _ Hr1). cbn [fst snd]. change (4 <? 0) with false.
      cbv iota. rewrite read_over_full by done. destruct (Z.leb_spec (Z.of_nat (String.length msg)) 0); [lia|].
      rewrite Nat2Z.id, (rbind_step _ _ _ _ _ Hr2). cbn [fst snd].
      rewrite wrap_signed_id by (unfold in_signed, max_message in *; lia).
      destruct (Z.ltb_spec (Z.of_nat (String.length msg)) 0); [lia|]. unfold rlift. by rewrite Hreq.
    + intros x ->. unfold parses. by rewrite <- Heq.
Qed.
End Messages.

(** ** The invariant *)
Section Invariant.
Context `{JanssonLaws} {T : Type} (fuel n : nat) (call : string -> string -> run T string) (Inv : T -> Prop) (t0 : T).
Context (n_ok : Z.of_nat n < max_message).
Context (call_keeps : forall svc body t resp t', Inv t -> call svc body t = Ok (resp, t') ->
  Inv t' /\ (String.length resp <= n)%nat).

Definition call_of_msg (msg : string) (e : call_event) : Prop := parses msg e.1.

(** A connection whose socket does not fail, with a worker at [pc] or without one. *)
Definition conn_at (pc : option worker_pc) (cx : epoll_conn) (taken : list string) : Prop :=
  match pc with
  | Some (W_call svc body) =>
      (exists taken' msg, taken = taken' ++ [msg] /\ parses msg (svc, body) /\
         Forall2 call_of_msg taken' (ec_calls cx)) /\
      outbox (ec_end cx) = stream_of (responses (ec_calls cx))
  | Some (W_send ret_str) =>
      Forall2 call_of_msg taken (ec_calls cx) /\ (String.length ret_str <= n)%nat /\
      exists calls req, ec_calls cx = calls ++ [(req, ret_str)] /\
        outbox (ec_end cx) = stream_of (responses calls)
  | Some (W_end false) => True
  | _ => Forall2 call_of_msg taken (ec_calls cx) /\ outbox (ec_end cx) = stream_of (responses (ec_calls cx))
  end.

Definition conn_inv (pc : option worker_pc) (cx : epoll_conn) : Prop :=
  smooth_ep (ec_start cx) ->
  smooth_ep (ec_end cx) /\ rounds_for fuel n (ec_end cx) /\
  Forall (fun msg => (String.length msg <= n)%nat) (ec_sent cx) /\
  exists taken left, ec_sent cx = taken ++ left /\ inbox (ec_end cx) = stream_of left /\ conn_at pc cx taken.

Record system_ok (s : epoll_system T) : Prop := {
  so_loop : loop_reachable (es_loop s);
  so_workers data : data ∈ busy (es_loop s) <-> is_Some (es_workers s !! data);
  so_conns data : is_Some (heap (es_loop s) !! data) <-> is_Some (es_conns s !! data);
  so_conn data cx : es_conns s !! data = Some cx -> conn_inv (es_workers s !! data) cx;
  (** a connection that was reported as readable still is *)
  so_readable data cx : es_conns s !! data = Some cx ->
    (data, false) ∈ batch (es_loop s) \/ es_workers s !! data = Some W_receive -> inbox (ec_end cx) <> "";
  so_calls : serve_stream call (requests (es_calls s)) t0 = Ok (responses (es_calls s), es_state s);
  so_state : Inv (es_state s)
}.

Lemma start_system_ok : Inv t0 -> system_ok (epoll_start t0).
Proof.
  intros Ht. constructor; try done.
  - constructor.
  - intros data. cbn. rewrite lookup_empty. split; [set_solver|by intros [? ?]].
  - intros data. cbn. rewrite !lookup_empty. done.
Qed.

(** The event loop goes on alone. *)
Lemma loop_only s l b :
  system_ok s -> loop_reachable l -> heap l = heap (es_loop s) -> busy l = busy (es_loop s) -> batch l = b ->
  (forall data cx, es_conns s !! data = Some cx -> (data, false) ∈ b -> inbox (ec_end cx) <> "") ->
  system_ok (mkEpollSystem l (es_workers s) (es_conns s) (es_state s) (es_calls s)).
Proof.
  intros Hs Hl Eh Eb <- Hr. constructor; cbn [es_loop es_workers es_conns es_state es_calls]; try apply Hs; [done|..].
  - intros data. rewrite Eb. apply Hs.
  - intros data. rewrite Eh. apply Hs.
  - intros data cx Hcx [Hin|Hw]; [by eapply Hr|]. by eapply (so_readable s Hs); [|right].
Qed.

(** One connection and its worker move on; the loop and the others stay. *)
Lemma worker_moves s data cx pc cx' pc' t' calls :
  system_ok s -> es_conns s !! data = Some cx -> es_workers s !! data = Some pc ->
  conn_inv (Some pc') cx' -> pc' <> W_receive ->
  serve_stream call (requests calls) t0 = Ok (responses calls, t') -> Inv t' ->
  system_ok (mkEpollSystem (es_loop s) (<[data:=pc']> (es_workers s)) (<[data:=cx']> (es_conns s)) t' calls).
Proof.
  intros Hs Hcx Hpc Hinv Hne Hcalls Ht.
  pose proof (reachable_ok _ (so_loop s Hs)) as Hok.
  assert (data ∈ busy (es_loop s)) as Hbusy by (apply (so_workers s Hs); by eexists).
  constructor; cbn [es_loop es_workers es_conns es_state es_calls]; try done; [apply Hs|..].
  - intros u. rewrite (so_workers s Hs), !lookup_insert_is_Some'. naive_solver.
  - intros u. rewrite (so_conns s Hs), lookup_insert_is_Some'. naive_solver.
  - intros u cx1 Hu. apply lookup_insert_Some in Hu as [[<- <-]|[Hn Hu]]; [by rewrite lookup_insert_eq|].
    rewrite lookup_insert_ne by done. by apply (so_conn s Hs).
  - intros u cx1 Hu Hr. apply lookup_insert_Some in Hu as [[<- <-]|[Hn Hu]].
    + exfalso. rewrite lookup_insert_eq in Hr. destruct Hr as [Hin|[= ->]]; [|done].
      destruct (ok_batch _ Hok) as [_ Hb]. rewrite Forall_forall in Hb.
      apply Hb in Hin as [fd Hfd]. by apply (ok_interest _ Hok) in Hfd as [_ ?].
    + rewrite lookup_insert_ne in Hr by done. by eapply (so_readable s Hs).
Qed.

(** ** The workers *)
Lemma receive_ok s data cx d req x :
  system_ok s -> es_workers s !! data = Some W_receive -> es_conns s !! data = Some cx ->
  @epoll_receive _ _ (ep_sockets no_peer) fuel (connfd d) (ec_end cx, es_state s) = Ok (req, x) ->
  conn_inv (Some (match req with Some (svc, body) => W_call svc body | None => W_end false end)) (set_end x.1 cx).
Proof.
  intros Hs Hpc Hcx Hrun Hstart. cbn [set_end ec_start] in Hstart.
  pose proof (so_conn s Hs data cx Hcx) as Hinv. rewrite Hpc in Hinv.
  destruct (Hinv Hstart) as (Hsm & Hf & Hlen & taken & left & Hsent & Hin & Hcalls & Hout).
  assert (inbox (ec_end cx) <> "") as Hne by (eapply (so_readable s Hs); [done|by right]).
  destruct left as [|msg left]; [by rewrite Hin in Hne|].
  assert (String.length msg <= n)%nat as Hmsg.
  { rewrite Hsent in Hlen. apply Forall_app in Hlen as [_ Hlen]. by apply Forall_cons in Hlen as [? _]. }
  destruct (epoll_receive_spec fuel n (connfd d) msg (stream_of left) (ec_end cx) (es_state s) Hmsg n_ok Hin Hsm Hf)
    as (req' & r' & Hrun' & Hparse & Hsr & Hlr).
  rewrite Hrun in Hrun'. injection Hrun' as -> ->. cbn [fst set_end ec_end ec_sent ec_calls].
  split; [by split; [|apply Hsm]|]. split; [unfold rounds_for in *; simpl; lia|]. split; [done|].
  exists (taken ++ [msg]), left. split; [by rewrite Hsent, <- app_assoc|]. split; [done|].
  destruct req' as [[svc body]|]; [|done]. cbn [conn_at]. split; [|done].
  exists taken, msg. split; [done|]. split; [by apply Hparse|done].
Qed.

Lemma call_ok cx svc body resp :
  conn_inv (Some (W_call svc body)) cx -> (String.length resp <= n)%nat ->
  conn_inv (Some (W_send resp)) (mkEpollConn (ec_end cx) (ec_hup cx) (ec_start cx) (ec_sent cx)
    (ec_calls cx ++ [((svc, body), resp)])).
Proof.
  intros Hinv Hlen Hstart. cbn [ec_start ec_end ec_sent ec_calls] in *.
  destruct (Hinv Hstart) as (Hsm & Hf & Hall & taken & left & Hsent & Hin & (taken' & msg & -> & Hparse & Hcalls) & Hout).
  split; [done|]. split; [done|]. split; [done|]. exists (taken' ++ [msg]), left.
  split; [done|]. split; [done|]. cbn [conn_at ec_calls ec_end]. split; [|split; [done|]].
  - apply Forall2_app; [done|]. by repeat constructor.
  - by exists (ec_calls cx), (svc, body).
Qed.

Lemma send_ok cx resp d (t : T) sent x :
  conn_inv (Some (W_send resp)) cx ->
  @send_response _ (@posix_io _ (ep_sockets no_peer) fuel) (connfd d) resp (ec_end cx, t) = Ok (sent, x) ->
  conn_inv (Some (W_end sent)) (set_end x.1 cx).
Proof.
  intros Hinv Hrun Hstart. cbn [set_end ec_start] in Hstart.
  destruct (Hinv Hstart) as (Hsm & Hf & Hall & taken & left & Hsent & Hin & Hcalls & Hlen & calls & req & Hc & Hout).
  destruct (send_response_spec fuel (connfd d) resp (ec_end cx) t Hsm) as (w' & Hrun' & Hsw & Hlw);
    [unfold rounds_for in *; lia|unfold max_message in *; lia|].
  rewrite Hrun in Hrun'. injection Hrun' as -> ->. cbn [fst set_end ec_end ec_sent ec_calls].
  split; [by split; [apply Hsm|]|]. split; [unfold rounds_for in *; simpl; lia|]. split; [done|].
  exists taken, left. split; [done|]. split; [done|]. cbn [conn_at set_end ec_end ec_calls set_written outbox].
  split; [done|]. rewrite Hout, Hc. unfold responses. rewrite fmap_app, stream_of_app. cbn.
  by rewrite str_app_nil_r.
Qed.

(** A worker that finishes: its connection is watched again, or gone. *)
Lemma end_ok s data sent ret l :
  system_ok s -> es_workers s !! data = Some (W_end sent) -> (sent = false -> ret = -1) ->
  worker_done data ret (es_loop s) = Ok l -> system_ok (end_system data ret l s).
Proof.
  intros Hs Hpc Hret Hrun. pose proof (reachable_ok _ (so_loop s Hs)) as Hok.
  assert (data ∈ busy (es_loop s)) as Hbusy by (apply (so_workers s Hs); by eexists).
  assert (loop_reachable l) as Hl.
  { eapply loop_next; [apply (so_loop s Hs)|]. rewrite <- Hrun. by apply step_worker. }
  unfold worker_done in Hrun. destruct (ok_busy _ Hok data Hbusy) as (fd & Hfd & _). rewrite Hfd in Hrun.
  unfold end_system. destruct (ret <? 0) eqn:Hneg; injection Hrun as <-;
    (constructor; cbn [es_loop es_workers es_conns es_state es_calls busy heap batch]; try apply Hs; [done|..]).
  - intros u. rewrite lookup_delete_is_Some, elem_of_difference, elem_of_singleton, (so_workers s Hs). naive_solver.
  - intros u. rewrite !lookup_delete_is_Some, (so_conns s Hs). naive_solver.
  - intros u cx Hu. apply lookup_delete_Some in Hu as [Hne Hu]. rewrite lookup_delete_ne by done.
    by apply (so_conn s Hs).
  - intros u cx Hu Hr. apply lookup_delete_Some in Hu as [Hne Hu]. rewrite lookup_delete_ne in Hr by done.
    by eapply (so_readable s Hs).
  - intros u. rewrite lookup_delete_is_Some, elem_of_difference, elem_of_singleton, (so_workers s Hs). naive_solver.
  - intros u cx Hu. destruct (decide (data = u)) as [<-|Hne].
    + rewrite lookup_delete_eq. intros Hst. destruct (so_conn s Hs data cx Hu Hst) as (? & ? & ? & taken & left & ? & ? & Hat).
      split; [done|]. split; [done|]. split; [done|]. exists taken, left. split; [done|]. split; [done|].
      rewrite Hpc in Hat. destruct sent; [done|]. specialize (Hret eq_refl). subst ret. done.
    + rewrite lookup_delete_ne by done. by apply (so_conn s Hs).
  - intros u cx Hu Hr. eapply (so_readable s Hs); [done|]. destruct Hr as [?|Hr]; [by left|right].
    by apply lookup_delete_Some in Hr as [_ ?].
Qed.

(** ** The listener *)
Lemma wait_system_ok s events :
  system_ok s -> batch (es_loop s) = [] -> NoDup events.*1 -> Forall (reportable s) events ->
  system_ok (mkEpollSystem (set_batch events (es_loop s)) (es_workers s) (es_conns s) (es_state s) (es_calls s)).
Proof.
  intros Hs Hb Hnd Hev. eapply loop_only; try done.
  - eapply loop_next; [apply (so_loop s Hs)|]. apply step_wait; [done..|]. eapply Forall_impl; [exact Hev|].
    by intros e [? _].
  - intros data cx Hcx Hin. rewrite Forall_forall in Hev. destruct (Hev _ Hin) as [_ (cx' & Hcx' & Hr & Hh)].
    cbn [fst snd] in *. simplify_eq. destruct Hr as [?|Hr]; [done|congruence].
Qed.

Lemma accept_system_ok s fd data added ep :
  system_ok s -> 0 <= fd -> fd ∉ open_fds (es_loop s) -> heap (es_loop s) !! data = None -> accepted_end fuel n ep ->
  system_ok (mkEpollSystem (accept_connection fd data added (es_loop s)) (es_workers s)
    (if added then <[data := mkEpollConn ep false ep [] []]> (es_conns s) else es_conns s) (es_state s) (es_calls s)).
Proof.
  intros Hs Hfd0 Hfd Hdata (Hin & Hout & Hcl & Hf).
  assert (loop_reachable (accept_connection fd data added (es_loop s))) as Hl.
  { eapply loop_next; [apply (so_loop s Hs)|]. by apply step_accept. }
  pose proof (reachable_ok _ (so_loop s Hs)) as Hok.
  destruct added; cycle 1.
  { eapply loop_only; try done. intros u cx Hu Hr. eapply (so_readable s Hs); [done|by left]. }
  assert (es_workers s !! data = None) as Hw.
  { apply eq_None_not_Some. intros Hw. apply (so_workers s Hs) in Hw.
    apply (ok_busy _ Hok) in Hw as (fd' & Hh & _). congruence. }
  constructor; cbn [es_loop es_workers es_conns es_state es_calls accept_connection busy heap batch]; try apply Hs; [done|..].
  - intros u. rewrite !lookup_insert_is_Some', (so_conns s Hs). done.
  - intros u cx Hu. apply lookup_insert_Some in Hu as [[<- <-]|[Hne Hu]]; [|by apply (so_conn s Hs)].
    rewrite Hw. intros Hst. cbn [ec_start ec_end ec_sent ec_calls] in *. split; [done|]. split; [done|].
    split; [done|]. by exists [], [].
  - intros u cx Hu Hr. apply lookup_insert_Some in Hu as [[<- <-]|[Hne Hu]]; [|by eapply (so_readable s Hs)].
    exfalso. destruct Hr as [Hr|Hr]; [|congruence]. destruct (ok_batch _ Hok) as [_ Hb].
    rewrite Forall_forall in Hb. apply Hb in Hr as [fd' Hr]. apply (ok_interest _ Hok) in Hr as [? _].
    cbn in *. congruence.
Qed.

Lemma event_system_ok s data hup rest l :
  system_ok s -> batch (es_loop s) = (data, hup) :: rest ->
  handle_event data hup (set_batch rest (es_loop s)) = Ok l -> system_ok (event_system data hup l s).
Proof.
  intros Hs Hb Hrun. pose proof (reachable_ok _ (so_loop s Hs)) as Hok.
  assert (loop_reachable l) as Hl.
  { eapply loop_next; [apply (so_loop s Hs)|]. rewrite <- Hrun. by apply step_event. }
  destruct (ok_batch _ Hok) as [Hnd Hint]. rewrite Hb in Hnd, Hint. cbn [fmap list_fmap fst] in Hnd.
  apply NoDup_cons in Hnd as [Hnd _]. apply Forall_cons in Hint as [[fd Hint] _]. cbn [fst] in Hint.
  apply (ok_interest _ Hok) in Hint as [Hheap Hnb].
  assert (es_workers s !! data = None) as Hw
    by (apply eq_None_not_Some; intros Hw; by apply (so_workers s Hs) in Hw).
  unfold handle_event in Hrun. cbn [heap set_batch] in Hrun. rewrite Hheap in Hrun.
  destruct hup; injection Hrun as <-;
    (constructor; cbn [event_system es_loop es_workers es_conns es_state es_calls heap busy batch]; try apply Hs; [done|..]).
  - intros u. rewrite !lookup_delete_is_Some, (so_conns s Hs). done.
  - intros u cx Hu. apply lookup_delete_Some in Hu as [Hne Hu]. by apply (so_conn s Hs).
  - intros u cx Hu Hr. apply lookup_delete_Some in Hu as [Hne Hu]. eapply (so_readable s Hs); [done|].
    destruct Hr as [Hr|Hr]; [left; rewrite Hb; by right|by right].
  - intros u. rewrite lookup_insert_is_Some', elem_of_union, elem_of_singleton, (so_workers s Hs). naive_solver.
  - intros u cx Hu. destruct (decide (data = u)) as [<-|Hne]; [|rewrite lookup_insert_ne by done; by apply (so_conn s Hs)].
    rewrite lookup_insert_eq. pose proof (so_conn s Hs data cx Hu) as Hc. by rewrite Hw in Hc.
  - intros u cx Hu Hr. eapply (so_readable s Hs); [done|]. rewrite Hb. destruct Hr as [Hr|Hr]; [left; by right|].
    apply lookup_insert_Some in Hr as [[<- _]|[_ Hr]]; [left; by left|by right].
Qed.

(** ** The clients *)
Lemma client_system_ok s data cx cx' :
  system_ok s -> es_conns s !! data = Some cx ->
  conn_inv (es_workers s !! data) cx' ->
  (inbox (ec_end cx) <> "" -> inbox (ec_end cx') <> "") ->
  system_ok (mkEpollSystem (es_loop s) (es_workers s) (<[data:=cx']> (es_conns s)) (es_state s) (es_calls s)).
Proof.
  intros Hs Hcx Hinv Hin. constructor; cbn [es_loop es_workers es_conns es_state es_calls]; try apply Hs.
  - intros u. rewrite (so_conns s Hs), lookup_insert_is_Some'. naive_solver.
  - intros u cx1 Hu. apply lookup_insert_Some in Hu as [[<- <-]|[Hn Hu]]; [done|]. by apply (so_conn s Hs).
  - intros u cx1 Hu Hr. apply lookup_insert_Some in Hu as [[<- <-]|[Hn Hu]];
      [apply Hin; by eapply (so_readable s Hs)|by eapply (so_readable s Hs)].
Qed.

Lemma client_sends_inv pc cx msg :
  conn_inv pc cx -> (String.length msg <= n)%nat ->
  conn_inv pc (mkEpollConn (with_inbox (ec_end cx) (inbox (ec_end cx) +:+ frame msg)) (ec_hup cx)
                 (ec_start cx) (ec_sent cx ++ [msg]) (ec_calls cx)).
Proof.
  intros Hinv Hmsg Hst. cbn [ec_start ec_end ec_sent ec_calls] in *.
  destruct (Hinv Hst) as (Hsm & Hf & Hall & taken & left & Hsent & Hin & Hat).
  split; [done|]. split; [done|]. split; [by apply Forall_app; split; [|constructor]|].
  exists taken, (left ++ [msg]). split; [by rewrite Hsent, <- app_assoc|]. split.
  - cbn [with_inbox inbox]. rewrite Hin, stream_of_app. cbn. by rewrite str_app_nil_r.
  - destruct pc as [[| | |[]]|]; exact Hat.
Qed.

(** ** Every step keeps it *)
Lemma step_system_ok s s' : system_ok s -> epoll_step fuel n call s (Ok s') -> system_ok s'.
Proof.
  intros Hs Hstep. remember (Ok s') as r eqn:Hres. destruct Hstep as
    [s1 events Hb Hnd Hev|s1 fd data added ep Hfd0 Hfd Hdata Hep|s1 data hup rest Hb
    |s1 data cx d Hpc Hcx Hd|s1 data svc body cx Hpc Hcx|s1 data resp cx d Hpc Hcx Hd
    |s1 data sent added ret Hpc Hret|s1 data cx msg Hcx Hhup Hlen|s1 data cx Hcx];
    try (injection Hres as <-); try (apply obind_Ok in Hres as (x & Hx & [= <-])).
  - by apply wait_system_ok.
  - by apply accept_system_ok.
  - by eapply event_system_ok.
  - destruct x as [req x]. cbn [fst snd].
    eapply worker_moves; try done; [by eapply receive_ok|by destruct req as [[]|]|apply Hs|apply Hs].
  - destruct x as [resp t']. cbn [fst snd]. rename Hx into Hc.
    destruct (call_keeps _ _ _ _ _ (so_state s1 Hs) Hc) as [Ht' Hlen].
    eapply worker_moves; try done.
    + apply call_ok; [|done]. rewrite <- Hpc. by apply (so_conn s1 Hs).
    + unfold requests, responses. rewrite !fmap_app.
      eapply serve_stream_app; [apply Hs|]. cbn. by rewrite Hc.
  - destruct x as [sent x]. cbn [fst snd]. rename Hx into Hr.
    eapply worker_moves; try done; [|apply Hs|apply Hs].
    eapply send_ok; [|exact Hr]. rewrite <- Hpc. by apply (so_conn s1 Hs).
  - eapply end_ok; try done. by intros ->.
  - eapply client_system_ok; try done; [apply client_sends_inv; [by apply (so_conn s1 Hs)|done]|].
    cbn. by destruct (inbox (ec_end cx)).
  - eapply client_system_ok; try done. intros Hst. by apply (so_conn s1 Hs data cx Hcx).
Qed.

Lemma epoll_reachable_ok s : Inv t0 -> epoll_reachable fuel n call t0 s -> system_ok s.
Proof. intros Ht. induction 1; [by apply start_system_ok|by eapply step_system_ok]. Qed.
End Invariant.

(** ** Properties *)
Section EpollProperties.
Context `{JanssonLaws} {T : Type} (call : string -> string -> run T string).

(** The response a worker is about to write. *)
Definition pending_response (pc : option worker_pc) : list string :=
  match pc with Some (W_send ret_str) => [ret_str] | _ => [] end.


(** C16: the server with epoll refines its event loop and does not go wrong: forgetting the endpoints, it
    is always in a state the loop of the listener can reach; connections are the live handler data,
    workers the busy ones; and a step can only fail in a call the dispatcher does not survive, or
    on a socket that itself fails. *)
Theorem epoll_server_refines_loop fuel n (Inv : T -> Prop) t0 s :
  Z.of_nat n < max_message -> Inv t0 ->
  (forall svc body t resp t', Inv t -> call svc body t = Ok (resp, t') -> Inv t' /\ (String.length resp <= n)%nat) ->
  epoll_reachable fuel n call t0 s ->
  loop_reachable (es_loop s) /\
  (forall data, data ∈ busy (es_loop s) <-> is_Some (es_workers s !! data)) /\
  (forall data, is_Some (heap (es_loop s) !! data) <-> is_Some (es_conns s !! data)) /\
  forall r, epoll_step fuel n call s r ->
    (exists s', r = Ok s') \/
    exists data cx pc, es_conns s !! data = Some cx /\ es_workers s !! data = Some pc /\
      match pc with
      | W_call svc body => forall x, call svc body (es_state s) <> Ok x
      | _ => ~ smooth_ep (ec_start cx)
      end.
Proof.
  intros Hn Ht Hkeep Hr. pose proof (epoll_reachable_ok fuel n call Inv t0 Hn Hkeep s Ht Hr) as Hs.
  split; [apply Hs|]. split; [apply Hs|]. split; [apply Hs|]. intros r Hstep.
  pose proof (so_loop _ _ _ _ _ s Hs) as Hl. pose proof (reachable_ok _ Hl) as Hok.
  destruct Hstep as
    [s events Hb Hnd Hev|s fd data added ep Hfd0 Hfd Hdata Hep|s data hup rest Hb
    |s data cx d Hpc Hcx Hd|s data svc body cx Hpc Hcx|s data resp cx d Hpc Hcx Hd
    |s data sent added ret Hpc Hret|s data cx msg Hcx Hhup Hlen|s data cx Hcx]; try (left; by eexists).
  - destruct (step_ok _ _ Hok (step_event _ _ _ _ Hb)) as (l & -> & _). left. by eexists.
  - destruct (@epoll_receive _ _ _ fuel (connfd d) (ec_end cx, es_state s)) as [[req x]| |] eqn:Hrun;
      [left; by eexists|..]; right; exists data, cx, W_receive; (split; [done|]; split; [done|]); intros Hst;
      destruct (so_conn _ _ _ _ _ s Hs data cx Hcx Hst) as (Hsm & Hf & Hall & taken & left & Hsent & Hin & Hat);
      assert (inbox (ec_end cx) <> "") as Hne by (eapply (so_readable _ _ _ _ _ s Hs); [done|by right]);
      (destruct left as [|msg left]; [by rewrite Hin in Hne|]);
      (assert (String.length msg <= n)%nat as Hmsg by
        (rewrite Hsent in Hall; apply Forall_app in Hall as [_ Hall]; by apply Forall_cons in Hall as [? _]));
      destruct (epoll_receive_spec fuel n (connfd d) msg (stream_of left) (ec_end cx) (es_state s) Hmsg Hn Hin Hsm Hf)
        as (req' & r' & Hrun' & _); congruence.
  - destruct (call svc body (es_state s)) as [[resp t']| |] eqn:Hc; [left; by eexists|..];
      right; exists data, cx, (W_call svc body); (split; [done|]; split; [done|]); intros x; congruence.
  - destruct (@send_response _ _ (connfd d) resp (ec_end cx, es_state s)) as [[sent x]| |] eqn:Hrun;
      [left; by eexists|..]; right; exists data, cx, (W_send resp); (split; [done|]; split; [done|]); intros Hst;
      destruct (so_conn _ _ _ _ _ s Hs data cx Hcx Hst) as (Hsm & Hf & Hall & taken & left & Hsent & Hin & Hat);
      rewrite Hpc in Hat; destruct Hat as (_ & Hlen & _);
      (destruct (send_response_spec fuel (connfd d) resp (ec_end cx) (es_state s) Hsm) as (w' & Hrun' & _);
        [unfold rounds_for in *; lia|unfold max_message in *; lia|]); congruence.
  - assert (data ∈ busy (es_loop s)) as Hbusy by (apply (so_workers _ _ _ _ _ s Hs); by eexists).
    destruct (step_ok _ _ Hok (step_worker _ data ret Hbusy)) as (l & -> & _). left. by eexists.
Qed.

(** C37: a request followed by the end of the client's side is lost: once the client has shut down, the
    only event [epoll_wait] can report of its connection carries EPOLLRDHUP, and on that the
    listener closes the connection without a call, whatever whole requests are in its inbox.  (A
    thread per connection answers them.) *)
Theorem hung_up_request_dropped fuel n (Inv : T -> Prop) t0 s data cx :
  Z.of_nat n < max_message -> Inv t0 ->
  (forall svc body t resp t', Inv t -> call svc body t = Ok (resp, t') -> Inv t' /\ (String.length resp <= n)%nat) ->
  epoll_reachable fuel n call t0 s -> es_conns s !! data = Some cx -> ec_hup cx = true ->
  (forall hup, reportable s (data, hup) -> hup = true) /\
  (forall rest, batch (es_loop s) = (data, true) :: rest ->
     exists fd l, interest (es_loop s) !! fd = Some data /\
       let s' := event_system data true l s in
       epoll_step fuel n call s (Ok s') /\ fd ∉ open_fds (es_loop s') /\ es_conns s' !! data = None /\
       es_calls s' = es_calls s /\ es_state s' = es_state s).
Proof.
  intros Hn Ht Hkeep Hr Hcx Hhup. split.
  { intros hup (_ & cx' & Hcx' & _ & Hh). cbn [fst snd] in *. simplify_eq. congruence. }
  intros rest Hb. pose proof (epoll_reachable_ok fuel n call Inv t0 Hn Hkeep s Ht Hr) as Hs.
  pose proof (reachable_ok _ (so_loop _ _ _ _ _ s Hs)) as Hok.
  destruct (ok_batch _ Hok) as [_ Hint]. rewrite Hb in Hint. apply Forall_cons in Hint as [[fd Hfd] _].
  cbn [fst] in Hfd. pose proof Hfd as Hd. apply (ok_interest _ Hok) in Hd as [Hd _].
  pose proof (es_event fuel n call s data true rest Hb) as Hstep.
  unfold handle_event in Hstep. cbn [heap set_batch] in Hstep. rewrite Hd in Hstep. cbn [obind] in Hstep.
  exists fd. eexists. split; [done|]. split; [exact Hstep|]. cbn [event_system es_loop open_fds es_conns es_calls es_state connfd].
  split; [set_solver|]. split; [apply lookup_delete_eq|done].
Qed.
End EpollProperties.
