(* ===== verification/Heap.v ===== *)
(** * Heap: memory of blocks, and exact heaps

    What the models of allocation share: memory is a finite map from addresses to blocks, of a type
    each model chooses; reading, writing or freeing a block that is not allocated is undefined, and
    addresses are not reused, so nothing stale goes unnoticed.  On top of it a small program
    logic: an assertion is the exact list of allocated blocks; [does op l Q] says that on a heap of
    exactly [l] the operation returns, and what it leaves. *)
From S2P Require Import Prelude.

Abbreviation ptr := nat.
Definition NULL : ptr := 0%nat.

Record heap (B : Type) := mkHeap { blocks : gmap ptr B; next : ptr }.
Arguments mkHeap {B} _ _.
Arguments blocks {B} _.
Arguments next {B} _.

(** ** Memory *)
Section Memory.
Context {B : Type}.

Definition g_new (b : B) : run (heap B) ptr := fun m =>
  Ok (next m, mkHeap (<[next m := b]> (blocks m)) (S (next m))).

Definition load (p : ptr) : run (heap B) B := fun m =>
  match blocks m !! p with
  | Some b => Ok (b, m)
  | None => Undef "read of memory that is not allocated"
  end.

Definition store (p : ptr) (b : B) : run (heap B) unit := fun m =>
  match blocks m !! p with
  | Some _ => Ok (tt, mkHeap (<[p := b]> (blocks m)) (next m))
  | None => Undef "write to memory that is not allocated"
  end.

Definition g_free (p : ptr) : run (heap B) unit := fun m =>
  match blocks m !! p with
  | Some _ => Ok (tt, mkHeap (delete p (blocks m)) (next m))
  | None => Undef "free of memory that is not allocated"
  end.
End Memory.

(** ** Exact heaps *)
Section Logic.
Context {B : Type}.
Implicit Types (m : heap B) (l : list (ptr * B)).

Definition heap_is l m : Prop :=
  map_to_list (blocks m) ≡ₚ l /\ forall p, is_Some (blocks m !! p) -> (p < next m)%nat.

(** Time passes: addresses that are gone stay gone. *)
Definition ages m m' : Prop :=
  (next m <= next m')%nat /\
  forall p, (p < next m)%nat -> blocks m !! p = None -> blocks m' !! p = None.

#[export] Instance ages_preorder : PreOrder ages.
Proof.
  split; [by intros m|]. intros m1 m2 m3 [Hn12 H12] [Hn23 H23]. split; [lia|].
  intros p Hp Hnone. apply H23; [lia|]. by apply H12.
Qed.

(** On a heap of exactly the blocks [l], [op] returns some [a] and leaves exactly the blocks [l'],
    with [Q a l']. *)
Definition does {A} (op : run (heap B) A) l (Q : A -> list (ptr * B) -> Prop) : Prop :=
  forall m, heap_is l m -> exists a m' l', op m = Ok (a, m') /\ heap_is l' m' /\ ages m m' /\ Q a l'.

Lemma heap_is_perm l l' m : heap_is l m -> l ≡ₚ l' -> heap_is l' m.
Proof. intros [Hm Hn] Hp. split; [by rewrite <- Hp|done]. Qed.

Lemma heap_lookup l m p b : heap_is l m -> (p, b) ∈ l -> blocks m !! p = Some b.
Proof. intros [Hm _] Hin. apply elem_of_map_to_list. by rewrite Hm. Qed.

Lemma heap_lookup_inv l m p b : heap_is l m -> blocks m !! p = Some b -> (p, b) ∈ l.
Proof. intros [Hm _] Hin. rewrite <- Hm. by apply elem_of_map_to_list. Qed.

Lemma does_perm {A} (op : run (heap B) A) l l' Q : l ≡ₚ l' -> does op l Q -> does op l' Q.
Proof. intros Hp Hop m Hm. apply Hop. by eapply heap_is_perm. Qed.

Lemma does_ret {A} (a : A) l (Q : A -> list (ptr * B) -> Prop) : Q a l -> does (rret a) l Q.
Proof. intros HQ m Hm. by exists a, m, l. Qed.

Lemma does_bind {A A'} (op : run (heap B) A) (k : A -> run (heap B) A') l Q R :
  does op l R -> (forall a l', R a l' -> does (k a) l' Q) -> does (rbind op k) l Q.
Proof.
  intros Hop Hk m Hm. destruct (Hop m Hm) as (a & m1 & l1 & Hrun & Hm1 & Hage & HR).
  destruct (Hk a l1 HR m1 Hm1) as (b & m2 & l2 & Hrun2 & Hm2 & Hage2 & HQ).
  exists b, m2, l2. rewrite (rbind_step _ _ _ _ _ Hrun). split; [done|]. split; [done|].
  split; [by etrans|done].
Qed.

Lemma does_weaken {A} (op : run (heap B) A) l (Q R : A -> list (ptr * B) -> Prop) :
  does op l R -> (forall a l', R a l' -> Q a l') -> does op l Q.
Proof. intros Hop Hk m Hm. destruct (Hop m Hm) as (a & m1 & l1 & ? & ? & ? & ?). exists a, m1, l1. eauto. Qed.

Lemma does_nodup {A} (op : run (heap B) A) l Q : (NoDup l.*1 -> does op l Q) -> does op l Q.
Proof.
  intros Hop m Hm. apply Hop; [|done]. destruct Hm as [Hm _]. rewrite <- Hm. apply NoDup_fst_map_to_list.
Qed.

Lemma undef_then {A A'} (op : run (heap B) A) (k : A -> run (heap B) A') l Q m :
  does op l Q -> heap_is l m ->
  (forall a m' l', heap_is l' m' -> ages m m' -> Q a l' -> exists why, k a m' = Undef why) ->
  exists why, rbind op k m = Undef why.
Proof.
  intros Hop Hm Hk. destruct (Hop m Hm) as (a & m' & l' & Hrun & ? & ? & ?).
  rewrite (rbind_step _ _ _ _ _ Hrun). by eapply Hk.
Qed.

Lemma rbind_undef {A A'} (op : run (heap B) A) (k : A -> run (heap B) A') m :
  (exists why, op m = Undef why) -> exists why, rbind op k m = Undef why.
Proof. intros [why Hop]. exists why. unfold rbind. by rewrite Hop. Qed.

(** ** Blocks *)
Lemma does_new b l : does (g_new b) l (fun p l' => l' = (p, b) :: l).
Proof.
  intros m [Hm Hn]. exists (next m). eexists _, _. split; [reflexivity|].
  assert (blocks m !! next m = None) as Hnone.
  { destruct (blocks m !! next m) eqn:Hb; [|done]. specialize (Hn (next m) ltac:(by eexists)). lia. }
  split; [|split; [|done]].
  - split; cbn [blocks next]; [by rewrite map_to_list_insert, Hm|].
    intros p Hp. apply lookup_insert_is_Some' in Hp as [<-|Hp]; [lia|]. specialize (Hn p Hp). lia.
  - split; cbn [blocks next]; [lia|]. intros p Hp Hb. rewrite lookup_insert_ne; [done|lia].
Qed.

Lemma does_load p b l : (p, b) ∈ l -> does (load p) l (fun b' l' => b' = b /\ l' = l).
Proof.
  intros Hin m Hm. exists b, m, l. unfold load. by rewrite (heap_lookup l m p b Hm Hin).
Qed.

Lemma does_free p b l : does (g_free p) ((p, b) :: l) (fun _ l' => l' = l).
Proof.
  intros m Hm. assert (blocks m !! p = Some b) as Hp by (eapply heap_lookup; [done|by left]).
  destruct Hm as [Hm Hn]. eexists tt, _, l. unfold g_free. rewrite Hp. split; [reflexivity|].
  split; [|split; [|done]].
  - split; cbn [blocks next].
    + apply (Permutation_cons_inv (a := (p, b))). by rewrite <- Hm, map_to_list_delete.
    + intros q Hq. apply lookup_delete_is_Some in Hq as [_ Hq]. by apply Hn.
  - split; cbn [blocks next]; [lia|]. intros q _ Hq. apply lookup_delete_None. by right.
Qed.

Lemma does_store p b b' l : does (store p b') ((p, b) :: l) (fun _ l' => l' = (p, b') :: l).
Proof.
  intros m Hm. assert (blocks m !! p = Some b) as Hp by (eapply heap_lookup; [done|by left]).
  destruct Hm as [Hm Hn]. eexists tt, _, ((p, b') :: l). unfold store. rewrite Hp. split; [reflexivity|].
  split; [|split; [|done]].
  - split; cbn [blocks next].
    + rewrite <- insert_delete_eq, map_to_list_insert by apply lookup_delete_eq. f_equiv.
      apply (Permutation_cons_inv (a := (p, b))). by rewrite <- Hm, map_to_list_delete.
    + intros q Hq. apply lookup_insert_is_Some' in Hq as [<-|Hq]; apply Hn; [by eexists|done].
  - split; cbn [blocks next]; [lia|]. intros q _ Hq. rewrite lookup_insert_ne; [done|]. intros <-. congruence.
Qed.
End Logic.
