(* ===== verification/Ownership.v ===== *)
(** * Ownership: the memory of the registry in lib/searpc-server.c

    The registry of Server once more, now with every allocation: the items, services and tables are
    blocks of a heap, the hash tables hold pointers (the key of a node points into its value), and
    the destructors free what the registration functions allocated.  Reading or freeing a block
    that is not allocated is undefined; addresses are not reused, so nothing stale goes
    unnoticed. *)
From S2P Require Import Prelude Json Runtime Utils GObject Marshal Server Heap.

Section Ownership.
Context `{Jansson} `{GObjectClasses} {W : Type}.

(** ** Blocks *)
Inductive block :=
| BStr (s : string)
| BMarshalItem (mfunc : cfunction W -> json -> run W string) (signature : ptr)
| BFuncItem (func : cfunction W) (fname marshal : ptr)
| BService (name func_table : ptr)
(** a [GHashTable]: the pointers to key and value of each node, by the text of the key *)
| BTable (nodes : gmap string (ptr * ptr)).

Local Abbreviation memory := (heap block).

Definition g_strdup (s : string) : run memory ptr := g_new (BStr s).

Definition load_string (p : ptr) : run memory string :=
  b <- load p ;;
  match b with BStr s => rret s | _ => fun _ => Undef "not a string" end.

Definition load_table (p : ptr) : run memory (gmap string (ptr * ptr)) :=
  b <- load p ;;
  match b with BTable t => rret t | _ => fun _ => Undef "not a hash table" end.

(** ** Hash tables of GLib, with [g_str_hash], [g_str_equal], no destructor for keys and [destroy] for
    values *)
Definition g_hash_table_new : run memory ptr := g_new (BTable ∅).

(** The node of a key: its key pointer is followed to compare. *)
Definition find_node (table : ptr) (key : string) : run memory (option (ptr * ptr)) :=
  t <- load_table table ;;
  match t !! key with
  | None => rret None
  | Some node => _ <- load_string node.1 ;; rret (Some node)
  end.

Definition g_hash_table_lookup (table : ptr) (key : string) : run memory (option ptr) :=
  node <- find_node table key ;; rret (snd <$> node).

(** A key that is there stays, and the value it had is destroyed. *)
Definition g_hash_table_insert (destroy : ptr -> run memory unit) (table key value : ptr) : run memory unit :=
  text <- load_string key ;;
  node <- find_node table text ;;
  t <- load_table table ;;
  match node with
  | None => store table (BTable (<[text := (key, value)]> t))
  | Some (oldkey, oldvalue) =>
      _ <- store table (BTable (<[text := (oldkey, value)]> t)) ;;
      destroy oldvalue
  end.

Definition g_hash_table_remove (destroy : ptr -> run memory unit) (table : ptr) (key : string) : run memory unit :=
  node <- find_node table key ;;
  match node with
  | None => rret tt
  | Some (_, value) =>
      t <- load_table table ;;
      _ <- store table (BTable (delete key t)) ;;
      destroy value
  end.

Fixpoint destroy_all (destroy : ptr -> run memory unit) (values : list ptr) : run memory unit :=
  match values with
  | [] => rret tt
  | value :: values' => _ <- destroy value ;; destroy_all destroy values'
  end.

Definition g_hash_table_destroy (destroy : ptr -> run memory unit) (table : ptr) : run memory unit :=
  t <- load_table table ;;
  _ <- destroy_all destroy (snd ∘ snd <$> map_to_list t) ;;
  g_free table.

(** ** The destructors *)
Definition func_item_free (item : ptr) : run memory unit :=
  b <- load item ;;
  match b with
  | BFuncItem _ fname _ => _ <- g_free fname ;; g_free item
  | _ => fun _ => Undef "not a FuncItem"
  end.

Definition marshal_item_free (item : ptr) : run memory unit :=
  b <- load item ;;
  match b with
  | BMarshalItem _ signature => _ <- g_free signature ;; g_free item
  | _ => fun _ => Undef "not a MarshalItem"
  end.

Definition service_free (service : ptr) : run memory unit :=
  b <- load service ;;
  match b with
  | BService name func_table =>
      _ <- g_free name ;;
      _ <- g_hash_table_destroy func_item_free func_table ;;
      g_free service
  | _ => fun _ => Undef "not a SearpcService"
  end.

(** ** The operations, with their allocations *)

(** The static variables [marshal_table] and [service_table]. *)
Record tables := mkTables { t_marshals : ptr; t_services : ptr }.

Definition heap_init : run memory tables :=
  marshal_table <- g_hash_table_new ;;
  service_table <- g_hash_table_new ;;
  rret (mkTables marshal_table service_table).

Definition heap_final (ts : tables) : run memory unit :=
  _ <- g_hash_table_destroy service_free (t_services ts) ;;
  g_hash_table_destroy marshal_item_free (t_marshals ts).

Definition heap_create_service (ts : tables) (svc_name : option string) : run memory Z :=
  match svc_name with
  | None => rret (-1)
  | Some svc_name =>
      found <- g_hash_table_lookup (t_services ts) svc_name ;;
      match found with
      | Some _ => rret 0
      | None =>
          service <- g_new (BService NULL NULL) ;;
          name <- g_strdup svc_name ;;
          func_table <- g_hash_table_new ;;
          _ <- store service (BService name func_table) ;;
          _ <- g_hash_table_insert service_free (t_services ts) name service ;;
          rret 0
      end
  end.

Definition heap_remove_service (ts : tables) (svc_name : option string) : run memory unit :=
  match svc_name with
  | None => rret tt
  | Some svc_name => g_hash_table_remove service_free (t_services ts) svc_name
  end.

(** The caller gives [signature] away; the arguments are not NULL (Server has the assertions). *)
Definition heap_register_marshal (ts : tables) (signature : ptr) (marshal : cfunction W -> json -> run W string)
  : run memory bool :=
  text <- load_string signature ;;
  found <- g_hash_table_lookup (t_marshals ts) text ;;
  match found with
  | Some _ => _ <- g_free signature ;; rret false
  | None =>
      mitem <- g_new (BMarshalItem marshal signature) ;;
      _ <- g_hash_table_insert marshal_item_free (t_marshals ts) signature mitem ;;
      rret true
  end.

Definition heap_register_function (ts : tables) (svc_name : string) (func : cfunction W) (fname : string)
  (signature : ptr) : run memory bool :=
  service <- g_hash_table_lookup (t_services ts) svc_name ;;
  match service with
  | None => rret false
  | Some service =>
      text <- load_string signature ;;
      mitem <- g_hash_table_lookup (t_marshals ts) text ;;
      match mitem with
      | None => _ <- g_free signature ;; rret false
      | Some mitem =>
          b <- load service ;;
          match b with
          | BService _ func_table =>
              item <- g_new (BFuncItem func NULL mitem) ;;
              name <- g_strdup fname ;;
              _ <- store item (BFuncItem func name mitem) ;;
              _ <- g_hash_table_insert func_item_free func_table name item ;;
              _ <- g_free signature ;;
              rret true
          | _ => fun _ => Undef "not a SearpcService"
          end
      end
  end.

(** The look-up of a call: the function and its marshal. *)
Definition heap_lookup_function (ts : tables) (svc_name fname : string)
  : run memory (option (cfunction W * (cfunction W -> json -> run W string))) :=
  service <- g_hash_table_lookup (t_services ts) svc_name ;;
  match service with
  | None => rret None
  | Some service =>
      b <- load service ;;
      match b with
      | BService _ func_table =>
          fitem <- g_hash_table_lookup func_table fname ;;
          match fitem with
          | None => rret None
          | Some fitem =>
              b <- load fitem ;;
              match b with
              | BFuncItem func _ marshal =>
                  b <- load marshal ;;
                  match b with
                  | BMarshalItem mfunc _ => rret (Some (func, mfunc))
                  | _ => fun _ => Undef "not a MarshalItem"
                  end
              | _ => fun _ => Undef "not a FuncItem"
              end
          end
      | _ => fun _ => Undef "not a SearpcService"
      end
  end.
End Ownership.

Arguments block {_} W.
Abbreviation memory W := (heap (block W)).
