(* ===== verification/OwnershipLogic.v ===== *)
(** * OwnershipLogic: rules for the hash tables and destructors of Ownership

    In the logic of Heap: look-ups, insertion, removal and destruction of the tables of GLib, for
    values whose destructor frees what a description says they own. *)
From S2P Require Import Prelude Json Runtime Utils GObject Marshal Server ServerSafety Heap Ownership.

Section Logic.
Context `{GObjectClasses} {W : Type}.
Local Abbreviation blocks_of := (list (ptr * block W)).
Implicit Types (l : blocks_of).

(** ** Strings and tables *)

Lemma does_load_string p s l : (p, BStr s) ∈ l -> does (load_string p) l (fun s' l' => s' = s /\ l' = l).
Proof. intros Hin. eapply does_bind; [by apply does_load|]. intros b l' [-> ->]. by apply does_ret. Qed.

Lemma does_load_table p t l : (p, BTable t) ∈ l -> does (load_table p) l (fun t' l' => t' = t /\ l' = l).
Proof. intros Hin. eapply does_bind; [by apply does_load|]. intros b l' [-> ->]. by apply does_ret. Qed.

(** ** Hash tables *)
Lemma does_find_node tab t key node l :
  (tab, BTable t) ∈ l -> t !! key = node ->
  (forall k v, node = Some (k, v) -> exists s, (k, BStr s) ∈ l) ->
  does (find_node tab key) l (fun r l' => r = node /\ l' = l).
Proof.
  intros Hin Hkey Hlive. eapply does_bind; [by apply does_load_table|]. intros t' l' [-> ->]. rewrite Hkey.
  destruct node as [[k v]|]; [|by apply does_ret]. destruct (Hlive k v eq_refl) as [s Hs].
  eapply does_bind; [by apply (does_load_string k s)|]. intros s' l' [-> ->]. by apply does_ret.
Qed.

Lemma does_lookup tab t key node l :
  (tab, BTable t) ∈ l -> t !! key = node ->
  (forall k v, node = Some (k, v) -> exists s, (k, BStr s) ∈ l) ->
  does (g_hash_table_lookup tab key) l (fun r l' => r = snd <$> node /\ l' = l).
Proof.
  intros. eapply does_bind; [by eapply does_find_node|]. intros r l' [-> ->]. by apply does_ret.
Qed.

(** ** Freeing *)

(** A destructor for values described by [D]: it frees exactly the blocks of the description. *)
Definition frees {D} (destroy : ptr -> run (memory W) unit) (item : D -> ptr) (blk : D -> blocks_of) : Prop :=
  forall d l, does (destroy (item d)) (blk d ++ l) (fun _ l' => l' ≡ₚ l).

(** Everything a table of descriptions owns. *)
Definition owned {D} (blk : D -> blocks_of) (t : gmap string D) : blocks_of := (map_to_list t).*2 ≫= blk.

Lemma owned_insert {D} (blk : D -> blocks_of) t k d :
  t !! k = None -> owned blk (<[k:=d]> t) ≡ₚ blk d ++ owned blk t.
Proof. intros Hk. unfold owned. by rewrite (map_to_list_insert t k d Hk). Qed.

Lemma owned_delete {D} (blk : D -> blocks_of) t k d :
  t !! k = Some d -> owned blk t ≡ₚ blk d ++ owned blk (delete k t).
Proof. intros Hk. unfold owned. by rewrite <- (map_to_list_delete t k d Hk). Qed.

Lemma owned_replace {D} (blk : D -> blocks_of) t k d :
  owned blk (<[k:=d]> t) ≡ₚ blk d ++ owned blk (delete k t).
Proof. rewrite <- insert_delete_eq. apply owned_insert, lookup_delete_eq. Qed.

Lemma owned_elem {D} (blk : D -> blocks_of) t k d x : t !! k = Some d -> x ∈ blk d -> x ∈ owned blk t.
Proof. intros Hk Hx. rewrite (owned_delete blk t k d Hk). apply elem_of_app. by left. Qed.

Lemma does_destroy_all {D} destroy (item : D -> ptr) blk ds l :
  frees destroy item blk ->
  does (destroy_all destroy (item <$> ds)) ((ds ≫= blk) ++ l) (fun _ l' => l' ≡ₚ l).
Proof.
  intros Hfree. revert l. induction ds as [|d ds IH]; intros l; cbn [fmap list_fmap destroy_all mbind list_bind].
  { by apply does_ret. }
  rewrite <- app_assoc. eapply does_bind; [apply Hfree|]. intros [] l' Hl'. cbv beta in Hl'.
  eapply does_perm; [symmetry; exact Hl'|]. apply IH.
Qed.

Lemma does_destroy_table {D} destroy (item key : D -> ptr) blk tab (t : gmap string D) l :
  frees destroy item blk ->
  does (g_hash_table_destroy destroy tab)
    ((tab, BTable ((fun d => (key d, item d)) <$> t)) :: owned blk t ++ l) (fun _ l' => l' ≡ₚ l).
Proof.
  intros Hfree. unfold g_hash_table_destroy. eapply does_bind; [by apply does_load_table; left|].
  intros t' l' [-> ->].
  assert (exists ds, (snd ∘ snd <$> map_to_list ((fun d => (key d, item d)) <$> t)) = item <$> ds /\
    ds ≡ₚ (map_to_list t).*2) as (ds & -> & Hds).
  { exists ((map_to_list t).*2). split; [|done]. rewrite map_to_list_fmap, <- !list_fmap_compose.
    apply list_fmap_ext. by intros _ [k d] _. }
  eapply does_bind.
  - eapply does_perm; [|apply (does_destroy_all destroy item blk ds
      ((tab, BTable ((fun d => (key d, item d)) <$> t)) :: l) Hfree)].
    unfold owned. rewrite Hds. symmetry. apply Permutation_middle.
  - intros [] l' Hl'. cbv beta in Hl'. eapply does_perm; [symmetry; exact Hl'|].
    eapply does_weaken; [apply does_free|]. by intros [] l'' ->.
Qed.

(** ** Nodes *)

(** [k] is the key of the new node, [v] its value. *)
Lemma does_insert_new destroy tab t k v s l :
  (k, BStr s) ∈ l -> t !! s = None ->
  does (g_hash_table_insert destroy tab k v) ((tab, BTable t) :: l)
    (fun _ l' => l' = (tab, BTable (<[s := (k, v)]> t)) :: l).
Proof.
  intros Hk Hs. unfold g_hash_table_insert.
  eapply does_bind; [apply (does_load_string k s); by right|]. intros s' l' [-> ->].
  eapply does_bind; [eapply (does_find_node tab t s None); [by left|done|done]|]. intros r l' [-> ->].
  eapply does_bind; [apply does_load_table; by left|]. intros t' l' [-> ->].
  apply does_store.
Qed.

(** The node stays, its value is replaced and the old one destroyed. *)
Lemma does_insert_old {D} destroy (item : D -> ptr) blk tab t k v s oldk d olds l0 l :
  frees destroy item blk -> (k, BStr s) ∈ l -> t !! s = Some (oldk, item d) -> (oldk, BStr olds) ∈ l ->
  l ≡ₚ blk d ++ l0 ->
  does (g_hash_table_insert destroy tab k v) ((tab, BTable t) :: l)
    (fun _ l' => l' ≡ₚ (tab, BTable (<[s := (oldk, v)]> t)) :: l0).
Proof.
  intros Hfree Hk Hs Hold Hl. unfold g_hash_table_insert.
  eapply does_bind; [apply (does_load_string k s); by right|]. intros s' l' [-> ->].
  eapply does_bind; [eapply (does_find_node tab t s (Some (oldk, item d))); [by left|done|]|].
  { intros k' v' [= <- <-]. exists olds. by right. }
  intros r l' [-> ->].
  eapply does_bind; [apply does_load_table; by left|]. intros t' l' [-> ->].
  eapply does_bind; [apply does_store|]. intros [] l' ->.
  eapply does_perm; [|apply (Hfree d ((tab, BTable (<[s:=(oldk, v)]> t)) :: l0))].
  rewrite Hl. solve_Permutation.
Qed.

Lemma does_remove_missing destroy tab t key l :
  (tab, BTable t) ∈ l -> t !! key = None ->
  does (g_hash_table_remove destroy tab key) l (fun _ l' => l' = l).
Proof.
  intros Hin Hk. unfold g_hash_table_remove.
  eapply does_bind; [by eapply does_find_node|]. intros r l' [-> ->]. by apply does_ret.
Qed.

Lemma does_remove {D} destroy (item : D -> ptr) blk tab t key k d s l0 l :
  frees destroy item blk -> t !! key = Some (k, item d) -> (k, BStr s) ∈ l -> l ≡ₚ blk d ++ l0 ->
  does (g_hash_table_remove destroy tab key) ((tab, BTable t) :: l)
    (fun _ l' => l' ≡ₚ (tab, BTable (delete key t)) :: l0).
Proof.
  intros Hfree Hk Hs Hl. unfold g_hash_table_remove.
  eapply does_bind; [eapply (does_find_node tab t key (Some (k, item d))); [by left|done|]|].
  { intros k' v' [= <- <-]. exists s. by right. }
  intros r l' [-> ->].
  eapply does_bind; [apply does_load_table; by left|]. intros t' l' [-> ->].
  eapply does_bind; [apply does_store|]. intros [] l' ->.
  eapply does_perm; [|apply (Hfree d ((tab, BTable (delete key t)) :: l0))].
  rewrite Hl. solve_Permutation.
Qed.
End Logic.
