(* ===== verification/OwnershipSafety.v ===== *)
(** * OwnershipSafety: the registry frees what it allocates, once

    The blocks of a registry, and every operation of Server simulated on the heap of Ownership. *)
From S2P Require Import Prelude Json Runtime Utils GObject Marshal Server ServerSafety Heap Ownership OwnershipLogic.

(** ** What the registry owns *)
Section Registry.
Context `{Jansson} `{GObjectClasses} {W : Type}.
Local Abbreviation blocks_of := (list (ptr * block W)).

(** A marshal: its item, its signature, and what Server says it is. *)
Record marshal_desc := mkMarshalDesc { md_item : ptr; md_sig : ptr; md_abs : MarshalItem W }.
Definition marshal_blocks (d : marshal_desc) : blocks_of :=
  [(md_item d, BMarshalItem (mfunc (md_abs d)) (md_sig d)); (md_sig d, BStr (signature (md_abs d)))].
Definition marshal_node (d : marshal_desc) : ptr * ptr := (md_sig d, md_item d).

(** A function: its item, its name, the key of its node (its name, or a freed one), its marshal. *)
Record func_desc := mkFuncDesc {
  fd_item : ptr; fd_fname : ptr; fd_key : ptr; fd_marshal : ptr; fd_abs : FuncItem W
}.
Definition func_blocks (d : func_desc) : blocks_of :=
  [(fd_item d, BFuncItem (func (fd_abs d)) (fd_fname d) (fd_marshal d)); (fd_fname d, BStr (fname (fd_abs d)))].
Definition func_ptrs (d : func_desc) : ptr * ptr := (fd_key d, fd_item d).
Definition abs_node (d : func_desc) : func_node W := mkNode (negb (fd_key d =? fd_fname d)%nat) (fd_abs d).

(** A service with its functions. *)
Record service_desc := mkServiceDesc {
  sd_item : ptr; sd_name : ptr; sd_table : ptr; sd_text : string; sd_funcs : gmap string func_desc
}.
Definition service_blocks (d : service_desc) : blocks_of :=
  (sd_item d, BService (sd_name d) (sd_table d)) :: (sd_name d, BStr (sd_text d)) ::
  (sd_table d, BTable (func_ptrs <$> sd_funcs d)) :: owned func_blocks (sd_funcs d).
Definition service_node (d : service_desc) : ptr * ptr := (sd_name d, sd_item d).
Definition abs_service (d : service_desc) : SearpcService W :=
  mkService (sd_text d) (abs_node <$> sd_funcs d).

(** All of it. *)
Definition registry_blocks (ts : tables) (M : gmap string marshal_desc) (S : gmap string service_desc) : blocks_of :=
  (t_marshals ts, BTable (marshal_node <$> M)) :: (t_services ts, BTable (service_node <$> S)) ::
  owned marshal_blocks M ++ owned service_blocks S.

(** ** The destructors free exactly that *)
Lemma func_item_frees : frees func_item_free fd_item func_blocks.
Proof.
  intros d l. unfold func_item_free, func_blocks. cbn [app].
  eapply does_bind; [apply does_load; by left|]. intros b l' [-> ->].
  eapply does_bind; [eapply does_perm; [apply Permutation_swap|apply does_free]|]. intros [] l' ->.
  eapply does_weaken; [apply does_free|]. by intros [] l'' ->.
Qed.

Lemma marshal_item_frees : frees marshal_item_free md_item marshal_blocks.
Proof.
  intros d l. unfold marshal_item_free, marshal_blocks. cbn [app].
  eapply does_bind; [apply does_load; by left|]. intros b l' [-> ->].
  eapply does_bind; [eapply does_perm; [apply Permutation_swap|apply does_free]|]. intros [] l' ->.
  eapply does_weaken; [apply does_free|]. by intros [] l'' ->.
Qed.

Lemma service_frees : frees service_free sd_item service_blocks.
Proof.
  intros d l. unfold service_free, service_blocks. cbn [app].
  eapply does_bind; [apply does_load; by left|]. intros b l' [-> ->].
  eapply does_bind; [eapply does_perm; [apply Permutation_swap|apply does_free]|]. intros [] l' ->.
  eapply does_bind.
  - eapply does_perm; [|apply (does_destroy_table func_item_free fd_item fd_key func_blocks (sd_table d) (sd_funcs d)
      ((sd_item d, BService (sd_name d) (sd_table d)) :: l) func_item_frees)].
    change ((fun d0 => (fd_key d0, fd_item d0))) with func_ptrs. solve_Permutation.
  - intros [] l' Hl'. cbv beta in Hl'. eapply does_perm; [symmetry; exact Hl'|].
    eapply does_weaken; [apply does_free|]. by intros [] l'' ->.
Qed.

(** ** Looking things up *)
Lemma services_in ts M S extra : (t_services ts, BTable (service_node <$> S)) ∈ registry_blocks ts M S ++ extra.
Proof. apply elem_of_app. left. right. by left. Qed.
Lemma marshals_in ts M S extra : (t_marshals ts, BTable (marshal_node <$> M)) ∈ registry_blocks ts M S ++ extra.
Proof. apply elem_of_app. left. by left. Qed.

Lemma service_in ts M S extra n d x :
  S !! n = Some d -> x ∈ service_blocks d -> x ∈ registry_blocks ts M S ++ extra.
Proof.
  intros Hd Hx. apply elem_of_app. left. do 2 right. apply elem_of_app. right. by eapply owned_elem.
Qed.
Lemma marshal_in ts M S extra sg d x :
  M !! sg = Some d -> x ∈ marshal_blocks d -> x ∈ registry_blocks ts M S ++ extra.
Proof.
  intros Hd Hx. apply elem_of_app. left. do 2 right. apply elem_of_app. left. by eapply owned_elem.
Qed.
Lemma func_in d fn f x : sd_funcs d !! fn = Some f -> x ∈ func_blocks f -> x ∈ service_blocks d.
Proof. intros Hf Hx. do 3 right. by eapply owned_elem. Qed.

Lemma does_lookup_service ts M S extra n :
  does (g_hash_table_lookup (t_services ts) n) (registry_blocks ts M S ++ extra)
    (fun r l' => r = sd_item <$> S !! n /\ l' = registry_blocks ts M S ++ extra).
Proof.
  eapply does_weaken; [eapply (does_lookup _ _ n (service_node <$> S !! n)); [apply services_in|apply lookup_fmap|]|].
  - intros k v Hkv. destruct (S !! n) as [d|] eqn:Hd; [|done]. injection Hkv as <- <-.
    exists (sd_text d). eapply service_in; [done|]. right. by left.
  - intros r l' [-> ->]. by destruct (S !! n).
Qed.

Lemma does_lookup_marshal ts M S extra sg :
  does (g_hash_table_lookup (t_marshals ts) sg) (registry_blocks ts M S ++ extra)
    (fun r l' => r = md_item <$> M !! sg /\ l' = registry_blocks ts M S ++ extra).
Proof.
  eapply does_weaken; [eapply (does_lookup _ _ sg (marshal_node <$> M !! sg)); [apply marshals_in|apply lookup_fmap|]|].
  - intros k v Hkv. destruct (M !! sg) as [d|] eqn:Hd; [|done]. injection Hkv as <- <-.
    exists (signature (md_abs d)). eapply marshal_in; [done|]. right. by left.
  - intros r l' [-> ->]. by destruct (M !! sg).
Qed.

(** ** The operations on exact heaps *)
Lemma does_create_service ts M S extra n :
  does (heap_create_service ts (Some n)) (registry_blocks ts M S ++ extra)
    (fun r l' => r = 0 /\ exists S', l' ≡ₚ registry_blocks ts M S' ++ extra /\
       (if decide (is_Some (S !! n)) then S' = S
        else exists d, S' = <[n:=d]> S /\ sd_text d = n /\ sd_funcs d = ∅)).
Proof.
  unfold heap_create_service. eapply does_bind; [apply does_lookup_service|]. intros r l' [-> ->].
  destruct (S !! n) as [d|] eqn:Hn; cbn [fmap option_fmap option_map].
  { apply does_ret. split; [done|]. exists S. by rewrite decide_True. }
  eapply does_bind; [apply does_new|]. intros service l' ->.
  eapply does_bind; [apply does_new|]. intros name l' ->.
  eapply does_bind; [apply does_new|]. intros func_table l' ->.
  set (d := mkServiceDesc service name func_table n ∅).
  eapply does_bind.
  { eapply does_perm; [|apply (does_store service (BService NULL NULL) (BService name func_table)
      ((name, BStr n) :: (func_table, BTable ∅) :: registry_blocks ts M S ++ extra))]. solve_Permutation. }
  intros [] l' ->. eapply does_bind.
  - eapply does_perm; [|apply (does_insert_new service_free (t_services ts) (service_node <$> S) name service n
      ((service, BService name func_table) :: (name, BStr n) :: (func_table, BTable ∅) ::
       (t_marshals ts, BTable (marshal_node <$> M)) :: owned marshal_blocks M ++ owned service_blocks S ++ extra))].
    + unfold registry_blocks. cbn [app]. rewrite <- app_assoc. solve_Permutation.
    + right. by left.
    + by rewrite lookup_fmap, Hn.
  - intros [] l' ->. apply does_ret. split; [done|]. exists (<[n:=d]> S).
    split; [|rewrite decide_False by (by intros []); by exists d]. unfold registry_blocks. rewrite fmap_insert, (owned_insert service_blocks S n d Hn).
    assert (service_blocks d = [(service, BService name func_table); (name, BStr n); (func_table, BTable ∅)]) as ->.
    { unfold service_blocks, owned, d. cbn [sd_item sd_name sd_table sd_text sd_funcs].
      by rewrite fmap_empty, map_to_list_empty. }
    solve_Permutation.
Qed.

Lemma does_remove_service ts M S extra n :
  does (heap_remove_service ts (Some n)) (registry_blocks ts M S ++ extra)
    (fun _ l' => l' ≡ₚ registry_blocks ts M (delete n S) ++ extra).
Proof.
  unfold heap_remove_service. destruct (S !! n) as [d|] eqn:Hn.
  - eapply does_weaken.
    + eapply does_perm; [|apply (does_remove service_free sd_item service_blocks (t_services ts) (service_node <$> S) n
        (sd_name d) d (sd_text d)
        ((t_marshals ts, BTable (marshal_node <$> M)) :: owned marshal_blocks M ++ owned service_blocks (delete n S) ++ extra)
        (service_blocks d ++ (t_marshals ts, BTable (marshal_node <$> M)) :: owned marshal_blocks M ++
           owned service_blocks (delete n S) ++ extra) service_frees)].
      * unfold registry_blocks. rewrite (owned_delete service_blocks S n d Hn). cbn [app].
        rewrite <- !app_assoc. solve_Permutation.
      * by rewrite lookup_fmap, Hn.
      * apply elem_of_app. left. right. by left.
      * done.
    + intros [] l' Hl'. cbv beta in Hl'. rewrite Hl'. unfold registry_blocks. rewrite fmap_delete. cbn [app].
      rewrite <- !app_assoc. solve_Permutation.
  - eapply does_weaken; [eapply does_remove_missing; [apply services_in|by rewrite lookup_fmap, Hn]|].
    intros [] l' ->. by rewrite delete_id.
Qed.

Lemma does_final ts M S extra :
  does (heap_final ts) (registry_blocks ts M S ++ extra) (fun _ l' => l' ≡ₚ extra).
Proof.
  unfold heap_final. eapply does_bind.
  - eapply does_perm; [|apply (does_destroy_table service_free sd_item sd_name service_blocks (t_services ts) S
      ((t_marshals ts, BTable (marshal_node <$> M)) :: owned marshal_blocks M ++ extra) service_frees)].
    unfold registry_blocks. change (fun d => (sd_name d, sd_item d)) with service_node.
    cbn [app]. rewrite <- app_assoc. solve_Permutation.
  - intros [] l' Hl'. cbv beta in Hl'. eapply does_perm; [symmetry; exact Hl'|].
    apply (does_destroy_table marshal_item_free md_item md_sig marshal_blocks (t_marshals ts) M extra marshal_item_frees).
Qed.

Lemma does_register_marshal ts M S extra sigp sg m :
  does (heap_register_marshal ts sigp m) (registry_blocks ts M S ++ (sigp, BStr sg) :: extra)
    (fun r l' =>
       match M !! sg with
       | Some _ => r = false /\ l' ≡ₚ registry_blocks ts M S ++ extra
       | None => r = true /\ exists d, md_abs d = mkMarshal m sg /\ l' ≡ₚ registry_blocks ts (<[sg:=d]> M) S ++ extra
       end).
Proof.
  unfold heap_register_marshal.
  eapply does_bind; [apply (does_load_string sigp sg); apply elem_of_app; right; by left|]. intros t l' [-> ->].
  eapply does_bind; [apply does_lookup_marshal|]. intros r l' [-> ->].
  destruct (M !! sg) as [d|] eqn:Hsg; cbn [fmap option_fmap option_map].
  - eapply does_bind; [eapply does_perm; [|apply (does_free sigp (BStr sg) (registry_blocks ts M S ++ extra))]; solve_Permutation|].
    intros [] l' ->. by apply does_ret.
  - eapply does_bind; [apply does_new|]. intros mitem l' ->. eapply does_bind.
    + eapply does_perm; [|apply (does_insert_new marshal_item_free (t_marshals ts) (marshal_node <$> M) sigp mitem sg
        ((mitem, BMarshalItem m sigp) :: (sigp, BStr sg) :: (t_services ts, BTable (service_node <$> S)) ::
         owned marshal_blocks M ++ owned service_blocks S ++ extra))].
      * unfold registry_blocks. solve_Permutation.
      * right. by left.
      * by rewrite lookup_fmap, Hsg.
    + intros [] l' ->. apply does_ret. split; [done|]. exists (mkMarshalDesc mitem sigp (mkMarshal m sg)).
      split; [done|]. unfold registry_blocks. rewrite fmap_insert, (owned_insert marshal_blocks M sg _ Hsg).
      unfold marshal_blocks at 1. cbn [md_item md_sig md_abs mfunc signature]. solve_Permutation.
Qed.

(** A service with other functions. *)
Definition set_funcs (d : service_desc) (F : gmap string func_desc) : service_desc :=
  mkServiceDesc (sd_item d) (sd_name d) (sd_table d) (sd_text d) F.

(** The registry around the function table of one service. *)
Lemma registry_split ts M S n d F :
  S !! n = Some d ->
  registry_blocks ts M (<[n:=set_funcs d F]> S) ≡ₚ
    (sd_table d, BTable (func_ptrs <$> F)) :: owned func_blocks F ++
    (sd_item d, BService (sd_name d) (sd_table d)) :: (sd_name d, BStr (sd_text d)) ::
    (t_marshals ts, BTable (marshal_node <$> M)) :: (t_services ts, BTable (service_node <$> S)) ::
    owned marshal_blocks M ++ owned service_blocks (delete n S).
Proof.
  intros Hn. unfold registry_blocks. rewrite fmap_insert, owned_replace.
  change (service_node (set_funcs d F)) with (service_node d).
  rewrite (insert_id (service_node <$> S)) by (by rewrite lookup_fmap, Hn).
  unfold service_blocks at 1. cbn [set_funcs sd_item sd_name sd_table sd_text sd_funcs app]. solve_Permutation.
Qed.

Lemma set_funcs_id d : set_funcs d (sd_funcs d) = d.
Proof. by destruct d. Qed.

Lemma registry_split_self ts M S n d :
  S !! n = Some d ->
  registry_blocks ts M S ≡ₚ
    (sd_table d, BTable (func_ptrs <$> sd_funcs d)) :: owned func_blocks (sd_funcs d) ++
    (sd_item d, BService (sd_name d) (sd_table d)) :: (sd_name d, BStr (sd_text d)) ::
    (t_marshals ts, BTable (marshal_node <$> M)) :: (t_services ts, BTable (service_node <$> S)) ::
    owned marshal_blocks M ++ owned service_blocks (delete n S).
Proof.
  intros Hn. rewrite <- (registry_split ts M S n d (sd_funcs d) Hn), set_funcs_id. by rewrite insert_id.
Qed.

(** What is left to do once service and marshal were found. *)
Definition register_item (sd : service_desc) (f : cfunction W) (fn : string) (mitem sigp : ptr) : run (memory W) bool :=
  item <- g_new (BFuncItem f NULL mitem) ;;
  name <- g_strdup fn ;;
  _ <- store item (BFuncItem f name mitem) ;;
  _ <- g_hash_table_insert func_item_free (sd_table sd) name item ;;
  _ <- g_free sigp ;;
  rret true.

Lemma does_allocate_item {A} (k : ptr -> ptr -> run (memory W) A) f fn mitem l Q :
  (forall item name, does (k item name) ((item, BFuncItem f name mitem) :: (name, BStr fn) :: l) Q) ->
  does (item <- g_new (BFuncItem f NULL mitem) ;;
        name <- g_strdup fn ;;
        _ <- store item (BFuncItem f name mitem) ;;
        k item name) l Q.
Proof.
  intros Hk. eapply does_bind; [apply does_new|]. intros item l' ->.
  eapply does_bind; [apply does_new|]. intros name l' ->.
  eapply does_bind.
  - eapply does_perm; [apply Permutation_swap|apply does_store].
  - intros [] l' ->. apply Hk.
Qed.

Lemma does_register_item ts M S extra n sd f fn sigp sg dm :
  S !! n = Some sd -> M !! sg = Some dm ->
  (forall old, sd_funcs sd !! fn = Some old -> fd_key old = fd_fname old /\ fname (fd_abs old) = fn) ->
  does (register_item sd f fn (md_item dm) sigp) (registry_blocks ts M S ++ (sigp, BStr sg) :: extra)
    (fun r l' => r = true /\ exists fd,
       fd_abs fd = mkFunc f fn (md_abs dm) /\ fd_marshal fd = md_item dm /\
       match sd_funcs sd !! fn with
       | None => fd_key fd = fd_fname fd
       | Some old => fd_key fd = fd_fname old /\ fd_key fd <> fd_fname fd /\ fd_key fd ∉ l'.*1
       end /\
       l' ≡ₚ registry_blocks ts M (<[n:=set_funcs sd (<[fn:=fd]> (sd_funcs sd))]> S) ++ extra).
Proof.
  intros Hn Hm Hold. unfold register_item. apply does_allocate_item. intros item name.
  set (rest := (sd_item sd, BService (sd_name sd) (sd_table sd)) :: (sd_name sd, BStr (sd_text sd)) ::
    (t_marshals ts, BTable (marshal_node <$> M)) :: (t_services ts, BTable (service_node <$> S)) ::
    owned marshal_blocks M ++ owned service_blocks (delete n S)) in *.
  destruct (sd_funcs sd !! fn) as [old|] eqn:Hfn.
  - destruct (Hold old eq_refl) as [Hkey Hname].
    set (fd := mkFuncDesc item name (fd_fname old) (md_item dm) (mkFunc f fn (md_abs dm))).
    eapply (does_perm _ ((sd_table sd, BTable (func_ptrs <$> sd_funcs sd)) :: func_blocks old ++
      (item, BFuncItem f name (md_item dm)) :: (name, BStr fn) ::
      owned func_blocks (delete fn (sd_funcs sd)) ++ rest ++ (sigp, BStr sg) :: extra)).
    { rewrite (registry_split_self ts M S n sd Hn), (owned_delete func_blocks _ fn old Hfn). fold rest. solve_Permutation. }
    apply does_nodup. intros Hnd. eapply does_bind.
    { eapply (does_insert_old func_item_free fd_item func_blocks _ _ name item fn (fd_fname old) old (fname (fd_abs old)));
        [apply func_item_frees|..].
      - apply elem_of_app. right. right. by left.
      - rewrite lookup_fmap, Hfn. cbn. unfold func_ptrs. by rewrite Hkey.
      - apply elem_of_app. left. right. by left.
      - reflexivity. }
    intros [] l' Hl'. cbv beta in Hl'. eapply does_bind.
    { eapply does_perm; [|apply (does_free sigp (BStr sg)
        ((sd_table sd, BTable (<[fn:=(fd_fname old, item)]> (func_ptrs <$> sd_funcs sd))) ::
         (item, BFuncItem f name (md_item dm)) :: (name, BStr fn) ::
         owned func_blocks (delete fn (sd_funcs sd)) ++ rest ++ extra))]. rewrite Hl'. solve_Permutation. }
    intros [] l2 ->. apply does_ret. split; [done|]. exists fd. split; [done|]. split; [done|]. split; [split; [done|split]|].
    + cbn. intros Heq. revert Hnd. rewrite fmap_cons, fmap_app. cbn [fmap list_fmap func_blocks fst app].
      rewrite Heq. intros Hnd. apply NoDup_cons in Hnd as [_ Hnd]. apply NoDup_cons in Hnd as [_ Hnd].
      apply NoDup_cons in Hnd as [Hnd _]. apply Hnd. right. by left.
    + cbn [fd_key fd]. revert Hnd. rewrite fmap_cons, fmap_app. cbn [fmap list_fmap func_blocks fst app].
      intros Hnd Hin. apply NoDup_cons in Hnd as [Hnt Hnd]. apply NoDup_cons in Hnd as [_ Hnd].
      apply NoDup_cons in Hnd as [Hnd _]. rewrite fmap_app, !elem_of_cons, elem_of_app, fmap_app in *.
      cbn [fmap list_fmap fst] in *. rewrite ?elem_of_app, ?elem_of_cons in *. naive_solver.
    + rewrite (registry_split ts M S n sd _ Hn), fmap_insert, owned_replace. fold rest.
      unfold func_blocks at 2. cbn [fd fd_item fd_fname fd_marshal fd_abs fname func]. solve_Permutation.
  - set (fd := mkFuncDesc item name name (md_item dm) (mkFunc f fn (md_abs dm))).
    eapply does_bind.
    { eapply does_perm; [|apply (does_insert_new func_item_free (sd_table sd) (func_ptrs <$> sd_funcs sd) name item fn
        ((item, BFuncItem f name (md_item dm)) :: (name, BStr fn) ::
         owned func_blocks (sd_funcs sd) ++ rest ++ (sigp, BStr sg) :: extra))].
      - rewrite (registry_split_self ts M S n sd Hn). fold rest. solve_Permutation.
      - right. by left.
      - by rewrite lookup_fmap, Hfn. }
    intros [] l' ->. eapply does_bind.
    { eapply does_perm; [|apply (does_free sigp (BStr sg)
        ((sd_table sd, BTable (<[fn:=(name, item)]> (func_ptrs <$> sd_funcs sd))) ::
         (item, BFuncItem f name (md_item dm)) :: (name, BStr fn) ::
         owned func_blocks (sd_funcs sd) ++ rest ++ extra))]. solve_Permutation. }
    intros [] l2 ->. apply does_ret. split; [done|]. exists fd. split; [done|]. split; [done|]. split; [done|].
    rewrite (registry_split ts M S n sd _ Hn), fmap_insert, (owned_insert func_blocks _ fn fd Hfn). fold rest.
    unfold func_blocks at 2. cbn [fd fd_item fd_fname fd_marshal fd_abs fname func]. solve_Permutation.
Qed.

Lemma does_register_function ts M S extra n f fn sigp sg :
  (forall sd old, S !! n = Some sd -> sd_funcs sd !! fn = Some old -> is_Some (M !! sg) ->
     fd_key old = fd_fname old /\ fname (fd_abs old) = fn) ->
  does (heap_register_function ts n f fn sigp) (registry_blocks ts M S ++ (sigp, BStr sg) :: extra)
    (fun r l' =>
       match S !! n, M !! sg with
       | None, _ => r = false /\ l' ≡ₚ registry_blocks ts M S ++ (sigp, BStr sg) :: extra
       | Some _, None => r = false /\ l' ≡ₚ registry_blocks ts M S ++ extra
       | Some sd, Some dm =>
           r = true /\ exists fd,
             fd_abs fd = mkFunc f fn (md_abs dm) /\ fd_marshal fd = md_item dm /\
             match sd_funcs sd !! fn with
             | None => fd_key fd = fd_fname fd
             | Some old => fd_key fd = fd_fname old /\ fd_key fd <> fd_fname fd /\ fd_key fd ∉ l'.*1
             end /\
             l' ≡ₚ registry_blocks ts M (<[n:=set_funcs sd (<[fn:=fd]> (sd_funcs sd))]> S) ++ extra
       end).
Proof.
  intros Hold. unfold heap_register_function.
  eapply does_bind; [apply does_lookup_service|]. intros r l' [-> ->].
  destruct (S !! n) as [sd|] eqn:Hn; cbn [fmap option_fmap option_map]; [|by apply does_ret].
  eapply does_bind; [apply (does_load_string sigp sg); apply elem_of_app; right; by left|]. intros t l' [-> ->].
  eapply does_bind; [apply does_lookup_marshal|]. intros r l' [-> ->].
  destruct (M !! sg) as [dm|] eqn:Hm; cbn [fmap option_fmap option_map].
  - eapply does_bind; [apply (does_load (sd_item sd) (BService (sd_name sd) (sd_table sd)));
      eapply service_in; [done|by left]|]. intros b l' [-> ->].
    apply (does_register_item ts M S extra n sd f fn sigp sg dm Hn Hm). intros old Ho. by apply (Hold sd old).
  - eapply does_bind; [eapply does_perm; [|apply (does_free sigp (BStr sg) (registry_blocks ts M S ++ extra))]; solve_Permutation|].
    intros [] l' ->. by apply does_ret.
Qed.

(** ** The registry of Server, in a heap *)

(** A function of a service: named by the text of its key, its key its own name or a freed one,
    its marshal in the table. *)
Definition func_ok (M : gmap string marshal_desc) (m : memory W) (fn : string) (d : func_desc) : Prop :=
  fname (fd_abs d) = fn /\
  (fd_key d = fd_fname d \/ (fd_key d <> fd_fname d /\ (fd_key d < next m)%nat /\ blocks m !! fd_key d = None)) /\
  exists dm, M !! signature (marshal (fd_abs d)) = Some dm /\ md_item dm = fd_marshal d /\
    md_abs dm = marshal (fd_abs d).

(** The memory [m] holds exactly the registry of the server [s] and the blocks [extra]. *)
Record represents (ts : tables) (M : gmap string marshal_desc) (S : gmap string service_desc)
  (extra : blocks_of) (m : memory W) (s : server W) : Prop := {
  rp_heap : heap_is (registry_blocks ts M S ++ extra) m;
  rp_marshals : map_Forall (fun sg d => signature (md_abs d) = sg) M;
  rp_services : map_Forall (fun n d => sd_text d = n /\ map_Forall (func_ok M m) (sd_funcs d)) S;
  rp_mtable : marshal_table s = Some (md_abs <$> M);
  rp_stable : service_table s = Some (abs_service <$> S)
}.

Lemma func_ok_ages M M' m m' fn d :
  func_ok M m fn d -> ages m m' -> M ⊆ M' -> func_ok M' m' fn d.
Proof.
  intros (Hn & Hk & dm & Hdm & Hi & Ha) [Hnext Hgone] Hsub. split; [done|]. split.
  - destruct Hk as [?|(Hne & Hlt & Hnone)]; [by left|right]. split; [done|]. split; [lia|]. by apply Hgone.
  - exists dm. split; [|done]. by eapply lookup_weaken.
Qed.

Lemma services_ages M M' m m' (S : gmap string service_desc) :
  map_Forall (fun n d => sd_text d = n /\ map_Forall (func_ok M m) (sd_funcs d)) S -> ages m m' -> M ⊆ M' ->
  map_Forall (fun n d => sd_text d = n /\ map_Forall (func_ok M' m') (sd_funcs d)) S.
Proof.
  intros HS Hage Hsub n d Hd. destruct (HS n d Hd) as [Ht Hf]. split; [done|].
  intros fn fd Hfd. eapply func_ok_ages; [by apply Hf|done|done].
Qed.

(** The operations that a server is administered with, each with the string its caller allocates. *)
Definition heap_op (ts : tables) (op : server_op W) : run (memory W) unit :=
  match op with
  | OpCreate n => _ <- heap_create_service ts n ;; rret tt
  | OpRemove n => heap_remove_service ts n
  | OpMarshal sg mf => sigp <- g_strdup sg ;; _ <- heap_register_marshal ts sigp mf ;; rret tt
  | OpRegister n f fn sg => sigp <- g_strdup sg ;; _ <- heap_register_function ts n f fn sigp ;; rret tt
  | OpReopen _ _ => rret tt
  end.

Fixpoint heap_ops (ts : tables) (ops : list (server_op W)) : run (memory W) unit :=
  match ops with
  | [] => rret tt
  | op :: ops' => _ <- heap_op ts op ;; heap_ops ts ops'
  end.

(** The signatures nobody frees: those given with the name of a service that does not exist. *)
Definition leaked_by (op : server_op W) (s : server W) : list (block W) :=
  match op with
  | OpRegister n _ _ sg =>
      match service_table s with
      | Some t => match t !! n with Some _ => [] | None => [BStr sg] end
      | None => []
      end
  | _ => []
  end.

Fixpoint leaked (ops : list (server_op W)) (s : server W) : list (block W) :=
  match ops with
  | [] => []
  | op :: ops' => leaked_by op s ++ match run_op op s with Ok s' => leaked ops' s' | _ => [] end
  end.

(** One operation of Server, on the heap. *)
Definition op_result (ts : tables) (op : server_op W) (extra : blocks_of) (m : memory W) (s s' : server W) : Prop :=
  exists m' M' S' lk, heap_op ts op m = Ok (tt, m') /\ represents ts M' S' (lk ++ extra) m' s' /\
    lk.*2 = leaked_by op s.

Lemma heap_create_sim ts M S extra m s n s' :
  represents ts M S extra m s -> run_op (OpCreate (Some n)) s = Ok s' -> op_result ts (OpCreate (Some n)) extra m s s'.
Proof.
  intros [Hh HM HS Hmt Hst] Hrun. cbn [run_op searpc_create_service] in Hrun. rewrite Hst in Hrun.
  cbn [table_of obind] in Hrun. rewrite lookup_fmap in Hrun.
  destruct (does_create_service ts M S extra n m Hh) as (r & m' & l' & Hop & Hh' & Hage & -> & S' & Hl' & HS').
  exists m', M, S', []. cbn [heap_op app]. rewrite (rbind_step _ _ _ _ _ Hop). split; [done|]. split; [|done].
  assert (heap_is (registry_blocks ts M S' ++ extra) m') as Hh'' by (by eapply heap_is_perm).
  destruct (S !! n) as [d|] eqn:Hn; cbn in Hrun; injection Hrun as <-.
  - rewrite decide_True in HS' by (by eexists). subst S'. constructor; try done. by eapply services_ages.
  - rewrite decide_False in HS' by (by intros []). destruct HS' as (d & -> & Ht & Hf).
    constructor; try done.
    + apply map_Forall_insert_2; [|by eapply services_ages]. rewrite Hf. split; [done|]. apply map_Forall_empty.
    + cbn [set_service_table service_table]. rewrite fmap_insert. unfold abs_service at 2.
      by rewrite Ht, Hf, fmap_empty.
Qed.

Lemma heap_remove_sim ts M S extra m s n s' :
  represents ts M S extra m s -> run_op (OpRemove (Some n)) s = Ok s' -> op_result ts (OpRemove (Some n)) extra m s s'.
Proof.
  intros [Hh HM HS Hmt Hst] Hrun. cbn [run_op searpc_remove_service] in Hrun. rewrite Hst in Hrun.
  cbn [table_of obind] in Hrun. injection Hrun as <-.
  destruct (does_remove_service ts M S extra n m Hh) as ([] & m' & l' & Hop & Hh' & Hage & Hl').
  exists m', M, (delete n S), []. split; [done|]. split; [|done]. constructor; try done.
  - by eapply heap_is_perm.
  - apply map_Forall_delete. by eapply services_ages.
  - cbn [set_service_table service_table]. by rewrite fmap_delete.
Qed.

Lemma heap_marshal_sim ts M S extra m s sg mf s' :
  represents ts M S extra m s -> run_op (OpMarshal sg mf) s = Ok s' -> op_result ts (OpMarshal sg mf) extra m s s'.
Proof.
  intros [Hh HM HS Hmt Hst] Hrun. cbn [run_op searpc_server_register_marshal] in Hrun. rewrite Hmt in Hrun.
  cbn [table_of obind] in Hrun. rewrite lookup_fmap in Hrun.
  destruct (does_new (BStr sg) (registry_blocks ts M S ++ extra) m Hh) as (sigp & m1 & l1 & Hnew & Hh1 & Hage1 & ->).
  assert (heap_is (registry_blocks ts M S ++ (sigp, BStr sg) :: extra) m1) as Hh1'
    by (eapply heap_is_perm; [done|]; solve_Permutation).
  destruct (does_register_marshal ts M S extra sigp sg mf m1 Hh1') as (r & m' & l' & Hop & Hh' & Hage & HQ).
  assert (ages m m') as Ha by (by etrans).
  assert (heap_op ts (OpMarshal sg mf) m = Ok (tt, m')) as Hrun'.
  { cbn [heap_op]. unfold g_strdup. rewrite (rbind_step _ _ _ _ _ Hnew). by rewrite (rbind_step _ _ _ _ _ Hop). }
  destruct (M !! sg) as [d|] eqn:Hsg; cbn in Hrun; injection Hrun as <-.
  - destruct HQ as [_ Hl']. exists m', M, S, []. split; [done|]. split; [|done]. constructor; try done.
    + by eapply heap_is_perm.
    + by eapply services_ages.
  - destruct HQ as [_ (d & Hd & Hl')]. exists m', (<[sg:=d]> M), S, []. split; [done|]. split; [|done].
    constructor; try done.
    + by eapply heap_is_perm.
    + apply map_Forall_insert_2; [by rewrite Hd|done].
    + eapply services_ages; [done|done|]. by apply insert_subseteq.
    + cbn [set_marshal_table marshal_table]. by rewrite fmap_insert, Hd.
Qed.

Lemma heap_register_sim ts M S extra m s n f fn sg s' :
  represents ts M S extra m s -> run_op (OpRegister n f fn sg) s = Ok s' ->
  op_result ts (OpRegister n f fn sg) extra m s s'.
Proof.
  intros [Hh HM HS Hmt Hst] Hrun. cbn [run_op searpc_server_register_function] in Hrun. rewrite Hst, Hmt in Hrun.
  cbn [table_of obind] in Hrun. rewrite !lookup_fmap in Hrun.
  destruct (does_new (BStr sg) (registry_blocks ts M S ++ extra) m Hh) as (sigp & m1 & l1 & Hnew & Hh1 & Hage1 & ->).
  assert (heap_is (registry_blocks ts M S ++ (sigp, BStr sg) :: extra) m1) as Hh1'
    by (eapply heap_is_perm; [done|]; solve_Permutation).
  assert (forall sd old, S !! n = Some sd -> sd_funcs sd !! fn = Some old -> is_Some (M !! sg) ->
    fd_key old = fd_fname old /\ fname (fd_abs old) = fn) as Hold.
  { intros sd old Hn Hfn [dm Hm]. rewrite Hn, Hm in Hrun. cbn [fmap option_fmap option_map] in Hrun.
    unfold insert_function in Hrun. cbn [fname abs_service func_table] in Hrun. rewrite lookup_fmap, Hfn in Hrun.
    cbn [fmap option_fmap option_map abs_node key_dangling] in Hrun. split.
    - apply Nat.eqb_eq. by destruct (fd_key old =? fd_fname old)%nat.
    - destruct (HS n sd Hn) as [_ Hf]. by destruct (Hf fn old Hfn). }
  destruct (does_register_function ts M S extra n f fn sigp sg Hold m1 Hh1') as (r & m' & l' & Hop & Hh' & Hage & HQ).
  assert (ages m m') as Ha by (by etrans).
  assert (heap_op ts (OpRegister n f fn sg) m = Ok (tt, m')) as Hrun'.
  { cbn [heap_op]. unfold g_strdup. rewrite (rbind_step _ _ _ _ _ Hnew). by rewrite (rbind_step _ _ _ _ _ Hop). }
  unfold op_result. cbn [leaked_by]. rewrite Hst, lookup_fmap.
  destruct (S !! n) as [sd|] eqn:Hn; cbn [fmap option_fmap option_map] in *.
  2: { cbn in Hrun. injection Hrun as <-. destruct HQ as [_ Hl']. exists m', M, S, [(sigp, BStr sg)].
       split; [done|]. split; [|done]. constructor; try done; [by eapply heap_is_perm|by eapply services_ages]. }
  destruct (M !! sg) as [dm|] eqn:Hm; cbn [fmap option_fmap option_map] in *.
  2: { cbn in Hrun. injection Hrun as <-. destruct HQ as [_ Hl']. exists m', M, S, [].
       split; [done|]. split; [|done]. constructor; try done; [by eapply heap_is_perm|by eapply services_ages]. }
  destruct HQ as [_ (fd & Habs & Hmar & Hkey & Hl')].
  exists m', M, (<[n:=set_funcs sd (<[fn:=fd]> (sd_funcs sd))]> S), []. split; [done|]. split; [|done].
  destruct (HS n sd Hn) as [Htext Hfuncs].
  assert (heap_is (registry_blocks ts M (<[n:=set_funcs sd (<[fn:=fd]> (sd_funcs sd))]> S) ++ extra) m') as Hh''
    by (by eapply heap_is_perm).
  assert (func_ok M m' fn fd) as Hfd.
  { split; [by rewrite Habs|]. split.
    - destruct (sd_funcs sd !! fn) as [old|] eqn:Hfn; [right|by left]. destruct Hkey as (Hk & Hne & Hgone).
      split; [done|]. rewrite Hk in *. split.
      + assert (blocks m !! fd_fname old = Some (BStr (fname (fd_abs old)))) as Hb.
        { eapply heap_lookup; [exact Hh|]. eapply service_in; [done|]. eapply func_in; [done|]. right. by left. }
        destruct Hh as [_ Hlt]. specialize (Hlt (fd_fname old) ltac:(by eexists)). destruct Ha as [? _]. lia.
      + destruct (blocks m' !! fd_fname old) as [b|] eqn:Hb; [|done]. exfalso. apply Hgone.
        apply (heap_lookup_inv l' m') in Hb; [|done]. by apply list_elem_of_fmap_2 with (f := fst) in Hb.
    - exists dm. rewrite Habs. cbn [marshal]. split; [|done]. by rewrite (HM sg dm Hm). }
  unfold insert_function in Hrun. cbn [fname abs_service func_table name] in Hrun. rewrite lookup_fmap in Hrun.
  constructor; try done.
  - apply map_Forall_insert_2; [|by eapply services_ages]. split; [done|]. cbn [set_funcs sd_funcs].
    apply map_Forall_insert_2; [done|]. intros fn' fd' Hfd'. eapply func_ok_ages; [by apply Hfuncs|done|done].
  - destruct (sd_funcs sd !! fn) as [old|]; cbn [fmap option_fmap option_map abs_node key_dangling] in Hrun;
      [destruct (negb _); [done|]|]; cbn in Hrun; by injection Hrun as <-.
  - rewrite fmap_insert. unfold abs_service at 1. cbn [set_funcs sd_text sd_funcs]. rewrite fmap_insert.
    unfold abs_node at 1. rewrite Habs.
    destruct (sd_funcs sd !! fn) as [old|]; cbn [fmap option_fmap option_map abs_node key_dangling] in Hrun.
    + destruct (negb _); [done|]. cbn in Hrun. injection Hrun as <-. cbn [service_table set_service_table].
      destruct Hkey as (_ & Hne & _). apply Nat.eqb_neq in Hne as ->. by cbn [negb].
    + cbn in Hrun. injection Hrun as <-. cbn [service_table set_service_table]. rewrite Hkey, Nat.eqb_refl. done.
Qed.

Lemma heap_op_sim ts op M S extra m s s' :
  represents ts M S extra m s -> run_op op s = Ok s' -> op_result ts op extra m s s'.
Proof.
  intros Hr Hrun. destruct op as [[n|]|[n|]|sg mf|n f fn sg|o c].
  - by eapply heap_create_sim.
  - cbn in Hrun. injection Hrun as <-. by exists m, M, S, [].
  - by eapply heap_remove_sim.
  - cbn in Hrun. injection Hrun as <-. by exists m, M, S, [].
  - by eapply heap_marshal_sim.
  - by eapply heap_register_sim.
  - exists m, M, S, []. split; [done|]. split; [|done]. cbn [run_op] in Hrun.
    apply obind_Ok in Hrun as (r & Hre & [= <-]). apply reopen_tables in Hre as [Em Es].
    destruct Hr. constructor; try done; congruence.
Qed.

Lemma heap_ops_sim ts ops : forall M S extra m s s',
  represents ts M S extra m s -> run_ops ops s = Ok s' ->
  exists m' M' S' lk, heap_ops ts ops m = Ok (tt, m') /\ represents ts M' S' (lk ++ extra) m' s' /\
    lk.*2 ≡ₚ leaked ops s.
Proof.
  induction ops as [|op ops IH]; intros M S extra m s s' Hr Hrun; cbn [run_ops] in Hrun.
  { injection Hrun as <-. by exists m, M, S, []. }
  apply obind_Ok in Hrun as (s1 & Hop & Hrun).
  destruct (heap_op_sim ts op M S extra m s s1 Hr Hop) as (m1 & M1 & S1 & lk1 & Hheap & Hr1 & Hlk1).
  destruct (IH M1 S1 (lk1 ++ extra) m1 s1 s' Hr1 Hrun) as (m2 & M2 & S2 & lk2 & Hheap2 & Hr2 & Hlk2).
  exists m2, M2, S2, (lk2 ++ lk1). cbn [heap_ops leaked]. rewrite (rbind_step _ _ _ _ _ Hheap).
  split; [done|]. rewrite <- app_assoc. split; [done|]. rewrite fmap_app, Hop, Hlk1, Hlk2. apply Permutation_app_comm.
Qed.

(** A table is made of nothing. *)
Lemma heap_init_sim m s extra :
  heap_is extra m ->
  exists ts m', heap_init m = Ok (ts, m') /\
    represents ts ∅ ∅ extra m' (set_service_table (Some ∅) (set_marshal_table (Some ∅) s)).
Proof.
  intros Hh. assert (does heap_init extra (fun ts l' => l' ≡ₚ registry_blocks ts ∅ ∅ ++ extra)) as Hdoes.
  { unfold heap_init, g_hash_table_new. eapply does_bind; [apply does_new|]. intros mt l' ->.
    eapply does_bind; [apply does_new|]. intros st l' ->. apply does_ret.
    unfold registry_blocks, owned. cbn [t_marshals t_services]. rewrite !fmap_empty, !map_to_list_empty.
    cbn. solve_Permutation. }
  destruct (Hdoes m Hh) as (ts & m' & l' & Hrun & Hh' & _ & Hl'). exists ts, m'. split; [done|].
  constructor; cbn [marshal_table service_table set_service_table set_marshal_table];
    [by eapply heap_is_perm|apply map_Forall_empty|apply map_Forall_empty|by rewrite fmap_empty..].
Qed.

(** ** Stale keys *)
(** Comparing with a key that was freed. *)
Lemma find_stale tab t key k v (l : blocks_of) m :
  heap_is l m -> (tab, BTable t) ∈ l -> t !! key = Some (k, v) -> blocks m !! k = None ->
  exists why, find_node tab key m = Undef why.
Proof.
  intros Hm Hin Hkey Hk.
  destruct (does_load_table tab t l Hin m Hm) as (t' & m' & l' & Hrun & Hm' & Hage & -> & ->).
  assert (m' = m) as ->.
  { unfold load_table, load, rbind in Hrun. rewrite (heap_lookup l m tab _ Hm Hin) in Hrun. by injection Hrun as <-. }
  unfold find_node. rewrite (rbind_step _ _ _ _ _ Hrun), Hkey. eexists. unfold load_string, load, rbind. cbn [fst].
  by rewrite Hk.
Qed.

(** Registration comes to the table of the service. *)
Lemma register_stale ts M S extra m n sd fn sigp sg f dm :
  heap_is (registry_blocks ts M S ++ extra) m -> (sigp, BStr sg) ∈ registry_blocks ts M S ++ extra ->
  S !! n = Some sd -> M !! sg = Some dm ->
  (forall l m', heap_is (registry_blocks ts M S ++ l) m' -> ages m m' ->
     exists why, find_node (sd_table sd) fn m' = Undef why) ->
  exists why, heap_register_function ts n f fn sigp m = Undef why.
Proof.
  intros Hh Hsig Hn Hm Hstale. unfold heap_register_function.
  eapply undef_then; [apply does_lookup_service|exact Hh|]. intros r m1 l1 Hm1 Hage1 [-> ->].
  rewrite Hn. cbn [fmap option_fmap option_map].
  eapply undef_then; [apply (does_load_string sigp sg _ Hsig)|exact Hm1|]. intros t m2 l2 Hm2 Hage2 [-> ->].
  eapply undef_then; [apply does_lookup_marshal|exact Hm2|]. intros r m3 l3 Hm3 Hage3 [-> ->].
  rewrite Hm. cbn [fmap option_fmap option_map].
  eapply undef_then; [apply (does_load (sd_item sd) (BService (sd_name sd) (sd_table sd)));
    eapply service_in; [done|by left]|exact Hm3|]. intros b m4 l4 Hm4 Hage4 [-> ->].
  eapply undef_then; [apply does_new|exact Hm4|]. intros item m5 l5 Hm5 Hage5 ->.
  eapply undef_then; [apply does_new|exact Hm5|]. intros name m6 l6 Hm6 Hage6 ->.
  eapply undef_then; [apply does_store|exact (heap_is_perm _ _ _ Hm6 (Permutation_swap _ _ _))|].
  intros [] m7 l7 Hm7 Hage7 ->.
  apply rbind_undef. unfold g_hash_table_insert.
  eapply undef_then; [apply (does_load_string name fn); right; by left|exact Hm7|].
  intros t m8 l8 Hm8 Hage8 [-> ->].
  apply rbind_undef.
  apply (Hstale ((item, BFuncItem f name (md_item dm)) :: (name, BStr fn) :: extra)).
  - eapply heap_is_perm; [exact Hm8|]. solve_Permutation.
  - by repeat (etrans; [eassumption|]).
Qed.
End Registry.

(** ** Properties *)
Section OwnershipProperties.
Context `{Jansson} `{GObjectClasses} {W : Type}.
Implicit Types (s : server W) (m : memory W).

(** C12: the memory of the registry: from initialisation through any operations that do not touch a
    stale key, every read, write and free in the heap is of an allocated block, the heap holds
    exactly the blocks of the registry that Server describes and the signatures that were leaked
    (those given for a service that does not exist), and [searpc_server_final] frees exactly the
    rest: nothing twice, nothing else forgotten. *)
Theorem registry_memory_exact ops m s0 s :
  heap_is [] m ->
  run_ops ops (set_service_table (Some ∅) (set_marshal_table (Some ∅) s0)) = Ok s ->
  exists ts m1 m2 m3 M S lk,
    heap_init m = Ok (ts, m1) /\ heap_ops ts ops m1 = Ok (tt, m2) /\ represents ts M S lk m2 s /\
    heap_final ts m2 = Ok (tt, m3) /\ map_to_list (blocks m3) ≡ₚ lk /\
    lk.*2 ≡ₚ leaked ops (set_service_table (Some ∅) (set_marshal_table (Some ∅) s0)).
Proof.
  intros Hm Hrun. destruct (heap_init_sim m s0 [] Hm) as (ts & m1 & Hinit & Hr1).
  destruct (heap_ops_sim ts ops ∅ ∅ [] m1 _ s Hr1 Hrun) as (m2 & M & S & lk & Hops & Hr2 & Hlk).
  rewrite app_nil_r in Hr2. destruct (does_final ts M S lk m2 (rp_heap _ _ _ _ _ _ Hr2)) as ([] & m3 & l3 & Hfin & [Hh3 _] & _ & Hl3).
  exists ts, m1, m2, m3, M, S, lk. split_and!; try done. by rewrite Hh3.
Qed.

(** The look-up of a call in the heap finds what Server says is registered, when the key of that
    name is not stale, and leaves the memory as it was. *)
Theorem heap_lookup_agrees ts M S extra m s n fn :
  represents ts M S extra m s ->
  (forall sd old, S !! n = Some sd -> sd_funcs sd !! fn = Some old -> fd_key old = fd_fname old) ->
  exists m', heap_lookup_function ts n fn m =
      Ok ((fun it => (func it, mfunc (marshal it))) <$> registered s n fn, m') /\
    represents ts M S extra m' s.
Proof.
  intros Hr Hkey. pose proof Hr as [Hh HM HS Hmt Hst].
  assert (does (heap_lookup_function ts n fn) (registry_blocks ts M S ++ extra) (fun r l' =>
    r = (fun it => (func it, mfunc (marshal it))) <$> registered s n fn /\
    l' = registry_blocks ts M S ++ extra)) as Hdoes.
  { unfold heap_lookup_function, registered. rewrite Hst. cbn [mbind option_bind]. rewrite lookup_fmap.
    eapply does_bind; [apply does_lookup_service|]. intros r l' [-> ->].
    destruct (S !! n) as [sd|] eqn:Hn; cbn [fmap option_fmap option_map mbind option_bind]; [|by apply does_ret].
    eapply does_bind; [apply (does_load (sd_item sd) (BService (sd_name sd) (sd_table sd)));
      eapply service_in; [done|by left]|]. intros b l' [-> ->]. cbn [abs_service func_table]. rewrite lookup_fmap.
    eapply does_bind.
    { eapply (does_lookup _ _ fn (func_ptrs <$> sd_funcs sd !! fn)); [|apply lookup_fmap|].
      - eapply service_in; [done|]. right. right. by left.
      - intros k v Hkv. destruct (sd_funcs sd !! fn) as [old|] eqn:Hfn; [|done]. injection Hkv as <- <-.
        exists (fname (fd_abs old)). rewrite (Hkey sd old eq_refl Hfn).
        eapply service_in; [done|]. eapply func_in; [done|]. right. by left. }
    intros r l' [-> ->].
    destruct (sd_funcs sd !! fn) as [fd|] eqn:Hfn; cbn [fmap option_fmap option_map]; [|by apply does_ret].
    destruct (HS n sd Hn) as [_ Hf]. destruct (Hf fn fd Hfn) as (_ & _ & dm & Hdm & Hitem & Habs).
    eapply does_bind; [apply (does_load (fd_item fd) (BFuncItem (func (fd_abs fd)) (fd_fname fd) (fd_marshal fd)));
      eapply service_in; [done|]; eapply func_in; [done|by left]|]. intros b l' [-> ->].
    rewrite <- Hitem.
    eapply does_bind; [apply (does_load (md_item dm) (BMarshalItem (mfunc (md_abs dm)) (md_sig dm)));
      eapply marshal_in; [done|by left]|]. intros b l' [-> ->].
    apply does_ret. cbn. by rewrite Habs. }
  destruct (Hdoes m Hh) as (r & m' & l' & Hrun & Hh' & Hage & -> & ->). exists m'. split; [done|].
  constructor; try done. by eapply services_ages.
Qed.

(** A stale key is read: on the heap of a registry where a name was registered twice (the table
    kept the first name as its key, and freed it), registering the name again and looking it up
    both follow a pointer to freed memory. *)
Theorem stale_key_followed ts M S extra m s n sd fn old sg f :
  represents ts M S extra m s -> S !! n = Some sd -> sd_funcs sd !! fn = Some old ->
  fd_key old <> fd_fname old -> is_Some (M !! sg) ->
  (exists why, heap_op ts (OpRegister n f fn sg) m = Undef why) /\
  (exists why, heap_lookup_function ts n fn m = Undef why) /\
  exists why, run_op (OpRegister n f fn sg) s = Undef why.
Proof.
  intros Hr Hn Hfn Hne [dm Hm]. pose proof Hr as [Hh HM HS Hmt Hst].
  destruct (HS n sd Hn) as [_ Hf]. destruct (Hf fn old Hfn) as (_ & [?|(_ & Hlt & Hgone)] & _); [done|].
  assert (func_ptrs <$> sd_funcs sd !! fn = Some (fd_key old, fd_item old)) as Hnode by (by rewrite Hfn).
  rewrite <- lookup_fmap in Hnode.
  assert (forall l m', heap_is (registry_blocks ts M S ++ l) m' -> ages m m' ->
    exists why, find_node (sd_table sd) fn m' = Undef why) as Hstale.
  { intros l m' Hm' Hage. eapply find_stale; [exact Hm'| |exact Hnode|by apply Hage].
    eapply service_in; [done|]. right. right. by left. }
  split; [|split].
  - cbn [heap_op]. eapply undef_then; [apply does_new|exact Hh|]. intros sigp m1 l1 Hm1 Hage ->.
    apply rbind_undef.
    apply (register_stale ts M S ((sigp, BStr sg) :: extra) m1 n sd fn sigp sg f dm); try done.
    + eapply heap_is_perm; [exact Hm1|]. solve_Permutation.
    + apply elem_of_app. right. by left.
    + intros l m' Hm' Hage'. eapply Hstale; [exact Hm'|by etrans].
  - unfold heap_lookup_function.
    eapply undef_then; [apply does_lookup_service|exact Hh|]. intros r m1 l1 Hm1 Hage [-> ->].
    rewrite Hn. cbn [fmap option_fmap option_map].
    eapply undef_then; [apply (does_load (sd_item sd) (BService (sd_name sd) (sd_table sd)));
      eapply service_in; [done|by left]|exact Hm1|]. intros b m2 l2 Hm2 Hage2 [-> ->].
    apply rbind_undef. unfold g_hash_table_lookup. apply rbind_undef. eapply Hstale; [exact Hm2|by etrans].
  - cbn [run_op searpc_server_register_function]. rewrite Hst, Hmt. cbn [table_of obind].
    rewrite !lookup_fmap, Hn, Hm. cbn [fmap option_fmap option_map]. unfold insert_function.
    cbn [abs_service func_table fname]. rewrite lookup_fmap, Hfn. cbn [fmap option_fmap option_map abs_node key_dangling].
    apply Nat.eqb_neq in Hne as ->. by eexists.
Qed.
End OwnershipProperties.
