(* ===== verification/JsonMemory.v ===== *)
(** * JsonMemory: who owns what a call allocates

    The code of a call once more, with its memory: JSON values, C strings, objects, lists and errors
    are blocks of a Heap.  Every value here has one owner.  A [json_t] that is put into a container
    is stolen ([json_object_set_new], [json_array_append_new]): its block becomes part of the
    container's; what a getter returns is borrowed, and using it reads the container's block, so
    that a use after [json_decref] is undefined.  This file has the allocating functions of
    Jansson, GLib and GObject as documented, the helpers of lib/searpc-utils.h and
    [json_gobject_serialize], and the rules of the logic for them.  (The immortal values of
    [json_null] and the like are blocks too: every one is stolen by a container.) *)
From S2P Require Import Prelude Json Runtime Utils GObject Marshal Heap.

(** ** Blocks *)
Section Cells.
Context `{GObjectLib} {D : Type}.

Inductive cell :=
| MJson (v : json)            (* a json_t that is no part of a container *)
| MText (s : string)          (* a C string *)
| MReply (b : cbuf)           (* the buffer of a reply *)
| MObject (o : gobject)       (* a GObject with one reference *)
| MList (items : list ptr)    (* a GList of objects *)
| MError (e : GError)
| MData (d : D).              (* an AsyncCallData *)
End Cells.
Arguments cell {_} D.

(** A return value: a number, or a pointer that may be NULL. *)
Inductive mret := MInt (z : Z) | MPtr (p : option ptr).

(** A [GError **]: NULL, or the address of a [GError *]. *)
Inductive mem_gerror := MErrNull | MErrAt (e : option ptr).

Section JsonMemory.
Context `{Jansson} `{GObjectClasses} {D W : Type}.
Local Abbreviation mem A := (run (heap (cell D) * W) A).

Definition in_heap {A} (op : run (heap (cell D)) A) : mem A := fun x =>
  r <~ op x.1 ;; Ok (r.1, (r.2, x.2)).
Definition in_world {A} (op : run W A) : mem A := fun x =>
  r <~ op x.2 ;; Ok (r.1, (x.1, r.2)).

Definition new (b : cell D) : mem ptr := in_heap (g_new b).
Definition free (p : ptr) : mem unit := in_heap (g_free p).

Definition as_json (p : ptr) : mem json :=
  b <- in_heap (load p) ;; match b with MJson v => rret v | _ => fun _ => Undef "not a json_t" end.
Definition as_text (p : ptr) : mem string :=
  b <- in_heap (load p) ;; match b with MText s => rret s | _ => fun _ => Undef "not a string" end.
Definition as_reply (p : ptr) : mem cbuf :=
  b <- in_heap (load p) ;; match b with MReply r => rret r | _ => fun _ => Undef "not a reply" end.
Definition as_object (p : ptr) : mem gobject :=
  b <- in_heap (load p) ;; match b with MObject o => rret o | _ => fun _ => Undef "not a GObject" end.
Definition as_list (p : ptr) : mem (list ptr) :=
  b <- in_heap (load p) ;; match b with MList l => rret l | _ => fun _ => Undef "not a GList" end.
Definition as_error (p : ptr) : mem GError :=
  b <- in_heap (load p) ;; match b with MError e => rret e | _ => fun _ => Undef "not a GError" end.
Definition as_data (p : ptr) : mem D :=
  b <- in_heap (load p) ;; match b with MData d => rret d | _ => fun _ => Undef "not an AsyncCallData" end.

(** ** Jansson *)

(** A constructor that may return NULL. *)
Definition new_json (v : option json) : mem (option ptr) :=
  match v with Some v => p <- new (MJson v) ;; rret (Some p) | None => rret None end.

(** The value is stolen whatever happens. *)
Definition mem_object_set_new (object : ptr) (key : string) (value : option ptr) : mem unit :=
  o <- as_json object ;;
  match value with
  | None => in_heap (store object (MJson (json_object_set_new o key None)))
  | Some p =>
      v <- as_json p ;;
      _ <- free p ;;
      in_heap (store object (MJson (json_object_set_new o key (Some v))))
  end.

Definition mem_array_append_new (array : ptr) (value : option ptr) : mem unit :=
  a <- as_json array ;;
  match value with
  | None => in_heap (store array (MJson (json_array_append_new a None)))
  | Some p =>
      v <- as_json p ;;
      _ <- free p ;;
      in_heap (store array (MJson (json_array_append_new a (Some v))))
  end.

(** [json_decref] of a value with one reference; NULL is allowed. *)
Definition mem_json_decref (p : option ptr) : mem unit :=
  match p with
  | None => rret tt
  | Some p => _ <- as_json p ;; free p
  end.

Definition mem_json_dumps (flags : dump_flags) (p : ptr) : mem (option ptr) :=
  v <- as_json p ;;
  match json_dumps flags v with
  | Some s => q <- new (MText s) ;; rret (Some q)
  | None => rret None
  end.

Definition mem_json_loadb (text : string) : mem (string + ptr) :=
  match json_loadb text with
  | inl jerror => rret (inl jerror)
  | inr v => p <- new (MJson v) ;; rret (inr p)
  end.

(** ** GLib *)
Definition mem_g_strdup (s : option string) : mem (option ptr) :=
  match s with Some s => p <- new (MText s) ;; rret (Some p) | None => rret None end.

(** [g_free] of a string that may be NULL. *)
Definition mem_g_free (p : option ptr) : mem unit :=
  match p with None => rret tt | Some p => _ <- as_text p ;; free p end.

(** [g_set_error]; an error that is already there is kept. *)
Definition mem_set_error (error : mem_gerror) (domain : gquark) (code : Z) (message : string) : mem mem_gerror :=
  match error with
  | MErrNull => rret MErrNull
  | MErrAt None => p <- new (MError (mkGError domain code message)) ;; rret (MErrAt (Some p))
  | MErrAt (Some p) => rret (MErrAt (Some p))
  end.

Definition mem_g_error_free (p : ptr) : mem unit := _ <- as_error p ;; free p.

(** [g_object_unref] of the only reference. *)
Definition mem_g_object_unref (p : ptr) : mem unit := _ <- as_object p ;; free p.

(** The loop over a list that drops its objects. *)
Fixpoint unref_all (items : list ptr) : mem unit :=
  match items with
  | [] => rret tt
  | p :: items' => _ <- mem_g_object_unref p ;; unref_all items'
  end.

(** ** lib/searpc-utils.h *)
Definition mem_setjetoge (jerror : string) (error : mem_gerror) : mem mem_gerror :=
  mem_set_error error SEARPC_JSON_DOMAIN (json_error_code SEARPC_JSON_ERROR_LOAD) jerror.

Definition mem_object_set_string_or_null_member (object : ptr) (member_name : string) (value : option string)
  : mem unit :=
  match value with
  | Some v => p <- new_json (json_string v) ;; mem_object_set_new object member_name p
  | None => p <- new (MJson json_null) ;; mem_object_set_new object member_name (Some p)
  end.

Definition mem_array_add_string_or_null_element (array : ptr) (value : option string) : mem unit :=
  match value with
  | Some v => p <- new_json (json_string v) ;; mem_array_append_new array p
  | None => p <- new (MJson json_null) ;; mem_array_append_new array (Some p)
  end.

(** [value] belongs to the caller. *)
Definition mem_array_add_json_or_null_element (array : ptr) (value : option json) : mem unit :=
  match value with
  | Some v => obj <- new_json (json_deep_copy (Some v)) ;; mem_array_append_new array obj
  | None => p <- new (MJson json_null) ;; mem_array_append_new array (Some p)
  end.

(** ** lib/searpc-utils.c: serialization *)
Definition mem_serialize_pspec (serialize : gobject -> mem ptr) (value_type : gtype) (value : gdata gobject)
  : mem (option ptr) :=
  match g_type_fundamental value_type with
  | G_TYPE_OBJECT =>
      match g_value_get_object value with
      | Some object => p <- serialize object ;; rret (Some p)
      | None => p <- new (MJson json_null) ;; rret (Some p)
      end
  | _ =>
      node <- rlift (json_serialize_pspec (fun _ => Undef "not an object") value_type value) ;;
      new_json node
  end.

Fixpoint mem_serialize_properties (serialize : gobject -> mem ptr) (gobj : gobject) (pspecs : list GParamSpec)
  (object : ptr) : mem unit :=
  match pspecs with
  | [] => rret tt
  | pspec :: pspecs' =>
      node <- mem_serialize_pspec serialize (ps_value_type pspec) (g_object_get_property gobj (ps_name pspec)) ;;
      _ <- match node with
           | Some p => mem_object_set_new object (ps_name pspec) (Some p)
           | None => rret tt
           end ;;
      mem_serialize_properties serialize gobj pspecs' object
  end.

Fixpoint mem_gobject_serialize (stack : nat) (gobj : gobject) : mem ptr :=
  match stack with
  | O => fun _ => Undef "stack overflow in json_gobject_serialize"
  | S stack' =>
      object <- new (MJson json_object) ;;
      _ <- mem_serialize_properties (mem_gobject_serialize stack') gobj
             (g_object_class_list_properties (g_object_type gobj)) object ;;
      rret object
  end.
End JsonMemory.

(** ** The logic with a world beside the heap *)
Section Logic.
Context `{Jansson} `{GObjectClasses} {D W : Type}.
Local Abbreviation mem A := (run (heap (cell D) * W) A).
Local Abbreviation cells := (list (ptr * cell D)).
Implicit Types (l : cells) (x : W).

(** On a heap of exactly [l] and the world [x] the operation returns, and [Q] holds of the result,
    the world and the blocks it leaves. *)
Definition wp {A} (op : mem A) l x (Q : A -> W -> cells -> Prop) : Prop :=
  forall m, heap_is l m -> exists a m' x' l', op (m, x) = Ok (a, (m', x')) /\ heap_is l' m' /\ Q a x' l'.

Lemma wp_ret {A} (a : A) l x (Q : A -> W -> cells -> Prop) : Q a x l -> wp (rret a) l x Q.
Proof. intros HQ m Hm. by exists a, m, x, l. Qed.

Lemma wp_bind {A B} (op : mem A) (k : A -> mem B) l x Q :
  wp op l x (fun a x' l' => wp (k a) l' x' Q) -> wp (rbind op k) l x Q.
Proof.
  intros Hop m Hm. destruct (Hop m Hm) as (a & m1 & x1 & l1 & Hrun & Hm1 & Hk).
  destruct (Hk m1 Hm1) as (b & m2 & x2 & l2 & Hrun2 & Hm2 & HQ).
  exists b, m2, x2, l2. by rewrite (rbind_step _ _ _ _ _ Hrun).
Qed.

Lemma wp_mono {A} (op : mem A) l x (P Q : A -> W -> cells -> Prop) :
  wp op l x P -> (forall a x' l', P a x' l' -> Q a x' l') -> wp op l x Q.
Proof. intros Hop HPQ m Hm. destruct (Hop m Hm) as (a & m' & x' & l' & ? & ? & ?). exists a, m', x', l'. eauto. Qed.

Lemma wp_perm {A} (op : mem A) l l' x Q : l ≡ₚ l' -> wp op l' x Q -> wp op l x Q.
Proof. intros Hp Hop m Hm. apply Hop. by eapply heap_is_perm. Qed.

(** The blocks that are left may be presented in any order. *)
Lemma wp_perm_post {A} (op : mem A) l x (Q : A -> W -> cells -> Prop) :
  wp op l x (fun a x' l' => exists l2, l' ≡ₚ l2 /\ Q a x' l2) -> wp op l x Q.
Proof.
  intros Hop m Hm. destruct (Hop m Hm) as (a & m' & x' & l' & ? & ? & l2 & ? & ?).
  exists a, m', x', l2. split; [done|]. split; [by eapply heap_is_perm|done].
Qed.

Lemma wp_lift {A} (o : outcome A) (a : A) l x (Q : A -> W -> cells -> Prop) :
  o = Ok a -> Q a x l -> wp (rlift o) l x Q.
Proof. intros -> HQ m Hm. by exists a, m, x, l. Qed.

Lemma wp_world {A} (op : run W A) a l x x' (Q : A -> W -> cells -> Prop) :
  op x = Ok (a, x') -> Q a x' l -> wp (in_world op) l x Q.
Proof. intros Hop HQ m Hm. exists a, m, x', l. unfold in_world. cbn [snd]. by rewrite Hop. Qed.

Lemma wp_heap {A} (op : run (heap (cell D)) A) l x (P : A -> cells -> Prop) (Q : A -> W -> cells -> Prop) :
  does op l P -> (forall a l', P a l' -> exists l2, l' ≡ₚ l2 /\ Q a x l2) -> wp (in_heap op) l x Q.
Proof.
  intros Hop HQ m Hm. destruct (Hop m Hm) as (a & m' & l' & Hrun & Hm' & _ & HP).
  destruct (HQ a l' HP) as (l2 & Hp & HQ2). exists a, m', x, l2. unfold in_heap. cbn [fst]. rewrite Hrun.
  split; [done|]. split; [by eapply heap_is_perm|done].
Qed.

Lemma wp_new b l x (Q : ptr -> W -> cells -> Prop) : (forall p, Q p x ((p, b) :: l)) -> wp (new b) l x Q.
Proof. intros HQ. eapply wp_heap; [apply does_new|]. intros p l' ->. by eexists. Qed.

Lemma wp_load p b l x (Q : cell D -> W -> cells -> Prop) : (p, b) ∈ l -> Q b x l -> wp (in_heap (load p)) l x Q.
Proof. intros Hin HQ. eapply wp_heap; [by apply does_load|]. intros b' l' [-> ->]. by eexists. Qed.

Lemma wp_free p b l l0 x (Q : unit -> W -> cells -> Prop) :
  l ≡ₚ (p, b) :: l0 -> Q tt x l0 -> wp (free p) l x Q.
Proof.
  intros Hl HQ. eapply wp_perm; [exact Hl|]. eapply wp_heap; [apply does_free|]. intros [] l' ->. by eexists.
Qed.

Lemma wp_store p b b' l l0 x (Q : unit -> W -> cells -> Prop) :
  l ≡ₚ (p, b) :: l0 -> Q tt x ((p, b') :: l0) -> wp (in_heap (store p b')) l x Q.
Proof.
  intros Hl HQ. eapply wp_perm; [exact Hl|]. eapply wp_heap; [apply does_store|]. intros [] l' ->. by eexists.
Qed.
End Logic.

(** One step: a bind of an operation with a rule; memberships and permutations of literal lists. *)
Ltac in_cells := repeat first [apply list_elem_of_here | apply list_elem_of_further].
Ltac wp_step := apply wp_bind.

Section Rules.
Context `{Jansson} `{GObjectClasses} {D W : Type}.
Local Abbreviation mem A := (run (heap (cell D) * W) A).
Local Abbreviation cells := (list (ptr * cell D)).
Implicit Types (l : cells) (x : W).

(** ** Reading *)
Lemma wp_as_json p v l x (Q : json -> W -> cells -> Prop) : (p, MJson v) ∈ l -> Q v x l -> wp (as_json p) l x Q.
Proof. intros. apply wp_bind. eapply wp_load; [done|]. by apply wp_ret. Qed.
Lemma wp_as_text p s l x (Q : string -> W -> cells -> Prop) : (p, MText s) ∈ l -> Q s x l -> wp (as_text p) l x Q.
Proof. intros. apply wp_bind. eapply wp_load; [done|]. by apply wp_ret. Qed.
Lemma wp_as_reply p r l x (Q : cbuf -> W -> cells -> Prop) : (p, MReply r) ∈ l -> Q r x l -> wp (as_reply p) l x Q.
Proof. intros. apply wp_bind. eapply wp_load; [done|]. by apply wp_ret. Qed.
Lemma wp_as_object p o l x (Q : gobject -> W -> cells -> Prop) : (p, MObject o) ∈ l -> Q o x l -> wp (as_object p) l x Q.
Proof. intros. apply wp_bind. eapply wp_load; [done|]. by apply wp_ret. Qed.
Lemma wp_as_list p i l x (Q : list ptr -> W -> cells -> Prop) : (p, MList i) ∈ l -> Q i x l -> wp (as_list p) l x Q.
Proof. intros. apply wp_bind. eapply wp_load; [done|]. by apply wp_ret. Qed.
Lemma wp_as_error p e l x (Q : GError -> W -> cells -> Prop) : (p, MError e) ∈ l -> Q e x l -> wp (as_error p) l x Q.
Proof. intros. apply wp_bind. eapply wp_load; [done|]. by apply wp_ret. Qed.
Lemma wp_as_data p d l x (Q : D -> W -> cells -> Prop) : (p, MData d) ∈ l -> Q d x l -> wp (as_data p) l x Q.
Proof. intros. apply wp_bind. eapply wp_load; [done|]. by apply wp_ret. Qed.

(** ** Allocating *)

(** The block of a pointer that may be NULL. *)
Definition opt_cell (p : option ptr) (b : option (cell D)) : cells :=
  match p, b with Some p, Some b => [(p, b)] | _, _ => [] end.

Lemma wp_new_json v l x (Q : option ptr -> W -> cells -> Prop) :
  (forall p, (is_Some p <-> is_Some v) -> Q p x (opt_cell p (MJson <$> v) ++ l)) -> wp (new_json v) l x Q.
Proof.
  intros HQ. destruct v as [v|]; cbn [new_json].
  - apply wp_bind, wp_new. intros p. apply wp_ret. apply (HQ (Some p)). split; by eexists.
  - apply wp_ret. by apply (HQ None).
Qed.

Lemma wp_strdup s l x (Q : option ptr -> W -> cells -> Prop) :
  (forall p, (is_Some p <-> is_Some s) -> Q p x (opt_cell p (MText <$> s) ++ l)) -> wp (mem_g_strdup s) l x Q.
Proof.
  intros HQ. destruct s as [s|]; cbn [mem_g_strdup].
  - apply wp_bind, wp_new. intros p. apply wp_ret. apply (HQ (Some p)). split; by eexists.
  - apply wp_ret. by apply (HQ None).
Qed.

(** ** Stealing *)
Lemma wp_set_new object key p v o l l0 x (Q : unit -> W -> cells -> Prop) :
  l ≡ₚ opt_cell p (MJson <$> v) ++ (object, MJson o) :: l0 -> (is_Some p <-> is_Some v) ->
  Q tt x ((object, MJson (json_object_set_new o key v)) :: l0) -> wp (mem_object_set_new object key p) l x Q.
Proof.
  intros Hl Hp HQ. apply (wp_perm _ _ _ _ _ Hl). unfold mem_object_set_new.
  destruct p as [p|], v as [v|]; cbn [opt_cell fmap option_fmap option_map app];
    rewrite !is_Some_alt in Hp; try tauto.
  - apply wp_bind. eapply (wp_as_json object o); [in_cells|]. apply wp_bind. eapply (wp_as_json p v); [in_cells|].
    apply wp_bind. eapply (wp_free p); [reflexivity|]. eapply wp_store; [reflexivity|done].
  - apply wp_bind. eapply (wp_as_json object o); [in_cells|]. eapply wp_store; [reflexivity|done].
Qed.

Lemma wp_append_new array p v a l l0 x (Q : unit -> W -> cells -> Prop) :
  l ≡ₚ opt_cell p (MJson <$> v) ++ (array, MJson a) :: l0 -> (is_Some p <-> is_Some v) ->
  Q tt x ((array, MJson (json_array_append_new a v)) :: l0) -> wp (mem_array_append_new array p) l x Q.
Proof.
  intros Hl Hp HQ. apply (wp_perm _ _ _ _ _ Hl). unfold mem_array_append_new.
  destruct p as [p|], v as [v|]; cbn [opt_cell fmap option_fmap option_map app];
    rewrite !is_Some_alt in Hp; try tauto.
  - apply wp_bind. eapply (wp_as_json array a); [in_cells|]. apply wp_bind. eapply (wp_as_json p v); [in_cells|].
    apply wp_bind. eapply (wp_free p); [reflexivity|]. eapply wp_store; [reflexivity|done].
  - apply wp_bind. eapply (wp_as_json array a); [in_cells|]. eapply wp_store; [reflexivity|done].
Qed.

(** ** Releasing *)
Lemma wp_decref p v l l0 x (Q : unit -> W -> cells -> Prop) :
  l ≡ₚ (p, MJson v) :: l0 -> Q tt x l0 -> wp (mem_json_decref (Some p)) l x Q.
Proof.
  intros Hl HQ. apply (wp_perm _ _ _ _ _ Hl). apply wp_bind. eapply wp_as_json; [in_cells|].
  eapply wp_free; [reflexivity|done].
Qed.

Lemma wp_g_free p s l l0 x (Q : unit -> W -> cells -> Prop) :
  l ≡ₚ (p, MText s) :: l0 -> Q tt x l0 -> wp (mem_g_free (Some p)) l x Q.
Proof.
  intros Hl HQ. apply (wp_perm _ _ _ _ _ Hl). apply wp_bind. eapply wp_as_text; [in_cells|].
  eapply wp_free; [reflexivity|done].
Qed.

Lemma wp_g_error_free p e l l0 x (Q : unit -> W -> cells -> Prop) :
  l ≡ₚ (p, MError e) :: l0 -> Q tt x l0 -> wp (mem_g_error_free p) l x Q.
Proof.
  intros Hl HQ. apply (wp_perm _ _ _ _ _ Hl). apply wp_bind. eapply wp_as_error; [in_cells|].
  eapply wp_free; [reflexivity|done].
Qed.

Lemma wp_unref p o l l0 x (Q : unit -> W -> cells -> Prop) :
  l ≡ₚ (p, MObject o) :: l0 -> Q tt x l0 -> wp (mem_g_object_unref p) l x Q.
Proof.
  intros Hl HQ. apply (wp_perm _ _ _ _ _ Hl). apply wp_bind. eapply wp_as_object; [in_cells|].
  eapply wp_free; [reflexivity|done].
Qed.

(** Objects in a list. *)
Definition object_cells (items : list ptr) (os : list gobject) : cells := zip items (MObject <$> os).

Lemma wp_unref_all items os l l0 x (Q : unit -> W -> cells -> Prop) :
  length items = length os -> l ≡ₚ object_cells items os ++ l0 -> Q tt x l0 -> wp (unref_all items) l x Q.
Proof.
  revert os l. induction items as [|p items IH]; intros [|o os] l Hlen Hl HQ; try done.
  { apply (wp_perm _ _ _ _ _ Hl). by apply wp_ret. }
  apply wp_bind. eapply wp_unref; [exact Hl|]. eapply IH; [by injection Hlen|reflexivity|done].
Qed.

(** A return value and its blocks. *)
Inductive owns_ret : cret -> mret -> cells -> Prop :=
| own_null_string : owns_ret (RString None) (MPtr None) []
| own_null_object : owns_ret (RObject None) (MPtr None) []
| own_null_list : owns_ret (RObjlist []) (MPtr None) []
| own_null_json : owns_ret (RJson None) (MPtr None) []
| own_int z : owns_ret (RInt z) (MInt z) []
| own_int64 z : owns_ret (RInt64 z) (MInt z) []
| own_string p s : owns_ret (RString (Some s)) (MPtr (Some p)) [(p, MText s)]
| own_object p o : owns_ret (RObject (Some o)) (MPtr (Some p)) [(p, MObject o)]
| own_json p v : owns_ret (RJson (Some v)) (MPtr (Some p)) [(p, MJson v)]
| own_list p items os :
    os <> [] -> length items = length os ->
    owns_ret (RObjlist os) (MPtr (Some p)) ((p, MList items) :: object_cells items os).

(** ** Texts *)
Lemma wp_dumps fl p v s l x (Q : option ptr -> W -> cells -> Prop) :
  (p, MJson v) ∈ l -> json_dumps fl v = Some s -> (forall q, Q (Some q) x ((q, MText s) :: l)) ->
  wp (mem_json_dumps fl p) l x Q.
Proof.
  intros Hin Hs HQ. apply wp_bind. eapply wp_as_json; [done|]. rewrite Hs. apply wp_bind, wp_new.
  intros q. apply wp_ret, HQ.
Qed.

(** ** Errors *)

(** An error and the block it is in. *)
Inductive owns_error : gerror_ptr -> mem_gerror -> cells -> Prop :=
| owns_no_address : owns_error ErrNull MErrNull []
| owns_no_error : owns_error (ErrAt None) (MErrAt None) []
| owns_an_error p e : owns_error (ErrAt (Some e)) (MErrAt (Some p)) [(p, MError e)].

Lemma wp_set_error error merror es domain code message l l0 x (Q : mem_gerror -> W -> cells -> Prop) :
  owns_error error merror es -> l ≡ₚ es ++ l0 ->
  (forall merror' es', owns_error (g_set_error error domain code message) merror' es' -> Q merror' x (es' ++ l0)) ->
  wp (mem_set_error merror domain code message) l x Q.
Proof.
  intros He Hl HQ. apply (wp_perm _ _ _ _ _ Hl). destruct He; cbn [mem_set_error g_set_error] in *.
  - apply wp_ret. apply (HQ _ []). constructor.
  - apply wp_bind, wp_new. intros p. apply wp_ret. apply (HQ _ [_]). constructor.
  - apply wp_ret. apply HQ. constructor.
Qed.

(** ** Helpers *)
Lemma wp_set_string_or_null object key value o l l0 x (Q : unit -> W -> cells -> Prop) :
  l ≡ₚ (object, MJson o) :: l0 ->
  Q tt x ((object, MJson (json_object_set_string_or_null_member o key value)) :: l0) ->
  wp (mem_object_set_string_or_null_member object key value) l x Q.
Proof.
  intros Hl HQ. destruct value as [v|]; apply wp_bind.
  - apply wp_new_json. intros p Hp. eapply (wp_set_new object key p (json_string v) o _ l0); [by rewrite Hl|done|done].
  - apply wp_new. intros p. eapply (wp_set_new object key (Some p) (Some json_null) o _ l0); [by rewrite Hl| |done].
    split; by eexists.
Qed.

Lemma wp_add_string_or_null array value a l l0 x (Q : unit -> W -> cells -> Prop) :
  l ≡ₚ (array, MJson a) :: l0 ->
  Q tt x ((array, MJson (json_array_add_string_or_null_element a value)) :: l0) ->
  wp (mem_array_add_string_or_null_element array value) l x Q.
Proof.
  intros Hl HQ. destruct value as [v|]; apply wp_bind.
  - apply wp_new_json. intros p Hp. eapply (wp_append_new array p (json_string v) a _ l0); [by rewrite Hl|done|done].
  - apply wp_new. intros p. eapply (wp_append_new array (Some p) (Some json_null) a _ l0); [by rewrite Hl| |done].
    split; by eexists.
Qed.

Lemma wp_add_json_or_null array value a l l0 x (Q : unit -> W -> cells -> Prop) :
  l ≡ₚ (array, MJson a) :: l0 ->
  Q tt x ((array, MJson (json_array_add_json_or_null_element a value)) :: l0) ->
  wp (mem_array_add_json_or_null_element array value) l x Q.
Proof.
  intros Hl HQ. destruct value as [v|]; apply wp_bind.
  - apply wp_new_json. intros p Hp. eapply (wp_append_new array p (json_deep_copy (Some v)) a _ l0); [by rewrite Hl|done|done].
  - apply wp_new. intros p. eapply (wp_append_new array (Some p) (Some json_null) a _ l0); [by rewrite Hl| |done].
    split; by eexists.
Qed.

(** A fresh value put into a container at once. *)
Lemma wp_set_fresh object key v o l l0 x (Q : unit -> W -> cells -> Prop) :
  l ≡ₚ (object, MJson o) :: l0 -> Q tt x ((object, MJson (json_object_set_new o key (Some v))) :: l0) ->
  wp (p <- new (MJson v) ;; mem_object_set_new object key (Some p)) l x Q.
Proof.
  intros Hl HQ. apply wp_bind, wp_new. intros p.
  eapply (wp_set_new object key (Some p) (Some v) o _ l0); [by rewrite Hl|split; by eexists|done].
Qed.

(** ** Serialization leaves the value and nothing else *)
Lemma wp_serialize_pspec ser mser t d node l x (Q : option ptr -> W -> cells -> Prop) :
  (forall o v l x (Q : ptr -> W -> cells -> Prop), ser o = Ok v -> (forall p, Q p x ((p, MJson v) :: l)) ->
     wp (mser o) l x Q) ->
  json_serialize_pspec ser t d = Ok node ->
  (forall p, (is_Some p <-> is_Some node) -> Q p x (opt_cell p (MJson <$> node) ++ l)) ->
  wp (mem_serialize_pspec mser t d) l x Q.
Proof.
  intros Hser Hnode HQ. unfold mem_serialize_pspec, json_serialize_pspec in *.
  destruct (g_type_fundamental t);
    try (apply wp_bind; eapply wp_lift; [exact Hnode|by apply wp_new_json]).
  destruct (g_value_get_object d) as [o|].
  - apply obind_Ok in Hnode as (v & Hv & [= <-]). apply wp_bind. eapply Hser; [exact Hv|].
    intros p. apply wp_ret. apply (HQ (Some p)). split; by eexists.
  - injection Hnode as <-. apply wp_bind, wp_new. intros p. apply wp_ret. apply (HQ (Some p)). split; by eexists.
Qed.

Lemma wp_serialize_properties ser mser gobj pspecs object o v l l0 x (Q : unit -> W -> cells -> Prop) :
  (forall o v l x (Q : ptr -> W -> cells -> Prop), ser o = Ok v -> (forall p, Q p x ((p, MJson v) :: l)) ->
     wp (mser o) l x Q) ->
  serialize_properties ser gobj pspecs o = Ok v -> l ≡ₚ (object, MJson o) :: l0 ->
  Q tt x ((object, MJson v) :: l0) -> wp (mem_serialize_properties mser gobj pspecs object) l x Q.
Proof.
  intros Hser. revert o l. induction pspecs as [|pspec pspecs IH]; intros o l Hv Hl HQ;
    cbn [serialize_properties mem_serialize_properties] in *.
  { injection Hv as ->. apply (wp_perm _ _ _ _ _ Hl). by apply wp_ret. }
  apply obind_Ok in Hv as (node & Hnode & Hv). apply wp_bind.
  eapply wp_serialize_pspec; [exact Hser|exact Hnode|]. intros p Hp. apply wp_bind.
  destruct p as [p|], node as [nd|]; rewrite !is_Some_alt in Hp; try tauto.
  - eapply (wp_set_new object _ (Some p) (Some nd) o _ l0); [by rewrite Hl|split; by eexists|].
    eapply IH; [exact Hv|reflexivity|done].
  - apply wp_ret. eapply IH; [exact Hv|exact Hl|done].
Qed.

Lemma wp_serialize stack : forall o v l x (Q : ptr -> W -> cells -> Prop),
  json_gobject_serialize stack o = Ok v -> (forall p, Q p x ((p, MJson v) :: l)) ->
  wp (mem_gobject_serialize stack o) l x Q.
Proof.
  induction stack as [|stack IH]; intros o v l x Q Hv HQ; [done|].
  cbn [json_gobject_serialize mem_gobject_serialize] in *. apply wp_bind, wp_new. intros p. apply wp_bind.
  eapply wp_serialize_properties; [exact IH|exact Hv|reflexivity|]. apply wp_ret, HQ.
Qed.
End Rules.
