(* ===== verification/ServerMemory.v ===== *)
(** * ServerMemory: the memory of a call on the server

    The return setters, the generated marshals, [error_to_json] and [searpc_server_call_function] of
    lib/searpc-server.c with every allocation, and what a connection's handler in
    lib/searpc-named-pipe-transport.c does with a request: parse it, call, send the response, free
    the three strings.  What an RPC function returns belongs to its caller. *)
From S2P Require Import Prelude Json Runtime Utils GObject Marshal Server ServerSafety Responses Dispatch TypeSafety Client Pipe Heap JsonMemory.

Section ServerMemory.
Context `{Jansson} `{GObjectClasses} {D W : Type}.

Section Setters.
Context {X : Type}.
Local Abbreviation mem A := (run (heap (cell D) * X) A).

(** ** What an RPC function returns *)
Fixpoint new_objects (os : list gobject) : mem (list ptr) :=
  match os with
  | [] => rret []
  | o :: os' => p <- new (MObject o) ;; ps <- new_objects os' ;; rret (p :: ps)
  end.

Definition own_ret (ret : cret) : mem mret :=
  match ret with
  | RString None | RObject None | RJson None | RObjlist [] => rret (MPtr None)
  | RInt z | RInt64 z => rret (MInt z)
  | RString (Some s) => p <- new (MText s) ;; rret (MPtr (Some p))
  | RObject (Some o) => p <- new (MObject o) ;; rret (MPtr (Some p))
  | RJson (Some v) => p <- new (MJson v) ;; rret (MPtr (Some p))
  | RObjlist os => items <- new_objects os ;; p <- new (MList items) ;; rret (MPtr (Some p))
  end.

Definition own_error (error : option GError) : mem (option ptr) :=
  match error with None => rret None | Some e => p <- new (MError e) ;; rret (Some p) end.

(** ** The setters of the return object *)
Definition mem_set_null (object : ptr) : mem unit :=
  p <- new (MJson json_null) ;; mem_object_set_new object "ret" (Some p).

Definition mem_set_string_to_ret_object (object : ptr) (ret : option ptr) : mem unit :=
  match ret with
  | None => mem_set_null object
  | Some ret =>
      s <- as_text ret ;;
      p <- new_json (json_string s) ;;
      _ <- mem_object_set_new object "ret" p ;;
      mem_g_free (Some ret)
  end.

Definition mem_set_int_to_ret_object (object : ptr) (ret : Z) : mem unit :=
  p <- new (MJson (json_integer ret)) ;; mem_object_set_new object "ret" (Some p).

Definition mem_set_object_to_ret_object (stack : nat) (object : ptr) (ret : option ptr) : mem unit :=
  match ret with
  | None => mem_set_null object
  | Some ret =>
      o <- as_object ret ;;
      p <- mem_gobject_serialize stack o ;;
      _ <- mem_object_set_new object "ret" (Some p) ;;
      mem_g_object_unref ret
  end.

(** The first loop of the list setter. *)
Fixpoint mem_serialize_objlist (stack : nat) (array : ptr) (items : list ptr) : mem unit :=
  match items with
  | [] => rret tt
  | ptr :: next =>
      o <- as_object ptr ;;
      p <- mem_gobject_serialize stack o ;;
      _ <- mem_array_append_new array (Some p) ;;
      mem_serialize_objlist stack array next
  end.

Definition mem_set_objlist_to_ret_object (stack : nat) (object : ptr) (ret : option ptr) : mem unit :=
  match ret with
  | None => mem_set_null object
  | Some ret =>
      array <- new (MJson json_array) ;;
      items <- as_list ret ;;
      _ <- mem_serialize_objlist stack array items ;;
      _ <- mem_object_set_new object "ret" (Some array) ;;
      items <- as_list ret ;;
      _ <- unref_all items ;;
      free ret
  end.

(** The value is given away. *)
Definition mem_set_json_to_ret_object (object : ptr) (ret : option ptr) : mem unit :=
  match ret with
  | None => mem_set_null object
  | Some ret => mem_object_set_new object "ret" (Some ret)
  end.

Definition mem_dump_response (object : ptr) : mem ptr :=
  data <- mem_json_dumps JSON_COMPACT object ;;
  match data with
  | None => fun _ => Undef "strlen of NULL"
  | Some data => _ <- as_text data ;; _ <- mem_json_decref (Some object) ;; rret data
  end.

Definition mem_marshal_set_ret_common (object : ptr) (error : option ptr) : mem ptr :=
  _ <- match error with
       | None => rret tt
       | Some error =>
           e <- as_error error ;;
           code <- new (MJson (json_integer (e_code e))) ;;
           _ <- mem_object_set_new object "err_code" (Some code) ;;
           message <- new_json (json_string (e_message e)) ;;
           _ <- mem_object_set_new object "err_msg" message ;;
           mem_g_error_free error
       end ;;
  mem_dump_response object.

Definition mem_error_to_json (code : Z) (msg : option string) : mem ptr :=
  object <- new (MJson json_object) ;;
  c <- new (MJson (json_integer code)) ;;
  _ <- mem_object_set_new object "err_code" (Some c) ;;
  _ <- mem_object_set_string_or_null_member object "err_msg" msg ;;
  mem_dump_response object.

Definition mem_convert_ret (stack : nat) (ret_type : ctype) (object : ptr) (ret : mret) : mem unit :=
  match ret_type, ret with
  | T_string, MPtr p => mem_set_string_to_ret_object object p
  | T_int, MInt z => mem_set_int_to_ret_object object z
  | T_int64, MInt z => mem_set_int_to_ret_object object z
  | T_object, MPtr p => mem_set_object_to_ret_object stack object p
  | T_objlist, MPtr p => mem_set_objlist_to_ret_object stack object p
  | T_json, MPtr p => mem_set_json_to_ret_object object p
  | _, _ => fun _ => Undef "return value of another type"
  end.
End Setters.

(** ** The generated marshals; parameters are borrowed from [param_array] *)
Definition mem_marshal (stack : nat) (ret_type : ctype) (arg_types : list ctype) (func : cfunction W)
  (param_array : ptr) : run (heap (cell D) * W) ptr :=
  v <- as_json param_array ;;
  match get_parameters arg_types v 1 with
  | None => fun _ => Undef "no getter for the parameter type"
  | Some params =>
      if decide (c_ret func = ret_type /\ c_params func = arg_types) then
        re <- in_world (c_body func params) ;;
        ret <- own_ret re.1 ;;
        error <- own_error re.2 ;;
        object <- new (MJson json_object) ;;
        _ <- mem_convert_ret stack ret_type object ret ;;
        mem_marshal_set_ret_common object error
      else fun _ => Undef "call through an incompatible function type"
  end.

(** ** The dispatcher *)
Local Abbreviation mem A := (run (heap (cell D) * (server W * W)) A).

Definition in_state {A} (op : run (heap (cell D) * W) A) : mem A := fun x =>
  r <~ op (x.1, x.2.2) ;; Ok (r.1, (r.2.1, (x.2.1, r.2.2))).
Definition get_server : mem (server W) := fun x => Ok (x.2.1, x).
Definition put_server (s : server W) : mem unit := fun x => Ok (tt, (x.1, (s, x.2.2))).

(** The marshal of an item is the one generated for the function's type (TypeSafety).  The name
    [fname] points into [array]. *)
Definition mem_call_function (stack : nat) (start finish : timeval) (svc_name call : string) : mem ptr :=
  s <- get_server ;;
  services <- rlift (table_of (service_table s)) ;;
  match services !! svc_name with
  | None =>
      let buf := snprintf_text 255 ("cannot find service " +:+ svc_name +:+ ".") in
      mem_error_to_json 501 (Some buf)
  | Some service =>
      loaded <- mem_json_loadb call ;;
      match loaded with
      | inl jerror =>
          error <- mem_setjetoge jerror (MErrAt None) ;;
          match error with
          | MErrAt (Some error) =>
              e <- as_error error ;;
              let buf := snprintf_text 511 ("failed to load RPC call: " +:+ e_message e +:+ String "010" "") in
              _ <- mem_json_decref None ;;
              _ <- mem_g_error_free error ;;
              mem_error_to_json 511 (Some buf)
          | _ => fun _ => Undef "error->message of NULL"
          end
      | inr array =>
          v <- as_json array ;;
          let fn := json_string_value (json_array_get (Some v) 0) in
          fitem <- rlift (lookup_function (func_table service) fn) ;;
          match fitem with
          | None =>
              v <- as_json array ;;
              let fn := json_string_value (json_array_get (Some v) 0) in
              let buf := snprintf_text 255 ("cannot find function " +:+ printf_s fn +:+ ".") in
              _ <- mem_json_decref (Some array) ;;
              mem_error_to_json 500 (Some buf)
          | Some fitem =>
              ret <- in_state (mem_marshal stack (c_ret (func fitem)) (c_params (func fitem)) (func fitem) array) ;;
              let s1 :=
                match slow_log_fp s with
                | Some fp =>
                    if bool_decide (filtered_funcs s = []) ||
                       negb (rpc_include_passwd (fname fitem) (filtered_funcs s))
                    then print_slow_log_if_necessary svc_name call start (timersub finish start) fp s
                    else s
                | None => s
                end in
              _ <- put_server s1 ;;
              _ <- mem_json_decref (Some array) ;;
              rret ret
          end
      end
  end.

(** ** A request of a connection *)
Definition mem_request_from_json (content : cbuf) (len : nat) : mem (option (ptr * ptr)) :=
  bytes <- rlift (cbuf_read content len) ;;
  loaded <- mem_json_loadb bytes ;;
  match loaded with
  | inl _ => rret None
  | inr object =>
      v <- as_json object ;;
      service <- mem_g_strdup (json_object_get_string_member v "service") ;;
      v <- as_json object ;;
      fcall_str <- mem_g_strdup (json_object_get_string_member v "request") ;;
      _ <- mem_json_decref (Some object) ;;
      match service, fcall_str with
      | Some service, Some fcall_str => rret (Some (service, fcall_str))
      | _, _ => _ <- mem_g_free service ;; _ <- mem_g_free fcall_str ;; rret None
      end
  end.

(** What both handlers do between reading a request and sending the response, if there is one. *)
Definition handle_request (start finish : timeval) (content : cbuf) (len : nat) : run (server W * W) (option string) :=
  request <- rlift (request_from_json content len) ;;
  match request with
  | None => rret None
  | Some (service, body) =>
      ret_str <- searpc_server_call_function start finish service body ;;
      rret (Some ret_str)
  end.

(** The same with its memory, up to the [g_free] of the response that was sent. *)
Definition mem_handle_request (stack : nat) (start finish : timeval) (content : cbuf) (len : nat)
  : mem (option string) :=
  request <- mem_request_from_json content len ;;
  match request with
  | None => rret None
  | Some (service, body) =>
      svc <- as_text service ;;
      call <- as_text body ;;
      ret_str <- mem_call_function stack start finish svc call ;;
      _ <- mem_g_free (Some service) ;;
      _ <- mem_g_free (Some body) ;;
      response <- as_text ret_str ;;
      _ <- mem_g_free (Some ret_str) ;;
      rret (Some response)
  end.
End ServerMemory.

(** ** The setters consume what they are given *)
Section SetterRules.
Context `{Jansson} `{GObjectClasses} {D X : Type} (stack : nat).
Local Abbreviation cells := (list (ptr * cell D)).
Implicit Types (l : cells) (x : X).

Lemma wp_new_objects os l x (Q : list ptr -> X -> cells -> Prop) :
  (forall items, length items = length os -> Q items x (object_cells items os ++ l)) -> wp (new_objects os) l x Q.
Proof.
  revert l Q. induction os as [|o os IH]; intros l Q HQ; cbn [new_objects].
  { apply wp_ret. by apply (HQ []). }
  apply wp_bind, wp_new. intros p. apply wp_bind, IH. intros items Hlen.
  eapply wp_perm; [|apply wp_ret; apply (HQ (p :: items)); cbn; lia]. cbn. symmetry. apply Permutation_middle.
Qed.

Lemma wp_own_ret ret l x (Q : mret -> X -> cells -> Prop) :
  (forall r cs, owns_ret ret r cs -> Q r x (cs ++ l)) -> wp (own_ret ret) l x Q.
Proof.
  intros HQ. destruct ret as [[s|]|z|z|[o|]|[|o os]|[v|]]; cbn [own_ret];
    try (apply wp_ret; eapply (HQ _ []); constructor);
    try (apply wp_bind, wp_new; intros p; apply wp_ret; eapply (HQ _ [_]); constructor).
  apply wp_bind, wp_new_objects. intros items Hlen. apply wp_bind, wp_new. intros p. apply wp_ret.
  apply (HQ _ (_ :: _)). by constructor.
Qed.

Definition error_cells (p : option ptr) (error : option GError) : cells := opt_cell p (MError <$> error).

Lemma wp_own_error error l x (Q : option ptr -> X -> cells -> Prop) :
  (forall p, (is_Some p <-> is_Some error) -> Q p x (error_cells p error ++ l)) -> wp (own_error error) l x Q.
Proof.
  intros HQ. destruct error as [e|].
  - apply wp_bind, wp_new. intros p. apply wp_ret. apply (HQ (Some p)). split; by eexists.
  - apply wp_ret. by apply (HQ None).
Qed.

Lemma wp_set_null object o l l0 x (Q : unit -> X -> cells -> Prop) :
  l ≡ₚ (object, MJson o) :: l0 -> Q tt x ((object, MJson (json_object_set_new o "ret" (Some json_null))) :: l0) ->
  wp (mem_set_null object) l x Q.
Proof. intros. by eapply wp_set_fresh. Qed.

(** The array grows by the serialized objects, which stay. *)
Lemma wp_serialize_objlist array items os a a' l l0 x (Q : unit -> X -> cells -> Prop) :
  length items = length os -> serialize_objlist stack a os = Ok a' ->
  l ≡ₚ (array, MJson a) :: object_cells items os ++ l0 ->
  Q tt x ((array, MJson a') :: object_cells items os ++ l0) ->
  wp (mem_serialize_objlist stack array items) l x Q.
Proof.
  revert os a l l0 Q. induction items as [|p items IH]; intros [|o os] a l l0 Q Hlen Ha Hl HQ; try done;
    cbn [serialize_objlist mem_serialize_objlist] in *.
  { injection Ha as ->. apply (wp_perm _ _ _ _ _ Hl). by apply wp_ret. }
  apply obind_Ok in Ha as (v & Hv & Ha). apply (wp_perm _ _ _ _ _ Hl). cbn [object_cells zip zip_with fmap list_fmap app] in *.
  apply wp_bind. eapply wp_as_object; [in_cells|]. apply wp_bind. eapply wp_serialize; [exact Hv|]. intros q.
  apply wp_bind.
  eapply (wp_append_new array (Some q) (Some v) a _ ((p, MObject o) :: object_cells items os ++ l0));
    [reflexivity|split; by eexists|].
  apply wp_perm_post. eapply (IH os _ _ ((p, MObject o) :: l0)); [by injection Hlen|exact Ha| |].
  - f_equiv. apply Permutation_middle.
  - eexists. split; [|exact HQ]. f_equiv. symmetry. apply Permutation_middle.
Qed.

Lemma wp_convert_ret t ret r cs object o o' l l0 x (Q : unit -> X -> cells -> Prop) :
  convert_ret stack t o ret = Ok o' -> owns_ret ret r cs -> l ≡ₚ cs ++ (object, MJson o) :: l0 ->
  Q tt x ((object, MJson o') :: l0) -> wp (mem_convert_ret stack t object r) l x Q.
Proof.
  intros Ho Hr Hl HQ. apply (wp_perm _ _ _ _ _ Hl).
  destruct Hr, t; try done; cbn [convert_ret mem_convert_ret app] in *;
    try (injection Ho as <-; by eapply wp_set_null; [reflexivity|]);
    try (injection Ho as <-; by eapply wp_set_fresh; [reflexivity|]).
  - injection Ho as <-. apply wp_bind. eapply wp_as_text; [in_cells|]. apply wp_bind, wp_new_json. intros q Hq.
    apply wp_bind. eapply (wp_set_new object "ret" q _ o _ ((p, MText s) :: l0)); [|done|].
    { f_equiv. apply Permutation_swap. }
    eapply wp_g_free; [apply Permutation_swap|done].
  - cbn [searpc_set_object_to_ret_object] in Ho. apply obind_Ok in Ho as (v & Hv & [= <-]).
    apply wp_bind. eapply wp_as_object; [in_cells|]. apply wp_bind. eapply wp_serialize; [exact Hv|]. intros q.
    apply wp_bind. eapply (wp_set_new object "ret" (Some q) (Some v) o _ ((p, MObject o0) :: l0)); [|split; by eexists|].
    { cbn. f_equiv. apply Permutation_swap. }
    eapply wp_unref; [apply Permutation_swap|done].
  - injection Ho as <-. eapply (wp_set_new object "ret" (Some p) (Some v) o _ l0); [done|split; by eexists|done].
  - destruct os as [|o1 os]; [done|]. cbn [searpc_set_objlist_to_ret_object] in Ho.
    apply obind_Ok in Ho as (v & Hv & [= <-]). apply wp_bind, wp_new. intros array.
    apply wp_bind. eapply wp_as_list; [in_cells|]. apply wp_bind.
    eapply (wp_serialize_objlist array items (o1 :: os) json_array v _ ((p, MList items) :: (object, MJson o) :: l0));
      [done|exact Hv| |].
    { constructor. apply Permutation_middle. }
    apply wp_bind.
    eapply (wp_set_new object "ret" (Some array) (Some v) o _
      ((p, MList items) :: object_cells items (o1 :: os) ++ l0)); [|split; by eexists|].
    { cbn. f_equiv. solve_Permutation. }
    apply wp_bind. eapply wp_as_list; [in_cells|]. apply wp_bind.
    eapply (wp_unref_all items (o1 :: os) _ ((p, MList items) :: (object, MJson (json_object_set_new o "ret" (Some v))) :: l0));
      [done|solve_Permutation|].
    eapply wp_free; [reflexivity|done].
Qed.

Lemma wp_dump_response object o resp l l0 x (Q : ptr -> X -> cells -> Prop) :
  dump_response o = Ok resp -> l ≡ₚ (object, MJson o) :: l0 -> (forall p, Q p x ((p, MText resp) :: l0)) ->
  wp (mem_dump_response object) l x Q.
Proof.
  unfold dump_response. destruct (json_dumps JSON_COMPACT o) as [data|] eqn:Hd; [|done]. intros [= <-] Hl HQ.
  apply (wp_perm _ _ _ _ _ Hl). apply wp_bind. eapply wp_dumps; [in_cells|exact Hd|]. intros p.
  apply wp_bind. eapply wp_as_text; [in_cells|]. apply wp_bind.
  eapply wp_decref; [apply Permutation_swap|]. apply wp_ret, HQ.
Qed.

Lemma wp_set_ret_common object error p o resp l l0 x (Q : ptr -> X -> cells -> Prop) :
  searpc_marshal_set_ret_common o error = Ok resp -> (is_Some p <-> is_Some error) ->
  l ≡ₚ error_cells p error ++ (object, MJson o) :: l0 -> (forall q, Q q x ((q, MText resp) :: l0)) ->
  wp (mem_marshal_set_ret_common object p) l x Q.
Proof.
  intros Ho Hp Hl HQ. apply (wp_perm _ _ _ _ _ Hl). unfold searpc_marshal_set_ret_common in Ho. apply wp_bind.
  destruct p as [p|], error as [e|]; rewrite !is_Some_alt in Hp; try tauto; cbn [error_cells opt_cell fmap option_fmap option_map app].
  - apply wp_bind. eapply wp_as_error; [in_cells|]. apply wp_bind, wp_new. intros code. apply wp_bind.
    eapply (wp_set_new object _ (Some code) (Some _) o _ ((p, MError e) :: l0)); [|split; by eexists|].
    { cbn. f_equiv. apply Permutation_swap. }
    apply wp_bind, wp_new_json. intros message Hm. apply wp_bind.
    eapply (wp_set_new object _ message _ _ _ ((p, MError e) :: l0)); [reflexivity|done|].
    eapply wp_g_error_free; [apply Permutation_swap|]. eapply wp_dump_response; [exact Ho|reflexivity|done].
  - apply wp_ret. eapply wp_dump_response; [exact Ho|reflexivity|done].
Qed.

Lemma wp_error_to_json code msg resp l x (Q : ptr -> X -> cells -> Prop) :
  error_to_json code msg = Ok resp -> (forall p, Q p x ((p, MText resp) :: l)) -> wp (mem_error_to_json code msg) l x Q.
Proof.
  intros Hr HQ. apply wp_bind, wp_new. intros object. apply wp_bind, wp_new. intros c. apply wp_bind.
  eapply (wp_set_new object _ (Some c) (Some (json_integer code)) json_object _ l); [done|split; by eexists|].
  apply wp_bind. eapply wp_set_string_or_null; [reflexivity|]. eapply wp_dump_response; [exact Hr|reflexivity|done].
Qed.
End SetterRules.

(** ** The dispatcher leaves the response *)
Section DispatcherRules.
Context `{Jansson} `{GObjectClasses} {D W : Type} (stack : nat).
Local Abbreviation cells := (list (ptr * cell D)).
Implicit Types (l : cells) (s : server W) (w : W).

Lemma wp_marshal t ts f array v resp w w' l (Q : ptr -> W -> cells -> Prop) :
  generate_marshal stack t ts f v w = Ok (resp, w') -> (array, MJson v) ∈ l ->
  (forall p, Q p w' ((p, MText resp) :: l)) -> wp (mem_marshal stack t ts f array) l w Q.
Proof.
  intros Hm Hin HQ. unfold generate_marshal in Hm. apply wp_bind. eapply wp_as_json; [done|].
  destruct (get_parameters ts v 1) as [params|]; [|done]. destruct (decide _) as [_|]; [|done].
  apply rbind_Ok in Hm as ([ret error] & w1 & Hbody & Hm). unfold rlift in Hm.
  apply obind_Ok in Hm as (resp' & Hm & [= -> ->]). apply obind_Ok in Hm as (o & Ho & Hm). cbn [fst snd] in *.
  apply wp_bind. eapply wp_world; [exact Hbody|]. apply wp_bind, wp_own_ret. intros r cs Hr.
  apply wp_bind, wp_own_error. intros e He. apply wp_bind, wp_new. intros object. apply wp_bind.
  eapply (wp_convert_ret stack t ret r cs object json_object o _ (error_cells e error ++ l)); [exact Ho|exact Hr| |].
  { cbn [fst snd]. rewrite <- Permutation_middle. f_equiv. rewrite !app_assoc. f_equiv. apply Permutation_app_comm. }
  cbn [fst snd].
  eapply (wp_set_ret_common object error e o resp _ l); [exact Hm|exact He|apply Permutation_middle|done].
Qed.

Lemma wp_in_state {A} (op : run (heap (cell D) * W) A) l s w (Q : A -> server W * W -> cells -> Prop) :
  wp op l w (fun a w' l' => Q a (s, w') l') -> wp (in_state op) l (s, w) Q.
Proof.
  intros Hop m Hm. destruct (Hop m Hm) as (a & m' & w' & l' & Hrun & Hm' & HQ).
  exists a, m', (s, w'), l'. unfold in_state. cbn [fst snd]. by rewrite Hrun.
Qed.

Lemma wp_get_server l s w (Q : server W -> server W * W -> cells -> Prop) : Q s (s, w) l -> wp get_server l (s, w) Q.
Proof. intros HQ m Hm. by exists s, m, (s, w), l. Qed.

Lemma wp_put_server s' l s w (Q : unit -> server W * W -> cells -> Prop) : Q tt (s', w) l -> wp (put_server s') l (s, w) Q.
Proof. intros HQ m Hm. by exists tt, m, (s', w), l. Qed.

(** The marshal of every function is the one generated for its type. *)
Definition own_marshals s : Prop :=
  forall services service sn fn nd, service_table s = Some services -> services !! sn = Some service ->
    func_table service !! fn = Some nd ->
    mfunc (marshal (item nd)) =
      generate_marshal stack (c_ret (func (item nd))) (c_params (func (item nd))).

Lemma wp_call_function start finish svc call s w resp x' l (Q : ptr -> server W * W -> cells -> Prop) :
  own_marshals s -> searpc_server_call_function start finish svc call (s, w) = Ok (resp, x') ->
  (forall p, Q p x' ((p, MText resp) :: l)) -> wp (mem_call_function stack start finish svc call) l (s, w) Q.
Proof.
  intros Hs Hcall HQ. unfold searpc_server_call_function in Hcall. unfold mem_call_function.
  apply wp_bind, wp_get_server. apply obind_Ok in Hcall as (services & Hservices & Hcall).
  apply wp_bind. eapply wp_lift; [exact Hservices|]. destruct (services !! svc) as [service|] eqn:Hsvc; cycle 1.
  { apply obind_Ok in Hcall as (ret & Hret & [= -> <-]). by eapply wp_error_to_json. }
  apply wp_bind. unfold mem_json_loadb. destruct (json_loadb call) as [jerror|array].
  { apply obind_Ok in Hcall as (ret & Hret & [= -> <-]). apply wp_ret. unfold mem_setjetoge. cbn [mem_set_error].
    apply wp_bind, wp_bind, wp_new. intros e. apply wp_ret. apply wp_bind. eapply wp_as_error; [in_cells|].
    apply wp_bind, wp_ret. apply wp_bind. eapply wp_g_error_free; [reflexivity|]. by eapply wp_error_to_json. }
  apply wp_bind, wp_new. intros array_p. apply wp_ret. apply wp_bind. eapply wp_as_json; [in_cells|].
  apply obind_Ok in Hcall as (fitem & Hfitem & Hcall). apply wp_bind. eapply wp_lift; [exact Hfitem|].
  destruct fitem as [fitem|]; cycle 1.
  { apply obind_Ok in Hcall as (ret & Hret & [= -> <-]). apply wp_bind. eapply wp_as_json; [in_cells|].
    apply wp_bind. eapply wp_decref; [reflexivity|]. by eapply wp_error_to_json. }
  apply obind_Ok in Hcall as ([r w'] & Hm & [= -> <-]).
  assert (mfunc (marshal fitem) = generate_marshal stack (c_ret (func fitem)) (c_params (func fitem))) as Hmar.
  { unfold lookup_function in Hfitem. destruct (json_string_value _) as [fn|]; [|done].
    destruct (func_table service !! fn) as [nd|] eqn:Hnd; [|done]. destruct (key_dangling nd); [done|].
    injection Hfitem as <-. unfold table_of in Hservices. destruct (service_table s) eqn:Hst; [|done].
    injection Hservices as ->. by eapply Hs. }
  rewrite Hmar in Hm. apply wp_bind, wp_in_state. eapply wp_marshal; [exact Hm|in_cells|]. intros p.
  apply wp_bind, wp_put_server. apply wp_bind. eapply wp_decref; [apply Permutation_swap|]. apply wp_ret, HQ.
Qed.

Lemma wp_request_from_json content len r x l (Q : option (ptr * ptr) -> server W * W -> cells -> Prop) :
  request_from_json content len = Ok r ->
  match r with
  | None => Q None x l
  | Some (svc, call) => forall p q, Q (Some (p, q)) x ((p, MText svc) :: (q, MText call) :: l)
  end -> wp (mem_request_from_json content len) l x Q.
Proof.
  intros Hr HQ. unfold request_from_json in Hr. apply obind_Ok in Hr as (bytes & Hbytes & Hr).
  apply wp_bind. eapply wp_lift; [exact Hbytes|]. apply wp_bind. unfold mem_json_loadb.
  destruct (json_loadb bytes) as [e|object].
  { injection Hr as <-. by apply wp_ret, wp_ret. }
  apply wp_bind, wp_new. intros o. apply wp_ret. apply wp_bind. eapply wp_as_json; [in_cells|].
  apply wp_bind, wp_strdup. intros p Hp. apply wp_bind.
  eapply (wp_as_json o object); [apply elem_of_app; right; in_cells|].
  apply wp_bind, wp_strdup. intros q Hq. apply wp_bind.
  destruct (json_object_get_string_member object "service") as [svc|], p as [p|];
    rewrite !is_Some_alt in Hp; try tauto;
    destruct (json_object_get_string_member object "request") as [call|], q as [q|];
    rewrite !is_Some_alt in Hq; try tauto; injection Hr as <-;
    cbn [opt_cell fmap option_fmap option_map app].
  - eapply (wp_decref o object _ ((p, MText svc) :: (q, MText call) :: l)); [solve_Permutation|]. apply wp_ret, HQ.
  - eapply (wp_decref o object _ ((p, MText svc) :: l)); [solve_Permutation|]. apply wp_bind.
    eapply wp_g_free; [reflexivity|]. by apply wp_bind, wp_ret, wp_ret.
  - eapply (wp_decref o object _ ((q, MText call) :: l)); [solve_Permutation|]. apply wp_bind, wp_ret. apply wp_bind.
    eapply wp_g_free; [reflexivity|]. by apply wp_ret.
  - eapply (wp_decref o object _ l); [reflexivity|]. by apply wp_bind, wp_ret, wp_bind, wp_ret, wp_ret.
Qed.
End DispatcherRules.

(** ** Properties *)
Section ServerMemoryProperties.
Context `{JanssonLaws} `{GObjectLaws} {D W : Type}.
Context (md5 : string -> string) (table : list (ctype * list ctype)) (n stack : nat).
Implicit Types (s : server W) (w : W).

Lemma typed_own_marshals s :
  no_collision md5 table -> typed_run md5 table n stack s -> own_marshals stack s.
Proof.
  intros Hmd5 Hs services service sn fn nd Hservices Hsn Hfn.
  destruct (typed_run_ok md5 table n stack Hmd5 s Hs) as [_ [_ He]].
  apply (He sn fn (item nd)). cbn [rg_entry registry_of]. unfold registered. rewrite Hservices. cbn.
  rewrite Hsn. cbn. by rewrite Hfn.
Qed.

(** C13: the memory of a request: on a server whose functions are registered under their own types, and
    whatever bytes arrive, a handler that parses them, calls, sends the response and frees its
    strings leaves the heap exactly as it was: on every path, errors included, each JSON value,
    string, object, list and error that was allocated, those a function returns among them, was
    freed once and none was used after. *)
Theorem request_memory_exact s w start finish content len r x' l (m : heap (cell D)) :
  no_collision md5 table -> typed_run md5 table n stack s ->
  handle_request start finish content len (s, w) = Ok (r, x') -> heap_is l m ->
  exists m', mem_handle_request stack start finish content len (m, (s, w)) = Ok (r, (m', x')) /\ heap_is l m'.
Proof.
  intros Hmd5 Hs Hr Hm. pose proof (typed_own_marshals s Hmd5 Hs) as Hown. unfold handle_request in Hr.
  apply rbind_Ok in Hr as (request & [s1 w1] & Hreq & Hr). unfold rlift in Hreq.
  apply obind_Ok in Hreq as (request' & Hreq & [= -> <- <-]).
  assert (wp (mem_handle_request stack start finish content len) l (s, w) (fun r' y l' => r' = r /\ y = x' /\ l' = l)) as Hwp.
  { unfold mem_handle_request. apply wp_bind. eapply wp_request_from_json; [exact Hreq|].
    destruct request as [[svc body]|]; [|injection Hr as <- <-; by apply wp_ret].
    apply rbind_Ok in Hr as (resp & y & Hcall & [= <- ->]). intros p q.
    apply wp_bind. eapply wp_as_text; [in_cells|]. apply wp_bind. eapply wp_as_text; [in_cells|].
    apply wp_bind. eapply wp_call_function; [exact Hown|exact Hcall|]. intros ret.
    apply wp_bind. eapply (wp_g_free p svc _ ((ret, MText resp) :: (q, MText body) :: l)); [solve_Permutation|].
    apply wp_bind. eapply (wp_g_free q body _ ((ret, MText resp) :: l)); [solve_Permutation|].
    apply wp_bind. eapply wp_as_text; [in_cells|]. apply wp_bind. eapply wp_g_free; [reflexivity|]. by apply wp_ret. }
  destruct (Hwp m Hm) as (r' & m' & y & l' & Hrun & Hm' & -> & -> & ->). by exists m'.
Qed.
End ServerMemoryProperties.
