(* ===== verification/ClientMemory.v ===== *)
(** * ClientMemory: the memory of a call on the client

    [fcall_to_str], the synchronous calls, the parsers of replies and the callback of asynchronous
    calls of lib/searpc-client.c, and [request_to_json] of lib/searpc-named-pipe-transport.c, with
    every allocation.  The arguments belong to the caller, as does what a call returns. *)
From S2P Require Import Prelude Json Runtime Utils GObject Marshal Client Pipe Rpc Async Heap JsonMemory.

Section ClientMemory.
Context `{Jansson} `{GObjectClasses} {W Arg AsyncArg CbData : Type}.
Local Abbreviation D := (AsyncCallData W CbData).
Local Abbreviation mem A := (run (heap (cell D) * W) A).

(** ** Requests *)

(** [false] is the return for an unknown type. *)
Fixpoint mem_append_params (n : nat) (args : va_list) (array : ptr) : mem bool :=
  match n with
  | O => rret true
  | S n' =>
      match args with
      | [] => fun _ => Undef "va_arg past the last argument"
      | (type, value) :: args' =>
          if String.eqb type "int" then
            match value with
            | VWord z =>
                p <- new (MJson (json_integer (to_int z))) ;;
                _ <- mem_array_append_new array (Some p) ;;
                mem_append_params n' args' array
            | _ => fun _ => Undef "argument of another type"
            end
          else if String.eqb type "int64" then
            match value with
            | VInt64 (Some z) =>
                p <- new (MJson (json_integer z)) ;;
                _ <- mem_array_append_new array (Some p) ;;
                mem_append_params n' args' array
            | VInt64 None => fun _ => Undef "NULL gint64 pointer"
            | _ => fun _ => Undef "argument of another type"
            end
          else if String.eqb type "string" then
            match value with
            | VString s =>
                _ <- mem_array_add_string_or_null_element array s ;; mem_append_params n' args' array
            | _ => fun _ => Undef "argument of another type"
            end
          else if String.eqb type "json" then
            match value with
            | VJson v =>
                _ <- mem_array_add_json_or_null_element array v ;; mem_append_params n' args' array
            | _ => fun _ => Undef "argument of another type"
            end
          else rret false
      end
  end.

Definition mem_fcall_to_str (fname : string) (n_params : Z) (args : va_list) : mem (option (ptr * nat)) :=
  array <- new (MJson json_array) ;;
  name <- new_json (json_string fname) ;;
  _ <- mem_array_append_new array name ;;
  ok <- mem_append_params (Z.to_nat n_params) args array ;;
  if ok : bool then
    data <- mem_json_dumps JSON_COMPACT array ;;
    match data with
    | None => fun _ => Undef "strlen of NULL"
    | Some data =>
        s <- as_text data ;;
        _ <- mem_json_decref (Some array) ;;
        rret (Some (data, String.length s))
    end
  else rret None.

(** ** Parsing replies *)
Definition mem_handle_ret_common (data : ptr) (len : nat) (error : mem_gerror) : mem (mem_gerror + ptr) :=
  b <- as_reply data ;;
  bytes <- rlift (cbuf_read b len) ;;
  loaded <- mem_json_loadb bytes ;;
  match loaded with
  | inl jerror =>
      error <- mem_setjetoge jerror error ;;
      _ <- mem_json_decref None ;;
      rret (inl error)
  | inr object =>
      v <- as_json object ;;
      match json_object_get (Some v) "err_code" with
      | Some _ =>
          let err_code := to_int (json_integer_value (json_object_get (Some v) "err_code")) in
          let err_msg := json_string_value (json_object_get (Some v) "err_msg") in
          error <- mem_set_error error DFT_DOMAIN err_code (printf_s err_msg) ;;
          _ <- mem_json_decref (Some object) ;;
          rret (inl error)
      | None => rret (inr object)
      end
  end.

Definition mem_fret (dflt : mret) (k : ptr -> mem_gerror -> mem (mret * mem_gerror)) (data : ptr) (len : nat)
  (error : mem_gerror) : mem (mret * mem_gerror) :=
  r <- mem_handle_ret_common data len error ;;
  match r with
  | inl error => rret (dflt, error)
  | inr object => k object error
  end.

Definition mem_fret__string := mem_fret (MPtr None) (fun object error =>
  v <- as_json object ;;
  ret_str <- mem_g_strdup (json_object_get_string_or_null_member (Some v) "ret") ;;
  _ <- mem_json_decref (Some object) ;;
  rret (MPtr ret_str, error)).

Definition mem_fret__int := mem_fret (MInt (-1)) (fun object error =>
  v <- as_json object ;;
  let ret := to_int (json_integer_value (json_object_get (Some v) "ret")) in
  _ <- mem_json_decref (Some object) ;;
  rret (MInt ret, error)).

Definition mem_fret__int64 := mem_fret (MInt (-1)) (fun object error =>
  v <- as_json object ;;
  let ret := json_integer_value (json_object_get (Some v) "ret") in
  _ <- mem_json_decref (Some object) ;;
  rret (MInt ret, error)).

(** The object that is made of a borrowed value; it is never NULL. *)
Definition mem_gobject_deserialize (gtype : gtype) (member : option json) : mem (option ptr) :=
  o <- rlift (json_gobject_deserialize client_stack gtype member) ;;
  p <- new (MObject o) ;;
  rret (Some p).

Definition mem_fret__object (gtype : gtype) := mem_fret (MPtr None) (fun object error =>
  v <- as_json object ;;
  let member := json_object_get (Some v) "ret" in
  if json_is_null member then
    _ <- mem_json_decref (Some object) ;; rret (MPtr None, error)
  else
    ret <- mem_gobject_deserialize gtype member ;;
    _ <- mem_json_decref (Some object) ;;
    rret (MPtr ret, error)).

Definition clean_objlist (list : option ptr) : mem unit :=
  match list with
  | None => rret tt
  | Some list => items <- as_list list ;; _ <- unref_all items ;; free list
  end.

Definition mem_g_list_prepend (list : option ptr) (data : ptr) : mem (option ptr) :=
  match list with
  | None => p <- new (MList [data]) ;; rret (Some p)
  | Some p => items <- as_list p ;; _ <- in_heap (store p (MList (data :: items))) ;; rret (Some p)
  end.

Definition mem_g_list_reverse (list : option ptr) : mem (option ptr) :=
  match list with
  | None => rret None
  | Some p => items <- as_list p ;; _ <- in_heap (store p (MList (List.rev items))) ;; rret (Some p)
  end.

(** The loop; [array] is a member of [object].  [inl]: the exit for a null element. *)
Fixpoint mem_deserialize_objlist (gtype : gtype) (object : ptr) (error : mem_gerror) (n i : nat)
  (ret : option ptr) : mem (mem_gerror + option ptr) :=
  match n with
  | O => rret (inr ret)
  | S n' =>
      v <- as_json object ;;
      let member := json_array_get (json_object_get (Some v) "ret") i in
      obj <- mem_gobject_deserialize gtype member ;;
      match obj with
      | None =>
          error <- mem_set_error error DFT_DOMAIN 503 "Invalid data: object list contains null" ;;
          _ <- clean_objlist ret ;;
          _ <- mem_json_decref (Some object) ;;
          rret (inl error)
      | Some obj =>
          ret <- mem_g_list_prepend ret obj ;;
          mem_deserialize_objlist gtype object error n' (S i) ret
      end
  end.

Definition mem_fret__objlist (gtype : gtype) := mem_fret (MPtr None) (fun object error =>
  v <- as_json object ;;
  let array := json_object_get (Some v) "ret" in
  if json_is_null array then
    _ <- mem_json_decref (Some object) ;; rret (MPtr None, error)
  else
    match array with
    | None => fun _ => Abort "array"
    | Some _ =>
        r <- mem_deserialize_objlist gtype object error (json_array_size array) 0 None ;;
        match r with
        | inl error => rret (MPtr None, error)
        | inr ret =>
            _ <- mem_json_decref (Some object) ;;
            ret <- mem_g_list_reverse ret ;;
            rret (MPtr ret, error)
        end
    end).

Definition mem_fret__json := mem_fret (MPtr None) (fun object error =>
  v <- as_json object ;;
  let ret_obj := json_object_get (Some v) "ret" in
  match ret_obj with
  | None => _ <- mem_json_decref (Some object) ;; rret (MPtr None, error)
  | Some _ =>
      if json_is_null ret_obj then
        _ <- mem_json_decref (Some object) ;; rret (MPtr None, error)
      else
        ret <- new_json (json_deep_copy ret_obj) ;;
        _ <- mem_json_decref (Some object) ;;
        rret (MPtr ret, error)
  end).

(** ** Synchronous calls *)

(** The transport allocates the reply. *)
Definition mem_client_call (dflt : mret) (parse : ptr -> nat -> mem_gerror -> mem (mret * mem_gerror))
  (client : SearpcClient W Arg AsyncArg CbData) (fname : option string) (error : mem_gerror) (n_params : Z)
  (args : va_list) : mem (mret * mem_gerror) :=
  match fname with
  | None => rret (dflt, error)
  | Some fname =>
      fstr <- mem_fcall_to_str fname n_params args ;;
      match fstr with
      | None => error <- mem_set_error error DFT_DOMAIN 0 "Invalid Parameter" ;; rret (dflt, error)
      | Some (fstr, len) =>
          text <- as_text fstr ;;
          fret <- in_world (searpc_client_transport_send client text len) ;;
          match fret with
          | None =>
              _ <- mem_g_free (Some fstr) ;;
              error <- mem_set_error error DFT_DOMAIN TRANSPORT_ERROR_CODE TRANSPORT_ERROR ;;
              rret (dflt, error)
          | Some r =>
              fret <- new (MReply (r_buf r)) ;;
              ret <- parse fret (r_len r) error ;;
              _ <- mem_g_free (Some fstr) ;;
              _ <- as_reply fret ;;
              _ <- free fret ;;
              rret ret
          end
      end
  end.

(** The six typed calls; an object type is given. *)
Definition mem_typed_call (t : ctype) (gt : gtype) (client : SearpcClient W Arg AsyncArg CbData)
  : option string -> mem_gerror -> Z -> va_list -> mem (mret * mem_gerror) :=
  match t with
  | T_string => mem_client_call (MPtr None) mem_fret__string client
  | T_int => mem_client_call (MInt 0) mem_fret__int client
  | T_int64 => mem_client_call (MInt 0) mem_fret__int64 client
  | T_object => mem_client_call (MPtr None) (mem_fret__object gt) client
  | T_objlist => mem_client_call (MPtr None) (mem_fret__objlist gt) client
  | T_json => mem_client_call (MPtr None) mem_fret__json client
  end.

(** ** Asynchronous calls *)

(** What a callback finds at [result]. *)
Definition read_result (t : ctype) (result : mret) : mem call_result :=
  match t, result with
  | T_int, MInt z => rret (CInt z)
  | T_int64, MInt z => rret (CInt64 z)
  | T_string, MPtr None => rret (CString None)
  | T_string, MPtr (Some p) => s <- as_text p ;; rret (CString (Some s))
  | T_object, MPtr None => rret (CObject None)
  | T_object, MPtr (Some p) => o <- as_object p ;; rret (CObject (Some o))
  | T_objlist, MPtr None => rret (CObjlist [])
  | T_objlist, MPtr (Some p) =>
      items <- as_list p ;;
      os <- (fix objects (items : list ptr) : mem (list gobject) :=
               match items with
               | [] => rret []
               | q :: items' => o <- as_object q ;; os <- objects items' ;; rret (o :: os)
               end) items ;;
      rret (CObjlist os)
  | T_json, MPtr None => rret (CJson None)
  | T_json, MPtr (Some p) => v <- as_json p ;; rret (CJson (Some v))
  | _, _ => fun _ => Undef "result of another type"
  end.

Definition read_error (error : mem_gerror) : mem (option GError) :=
  match error with
  | MErrAt (Some p) => e <- as_error p ;; rret (Some e)
  | _ => rret None
  end.

Definition mem_fret_of (t : ctype) (gt : gtype) : ptr -> nat -> mem_gerror -> mem (mret * mem_gerror) :=
  match t with
  | T_string => mem_fret__string
  | T_int => mem_fret__int
  | T_int64 => mem_fret__int64
  | T_object => mem_fret__object gt
  | T_objlist => mem_fret__objlist gt
  | T_json => mem_fret__json
  end.

(** What follows the callback. *)
Definition mem_free_result (t : ctype) (result : mret) : mem unit :=
  match t, result with
  | T_string, MPtr p => mem_g_free p
  | T_object, MPtr (Some p) => mem_g_object_unref p
  | T_objlist, MPtr p => clean_objlist p
  | T_json, MPtr p => mem_json_decref p
  | _, _ => rret tt
  end.

(** [data->ret_type] is the name of [t]; the callback is given borrowed pointers. *)
Definition mem_generic_callback (t : ctype) (gt : gtype) (retstr : ptr) (len : nat) (data : ptr)
  (errstr : option string) : mem Z :=
  d <- as_data data ;;
  _ <- match errstr with
       | Some errstr =>
           error <- mem_set_error (MErrAt None) DFT_DOMAIN 500 ("Transport error: " +:+ errstr) ;;
           e <- read_error error ;;
           _ <- in_world (callback d CNone (cbdata d) e) ;;
           match error with MErrAt (Some p) => mem_g_error_free p | _ => rret tt end
       | None =>
           r <- mem_fret_of t gt retstr len (MErrAt None) ;;
           result <- read_result t r.1 ;;
           e <- read_error r.2 ;;
           _ <- in_world (callback d result (cbdata d) e) ;;
           mem_free_result t r.1
       end ;;
  _ <- free data ;;
  rret 0.

(** The transport keeps [data] until it has the reply, unless it fails. *)
Definition mem_async_call_v (client : SearpcClient W Arg AsyncArg CbData) (fname : string)
  (callback : call_result -> CbData -> option GError -> run W unit) (ret_type : string)
  (gtype : option gtype) (cbdata : CbData) (n_params : Z) (args : va_list) : mem Z :=
  fstr <- mem_fcall_to_str fname n_params args ;;
  match fstr with
  | None => rret (-1)
  | Some (fstr, len) =>
      let d := mkAsync callback ret_type gtype cbdata in
      data <- new (MData d) ;;
      text <- as_text fstr ;;
      match async_send client, async_arg client with
      | Some f, Some a =>
          ret <- in_world (f a text len d) ;;
          _ <- mem_g_free (Some fstr) ;;
          if ret <? 0 then _ <- free data ;; rret (-1) else rret 0
      | _, _ => fun _ => Undef "no transport"
      end
  end.

(** ** The request of the named pipe *)
Definition mem_request_to_json (service fcall_str : string) (fcall_len : nat) : mem (option ptr) :=
  object <- new (MJson json_object) ;;
  temp_request <- new (MText (c_string (str_take fcall_len fcall_str))) ;;
  p <- new_json (json_string service) ;;
  _ <- mem_object_set_new object "service" p ;;
  t <- as_text temp_request ;;
  q <- new_json (json_string t) ;;
  _ <- mem_object_set_new object "request" q ;;
  _ <- mem_g_free (Some temp_request) ;;
  str <- mem_json_dumps JSON_DEFAULT object ;;
  _ <- mem_json_decref (Some object) ;;
  rret str.
End ClientMemory.

(** ** Rules *)
Section ClientRules.
Context `{Jansson} `{GObjectClasses} {W Arg AsyncArg CbData : Type}.
Local Abbreviation D := (AsyncCallData W CbData).
Local Abbreviation cells := (list (ptr * cell D)).
Implicit Types (l : cells) (x : W).

(** *** Requests *)
Lemma wp_append_params n : forall args array a r l l0 x (Q : bool -> W -> cells -> Prop),
  append_params n args a = Ok r -> l ≡ₚ (array, MJson a) :: l0 ->
  match r with
  | Some a' => Q true x ((array, MJson a') :: l0)
  | None => forall a', Q false x ((array, MJson a') :: l0)
  end -> wp (mem_append_params n args array) l x Q.
Proof.
  induction n as [|n IH]; intros args array a r l l0 x Q Hr Hl HQ; cbn [append_params mem_append_params] in *.
  { injection Hr as <-. apply (wp_perm _ _ _ _ _ Hl). by apply wp_ret. }
  destruct args as [|[type value] args]; [done|].
  assert (forall v, append_params n args (json_array_append_new a (Some v)) = Ok r ->
    wp (p <- new (MJson v) ;; _ <- mem_array_append_new array (Some p) ;; mem_append_params n args array) l x Q) as Hnew.
  { intros v Hv. apply wp_bind, wp_new. intros p. apply wp_bind.
    eapply (wp_append_new array (Some p) (Some v) a _ l0); [by rewrite Hl|split; by eexists|].
    by eapply IH. }
  destruct (String.eqb type "int"); [destruct value; try done; by apply Hnew|].
  destruct (String.eqb type "int64"); [destruct value as [|[z|]| |]; try done; by apply Hnew|].
  destruct (String.eqb type "string").
  { destruct value; try done. apply wp_bind. eapply wp_add_string_or_null; [exact Hl|]. by eapply IH. }
  destruct (String.eqb type "json").
  { destruct value; try done. apply wp_bind. eapply wp_add_json_or_null; [exact Hl|]. by eapply IH. }
  injection Hr as <-. apply (wp_perm _ _ _ _ _ Hl). apply wp_ret, HQ.
Qed.

(** A request is one string; the array of one that cannot be made is left behind. *)
Lemma wp_fcall_to_str fname n args r l x (Q : option (ptr * nat) -> W -> cells -> Prop) :
  fcall_to_str fname n args = Ok r ->
  match r with
  | Some (s, len) => forall p, Q (Some (p, len)) x ((p, MText s) :: l)
  | None => forall p v, Q None x ((p, MJson v) :: l)
  end -> wp (mem_fcall_to_str fname n args) l x Q.
Proof.
  intros Hr HQ. unfold fcall_to_str in Hr. apply obind_Ok in Hr as (params & Hparams & Hr).
  apply wp_bind, wp_new. intros array. apply wp_bind, wp_new_json. intros name Hname. apply wp_bind.
  eapply (wp_append_new array name _ json_array _ l); [reflexivity|done|]. apply wp_bind.
  eapply wp_append_params; [exact Hparams|reflexivity|].
  destruct params as [a|]; [|injection Hr as <-; intros a; by apply wp_ret].
  destruct (json_dumps JSON_COMPACT a) as [s|] eqn:Hs; [|done]. injection Hr as <-.
  apply wp_bind. eapply wp_dumps; [in_cells|exact Hs|]. intros p. apply wp_bind. eapply wp_as_text; [in_cells|].
  apply wp_bind. eapply wp_decref; [apply Permutation_swap|]. apply wp_ret, HQ.
Qed.

Lemma wp_request_to_json service fcall_str len r l x (Q : option ptr -> W -> cells -> Prop) :
  request_to_json service fcall_str len = r ->
  (forall p, (is_Some p <-> is_Some r) -> Q p x (opt_cell p (MText <$> r) ++ l)) ->
  wp (mem_request_to_json service fcall_str len) l x Q.
Proof.
  intros Hr HQ. unfold request_to_json in Hr. apply wp_bind, wp_new. intros object. apply wp_bind, wp_new. intros temp.
  apply wp_bind, wp_new_json. intros p Hp. apply wp_bind.
  eapply (wp_set_new object _ p _ json_object _ ((temp, MText (c_string (str_take len fcall_str))) :: l)); [|done|].
  { f_equiv. apply Permutation_swap. }
  apply wp_bind. eapply wp_as_text; [in_cells|]. apply wp_bind, wp_new_json. intros q Hq. apply wp_bind.
  eapply (wp_set_new object _ q _ _ _ ((temp, MText (c_string (str_take len fcall_str))) :: l)); [reflexivity|done|].
  apply wp_bind. eapply wp_g_free; [apply Permutation_swap|]. apply wp_bind. unfold json_object_set_string_member in Hr.
  destruct r as [s|].
  - eapply wp_dumps; [in_cells|exact Hr|]. intros str. apply wp_bind. eapply wp_decref; [apply Permutation_swap|].
    apply wp_ret. apply (HQ (Some str)). split; by eexists.
  - apply wp_bind. eapply wp_as_json; [in_cells|]. rewrite Hr. apply wp_ret. apply wp_bind.
    eapply wp_decref; [reflexivity|]. apply wp_ret. by apply (HQ None).
Qed.

(** *** Parsers: the object that was loaded is freed, the result and the error stay *)
Definition continues {A} (wrap : A -> cret) (k : json -> gerror_ptr -> outcome (A * gerror_ptr))
  (mk : ptr -> mem_gerror -> run (heap (cell D) * W) (mret * mem_gerror)) : Prop :=
  forall object p a error error' merror es l l0 x (Q : mret * mem_gerror -> W -> cells -> Prop),
    k object error = Ok (a, error') -> owns_error error merror es -> l ≡ₚ (p, MJson object) :: es ++ l0 ->
    (forall r cs merror' es', owns_ret (wrap a) r cs -> owns_error error' merror' es' ->
       Q (r, merror') x (cs ++ es' ++ l0)) -> wp (mk p merror) l x Q.

Definition parses {A} (wrap : A -> cret) (parse : cbuf -> nat -> gerror_ptr -> outcome (A * gerror_ptr))
  (mparse : ptr -> nat -> mem_gerror -> run (heap (cell D) * W) (mret * mem_gerror)) : Prop :=
  forall data b len a error error' merror es l l0 x (Q : mret * mem_gerror -> W -> cells -> Prop),
    parse b len error = Ok (a, error') -> owns_error error merror es -> l ≡ₚ es ++ l0 -> (data, MReply b) ∈ l0 ->
    (forall r cs merror' es', owns_ret (wrap a) r cs -> owns_error error' merror' es' ->
       Q (r, merror') x (cs ++ es' ++ l0)) -> wp (mparse data len merror) l x Q.

Lemma wp_handle_ret data b len error r merror es l l0 x (Q : mem_gerror + ptr -> W -> cells -> Prop) :
  handle_ret_common b len error = Ok r -> owns_error error merror es -> l ≡ₚ es ++ l0 -> (data, MReply b) ∈ l0 ->
  match r with
  | inl error' => forall merror' es', owns_error error' merror' es' -> Q (inl merror') x (es' ++ l0)
  | inr object => forall p, Q (inr p) x ((p, MJson object) :: es ++ l0)
  end -> wp (mem_handle_ret_common data len merror) l x Q.
Proof.
  intros Hr He Hl Hin HQ. apply (wp_perm _ _ _ _ _ Hl). unfold handle_ret_common in Hr.
  apply obind_Ok in Hr as (bytes & Hbytes & Hr). apply wp_bind.
  eapply wp_as_reply; [apply elem_of_app; by right|]. apply wp_bind. eapply wp_lift; [exact Hbytes|].
  apply wp_bind. unfold mem_json_loadb. destruct (json_loadb bytes) as [jerror|object].
  { injection Hr as <-. apply wp_ret. apply wp_bind. eapply wp_set_error; [exact He|reflexivity|].
    intros merror' es' He'. apply wp_bind, wp_ret, wp_ret. by apply HQ. }
  apply wp_bind, wp_new. intros p. apply wp_ret. apply wp_bind. eapply wp_as_json; [in_cells|].
  destruct (json_object_get (Some object) "err_code") as [c|]; [|injection Hr as <-; by apply wp_ret].
  injection Hr as <-. apply wp_bind.
  eapply (wp_set_error error merror es _ _ _ _ ((p, MJson object) :: l0)); [exact He|apply Permutation_middle|].
  intros merror' es' He'. apply wp_bind. eapply wp_decref; [symmetry; apply Permutation_middle|].
  apply wp_ret. by apply HQ.
Qed.

Lemma fret_parses {A} (wrap : A -> cret) dflt k mdflt mk :
  owns_ret (D := D) (wrap dflt) mdflt [] -> continues wrap k mk -> parses wrap (fret dflt k) (mem_fret mdflt mk).
Proof.
  intros Hdflt Hk data b len a error error' merror es l l0 x Q Hp He Hl Hin HQ. unfold fret in Hp.
  apply obind_Ok in Hp as (r & Hr & Hp). apply wp_bind. eapply wp_handle_ret; [exact Hr|exact He|exact Hl|exact Hin|].
  destruct r as [error1|object].
  - injection Hp as <- <-. intros merror' es' He'. apply wp_ret. by apply (HQ _ []).
  - intros p. eapply Hk; [exact Hp|exact He|reflexivity|done].
Qed.

Lemma string_parses : parses RString searpc_client_fret__string mem_fret__string.
Proof.
  apply fret_parses; [constructor|]. intros object p a error error' merror es l l0 x Q [= <- <-] He Hl HQ.
  apply (wp_perm _ _ _ _ _ Hl). apply wp_bind. eapply wp_as_json; [in_cells|]. apply wp_bind, wp_strdup. intros q Hq.
  apply wp_bind.
  destruct (json_object_get_string_or_null_member (Some object) "ret") as [s|], q as [q|];
    rewrite !is_Some_alt in Hq; try tauto; cbn [opt_cell fmap option_fmap option_map app].
  - eapply wp_decref; [apply Permutation_swap|]. apply wp_ret. eapply (HQ _ [_]); [constructor|exact He].
  - eapply wp_decref; [reflexivity|]. apply wp_ret. eapply (HQ _ []); [constructor|exact He].
Qed.

Lemma int_parses : parses RInt searpc_client_fret__int mem_fret__int.
Proof.
  apply fret_parses; [constructor|]. intros object p a error error' merror es l l0 x Q [= <- <-] He Hl HQ.
  apply (wp_perm _ _ _ _ _ Hl). apply wp_bind. eapply wp_as_json; [in_cells|]. apply wp_bind.
  eapply wp_decref; [reflexivity|]. apply wp_ret. eapply (HQ _ []); [constructor|exact He].
Qed.

Lemma int64_parses : parses RInt64 searpc_client_fret__int64 mem_fret__int64.
Proof.
  apply fret_parses; [constructor|]. intros object p a error error' merror es l l0 x Q [= <- <-] He Hl HQ.
  apply (wp_perm _ _ _ _ _ Hl). apply wp_bind. eapply wp_as_json; [in_cells|]. apply wp_bind.
  eapply wp_decref; [reflexivity|]. apply wp_ret. eapply (HQ _ []); [constructor|exact He].
Qed.

Lemma object_parses gt : parses RObject (searpc_client_fret__object gt) (mem_fret__object gt).
Proof.
  apply fret_parses; [constructor|]. intros object p a error error' merror es l l0 x Q Hk He Hl HQ.
  apply (wp_perm _ _ _ _ _ Hl). apply wp_bind. eapply wp_as_json; [in_cells|]. cbv zeta in Hk |- *.
  destruct (json_is_null _).
  - injection Hk as <- <-. apply wp_bind. eapply wp_decref; [reflexivity|]. apply wp_ret.
    eapply (HQ _ []); [constructor|exact He].
  - apply obind_Ok in Hk as (o & Ho & [= <- <-]). apply wp_bind, wp_bind. eapply wp_lift; [exact Ho|].
    apply wp_bind, wp_new. intros q. apply wp_ret. apply wp_bind. eapply wp_decref; [apply Permutation_swap|].
    apply wp_ret. eapply (HQ _ [_]); [constructor|exact He].
Qed.

Lemma json_parses : parses RJson searpc_client_fret__json mem_fret__json.
Proof.
  apply fret_parses; [constructor|]. intros object p a error error' merror es l l0 x Q Hk He Hl HQ.
  apply (wp_perm _ _ _ _ _ Hl). apply wp_bind. eapply wp_as_json; [in_cells|]. cbv zeta in Hk |- *.
  destruct (json_object_get (Some object) "ret") as [v|] eqn:Hv; [destruct (json_is_null (Some v))|];
    [injection Hk as <- <-; apply wp_bind; eapply wp_decref; [reflexivity|]; apply wp_ret;
     eapply (HQ _ []); [constructor|exact He]|
    |injection Hk as <- <-; apply wp_bind; eapply wp_decref; [reflexivity|]; apply wp_ret;
     eapply (HQ _ []); [constructor|exact He]].
  injection Hk as <- <-. apply wp_bind, wp_new_json. intros q Hq. apply wp_bind.
  destruct (json_deep_copy (Some v)) as [c|], q as [q|]; rewrite !is_Some_alt in Hq; try tauto;
    cbn [opt_cell fmap option_fmap option_map app].
  - eapply wp_decref; [apply Permutation_swap|]. apply wp_ret. eapply (HQ _ [_]); [constructor|exact He].
  - eapply wp_decref; [reflexivity|]. apply wp_ret. eapply (HQ _ []); [constructor|exact He].
Qed.

(** *** Lists *)
Lemma wp_list_prepend os ret cs q o l l0 x (Q : option ptr -> W -> cells -> Prop) :
  owns_ret (RObjlist os) (MPtr ret) cs -> l ≡ₚ (q, MObject o) :: cs ++ l0 ->
  (forall ret' cs', owns_ret (RObjlist (o :: os)) (MPtr ret') cs' -> Q ret' x (cs' ++ l0)) ->
  wp (mem_g_list_prepend ret q) l x Q.
Proof.
  intros Hr Hl HQ. apply (wp_perm _ _ _ _ _ Hl). inversion Hr; subst; cbn [mem_g_list_prepend].
  - apply wp_bind, wp_new. intros p. apply wp_ret. apply (HQ _ [(p, MList [q]); (q, MObject o)]).
    by apply (own_list p [q] [o]).
  - apply wp_bind. eapply wp_as_list; [in_cells|]. apply wp_bind.
    eapply (wp_store p _ _ _ ((q, MObject o) :: object_cells items os ++ l0)); [apply Permutation_swap|].
    apply wp_ret. apply (HQ _ ((p, MList (q :: items)) :: object_cells (q :: items) (o :: os))).
    constructor; [done|]. cbn. by f_equal.
Qed.

Lemma object_cells_rev items os :
  length items = length os -> object_cells (D := D) (List.rev items) (List.rev os) ≡ₚ object_cells items os.
Proof.
  revert os. induction items as [|p items IH]; intros [|o os] Hlen; try done. injection Hlen as Hlen.
  unfold object_cells in *. cbn [List.rev]. rewrite fmap_app, zip_with_app by (by rewrite length_fmap, !length_rev).
  rewrite IH by done. cbn. by rewrite <- Permutation_cons_append.
Qed.

Lemma wp_list_reverse os ret cs l l0 x (Q : option ptr -> W -> cells -> Prop) :
  owns_ret (RObjlist os) (MPtr ret) cs -> l ≡ₚ cs ++ l0 ->
  (forall ret' cs', owns_ret (RObjlist (List.rev os)) (MPtr ret') cs' -> Q ret' x (cs' ++ l0)) ->
  wp (mem_g_list_reverse ret) l x Q.
Proof.
  intros Hr Hl HQ. apply (wp_perm _ _ _ _ _ Hl). inversion Hr; subst; cbn [mem_g_list_reverse].
  - apply wp_ret. apply (HQ _ []). constructor.
  - apply wp_bind. eapply wp_as_list; [in_cells|]. apply wp_bind. cbn [app]. eapply wp_store; [reflexivity|].
    apply wp_perm_post. apply wp_ret. eexists. split; cycle 1.
    + apply (HQ _ ((p, MList (List.rev items)) :: object_cells (List.rev items) (List.rev os))).
      constructor; [|by rewrite !length_rev]. destruct os; [done|]. cbn. by destruct (List.rev os).
    + cbn. by rewrite object_cells_rev.
Qed.

Lemma wp_deserialize_objlist gt object v error merror (es : cells) n : forall i os os' ret (cs : cells) l l0 x
    (Q : mem_gerror + option ptr -> W -> cells -> Prop),
  deserialize_objlist gt (json_object_get (Some v) "ret") n i os = Ok os' ->
  owns_error error merror es -> owns_ret (RObjlist os) (MPtr ret) cs -> l ≡ₚ cs ++ (object, MJson v) :: l0 ->
  (forall ret' cs', owns_ret (RObjlist os') (MPtr ret') cs' -> Q (inr ret') x (cs' ++ (object, MJson v) :: l0)) ->
  wp (mem_deserialize_objlist gt object merror n i ret) l x Q.
Proof.
  induction n as [|n IH]; intros i os os' ret cs l l0 x Q Hos He Hr Hl HQ;
    cbn [deserialize_objlist mem_deserialize_objlist] in *.
  { injection Hos as <-. apply (wp_perm _ _ _ _ _ Hl). apply wp_ret. by apply HQ. }
  apply obind_Ok in Hos as (o & Ho & Hos). apply (wp_perm _ _ _ _ _ Hl).
  apply wp_bind. eapply wp_as_json; [apply elem_of_app; right; in_cells|].
  apply wp_bind, wp_bind. eapply wp_lift; [exact Ho|]. apply wp_bind, wp_new. intros q. apply wp_ret.
  apply wp_bind. eapply wp_list_prepend; [exact Hr|reflexivity|]. intros ret' cs' Hr'.
  eapply IH; [exact Hos|exact He|exact Hr'|reflexivity|done].
Qed.

Lemma objlist_parses gt : parses RObjlist (searpc_client_fret__objlist gt) (mem_fret__objlist gt).
Proof.
  apply fret_parses; [constructor|]. intros object p a error error' merror es l l0 x Q Hk He Hl HQ.
  apply (wp_perm _ _ _ _ _ Hl). apply wp_bind. eapply wp_as_json; [in_cells|]. cbv zeta in Hk |- *.
  destruct (json_is_null _).
  { injection Hk as <- <-. apply wp_bind. eapply wp_decref; [reflexivity|]. apply wp_ret.
    eapply (HQ _ []); [constructor|exact He]. }
  destruct (json_object_get (Some object) "ret") as [array|] eqn:Hv; [|done].
  apply obind_Ok in Hk as (os & Hos & [= <- <-]). rewrite <- Hv in Hos. apply wp_bind.
  rewrite <- Hv. eapply (wp_deserialize_objlist gt p object error merror es _ 0 [] os None [] _ (es ++ l0)); [exact Hos|exact He|constructor|reflexivity|].
  intros ret' cs' Hr'. apply wp_bind. eapply wp_decref; [symmetry; apply Permutation_middle|].
  apply wp_bind. eapply wp_list_reverse; [exact Hr'|reflexivity|]. intros ret2 cs2 Hr2. apply wp_ret.
  by apply HQ.
Qed.

(** *** Calls *)

(** The value a call returned, as a return value. *)
Definition ret_of (c : call_result) : cret :=
  match c with
  | CNone => RString None
  | CInt z => RInt z
  | CInt64 z => RInt64 z
  | CString s => RString s
  | CObject o => RObject o
  | CObjlist l => RObjlist l
  | CJson v => RJson v
  end.

(** What the client forgets: the array of a request with a parameter of an unknown type. *)
Definition request_leak (fname : option string) (n : Z) (args : va_list) (lk : cells) : Prop :=
  match fname with
  | None => lk = []
  | Some fname =>
      match fcall_to_str fname n args with
      | Ok None => exists p v, lk = [(p, MJson v)]
      | _ => lk = []
      end
  end.

Lemma wp_client_call {A} (wrap : A -> cret) parse mparse dflt mdflt (client : SearpcClient W Arg AsyncArg CbData)
    fname error n args x a error' x' merror es l (Q : mret * mem_gerror -> W -> cells -> Prop) :
  parses wrap parse mparse -> owns_ret (D := D) (wrap dflt) mdflt [] ->
  client_call dflt parse client fname error n args x = Ok ((a, error'), x') -> owns_error error merror es ->
  (forall r cs merror' es' lk, owns_ret (wrap a) r cs -> owns_error error' merror' es' ->
     request_leak fname n args lk -> Q (r, merror') x' (cs ++ es' ++ lk ++ l)) ->
  wp (mem_client_call mdflt mparse client fname merror n args) (es ++ l) x Q.
Proof.
  intros Hparse Hdflt Hcall He HQ. unfold client_call in Hcall. unfold mem_client_call.
  destruct fname as [fname|]; [|injection Hcall as <- <- <-; apply wp_ret; by apply (HQ _ [] _ _ [])].
  apply rbind_Ok in Hcall as (req & x1 & Hreq & Hcall). unfold rlift in Hreq.
  apply obind_Ok in Hreq as (req' & Hreq & [= -> <-]). unfold request_leak in HQ. rewrite Hreq in HQ.
  apply wp_bind. eapply wp_fcall_to_str; [exact Hreq|]. destruct req as [[text len]|]; cycle 1.
  { injection Hcall as <- <- <-. intros p v. apply wp_bind.
    eapply (wp_set_error error merror es _ _ _ _ ((p, MJson v) :: l)); [exact He|apply Permutation_middle|].
    intros merror' es' He'. apply wp_ret. apply (HQ _ [] _ _ [_]); eauto. }
  apply rbind_Ok in Hcall as (rep & x2 & Hsend & Hcall). intros p. apply wp_bind. eapply wp_as_text; [in_cells|].
  apply wp_bind. eapply wp_world; [exact Hsend|]. destruct rep as [rep|]; cycle 1.
  { injection Hcall as <- <- <-. apply wp_bind. eapply wp_g_free; [reflexivity|]. apply wp_bind.
    eapply (wp_set_error error merror es _ _ _ _ l); [exact He|reflexivity|].
    intros merror' es' He'. apply wp_ret. by apply (HQ _ [] _ _ []). }
  unfold rlift in Hcall. apply obind_Ok in Hcall as (q & Hp & [= -> <-]). apply wp_bind, wp_new. intros fret.
  apply wp_bind.
  eapply (Hparse fret (r_buf rep) (r_len rep) a error error' merror es _ ((fret, MReply (r_buf rep)) :: (p, MText text) :: l));
    [exact Hp|exact He|solve_Permutation|in_cells|].
  intros r cs merror' es' Hr He'. apply wp_bind.
  eapply (wp_g_free p text _ ((fret, MReply (r_buf rep)) :: cs ++ es' ++ l)); [solve_Permutation|].
  apply wp_bind. eapply wp_as_reply; [in_cells|]. apply wp_bind. eapply wp_free; [reflexivity|]. apply wp_ret.
  by apply (HQ r cs merror' es' []).
Qed.

Lemma wp_typed_call t gt (client : SearpcClient W Arg AsyncArg CbData) fname error n args x c error' x' merror es l
    (Q : mret * mem_gerror -> W -> cells -> Prop) :
  typed_call t gt client fname error n args x = Ok ((c, error'), x') -> owns_error error merror es ->
  (forall r cs merror' es' lk, owns_ret (ret_of c) r cs -> owns_error error' merror' es' ->
     request_leak fname n args lk -> Q (r, merror') x' (cs ++ es' ++ lk ++ l)) ->
  wp (mem_typed_call t gt client fname merror n args) (es ++ l) x Q.
Proof.
  intros Hcall He HQ.
  assert (forall A (wrap : A -> call_result) dflt mdflt parse mparse,
    parses (fun a => ret_of (wrap a)) parse mparse -> owns_ret (D := D) (ret_of (wrap dflt)) mdflt [] ->
    (p <- client_call dflt parse client fname error n args ;; rret (wrap_result wrap p)) x = Ok ((c, error'), x') ->
    wp (mem_client_call mdflt mparse client fname merror n args) (es ++ l) x Q) as Hgo.
  { intros A wrap dflt mdflt parse mparse Hparse Hdflt Hrun.
    apply rbind_Ok in Hrun as ([a e1] & x1 & Hrun & [= <- <- <-]).
    eapply (wp_client_call (fun a => ret_of (wrap a)) parse mparse dflt mdflt); [exact Hparse|exact Hdflt|exact Hrun|exact He|exact HQ]. }
  destruct t; cbn [typed_call mem_typed_call] in *.
  - eapply (Hgo _ CString None); [exact string_parses|constructor|exact Hcall].
  - eapply (Hgo _ CInt 0); [exact int_parses|constructor|exact Hcall].
  - eapply (Hgo _ CInt64 0); [exact int64_parses|constructor|exact Hcall].
  - eapply (Hgo _ CObject None); [exact (object_parses gt)|constructor|].
    unfold searpc_client_call__object in Hcall. by destruct fname.
  - eapply (Hgo _ CObjlist []); [exact (objlist_parses gt)|constructor|].
    unfold searpc_client_call__objlist in Hcall. by destruct fname.
  - eapply (Hgo _ CJson None); [exact json_parses|constructor|exact Hcall].
Qed.

(** *** The callback *)
Lemma wp_fret_of t gt data b len c error' l x (Q : mret * mem_gerror -> W -> cells -> Prop) :
  typed_parse t gt b len (ErrAt None) = Ok (c, error') -> (data, MReply b) ∈ l ->
  (forall r cs merror es, owns_ret (ret_of c) r cs -> owns_error error' merror es ->
     Q (r, merror) x (cs ++ es ++ l)) -> wp (mem_fret_of t gt data len (MErrAt None)) l x Q.
Proof.
  intros Hp Hin HQ.
  destruct t; cbn [typed_parse mem_fret_of] in *; apply obind_Ok in Hp as ([a e] & Hp & [= <- <-]);
    [eapply (string_parses data b len a (ErrAt None) e (MErrAt None) [] l l)
    |eapply (int_parses data b len a (ErrAt None) e (MErrAt None) [] l l)
    |eapply (int64_parses data b len a (ErrAt None) e (MErrAt None) [] l l)
    |eapply (object_parses gt data b len a (ErrAt None) e (MErrAt None) [] l l)
    |eapply (objlist_parses gt data b len a (ErrAt None) e (MErrAt None) [] l l)
    |eapply (json_parses data b len a (ErrAt None) e (MErrAt None) [] l l)];
    solve [exact Hp | constructor | reflexivity | exact Hin | intros; by apply HQ].
Qed.

(** The result as the callback finds it. *)
Lemma wp_read_items items os l l0 x (Q : list gobject -> W -> cells -> Prop) :
  length items = length os -> l ≡ₚ object_cells items os ++ l0 -> Q os x l ->
  wp ((fix objects (items : list ptr) : run (heap (cell D) * W) (list gobject) :=
         match items with
         | [] => rret []
         | q :: items' => o <- as_object q ;; os <- objects items' ;; rret (o :: os)
         end) items) l x Q.
Proof.
  revert os l0 Q. induction items as [|q items IH]; intros [|o os] l0 Q Hlen Hl HQ; try done; [by apply wp_ret|].
  apply wp_bind. eapply (wp_as_object q o); [rewrite Hl; by left|]. apply wp_bind.
  eapply (IH os ((q, MObject o) :: l0)); [by injection Hlen| |by apply wp_ret].
  rewrite Hl. cbn. apply Permutation_middle.
Qed.

Lemma wp_read_result t gt b len c e r cs l l0 x (Q : call_result -> W -> cells -> Prop) :
  typed_parse t gt b len (ErrAt None) = Ok (c, e) -> owns_ret (ret_of c) r cs -> l ≡ₚ cs ++ l0 -> Q c x l ->
  wp (read_result t r) l x Q.
Proof.
  intros Hp Hr Hl HQ.
  assert (forall b, b ∈ cs -> b ∈ l) as Hin by (intros b' Hb'; rewrite Hl; apply elem_of_app; by left).
  destruct t; cbn [typed_parse] in Hp; apply obind_Ok in Hp as ([a e1] & _ & [= <- _]); cbn [ret_of fst wrap_result] in *;
    inversion Hr; subst; cbn [read_result]; try (by apply wp_ret).
  - apply wp_bind. eapply wp_as_text; [apply Hin; by left|by apply wp_ret].
  - apply wp_bind. eapply wp_as_object; [apply Hin; by left|by apply wp_ret].
  - apply wp_bind. eapply wp_as_list; [apply Hin; by left|]. apply wp_bind.
    eapply (wp_read_items items a _ ((p, MList items) :: l0)); [done| |by apply wp_ret].
    rewrite Hl. apply Permutation_middle.
  - apply wp_bind. eapply wp_as_json; [apply Hin; by left|by apply wp_ret].
Qed.

Lemma wp_read_error error merror es l l0 x (Q : option GError -> W -> cells -> Prop) :
  owns_error error merror es -> l ≡ₚ es ++ l0 -> Q (error_of error) x l -> wp (read_error merror) l x Q.
Proof.
  intros He Hl HQ. destruct He; cbn [read_error error_of] in *; try (by apply wp_ret).
  apply wp_bind. eapply wp_as_error; [rewrite Hl; by left|by apply wp_ret].
Qed.

Lemma wp_free_result t gt b len c e r cs l l0 x (Q : unit -> W -> cells -> Prop) :
  typed_parse t gt b len (ErrAt None) = Ok (c, e) -> owns_ret (ret_of c) r cs -> l ≡ₚ cs ++ l0 -> Q tt x l0 ->
  wp (mem_free_result t r) l x Q.
Proof.
  intros Hp Hr Hl HQ. apply (wp_perm _ _ _ _ _ Hl).
  destruct t; cbn [typed_parse] in Hp; apply obind_Ok in Hp as ([a e1] & _ & [= <- _]); cbn [ret_of fst wrap_result] in *;
    inversion Hr; subst; cbn [mem_free_result app]; try (by apply wp_ret).
  - by eapply wp_g_free; [reflexivity|].
  - by eapply wp_unref; [reflexivity|].
  - apply wp_bind. eapply wp_as_list; [in_cells|]. apply wp_bind.
    eapply (wp_unref_all items a _ ((p, MList items) :: l0)); [done|apply Permutation_middle|].
    by eapply wp_free; [reflexivity|].
  - by eapply wp_decref; [reflexivity|].
Qed.
End ClientRules.

(** ** Properties *)
Section ClientMemoryProperties.
Context `{Jansson} `{GObjectClasses} {W Arg AsyncArg CbData : Type}.
Local Abbreviation D := (AsyncCallData W CbData).
Local Abbreviation cells := (list (ptr * cell D)).
Implicit Types (l : cells) (x : W).

(** C14: the memory of a call: whatever the transport and the reply are, after a call of any return
    type the heap holds what it held, the value the caller is given, and the error it is given; on
    every other path everything was freed once and nothing used after, except that a request with
    a parameter of an unknown type leaves the array it had begun. *)
Theorem client_call_memory t gt (client : SearpcClient W Arg AsyncArg CbData) fname error n args x c error' x'
    merror es l (m : heap (cell D)) :
  typed_call t gt client fname error n args x = Ok ((c, error'), x') -> owns_error error merror es ->
  heap_is (es ++ l) m ->
  exists r merror' m' cs es' lk,
    mem_typed_call t gt client fname merror n args (m, x) = Ok ((r, merror'), (m', x')) /\
    owns_ret (ret_of c) r cs /\ owns_error error' merror' es' /\ request_leak fname n args lk /\
    heap_is (cs ++ es' ++ lk ++ l) m'.
Proof.
  intros Hcall He Hm.
  destruct (wp_typed_call t gt client fname error n args x c error' x' merror es l
    (fun r y l' => y = x' /\ exists cs es' lk, owns_ret (ret_of c) r.1 cs /\ owns_error error' r.2 es' /\
       request_leak fname n args lk /\ l' = cs ++ es' ++ lk ++ l) Hcall He) with (m := m)
    as ([r merror'] & m' & y & l' & Hrun & Hm' & -> & cs & es' & lk & Hr & He' & Hlk & ->); [|done|].
  { intros. split; [done|]. by eexists _, _, _. }
  by exists r, merror', m', cs, es', lk.
Qed.

(** An asynchronous call leaves its private data, which the transport keeps, or nothing if the
    transport fails. *)
Theorem async_send_memory t gt (client : SearpcClient W Arg AsyncArg CbData) fname cb cbd n args x z x' l
    (m : heap (cell D)) :
  typed_async_call t gt client (Some fname) cb cbd n args x = Ok (z, x') -> heap_is l m ->
  exists m' kept lk,
    mem_async_call_v client fname cb (ctype_name t) (async_gtype t gt) cbd n args (m, x) = Ok (z, (m', x')) /\
    request_leak (Some fname) n args lk /\ heap_is (kept ++ lk ++ l) m' /\
    if z <? 0 then kept = [] else exists p, kept = [(p, MData (typed_async_data t gt cb cbd))].
Proof.
  intros Hcall Hm.
  assert (searpc_client_async_call_v client fname cb (ctype_name t) (async_gtype t gt) cbd n args x = Ok (z, x')) as Hv
    by (by destruct t).
  clear Hcall. unfold searpc_client_async_call_v in Hv. apply rbind_Ok in Hv as (req & x1 & Hreq & Hv).
  unfold rlift in Hreq. apply obind_Ok in Hreq as (req' & Hreq & [= -> <-]).
  assert (wp (mem_async_call_v client fname cb (ctype_name t) (async_gtype t gt) cbd n args) l x (fun z' y l' =>
    z' = z /\ y = x' /\ exists kept lk, request_leak (Some fname) n args lk /\ l' = kept ++ lk ++ l /\
    if z <? 0 then kept = [] else exists p, kept = [(p, MData (typed_async_data t gt cb cbd))])) as Hwp.
  { unfold mem_async_call_v, request_leak. rewrite Hreq. apply wp_bind. eapply wp_fcall_to_str; [exact Hreq|].
    destruct req as [[text len]|]; cycle 1.
    { injection Hv as <- <-. intros p v. apply wp_ret. split; [done|]. split; [done|]. exists [], [(p, MJson v)].
      split; [by eexists _, _|done]. }
    intros p. apply wp_bind, wp_new. intros data. apply wp_bind. eapply wp_as_text; [in_cells|].
    destruct (async_send client) as [f|]; [|done]. destruct (async_arg client) as [a|]; [|done].
    apply rbind_Ok in Hv as (ret & x2 & Hsend & [= <- <-]). apply wp_bind. eapply wp_world; [exact Hsend|].
    apply wp_bind. eapply wp_g_free; [apply Permutation_swap|]. destruct (ret <? 0).
    - apply wp_bind. eapply wp_free; [reflexivity|]. apply wp_ret. split; [done|]. split; [done|]. by exists [], [].
    - apply wp_ret. split; [done|]. split; [done|]. eexists [_], []. split; [done|]. split; [done|]. by exists data. }
  destruct (Hwp m Hm) as (z' & m' & y & l' & Hrun & Hm' & -> & -> & kept & lk & Hlk & -> & Hkept).
  by exists m', kept, lk.
Qed.

(** C38: the memory of a callback: when the transport is done, the private data and the result are
    freed, once, after the program's callback has seen them; the error is freed when the transport
    reports one, but an error that came with the reply is left behind, and nothing else is. *)
Theorem callback_memory t gt cb cbd b len errstr z fr y y' data retstr l (m : heap (cell D)) :
  searpc_client_generic_callback b len (typed_async_data t gt cb cbd) errstr y = Ok ((z, fr), y') ->
  heap_is ((data, MData (typed_async_data t gt cb cbd)) :: (retstr, MReply b) :: l) m ->
  exists m' es,
    mem_generic_callback t gt retstr len data errstr (m, y) = Ok (z, (m', y')) /\
    heap_is (es ++ (retstr, MReply b) :: l) m' /\
    match errstr with
    | Some _ => es = []
    | None => exists c error merror, typed_parse t gt b len (ErrAt None) = Ok (c, error) /\ owns_error error merror es
    end.
Proof.
  intros Hcall Hm. unfold searpc_client_generic_callback in Hcall.
  assert (wp (mem_generic_callback t gt retstr len data errstr)
    ((data, MData (typed_async_data t gt cb cbd)) :: (retstr, MReply b) :: l) y (fun z' y2 l' =>
    z' = z /\ y2 = y' /\ exists es, l' = es ++ (retstr, MReply b) :: l /\
    match errstr with
    | Some _ => es = []
    | None => exists c error merror, typed_parse t gt b len (ErrAt None) = Ok (c, error) /\ owns_error error merror es
    end)) as Hwp.
  { unfold mem_generic_callback. apply wp_bind. eapply wp_as_data; [in_cells|]. apply wp_bind.
    destruct errstr as [errstr|].
    - apply rbind_Ok in Hcall as ([] & y1 & Hcb & [= <- <- <-]). cbn [mem_set_error]. apply wp_bind, wp_bind, wp_new.
      intros p. apply wp_ret. cbn [read_error]. apply wp_bind, wp_bind. eapply wp_as_error; [in_cells|]. apply wp_ret.
      apply wp_bind. eapply wp_world; [exact Hcb|]. eapply wp_g_error_free; [reflexivity|].
      apply wp_bind. eapply wp_free; [reflexivity|]. apply wp_ret. split; [done|]. split; [done|]. by exists [].
    - apply rbind_Ok in Hcall as (ce & y1 & Hp & Hcall). unfold rlift in Hp.
      apply obind_Ok in Hp as (ce' & Hp & [= -> <-]). rewrite parse_result_typed in Hp.
      apply obind_Ok in Hp as ([c error] & Hp & [= <-]). cbn [fst snd] in *.
      apply rbind_Ok in Hcall as ([] & y2 & Hcb & [= <- <- <-]).
      apply wp_bind. eapply wp_fret_of; [exact Hp|in_cells|]. intros r cs merror es Hr He.
      apply wp_bind. eapply wp_read_result; [exact Hp|exact Hr|reflexivity|].
      apply wp_bind. eapply (wp_read_error error merror es); [exact He| |].
      { rewrite app_assoc, (Permutation_app_comm cs), <- app_assoc. reflexivity. }
      apply wp_bind. eapply wp_world; [exact Hcb|].
      eapply wp_free_result; [exact Hp|exact Hr|reflexivity|]. apply wp_bind.
      eapply (wp_free data _ _ (es ++ (retstr, MReply b) :: l)); [symmetry; apply Permutation_middle|].
      apply wp_ret. split; [done|]. split; [done|]. exists es. split; [done|]. by exists c, error, merror. }
  destruct (Hwp m Hm) as (z' & m' & y2 & l' & Hrun & Hm' & -> & -> & es & -> & Hes). by exists m', es.
Qed.
End ClientMemoryProperties.
