(* ===== verification/Windows.v ===== *)
(** * Windows: the other branch of lib/searpc-named-pipe-transport.c

    The framing of Pipe over the named pipes of Windows: one [ReadFile] or [WriteFile] per
    transfer, in message mode; creating and connecting pipes; and the loop that listens.
    [msg_end] is the model of a pipe in message mode, with a schedule of failures. *)
From S2P Require Import Prelude Json Runtime Utils GObject Client Pipe Listener.

(** ** The API *)

(** A HANDLE is a number. *)
Definition INVALID_HANDLE_VALUE : Z := -1.

Definition ERROR_BROKEN_PIPE : Z := 109.
Definition ERROR_PIPE_BUSY : Z := 231.
Definition ERROR_MORE_DATA : Z := 234.
Definition ERROR_PIPE_CONNECTED : Z := 535.

(** The functions of the platform; [ReadFile] yields the bytes it stored, whose number is
    [*bytes_read], and [WriteFile] the number [*bytes_written]. *)
Class WinPipes (X : Type) : Type := {
  ReadFile : Z -> nat -> run X (bool * string);
  WriteFile : Z -> string -> run X (bool * Z);
  FlushFileBuffers : Z -> run X bool;
  GetLastError : run X Z;
  DisconnectNamedPipe : Z -> run X bool;
  CloseHandle : Z -> run X bool;
  CreateNamedPipe : string -> run X Z;
  ConnectNamedPipe : Z -> run X bool;
  CreateFile : string -> run X Z;
  WaitNamedPipe : string -> run X bool;
  SetNamedPipeHandleState : Z -> run X bool;
  (** the text of an error in English, at most so many bytes *)
  FormatMessageA : Z -> nat -> run X string
}.

Section Windows.
Context {X : Type} `{WinPipes X}.

(** ** The text of the last error, for warnings *)
Definition formatErrorMessage : run X string :=
  error_code <- GetLastError ;;
  if error_code =? 0 then rret "no error"
  else
    buf <- FormatMessageA error_code (256 - 1) ;;
    rret (c_string buf).

(** ** Transfers: the functions [pipe_read_n] and [pipe_write_n] *)

Definition win_pipe_read_n (fd : Z) (n : nat) : run X (Z * string) :=
  let dword := to_uint32 (Z.of_nat n) in
  r <- ReadFile fd (Z.to_nat dword) ;;
  if negb r.1 || negb (Z.of_nat (String.length r.2) =? dword) then
    e <- GetLastError ;;
    rret (if e =? ERROR_BROKEN_PIPE then 0 else -1, r.2)
  else rret (Z.of_nat n, r.2).

Definition win_pipe_write_n (fd : Z) (vptr : string) : run X Z :=
  let dword := to_uint32 (Z.of_nat (String.length vptr)) in
  r <- WriteFile fd (str_take (Z.to_nat dword) vptr) ;;
  if negb r.1 || negb (r.2 =? dword) then rret (-1)
  else
    _ <- FlushFileBuffers fd ;;
    rret 0.

Definition win_io : PipeIO X := {|
  io_write_n := win_pipe_write_n;
  io_read_n := win_pipe_read_n;
  io_close fd := _ <- DisconnectNamedPipe fd ;; _ <- CloseHandle fd ;; rret tt
|}.

(** ** Connecting *)

(** The [for] loop; [None] is the return of -1. *)
Fixpoint win_open_pipe (rounds : nat) (path : string) : run X (option Z) :=
  match rounds with
  | O => fun _ => Undef "the pipe stays busy"
  | S rounds' =>
      pipe_fd <- CreateFile path ;;
      if negb (pipe_fd =? INVALID_HANDLE_VALUE) then rret (Some pipe_fd) else
      e <- GetLastError ;;
      if negb (e =? ERROR_PIPE_BUSY) then rret None else
      w <- WaitNamedPipe path ;;
      if negb w then rret None else win_open_pipe rounds' path
  end.

Definition win_client_connect (rounds : nat) (client : SearpcNamedPipeClient)
  : run X (Z * SearpcNamedPipeClient) :=
  r <- win_open_pipe rounds (path client) ;;
  match r with
  | None => rret (-1, client)
  | Some pipe_fd =>
      ok <- SetNamedPipeHandleState pipe_fd ;;
      if negb ok then _ <- CloseHandle pipe_fd ;; rret (-1, client)
      else rret (0, mkPipeClient (path client) pipe_fd)
  end.

(** ** Listening *)

(** One round of the loop: the data of the handler it starts, or [None]: break. *)
Definition win_listen_round (path : string) : run X (option ServerHandlerData) :=
  connfd <- CreateNamedPipe path ;;
  if connfd =? INVALID_HANDLE_VALUE then rret None else
  c <- ConnectNamedPipe connfd ;;
  connected <- (if c : bool then rret true else e <- GetLastError ;; rret (e =? ERROR_PIPE_CONNECTED)) ;;
  if negb connected then _ <- CloseHandle connfd ;; rret None
  else rret (Some (mkHandlerData connfd false)).

(** The first [rounds] rounds: the handlers that were started, and whether the thread still
    listens. *)
Fixpoint win_listen (rounds : nat) (path : string) : run X (list ServerHandlerData * bool) :=
  match rounds with
  | O => rret ([], true)
  | S rounds' =>
      r <- win_listen_round path ;;
      match r with
      | None => rret ([], false)
      | Some data => p <- win_listen rounds' path ;; rret (data :: p.1, p.2)
      end
  end.
End Windows.

(** ** The two sides *)
Section Sides.
Context `{Jansson} {X : Type} `{WinPipes X}.

Definition win_named_pipe_send : ClientTransportData -> string -> nat -> run X (option reply) :=
  @framed_send _ X win_io.

Definition win_client_with_named_pipe_transport {O : GObjectLib} {AsyncArg CbData : Type}
  (pipe_client : SearpcNamedPipeClient) (service : string)
  : SearpcClient X ClientTransportData AsyncArg CbData :=
  let new : SearpcClient X ClientTransportData AsyncArg CbData := searpc_client_new in
  let data := mkTransportData pipe_client service in
  mkClient (Some win_named_pipe_send) (Some data) (async_send new) (async_arg new).

Definition win_named_pipe_client_handler (fuel : nat)
  (call_function : string -> string -> run X string) (rounds : nat) (connfd : Z) : run X unit :=
  @framed_loop _ X win_io fuel call_function rounds connfd handler_start.

(** [searpc_free_client_with_pipe_transport]. *)
Definition win_free_client_with_pipe_transport (data : ClientTransportData) : run X unit :=
  _ <- CloseHandle (pipe_fd (client data)) ;; rret tt.
End Sides.

(** ** A pipe in message mode *)

(** One end: the messages that will arrive, the messages that were written, the error of the
    last call that failed, whether the handle was closed, and the errors the next calls fail
    with ([None]: the call does what it can). *)
Record msg_end := mkMsgEnd {
  m_in : list string; m_out : list string; m_error : Z; m_closed : bool;
  m_events : list (option Z)
}.

Definition m_next (ep : msg_end) : option Z * msg_end :=
  match m_events ep with
  | [] => (None, ep)
  | e :: es => (e, mkMsgEnd (m_in ep) (m_out ep) (m_error ep) (m_closed ep) es)
  end.

Definition m_fail (ep : msg_end) (e : Z) : msg_end :=
  mkMsgEnd (m_in ep) (m_out ep) e (m_closed ep) (m_events ep).
Definition m_set_in (ep : msg_end) (i : list string) : msg_end :=
  mkMsgEnd i (m_out ep) (m_error ep) (m_closed ep) (m_events ep).
Definition m_set_out (ep : msg_end) (o : list string) : msg_end :=
  mkMsgEnd (m_in ep) o (m_error ep) (m_closed ep) (m_events ep).

(** [ReadFile] takes one message, or the part of it that fits: then the rest stays, and the call
    fails with ERROR_MORE_DATA.  Without a message, the other end has gone. *)
Definition m_read (n : nat) (ep : msg_end) : (bool * string) * msg_end :=
  match m_next ep with
  | (Some e, ep) => ((false, ""), m_fail ep e)
  | (None, ep) =>
      match m_in ep with
      | [] => ((false, ""), m_fail ep ERROR_BROKEN_PIPE)
      | msg :: rest =>
          if (String.length msg <=? n)%nat then ((true, msg), m_set_in ep rest)
          else ((false, str_take n msg), m_fail (m_set_in ep (str_drop n msg :: rest)) ERROR_MORE_DATA)
      end
  end.

(** [WriteFile] writes one message. *)
Definition m_write (s : string) (ep : msg_end) : (bool * Z) * msg_end :=
  match m_next ep with
  | (Some e, ep) => ((false, 0), m_fail ep e)
  | (None, ep) => ((true, Z.of_nat (String.length s)), m_set_out ep (m_out ep ++ [s]))
  end.

(** An end beside the rest of a world; a read that finds no message waits, as on a socket.
    [FlushFileBuffers] waits until the other end has read, which changes nothing here. *)
Section MessageWorld.
Context {T : Type} (refill : msg_end * T -> outcome (msg_end * T)).

Definition m_wait (x : msg_end * T) : outcome (msg_end * T) :=
  match m_in x.1 with [] => refill x | _ => Ok x end.

#[export] Instance msg_pipes : WinPipes (msg_end * T) := {|
  ReadFile _ n x := x' <~ m_wait x ;; Ok ((m_read n x'.1).1, ((m_read n x'.1).2, x'.2));
  WriteFile _ s x := Ok ((m_write s x.1).1, ((m_write s x.1).2, x.2));
  FlushFileBuffers _ x := Ok (true, x);
  GetLastError x := Ok (m_error x.1, x);
  DisconnectNamedPipe _ x := Ok (true, x);
  CloseHandle _ x :=
    Ok (true, (mkMsgEnd (m_in x.1) (m_out x.1) (m_error x.1) true (m_events x.1), x.2));
  CreateNamedPipe _ x := Ok (INVALID_HANDLE_VALUE, x);
  ConnectNamedPipe _ x := Ok (false, x);
  CreateFile _ x := Ok (INVALID_HANDLE_VALUE, x);
  WaitNamedPipe _ x := Ok (false, x);
  SetNamedPipeHandleState _ x := Ok (true, x);
  FormatMessageA _ _ x := Ok ("the pipe is broken", x)
|}.
End MessageWorld.
