(* ===== verification/WindowsSafety.v ===== *)
(** * WindowsSafety: the two branches of the named pipe agree

    What the framing does over a pipe of Windows in message mode, and its comparison with the
    POSIX branch. *)
From S2P Require Import Prelude Json Runtime Utils GObject Marshal Server ServerSafety Responses Dispatch Client ClientSafety Rpc Pipe PipeSafety PipeServer Listener Windows.

(** ** Transfers *)

(** No failure is ahead. *)
Definition calm (ep : msg_end) : Prop := Forall (eq None) (m_events ep).

Definition no_msg_peer {T} (x : msg_end * T) : outcome (msg_end * T) := Ok x.

Section Transfers.
Context {T : Type} (refill : msg_end * T -> outcome (msg_end * T)).
Local Abbreviation pipes := (msg_pipes refill).

Definition m_moved (ep : msg_end) (i o : list string) (es : list (option Z)) : msg_end :=
  mkMsgEnd i o (m_error ep) (m_closed ep) es.

Lemma m_next_calm ep :
  calm ep -> exists es, m_next ep = (None, m_moved ep (m_in ep) (m_out ep) es) /\ Forall (eq None) es.
Proof.
  unfold calm, m_next, m_moved. destruct ep as [i o e c [|ev es]]; simpl; intros Hev.
  - by exists [].
  - apply Forall_cons in Hev as [<- Hev]. by exists es.
Qed.

Lemma win_write_ok fd s ep (t : T) :
  calm ep -> Z.of_nat (String.length s) < 2 ^ 32 ->
  exists es, @win_pipe_write_n _ pipes fd s (ep, t) = Ok (0, (m_moved ep (m_in ep) (m_out ep ++ [s]) es, t)) /\
    Forall (eq None) es.
Proof.
  intros Hep Hs. destruct (m_next_calm ep Hep) as (es & Hn & Hes). exists es. split; [|done].
  unfold win_pipe_write_n. cbv zeta. rewrite wrap_unsigned_id by (unfold in_unsigned; lia).
  rewrite Nat2Z.id, str_take_all by done. unfold rbind. cbn [WriteFile msg_pipes obind fst snd].
  unfold m_write. rewrite Hn. cbn [fst snd negb orb obind]. rewrite Z.eqb_refl. done.
Qed.

Lemma win_read_ok fd msg rest ep (t : T) :
  calm ep -> Z.of_nat (String.length msg) < 2 ^ 32 -> m_in ep = msg :: rest ->
  exists es, @win_pipe_read_n _ pipes fd (String.length msg) (ep, t) =
      Ok ((Z.of_nat (String.length msg), msg), (m_moved ep rest (m_out ep) es, t)) /\
    Forall (eq None) es.
Proof.
  intros Hep Hs Hin. destruct (m_next_calm ep Hep) as (es & Hn & Hes). exists es. split; [|done].
  unfold win_pipe_read_n. cbv zeta. rewrite wrap_unsigned_id by (unfold in_unsigned; lia).
  rewrite Nat2Z.id. unfold rbind. cbn [ReadFile msg_pipes]. unfold m_wait. cbn [fst]. rewrite Hin.
  cbn [obind fst snd]. unfold m_read. rewrite Hn. cbn [m_moved m_in]. rewrite Hin, Nat.leb_refl.
  cbn [fst snd negb orb obind]. by rewrite Z.eqb_refl.
Qed.

(** A read that has to wait for the other end. *)
Lemma win_read_waits fd n ep (t : T) ep' t' :
  m_in ep = [] -> refill (ep, t) = Ok (ep', t') -> m_in ep' <> [] ->
  @win_pipe_read_n _ pipes fd n (ep, t) = @win_pipe_read_n _ pipes fd n (ep', t').
Proof.
  intros Hin Hturn Hne. unfold win_pipe_read_n, rbind at 1 3. cbn [ReadFile msg_pipes].
  unfold m_wait. cbn [fst]. rewrite Hin, Hturn. by destruct (m_in ep').
Qed.
End Transfers.

(** ** The two ends of a pipe *)

(** The server's end, the locals of its thread (none once it has returned), and its state. *)
Record win_peer (T : Type) := mkWinPeer {
  wp_end : msg_end; wp_handler : option handler_state; wp_state : T
}.
Arguments mkWinPeer {T} _ _ _.
Arguments wp_end {T} _.
Arguments wp_handler {T} _.
Arguments wp_state {T} _.

Section Connection.
Context `{JanssonLaws} {T : Type} (fuel : nat) (connfd : Z) (call : string -> string -> run T string).

(** While the client waits, its messages arrive at the server, whose thread does a round. *)
Definition win_turn (x : msg_end * win_peer T) : outcome (msg_end * win_peer T) :=
  let '(ep, pe) := x in
  match wp_handler pe with
  | None => Ok x
  | Some st =>
      r <~ @framed_round _ _ (@win_io _ (msg_pipes no_msg_peer)) fuel (call_beside call) connfd st
             (m_set_in (wp_end pe) (m_in (wp_end pe) ++ m_out ep), wp_state pe) ;;
      Ok (m_set_in (m_set_out ep []) (m_out r.2.1), mkWinPeer (m_set_out r.2.1 []) r.1 r.2.2)
  end.

Definition win_pipes : WinPipes (msg_end * win_peer T) := msg_pipes win_turn.

(** Nothing in transit, the server's thread waiting for a request, and no failure ahead. *)
Definition win_quiet (x : msg_end * win_peer T) (t : T) : Prop :=
  m_in x.1 = [] /\ m_out x.1 = [] /\ m_in (wp_end x.2) = [] /\ m_out (wp_end x.2) = [] /\
  calm x.1 /\ calm (wp_end x.2) /\ wp_state x.2 = t /\
  exists st, wp_handler x.2 = Some st /\ handler_ok st.

(** A round of the thread on a request. *)
Lemma win_round_spec st svc body j resp rest ep t t' :
  handler_ok st -> text_ok svc = true -> text_ok body = true ->
  request_to_json svc body (String.length body) = Some j ->
  Z.of_nat (String.length j) <= max_message -> Z.of_nat (String.length resp) < 2 ^ 32 ->
  m_in ep = le32 (Z.of_nat (String.length j)) :: j :: rest -> calm ep -> (20 <= fuel)%nat ->
  call svc body t = Ok (resp, t') ->
  exists st' es,
    @framed_round _ _ (@win_io _ (msg_pipes no_msg_peer)) fuel (call_beside call) connfd st (ep, t) =
      Ok (Some st', (m_moved ep rest
                       (m_out ep ++ [le32 (Z.of_nat (String.length resp)); resp]) es, t')) /\
    handler_ok st' /\ Forall (eq None) es.
Proof.
  intros Hst Hsvc Hbody Hj Hjm Hrm Hin Hcalm Hf Hcall.
  destruct (grow_room fuel st (String.length j) Hst Hjm Hf) as (st1 & Hg & Hst1 & Hbuf).
  destruct (win_read_ok no_msg_peer connfd (le32 (Z.of_nat (String.length j))) (j :: rest) ep t)
    as (e1 & H1 & He1); [done|by rewrite le32_length|done|].
  rewrite le32_length in H1. set (ep1 := m_moved ep _ _ e1) in *.
  destruct (win_read_ok no_msg_peer connfd j rest ep1 t) as (e2 & H2 & He2);
    [done|unfold max_message in *; lia|done|].
  set (ep2 := m_moved ep1 _ _ e2) in *.
  destruct (win_write_ok no_msg_peer connfd (le32 (to_uint32 (Z.of_nat (String.length resp)))) ep2 t')
    as (e3 & H3 & He3); [done|by rewrite le32_length|].
  set (ep3 := m_moved ep2 _ _ e3) in *.
  destruct (win_write_ok no_msg_peer connfd resp ep3 t') as (e4 & H4 & He4); [done..|].
  eexists _, e4. split; [|split; [|exact He4]].
  - rewrite (framed_round_step (IO := @win_io _ (msg_pipes no_msg_peer)) fuel (call_beside call) connfd st st1
      svc body j resp _ _ _ _ j _ _ _ (ep2, t') _ _ Hsvc Hbody Hj Hjm H1 ltac:(lia) Hg H2 ltac:(lia)
      (Hbuf j eq_refl) ltac:(unfold call_beside; cbn [snd]; by rewrite Hcall) H3 ltac:(lia) H4 ltac:(lia)).
    unfold m_moved, ep3, ep2, ep1. cbn. rewrite wrap_unsigned_id by (unfold in_unsigned; lia).
    by rewrite <- app_assoc.
  - split; [apply Hst1|apply Hst1].
Qed.
End Connection.

Section Exchange.
Context `{JanssonLaws} `{GObjectLaws} {T AsyncArg CbData : Type}.
Context (fuel : nat) (connfd : Z) (call : string -> string -> run T string) (pc : SearpcNamedPipeClient).
Context (svc : string) (svc_ok : text_ok svc = true).
Local Abbreviation pipes := (win_pipes fuel connfd call).

(** One exchange over the pipe. *)
Lemma win_exchange req j resp x t t' :
  win_quiet x t -> (20 <= fuel)%nat -> text_ok req = true ->
  request_to_json svc req (String.length req) = Some j ->
  Z.of_nat (String.length j) <= max_message -> Z.of_nat (String.length resp) < 2 ^ 32 ->
  call svc req t = Ok (resp, t') ->
  exists buf x', @win_named_pipe_send _ _ pipes (mkTransportData pc svc) req (String.length req) x =
      Ok (Some (mkReply buf (String.length resp)), x') /\
    cbuf_read buf (String.length resp) = Ok resp /\ win_quiet x' t'.
Proof.
  destruct x as [ep pe]. intros (Hi & Ho & Hsi & Hso & Hc & Hsc & Ht & st & Hst & Hok) Hf Hreq Hj Hjm Hrm Hcall.
  cbn [fst snd] in *. subst t. set (turn := win_turn fuel connfd call). set (fd := pipe_fd pc).
  destruct (win_write_ok turn fd (le32 (Z.of_nat (String.length j))) ep pe) as (e1 & Hw1 & He1);
    [done|by rewrite le32_length|].
  set (ep1 := m_moved ep _ _ e1) in *.
  destruct (win_write_ok turn fd j ep1 pe) as (e2 & Hw2 & He2); [done|unfold max_message in *; lia|].
  set (ep2 := m_moved ep1 _ _ e2) in *.
  destruct (win_round_spec fuel connfd call st svc req j resp []
    (m_set_in (wp_end pe) (m_in (wp_end pe) ++ m_out ep2)) (wp_state pe) t')
    as (st' & e5 & Hround & Hst' & He5); try done; [cbn; by rewrite Hsi, Ho|].
  set (ep3 := m_set_in (m_set_out ep2 []) [le32 (Z.of_nat (String.length resp)); resp]).
  set (pe' := mkWinPeer (m_moved (wp_end pe) [] [] e5) (Some st') t').
  assert (turn (ep2, pe) = Ok (ep3, pe')) as Hturn
    by (unfold turn, win_turn; rewrite Hst, Hround; cbn; by rewrite Hso).
  destruct (win_read_ok turn fd (le32 (Z.of_nat (String.length resp))) [resp] ep3 pe') as (e3 & Hr1 & He3);
    [done|by rewrite le32_length|done|].
  rewrite le32_length in Hr1. set (ep4 := m_moved ep3 _ _ e3) in *.
  destruct (win_read_ok turn fd resp [] ep4 pe') as (e4 & Hr2 & He4); [done..|].
  pose proof (eq_trans (win_read_waits turn fd 4 ep2 pe ep3 pe' Hi Hturn ltac:(done)) Hr1) as Hr3.
  exists (cbuf_write (g_malloc (String.length resp)) resp), (m_moved ep4 [] (m_out ep4) e4, pe').
  split; [|split; [by apply cbuf_read_written|]].
  - assert (read_over (Z.of_nat (String.length j)) (le32 (Z.of_nat (String.length resp))) =
      Z.of_nat (String.length resp)) as Hov by (apply read_over_full; unfold in_unsigned; lia).
    eapply (framed_send_steps (IO := @win_io _ pipes) pc svc req j); eauto; unfold max_message in *; lia.
  - repeat split; try done. exists st'. by split.
Qed.

(** What a reply means depends on its bytes only. *)
Lemma typed_parse_read t gt b1 b2 len bytes error :
  cbuf_read b1 len = Ok bytes -> cbuf_read b2 len = Ok bytes ->
  typed_parse t gt b1 len error = typed_parse t gt b2 len error.
Proof.
  intros Hb1 Hb2. destruct t; unfold typed_parse, searpc_client_fret__string, searpc_client_fret__int,
    searpc_client_fret__int64, searpc_client_fret__object, searpc_client_fret__objlist,
    searpc_client_fret__json, fret, handle_ret_common; by rewrite Hb1, Hb2.
Qed.

(** ** Properties *)

(** C6: the two branches of the named pipe agree: a typed call over a quiet POSIX connection, with
    any schedule of partial transfers and interruptions, and the same call over a quiet pipe of
    Windows, to servers in the same state, have the same outcome, leave the servers in the same
    state, and leave both connections quiet. *)
Theorem pipe_branches_agree ty gt fname k args req j resp n x y t t' :
  quiet x t -> roomy fuel n x -> win_quiet y t -> (20 <= fuel)%nat ->
  fcall_to_str fname k args = Ok (Some (req, String.length req)) -> text_ok req = true ->
  request_to_json svc req (String.length req) = Some j -> (String.length j <= n)%nat ->
  Z.of_nat n <= max_message -> call svc req t = Ok (resp, t') -> (String.length resp <= n)%nat ->
  exists out x' y',
    typed_call ty gt
      (@searpc_client_with_named_pipe_transport _ _ (pipe_sockets fuel connfd call) fuel _ AsyncArg CbData pc svc)
      (Some fname) (ErrAt None) k args x = rlift out x' /\
    typed_call ty gt (@win_client_with_named_pipe_transport _ _ pipes _ AsyncArg CbData pc svc)
      (Some fname) (ErrAt None) k args y = rlift out y' /\
    quiet x' t' /\ roomy fuel n x' /\ win_quiet y' t'.
Proof.
  intros Hx Hroom Hy Hf Hreq Htext Hj Hjn Hn Hcall Hrn. unfold max_message in *.
  destruct (pipe_exchange fuel connfd pc svc call svc_ok req j resp x t t' n)
    as (b1 & x' & Hs1 & Hr1 & Hx' & Hroom'); try done; [unfold max_message; lia|lia|].
  destruct (win_exchange req j resp y t t') as (b2 & y' & Hs2 & Hr2 & Hy'); try done;
    [unfold max_message; lia|lia|].
  exists (typed_parse ty gt b1 (String.length resp) (ErrAt None)), x', y'.
  split; [|split; [|done]].
  - erewrite typed_call_step; [|exact Hreq|exact Hs1]. done.
  - erewrite typed_call_step; [|exact Hreq|exact Hs2]. cbn [r_buf r_len].
    by rewrite (typed_parse_read ty gt b2 b1 _ resp (ErrAt None) Hr2 Hr1).
Qed.
End Exchange.
