(* ===== verification/Demo.v ===== *)
(** * Demo: the server of demo/searpc-demo-server.c

    The two RPC functions of the demo server and its [start_rpc_service], over the object system
    of TestObject.  The demo functions are registered without the [GError **] parameter the
    generated marshal passes them; the model does not tell prototypes apart by it. *)
From S2P Require Import Prelude Json Runtime Utils GObject TestObject Marshal Server ServerSafety Responses Dispatch Client ClientSafety Rpc.

Definition searpc_strlen (str : option string) : Z :=
  match str with
  | None => -1
  | Some s => to_int (Z.of_nat (String.length s))
  end.

(** One object of the loop of [searpc_objlisttest]: [len == strlen (str)] compares as [size_t]. *)
Definition objlisttest_object (len : Z) (str : option string) : outcome demo_object :=
  match str with
  | None => Undef "strlen of NULL"
  | Some s =>
      let obj := test_object_init in
      let equal :=
        if wrap_unsigned 64 len =? Z.of_nat (String.length s) then true else to_equal obj in
      Ok (mkDemo T_test (mkTestObject len (Some s) equal))
  end.

Fixpoint objlisttest_loop (n : nat) (len : Z) (str : option string) (ret : list demo_object)
  : outcome (list demo_object) :=
  match n with
  | O => Ok ret
  | S n' =>
      obj <~ objlisttest_object len str ;;
      objlisttest_loop n' len str (obj :: ret)
  end.

(** [i != count] from 0: a negative count is reached only after [i] overflows. *)
Definition searpc_objlisttest (count len : Z) (str : option string) : outcome (list demo_object) :=
  if count <? 0 then Undef "signed overflow of i"
  else objlisttest_loop (Z.to_nat count) len str [].

Section Demo.
Context `{Jansson} {W : Type} (stack : nat) (md5 : string -> string).

Definition strlen_function : @cfunction demo_lib W := {|
  c_ret := T_int;
  c_params := [T_string];
  c_body params :=
    match params with
    | [PString str] => rret (RInt (searpc_strlen str), None)
    | _ => fun _ => Undef "arguments of another type"
    end
|}.

Definition objlisttest_function : @cfunction demo_lib W := {|
  c_ret := T_objlist;
  c_params := [T_int; T_int; T_string];
  c_body params :=
    match params with
    | [PInt count; PInt len; PString str] =>
        l <- rlift (searpc_objlisttest count len str) ;;
        rret (RObjlist (l : list (@gobject demo_lib)), None)
    | _ => fun _ => Undef "arguments of another type"
    end
|}.

(** demo/rpc_table.py. *)
Definition func_table : list (ctype * list ctype) :=
  [(T_int, [T_string]); (T_objlist, [T_int; T_int; T_string])].

Definition start_rpc_service (s : @server demo_lib W) : outcome (@server demo_lib W) :=
  s <~ searpc_server_init (register_marshals stack md5 func_table) s ;;
  r <~ searpc_create_service (Some "searpc-demo") s ;;
  r <~ searpc_server_register_function (Some "searpc-demo") (Some strlen_function)
         (Some "searpc_strlen") (Some (generate_signature md5 T_int [T_string])) r.2 ;;
  r <~ searpc_server_register_function (Some "searpc-demo") (Some objlisttest_function)
         (Some "searpc_objlisttest")
         (Some (generate_signature md5 T_objlist [T_int; T_int; T_string])) r.2 ;;
  Ok r.2.
End Demo.

(** ** Facts *)
Section DemoFacts.
Context `{JanssonLaws} {W : Type} (stack : nat) (md5 : string -> string).

Definition demo_marshal (r : ctype) (a : list ctype) : @MarshalItem demo_lib W :=
  generated_item stack md5 r a.

(** The state [start_rpc_service] leaves. *)
Definition demo_service : @SearpcService demo_lib W :=
  mkService "searpc-demo"
    (<["searpc_objlisttest" :=
        mkNode false (mkFunc objlisttest_function "searpc_objlisttest"
          (demo_marshal T_objlist [T_int; T_int; T_string]))]>
     (<["searpc_strlen" :=
        mkNode false (mkFunc strlen_function "searpc_strlen" (demo_marshal T_int [T_string]))]> ∅)).

Lemma demo_started s :
  generate_signature md5 T_int [T_string] <> generate_signature md5 T_objlist [T_int; T_int; T_string] ->
  exists marshals,
    start_rpc_service stack md5 s =
      Ok (set_service_table (Some {["searpc-demo" := demo_service]}) (set_marshal_table (Some marshals) s)) /\
    marshals !! generate_signature md5 T_int [T_string] = Some (demo_marshal T_int [T_string]) /\
    marshals !! generate_signature md5 T_objlist [T_int; T_int; T_string] =
      Some (demo_marshal T_objlist [T_int; T_int; T_string]) /\
    map_Forall (fun sg m => signature m = sg) marshals.
Proof.
  intros Hne. unfold start_rpc_service, searpc_server_init, func_table.
  cbn [register_marshals searpc_server_register_marshal marshal_table set_marshal_table
       set_service_table table_of obind snd].
  set (sg1 := generate_signature md5 T_int [T_string]) in *.
  set (sg2 := generate_signature md5 T_objlist [T_int; T_int; T_string]) in *.
  rewrite lookup_empty. cbn [obind snd marshal_table set_marshal_table table_of].
  rewrite lookup_insert_ne, lookup_empty by done.
  cbn [obind snd marshal_table set_marshal_table table_of].
  set (ms := <[sg2 := _]> _).
  assert (ms !! sg2 = Some (demo_marshal T_objlist [T_int; T_int; T_string])) as Hm2
    by apply lookup_insert_eq.
  assert (ms !! sg1 = Some (demo_marshal T_int [T_string])) as Hm1.
  { unfold ms. rewrite lookup_insert_ne by done. apply lookup_insert_eq. }
  assert (map_Forall (fun sg m => signature m = sg) ms) as Hms.
  { apply map_Forall_insert_2; [done|]. apply map_Forall_insert_2; [done|]. apply map_Forall_empty. }
  clearbody ms. exists ms. split; [|done].
  unfold searpc_create_service. cbn [service_table set_marshal_table set_service_table table_of obind].
  rewrite lookup_empty. cbn [obind snd].
  cbn [searpc_server_register_function service_table set_service_table marshal_table
       set_marshal_table table_of obind].
  rewrite lookup_insert_eq. rewrite Hm1. cbn [obind].
  unfold insert_function at 1. cbn [fname Server.func_table]. rewrite lookup_empty. cbn [obind snd].
  cbn [service_table set_service_table marshal_table set_marshal_table table_of obind].
  rewrite lookup_insert_eq. rewrite Hm2. cbn [obind].
  unfold insert_function at 1. cbn [fname Server.func_table name].
  rewrite lookup_insert_ne, lookup_empty by done. cbn [obind snd name].
  unfold set_service_table, set_marshal_table. cbn. by rewrite !insert_insert_eq.
Qed.

(** The started server is well formed and runs both functions. *)
Lemma demo_server_wf s :
  generate_signature md5 T_int [T_string] <> generate_signature md5 T_objlist [T_int; T_int; T_string] ->
  exists s', start_rpc_service stack md5 s = Ok s' /\ server_wf s' /\
    serves (W := W) "searpc-demo" s' "searpc_strlen" stack strlen_function /\
    serves (W := W) "searpc-demo" s' "searpc_objlisttest" stack objlisttest_function.
Proof.
  intros Hne. destruct (demo_started s Hne) as (ms & Hrun & Hm1 & Hm2 & Hms).
  eexists. split; [exact Hrun|]. split; [|split].
  - eexists _, _. split; [done|]. split; [done|]. split; [done|]. apply map_Forall_singleton.
    split; [done|]. apply map_Forall_insert_2; [by split|].
    apply map_Forall_insert_2; [by split|]. apply map_Forall_empty.
  - exists (mkFunc strlen_function "searpc_strlen" (demo_marshal T_int [T_string])).
    split; [|done]. unfold registered. cbn [service_table set_service_table mbind option_bind].
    rewrite lookup_singleton_eq. cbn [mbind option_bind Server.func_table demo_service].
    by rewrite lookup_insert_ne, lookup_insert_eq.
  - exists (mkFunc objlisttest_function "searpc_objlisttest"
      (demo_marshal T_objlist [T_int; T_int; T_string])).
    split; [|done]. unfold registered. cbn [service_table set_service_table mbind option_bind].
    rewrite lookup_singleton_eq. cbn [mbind option_bind Server.func_table demo_service].
    by rewrite lookup_insert_eq.
Qed.

(** The demo objects are portable and typed. *)
Lemma demo_object_portable len str equal :
  -1 <= len <= 256 -> text_ok str = true ->
  portable_obj 1 (mkDemo T_test (mkTestObject len (Some str) equal) : @gobject demo_lib).
Proof.
  intros Hlen Hstr p. simpl.
  intros [<-|[<-|[<-|[]]]]; (split; [done|]; split; [done|]; split; [by apply ascii_text_ok|]); simpl.
  - split; [unfold in_signed; lia|]. cbn. lia.
  - done.
  - by destruct equal.
Qed.

Lemma objlisttest_spec n len str ret :
  exists obj, objlisttest_object len (Some str) = Ok obj /\
    objlisttest_loop n len (Some str) ret = Ok (repeat obj n ++ ret).
Proof.
  destruct (objlisttest_object len (Some str)) as [obj| |] eqn:Ho; [|done..].
  exists obj. split; [done|]. revert ret. induction n as [|n IH]; intros ret; [done|].
  cbn [objlisttest_loop]. rewrite Ho. cbn [obind]. rewrite IH.
  change (obj :: ret) with ([obj] ++ ret). by rewrite app_assoc, <- repeat_cons.
Qed.
End DemoFacts.

(** ** Properties *)
Section DemoProperties.
Context `{JanssonLaws} {W X Arg AsyncArg CbData : Type} (stack : nat) (md5 : string -> string).
Context (start finish : timeval) (client : @SearpcClient demo_lib X Arg AsyncArg CbData)
  `{!Transport client (@searpc_server_call_function _ demo_lib W start finish "searpc-demo")}.

(** Over any transport that carries the messages, a client of the demo server gets the length
    of the string it sends, and -1 for NULL. *)
Theorem demo_strlen_remote s0 s gt x (w : W) str :
  generate_signature md5 T_int [T_string] <> generate_signature md5 T_objlist [T_int; T_int; T_string] ->
  start_rpc_service stack md5 s0 = Ok s -> tr_rel x (s, w) -> (forall req resp, tr_fits req resp) ->
  match str with Some t => text_ok t = true | None => True end ->
  exists x' s', typed_call T_int gt client (Some "searpc_strlen") (ErrAt None) 1
      [("string", VString str)] x =
    Ok ((CInt (match str with
               | Some t => to_int (Z.of_nat (String.length t))
               | None => -1
               end), ErrAt None), x') /\ tr_rel x' (s', w) /\
    registry_equiv (registry_of s') (registry_of s).
Proof.
  intros Hne Hs Hx Hfits Hstr.
  destruct (demo_server_wf (W := W) stack md5 s0 Hne) as (s1 & Hs1 & Hwf & Hserves & _).
  assert (s1 = s) as -> by congruence.
  pose proof demo_laws as Hlaws.
  destruct (transparent_aux start finish "searpc-demo" client 0 gt stack s "searpc_strlen"
    strlen_function [VString str] [] x w (RInt (searpc_strlen str)) None w)
    as (c & e & x' & lines & Hcall & Hx' & Hc & He); try done.
  - by apply ascii_text_ok.
  - repeat constructor. by destruct str.
  - destruct str; simpl; [by apply wrap_signed_range|done].
  - lia.
  - lia.
  - exists x', (add_lines lines s). split; [|split; [done|by repeat split]].
    destruct c; try done. simpl in Hc. subst. destruct str; exact Hcall.
Qed.

(** The demo's object list call over any transport: for a count, a length the property
    accepts and a string, the client gets [count] objects, each with that length, that string,
    and "equal" telling whether the string has that length. *)
Theorem demo_objlist_remote s0 s x (w : W) count len str :
  generate_signature md5 T_int [T_string] <> generate_signature md5 T_objlist [T_int; T_int; T_string] ->
  start_rpc_service stack md5 s0 = Ok s -> tr_rel x (s, w) -> (forall req resp, tr_fits req resp) ->
  (1 <= stack)%nat -> 0 <= count < 2 ^ 31 -> 0 <= len <= 256 -> text_ok str = true ->
  exists l x' s', typed_call T_objlist T_test client (Some "searpc_objlisttest") (ErrAt None) 3
      [("int", VWord count); ("int", VWord len); ("string", VString (Some str))] x =
      Ok ((CObjlist l, ErrAt None), x') /\ tr_rel x' (s', w) /\
    length l = Z.to_nat count /\
    Forall (fun o => g_object_type o = T_test /\
      g_object_get_property o "len" = GInteger len /\
      g_object_get_property o "str" = GString (Some str) /\
      g_object_get_property o "equal" = GBoolean (len =? Z.of_nat (String.length str))) l.
Proof.
  intros Hne Hs Hx Hfits Hst Hcount Hlen Hstr.
  destruct (demo_server_wf (W := W) stack md5 s0 Hne) as (s1 & Hs1 & Hwf & _ & Hserves).
  assert (s1 = s) as -> by congruence. pose proof demo_laws as Hlaws.
  destruct (objlisttest_spec (Z.to_nat count) len str []) as (obj & Hobj & Hloop).
  injection Hobj as Hobj. rewrite wrap_unsigned_id in Hobj by (unfold in_unsigned; lia).
  assert (portable_obj 1 obj) as Hport by (subst; apply demo_object_portable; [lia|done]).
  destruct (transparent_aux start finish "searpc-demo" client 1 T_test stack s "searpc_objlisttest"
    objlisttest_function [VWord count; VWord len; VString (Some str)] [] x w
    (@RObjlist demo_lib (repeat (obj : @gobject demo_lib) (Z.to_nat count))) None w)
    as (c & e & x' & lines & Hcall & Hx' & Hc & He); try done.
  - by apply ascii_text_ok.
  - by repeat constructor.
  - cbn [c_body objlisttest_function c_params zip_with arg_param].
    rewrite !wrap_signed_id by (unfold in_signed; lia).
    unfold searpc_objlisttest. destruct (Z.ltb_spec count 0); [lia|].
    unfold rbind, rlift. rewrite Hloop. cbn. by rewrite app_nil_r.
  - apply List.Forall_forall. intros o Ho. by apply repeat_spec in Ho as ->.
  - apply List.Forall_forall. intros o Ho. apply repeat_spec in Ho as ->. by subst.
  - unfold wire_depth. lia.
  - destruct c as [| | | | |l|]; try done. simpl in Hc.
    exists l, x', (add_lines lines s). cbn [c_params objlisttest_function length Z.of_nat] in Hcall.
    split; [|split; [done|split]].
    + subst e. exact Hcall.
    + apply Forall2_length in Hc. by rewrite repeat_length in Hc.
    + apply Forall_forall. intros o Ho. apply list_elem_of_lookup in Ho as [i Hi].
      destruct (Forall2_lookup_r _ _ _ _ _ Hc Hi) as (o0 & Hi0 & Hsame).
      apply list_elem_of_lookup_2, list_elem_of_In, repeat_spec in Hi0 as ->.
      destruct Hsame as [Hty Hprops]. subst obj. split; [symmetry; exact Hty|].
      pose proof (Hprops _ (or_introl eq_refl)) as Plen.
      pose proof (Hprops _ (or_intror (or_introl eq_refl))) as Pstr.
      pose proof (Hprops _ (or_intror (or_intror (or_introl eq_refl)))) as Pequ.
      split; [symmetry; exact Plen|]. split; [symmetry; exact Pstr|].
      symmetry. destruct (len =? _); exact Pequ.
Qed.
End DemoProperties.
