(* ===== verification/DemoTcp.v ===== *)
(** * DemoTcp: the TCP transport of the demo programs

    demo/searpc-demo-packet.h and its users, demo/searpc-demo-client.c and
    demo/searpc-demo-server.c: a packet is its length as a [uint16_t] in network byte order and
    its bytes, built in and read into a buffer of 256 bytes on the stack. *)
From S2P Require Import Prelude Json Runtime Utils GObject Client Pipe PipeSafety.

Definition BUFLEN : nat := 256.
Definition PACKET_HEADER_LENGTH : nat := 2.

(** [htons] of a length stored in the header, and [ntohs] of a header that was read. *)
Definition be16 (z : Z) : string :=
  String (byte_of (Z.shiftr (wrap_unsigned 16 z) 8)) (String (byte_of (wrap_unsigned 16 z)) "").

Definition be16_decode (s : string) : Z :=
  match s with
  | String a (String b _) => 256 * of_byte a + of_byte b
  | _ => 0
  end.

Definition packet_of (s : string) : string := be16 (Z.of_nat (String.length s)) +:+ s.

(** What the transport of the asynchronous client keeps: [rpc_priv] is the private data of the call, of type
    [P] ([None] for NULL). *)
Record TcpTransport (P : Type) := mkTcp { trans_fd : Z; rpc_priv : option P }.
Arguments mkTcp {P} _ _.
Arguments trans_fd {P} _.
Arguments rpc_priv {P} _.

Section Packets.
Context `{GObjectLib} {X : Type} `{Sockets X} (fuel : nat).

(** The two loops are those of the named pipe. *)
Definition writen (fd : Z) (vptr : string) : run X Z := pipe_write_n fuel fd vptr.
Definition readn (fd : Z) (n : nat) : run X (Z * string) := pipe_read_n fuel fd n.

(** What [exit (-1)] is to the caller. *)
Definition exit_process {A} (why : string) : run X A := fun _ => Abort why.

(** The data of the packet, or NULL; storing more than the buffer holds is undefined. *)
Definition read_packet (sockfd : Z) : run X (option string) :=
  r1 <- readn sockfd PACKET_HEADER_LENGTH ;;
  if negb (r1.1 =? Z.of_nat PACKET_HEADER_LENGTH) then exit_process "read header error" else
  let len := be16_decode r1.2 in
  if len <=? 0 then rret None else
  r2 <- readn sockfd (Z.to_nat len) ;;
  if (BUFLEN <? PACKET_HEADER_LENGTH + String.length r2.2)%nat then fun _ => Undef "stack buffer overflow"
  else if negb (r2.1 =? len) then rret None
  else rret (Some r2.2).

(** Build a packet in the buffer and write it. *)
Definition send_packet (fd : Z) (data : string) (len : nat) : run X Z :=
  if (BUFLEN <? PACKET_HEADER_LENGTH + len)%nat then fun _ => Undef "stack buffer overflow"
  else writen fd (be16 (Z.of_nat len) +:+ str_take len data).

(** [g_strndup]: up to the first NUL, the rest of the [n] bytes zero, and a NUL. *)
Definition g_strndup (s : string) (n : nat) : cbuf :=
  let t := c_string (str_take n s) in
  mkCbuf (t +:+ str_repeat nul (n - String.length t) +:+ String nul "") (S n).

(** The transport of the demo client; its argument is the socket. *)
Definition transport_callback (fd : Z) (fcall_str : string) (fcall_len : nat) : run X (option reply) :=
  w <- send_packet fd fcall_str fcall_len ;;
  if w =? -1 then exit_process "write failed" else
  pac_ret <- read_packet fd ;;
  match pac_ret with
  | None => exit_process "read packet failed"
  | Some data =>
      let ret_len := String.length data in
      rret (Some (mkReply (g_strndup data ret_len) ret_len))
  end.

(** The asynchronous client: send a request, and read a response. *)
Definition transport_send {P} (trans : TcpTransport P) (fcall_str : string) (fcall_len : nat) (priv : P)
  : run X (Z * TcpTransport P) :=
  w <- send_packet (trans_fd trans) fcall_str fcall_len ;;
  if w =? -1 then exit_process "write failed" else rret (0, mkTcp (trans_fd trans) (Some priv)).

(** [generic_callback] is [searpc_client_generic_callback], which reads the data of the call. *)
Definition transport_read {P} (generic_callback : cbuf -> nat -> P -> option string -> run X (Z * list freed))
  (trans : TcpTransport P) : run X (TcpTransport P) :=
  pac <- read_packet (trans_fd trans) ;;
  match pac with
  | None => exit_process "read packet failed"
  | Some data =>
      match rpc_priv trans with
      | None => fun _ => Undef "data of a call that is NULL"
      | Some priv =>
          _ <- generic_callback (mkCbuf data (BUFLEN - PACKET_HEADER_LENGTH)) (String.length data) priv None ;;
          rret (mkTcp (trans_fd trans) None)
      end
  end.

(** One round of the server's [main], after [accept] returned [connfd]; [call_function] is
    [searpc_server_call_function] for the service "searpc-demo".  The socket is not closed. *)
Definition demo_server_round (call_function : string -> run X string) (connfd : Z) : run X unit :=
  pac <- read_packet connfd ;;
  match pac with
  | None => exit_process "read packet failed"
  | Some data =>
      res <- call_function data ;;
      w <- send_packet connfd res (String.length res) ;;
      if w =? -1 then exit_process "write packet failed" else rret tt
  end.
End Packets.

(** ** Facts *)
Lemma be16_decode_be16 n : Z.of_nat n < 65536 -> be16_decode (be16 (Z.of_nat n)) = Z.of_nat n.
Proof.
  intros Hn. cbn [be16 be16_decode]. rewrite !of_byte_of.
  rewrite wrap_unsigned_id by (unfold in_unsigned; change (2 ^ 16) with 65536; lia).
  rewrite Z.shiftr_div_pow2 by lia.
  change (2 ^ 8) with 256. rewrite (Z.mod_small (Z.of_nat n / 256)).
  - pose proof (Z.div_mod (Z.of_nat n) 256 ltac:(lia)). lia.
  - split; [apply Z.div_pos; lia|]. apply Z.div_lt_upper_bound; lia.
Qed.

Section PacketFacts.
Context {T : Type} (refill : endpoint * T -> outcome (endpoint * T)) (fuel : nat).
Local Abbreviation sockets := (ep_sockets refill).

(** The two reads of a packet that arrives whole. *)
Lemma packet_reads fd data rest ep (t : T) :
  Z.of_nat (String.length data) < 65536 -> inbox ep = packet_of data +:+ rest ->
  smooth (read_events ep) = true -> (String.length data + 2 + length (read_events ep) < fuel)%nat ->
  exists r1 r2,
    @readn _ sockets fuel fd PACKET_HEADER_LENGTH (ep, t) =
      Ok ((2, be16 (Z.of_nat (String.length data))), (set_read ep (data +:+ rest) r1, t)) /\
    @readn _ sockets fuel fd (String.length data) (set_read ep (data +:+ rest) r1, t) =
      Ok ((Z.of_nat (String.length data), data), (set_read ep rest r2, t)) /\
    smooth r2 = true.
Proof.
  intros Hlen Hin Hsm Hf. unfold packet_of in Hin. rewrite str_app_assoc in Hin.
  destruct (pipe_read_smooth refill fuel fd _ _ ep t Hin Hsm) as (r1 & H1 & Hs1 & Hl1); [simpl; lia|].
  destruct (pipe_read_smooth refill fuel fd data rest (set_read ep (data +:+ rest) r1) t eq_refl Hs1)
    as (r2 & H2 & Hs2 & _); [simpl; lia|].
  exists r1, r2. split; [exact H1|]. by split.
Qed.

(** Sending and reading a packet that fits. *)
Lemma send_packet_ok fd s ep (t : T) :
  (String.length s <= 254)%nat -> smooth (write_events ep) = true ->
  (String.length s + 2 + length (write_events ep) <= fuel)%nat ->
  exists w', @send_packet _ sockets fuel fd s (String.length s) (ep, t) =
      Ok (Z.of_nat (String.length s) + 2, (set_written ep (outbox ep +:+ packet_of s) w', t)) /\
    smooth w' = true.
Proof.
  intros Hlen Hsm Hf.
  destruct (pipe_write_smooth refill fuel fd (packet_of s) ep t Hsm) as (w1 & Hw & Hs1 & _);
    [unfold packet_of; rewrite str_length_app; simpl; lia|].
  exists w1. split; [|done]. unfold send_packet.
  destruct (Nat.ltb_spec BUFLEN (PACKET_HEADER_LENGTH + String.length s));
    [unfold BUFLEN, PACKET_HEADER_LENGTH in *; lia|].
  rewrite str_take_all by done. unfold writen. fold (packet_of s). rewrite Hw.
  do 2 f_equal. unfold packet_of. rewrite str_length_app. simpl. lia.
Qed.

Lemma read_packet_ok fd data rest ep (t : T) :
  (0 < String.length data <= 254)%nat -> inbox ep = packet_of data +:+ rest ->
  smooth (read_events ep) = true -> (String.length data + 2 + length (read_events ep) < fuel)%nat ->
  exists r', @read_packet _ sockets fuel fd (ep, t) = Ok (Some data, (set_read ep rest r', t)) /\
    smooth r' = true.
Proof.
  intros Hlen Hin Hsm Hf.
  destruct (packet_reads fd data rest ep t) as (r1 & r2 & H1 & H2 & Hs2); [lia|done..|].
  exists r2. split; [|done]. unfold read_packet.
  rewrite (rbind_step _ _ _ _ _ H1). cbn [fst snd]. change (2 =? Z.of_nat PACKET_HEADER_LENGTH) with true.
  cbn [negb]. rewrite be16_decode_be16 by lia.
  destruct (Z.leb_spec (Z.of_nat (String.length data)) 0); [lia|]. rewrite Nat2Z.id.
  rewrite (rbind_step _ _ _ _ _ H2). cbn [fst snd].
  destruct (Nat.ltb_spec BUFLEN (PACKET_HEADER_LENGTH + String.length data));
    [unfold BUFLEN, PACKET_HEADER_LENGTH in *; lia|].
  by rewrite Z.eqb_refl.
Qed.
End PacketFacts.

Lemma g_strndup_read s : nul_free s = true -> cbuf_read (g_strndup s (String.length s)) (String.length s) = Ok s.
Proof.
  intros Hs. unfold g_strndup, cbuf_read. cbn [cb_size cb_bytes].
  rewrite str_take_all, c_string_id, Nat.sub_diag by done. cbn [str_repeat].
  change ("" +:+ String nul "") with (String nul ""). rewrite str_length_app.
  destruct (Nat.leb_spec (String.length s) (S (String.length s))); [|lia].
  destruct (Nat.leb_spec (String.length s) (String.length s + String.length (String nul ""))); [|lia].
  by rewrite str_take_app.
Qed.

(** A round of the server. *)
Lemma server_round_ok {T} fuel fd (call : string -> run T string) req resp rest ep (t t' : T) :
  (0 < String.length req <= 254)%nat -> (String.length resp <= 254)%nat ->
  inbox ep = packet_of req +:+ rest -> smooth_ep ep ->
  (512 + length (read_events ep) + length (write_events ep) < fuel)%nat ->
  call req t = Ok (resp, t') ->
  exists r' w', @demo_server_round _ (ep_sockets no_peer) fuel
      (fun body x => r <~ call body x.2 ;; Ok (r.1, (x.1, r.2))) fd (ep, t) =
      Ok (tt, (mkEnd rest (outbox ep +:+ packet_of resp) r' w' (closed ep) (watched ep), t')) /\
    smooth r' = true /\ smooth w' = true.
Proof.
  intros Hreq Hresp Hin [Hsr Hsw] Hf Hc.
  destruct (read_packet_ok no_peer fuel fd req rest ep t Hreq Hin Hsr) as (r1 & H1 & Hs1); [lia|].
  destruct (send_packet_ok no_peer fuel fd resp (set_read ep rest r1) t' Hresp Hsw) as (w1 & Hw & Hs2); [simpl; lia|].
  exists r1, w1. split; [|done]. unfold demo_server_round. rewrite (rbind_step _ _ _ _ _ H1).
  rewrite (rbind_step _ _ _ resp (set_read ep rest r1, t')) by (simpl; by rewrite Hc).
  rewrite (rbind_step _ _ _ _ _ Hw).
  by destruct (Z.eqb_spec (Z.of_nat (String.length resp) + 2) (-1)); [lia|].
Qed.

(** ** Properties *)

(** A round of the demo server answers a packet of up to 254 bytes with the packet of the
    response, if that too has at most 254 bytes, however the stream is split. *)
Theorem demo_server_answers {T} fuel fd (call : string -> run T string) req resp rest ep (t t' : T) :
  (0 < String.length req <= 254)%nat -> (String.length resp <= 254)%nat ->
  inbox ep = packet_of req +:+ rest -> smooth_ep ep ->
  (512 + length (read_events ep) + length (write_events ep) < fuel)%nat ->
  call req t = Ok (resp, t') ->
  exists r' w', @demo_server_round _ (ep_sockets no_peer) fuel
      (fun body x => r <~ call body x.2 ;; Ok (r.1, (x.1, r.2))) fd (ep, t) =
    Ok (tt, (mkEnd rest (outbox ep +:+ packet_of resp) r' w' (closed ep) (watched ep), t')).
Proof.
  intros Hreq Hresp Hin Hsm Hf Hc.
  destruct (server_round_ok fuel fd call req resp rest ep t t') as (r' & w' & Hrun & _); try done.
  by exists r', w'.
Qed.

(** A packet that announces and carries more than 254 bytes overflows the stack buffer of the
    demo server: the length it announces is not compared with the size of the buffer. *)
Theorem demo_packet_overflow {T} fuel fd (call : string -> run (endpoint * T) string) data rest ep (t : T) :
  254 < Z.of_nat (String.length data) < 65536 -> inbox ep = packet_of data +:+ rest ->
  smooth (read_events ep) = true -> (String.length data + 2 + length (read_events ep) < fuel)%nat ->
  exists why, @demo_server_round _ (ep_sockets no_peer) fuel call fd (ep, t) = Undef why.
Proof.
  intros Hlen Hin Hsm Hf.
  destruct (packet_reads no_peer fuel fd data rest ep t) as (r1 & r2 & H1 & H2 & _); [lia|done..|].
  eexists. unfold demo_server_round, read_packet, rbind at 1. rewrite (rbind_step _ _ _ _ _ H1).
  cbn [fst snd]. change (2 =? Z.of_nat PACKET_HEADER_LENGTH) with true.
  cbn [negb]. rewrite be16_decode_be16 by lia.
  destruct (Z.leb_spec (Z.of_nat (String.length data)) 0); [lia|]. rewrite Nat2Z.id.
  rewrite (rbind_step _ _ _ _ _ H2). cbn [fst snd].
  destruct (Nat.ltb_spec BUFLEN (PACKET_HEADER_LENGTH + String.length data)); [done|].
  unfold BUFLEN, PACKET_HEADER_LENGTH in *. lia.
Qed.

(** The demo clients' transports exchange one packet each way, however the stream is split: the
    synchronous one returns the response; the asynchronous one keeps the data of the call and,
    when the response is read, runs the generic callback on them once and forgets them. *)
Theorem demo_clients_exchange `{GObjectLib} {T P} fuel fd req resp rest ep (t : T) (priv : P)
    (callback : cbuf -> nat -> P -> option string -> run (endpoint * T) (Z * list freed)) :
  (String.length req <= 254)%nat -> (0 < String.length resp <= 254)%nat -> nul_free resp = true ->
  inbox ep = packet_of resp +:+ rest -> smooth_ep ep ->
  (512 + length (read_events ep) + length (write_events ep) < fuel)%nat ->
  exists r' w' buf,
    let sent := set_written ep (outbox ep +:+ packet_of req) w' in
    cbuf_read buf (String.length resp) = Ok resp /\
    @transport_callback _ (ep_sockets no_peer) fuel fd req (String.length req) (ep, t) =
      Ok (Some (mkReply buf (String.length resp)), (set_read sent rest r', t)) /\
    @transport_send _ (ep_sockets no_peer) fuel _ (mkTcp fd None) req (String.length req) priv (ep, t) =
      Ok ((0, mkTcp fd (Some priv)), (sent, t)) /\
    exists data, cbuf_read data (String.length resp) = Ok resp /\
      @transport_read _ _ (ep_sockets no_peer) fuel _ callback (mkTcp fd (Some priv)) (sent, t) =
        (_ <- callback data (String.length resp) priv None ;; rret (mkTcp fd None)) (set_read sent rest r', t).
Proof.
  intros Hreq Hresp Hnul Hin [Hsr Hsw] Hf.
  destruct (send_packet_ok no_peer fuel fd req ep t Hreq Hsw) as (w1 & Hw & Hs1); [lia|].
  destruct (read_packet_ok no_peer fuel fd resp rest (set_written ep (outbox ep +:+ packet_of req) w1) t
              Hresp Hin Hsr) as (r1 & Hr & _); [simpl; lia|].
  exists r1, w1, (g_strndup resp (String.length resp)). cbv zeta.
  assert (Z.of_nat (String.length req) + 2 =? -1 = false) as Hne by lia.
  split; [by apply g_strndup_read|]. split; [|split].
  - unfold transport_callback. rewrite (rbind_step _ _ _ _ _ Hw), Hne.
    by rewrite (rbind_step _ _ _ _ _ Hr).
  - unfold transport_send. cbn [trans_fd]. by rewrite (rbind_step _ _ _ _ _ Hw), Hne.
  - exists (mkCbuf resp (BUFLEN - PACKET_HEADER_LENGTH)). split.
    + unfold cbuf_read, BUFLEN, PACKET_HEADER_LENGTH. cbn [cb_size cb_bytes].
      destruct (Nat.leb_spec (String.length resp) (256 - 2)); [|lia].
      by rewrite Nat.leb_refl, str_take_all.
    + unfold transport_read. cbn [trans_fd]. by rewrite (rbind_step _ _ _ _ _ Hr).
Qed.
