(* ===== verification/InetPton.v ===== *)
(** * InetPton: the address parser of demo/searpc-demo-packet.h

    [inet_pton] and its two halves, which the demo programs bring along for Windows.  A [const char *]
    is the rest of the buffer it points into, the terminating NUL included; moving it past that
    and reading there is undefined.  What a function stores through [dst] is part of its result. *)
From S2P Require Import Prelude.

(** ** Characters and pointers *)

(** [*p], and [*++p]: the pointer after it. *)
Definition deref (p : string) : outcome ascii :=
  match p with
  | String c _ => Ok c
  | EmptyString => Undef "read past the end of a string"
  end.

Definition advance (p : string) : string := str_drop 1 p.

Definition code (c : ascii) : Z := Z.of_N (N_of_ascii c).
Definition in_range (lo hi c : ascii) : bool := (code lo <=? code c) && (code c <=? code hi).

(** ctype.h, in the C locale. *)
Definition isdigit (c : ascii) : bool := in_range "0" "9" c.
Definition islower (c : ascii) : bool := in_range "a" "z" c.
Definition isxdigit (c : ascii) : bool := isdigit c || in_range "a" "f" c || in_range "A" "F" c.
Definition isspace (c : ascii) : bool := Ascii.eqb c " " || in_range "009" "013" c.

Definition is_char (a c : ascii) : bool := Ascii.eqb c a.

(** ** Dotted quads *)

Definition INADDRSZ : nat := 4.

(** [htonl] and the four bytes it leaves in memory. *)
Definition htonl_bytes (val : Z) : list Z :=
  [Z.land (Z.shiftr val 24) 255; Z.land (Z.shiftr val 16) 255; Z.land (Z.shiftr val 8) 255; Z.land val 255].

(** The base of a number from its first characters, and where its digits start. *)
Definition number_base (src : string) : outcome (Z * string) :=
  c <~ deref src ;;
  if is_char "0" c then
    let src := advance src in
    c <~ deref src ;;
    if is_char "x" c || is_char "X" c then Ok (16, advance src)
    else if isdigit c && negb (is_char "9" c) then Ok (8, src)
    else Ok (10, src)
  else Ok (10, src).

(** The inner loop: [val] is a [u_int]. *)
Fixpoint digits_loop (base val : Z) (src : string) : outcome (Z * string) :=
  match src with
  | EmptyString => Undef "read past the end of a string"
  | String c src' =>
      if isdigit c then
        let digit := code c - code "0" in
        if base <=? digit then Ok (val, src)
        else digits_loop base (to_uint32 (to_uint32 (val * base) + digit)) src'
      else if (base =? 16) && isxdigit c then
        let digit := code c + 10 - (if islower c then code "a" else code "A") in
        if 16 <=? digit then Ok (val, src)
        else digits_loop base (Z.lor (to_uint32 (Z.shiftl val 4)) digit) src'
      else Ok (val, src)
  end.

(** The outer loop, with room for [slots] more parts; [None] is [return (0)]. *)
Fixpoint parts_loop (slots : nat) (pton : bool) (parts : list Z) (src : string)
  : outcome (option (list Z * Z * string)) :=
  c <~ deref src ;;
  if negb (isdigit c) then Ok None else
  bs <~ number_base src ;;
  if pton && negb (bs.1 =? 10) then Ok None else
  vs <~ digits_loop bs.1 0 bs.2 ;;
  c <~ deref vs.2 ;;
  if is_char "." c then
    match slots with
    | O => Ok None
    | S slots' => parts_loop slots' pton (parts ++ [vs.1]) (advance vs.2)
    end
  else Ok (Some (parts, vs.1, vs.2)).

(** The [switch] over the number of parts. *)
Definition concoct (parts : list Z) (val : Z) : option Z :=
  match parts with
  | [] => Some val
  | [a] => if (255 <? a) || (16777215 <? val) then None else Some (Z.lor val (Z.shiftl a 24))
  | [a; b] =>
      if (255 <? Z.lor a b) || (65535 <? val) then None
      else Some (Z.lor val (Z.lor (Z.shiftl a 24) (Z.shiftl b 16)))
  | [a; b; c] =>
      if 255 <? Z.lor (Z.lor (Z.lor a b) c) val then None
      else Some (Z.lor val (Z.lor (Z.lor (Z.shiftl a 24) (Z.shiftl b 16)) (Z.shiftl c 8)))
  | _ => Some val
  end.

(** The result and the bytes stored at [dst]; [dst] says whether it is not NULL. *)
Definition inet_pton4 (src : string) (dst pton : bool) : outcome (Z * list Z) :=
  r <~ parts_loop 3 pton [] src ;;
  match r with
  | None => Ok (0, [])
  | Some (parts, val, src) =>
      c <~ deref src ;;
      if negb (is_char "000" c) && negb (isspace c) then Ok (0, []) else
      if pton && negb (length parts + 1 =? 4)%nat then Ok (0, []) else
      match concoct parts val with
      | None => Ok (0, [])
      | Some val => Ok (1, if dst then htonl_bytes val else [])
      end
  end.

(** ** Addresses of version 6 *)

Definition IN6ADDRSZ : nat := 16.
Definition INT16SZ : nat := 2.

(** Bytes stored at an offset of [tmp]. *)
Definition store_at (tmp : list Z) (i : nat) (bytes : list Z) : outcome (list Z) :=
  if (i + length bytes <=? IN6ADDRSZ)%nat then Ok (list_inserts i bytes tmp)
  else Undef "write past the end of tmp".

(** [strchr] in the two tables of hexadecimal digits. *)
Definition xdigit_value (ch : ascii) : option Z :=
  if isdigit ch then Some (code ch - code "0")
  else if in_range "a" "f" ch then Some (code ch - code "a" + 10)
  else if in_range "A" "F" ch then Some (code ch - code "A" + 10)
  else None.

(** The locals of the loop; [tp] and [colonp] are offsets into [tmp]. *)
Record pton6_state := mkPton6 {
  tmp : list Z; tp : nat; colonp : option nat; curtok : string; saw_xdigit : bool; val6 : Z
}.

Definition pton6_start (src : string) : pton6_state :=
  mkPton6 (replicate IN6ADDRSZ 0) 0 None src false 0.

(** [*tp++ = val >> 8; *tp++ = val], after the test for room; [None] is [return (0)]. *)
Definition store_group (st : pton6_state) : outcome (option pton6_state) :=
  if (IN6ADDRSZ <? tp st + INT16SZ)%nat then Ok None else
  tmp <~ store_at (tmp st) (tp st) [Z.land (Z.shiftr (val6 st) 8) 255; Z.land (val6 st) 255] ;;
  Ok (Some (mkPton6 tmp (tp st + INT16SZ) (colonp st) (curtok st) (saw_xdigit st) (val6 st))).

(** The [while] loop; [None] is [return (0)]. *)
Fixpoint pton6_loop (st : pton6_state) (src : string) : outcome (option pton6_state) :=
  match src with
  | EmptyString => Undef "read past the end of a string"
  | String ch src' =>
      if is_char "000" ch then Ok (Some st) else
      match xdigit_value ch with
      | Some d =>
          let val := Z.lor (to_uint32 (Z.shiftl (val6 st) 4)) d in
          if 65535 <? val then Ok None
          else pton6_loop (mkPton6 (tmp st) (tp st) (colonp st) (curtok st) true val) src'
      | None =>
          if is_char ":" ch then
            let st := mkPton6 (tmp st) (tp st) (colonp st) src' (saw_xdigit st) (val6 st) in
            if negb (saw_xdigit st) then
              match colonp st with
              | Some _ => Ok None
              | None => pton6_loop (mkPton6 (tmp st) (tp st) (Some (tp st)) (curtok st)
                                      (saw_xdigit st) (val6 st)) src'
              end
            else
              c <~ deref src' ;;
              if is_char "000" c then Ok None else
              r <~ store_group st ;;
              match r with
              | None => Ok None
              | Some st => pton6_loop (mkPton6 (tmp st) (tp st) (colonp st) (curtok st) false 0) src'
              end
          else if is_char "." ch && (tp st + INADDRSZ <=? IN6ADDRSZ)%nat then
            r <~ inet_pton4 (curtok st) true true ;;
            if 0 <? r.1 then
              tmp <~ store_at (tmp st) (tp st) r.2 ;;
              Ok (Some (mkPton6 tmp (tp st + INADDRSZ) (colonp st) (curtok st) false (val6 st)))
            else Ok None
          else Ok None
      end
  end.

(** One round of the shift by hand: [endp[-i] = colonp[n - i]; colonp[n - i] = 0]. *)
Definition shift_one (n cp : nat) (tmp : outcome (list Z)) (i : nat) : outcome (list Z) :=
  tmp <~ tmp ;;
  match tmp !! (cp + (n - i))%nat with
  | None => Undef "read past the end of tmp"
  | Some v =>
      tmp <~ store_at tmp (IN6ADDRSZ - i) [v] ;;
      store_at tmp (cp + (n - i)) [0]
  end.

Definition inet_pton6 (src : string) : outcome (Z * list Z) :=
  c <~ deref src ;;
  c' <~ (if is_char ":" c then deref (advance src) else Ok ":"%char) ;;
  if negb (is_char ":" c') then Ok (0, []) else
  let src := if is_char ":" c then advance src else src in
  r <~ pton6_loop (pton6_start src) src ;;
  match r with
  | None => Ok (0, [])
  | Some st =>
      r <~ (if saw_xdigit st then store_group st else Ok (Some st)) ;;
      match r with
      | None => Ok (0, [])
      | Some st =>
          match colonp st with
          | None => if (tp st =? IN6ADDRSZ)%nat then Ok (1, tmp st) else Ok (0, [])
          | Some cp =>
              if (tp st =? IN6ADDRSZ)%nat then Ok (0, []) else
              let n := (tp st - cp)%nat in
              tmp <~ fold_left (shift_one n cp) (seq 1 n) (Ok (tmp st)) ;;
              Ok (1, tmp)
          end
      end
  end.

(** ** Either *)

(** The address families of the platform's sys/socket.h. *)
Definition AF_INET : Z := 2.
Definition AF_INET6 : Z := 23.
Definition EAFNOSUPPORT : Z := 10047.

(** The result, what is stored at [dst], and what is stored in [errno]. *)
Definition inet_pton (af : Z) (src : string) : outcome (Z * list Z * option Z) :=
  if af =? AF_INET then r <~ inet_pton4 src true true ;; Ok (r, None)
  else if af =? AF_INET6 then r <~ inet_pton6 src ;; Ok (r, None)
  else Ok (-1, [], Some EAFNOSUPPORT).
