(* ===== verification/InetPtonSafety.v ===== *)
(** * InetPtonSafety: what the address parser accepts

    No input makes it read or write out of bounds; dotted quads are characterised by a grammar,
    and addresses of version 6 written as groups are parsed back. *)
From S2P Require Import Prelude InetPton.

(** ** C strings *)

(** The buffer of the C string [s]. *)
Definition cstr (s : string) : string := s +:+ String nul "".

(** There is a NUL ahead. *)
Definition has_nul (p : string) : bool := negb (nul_free p).

Lemma has_nul_cons c p : has_nul (String c p) = Ascii.eqb c nul || has_nul p.
Proof. unfold has_nul, nul_free. simpl. by destruct (Ascii.eqb c nul). Qed.

Lemma has_nul_step c p : has_nul (String c p) = true -> c <> nul -> has_nul p = true.
Proof. rewrite has_nul_cons. intros H Hc. by apply Ascii.eqb_neq in Hc as E; rewrite E in H. Qed.

Lemma has_nul_cstr s : has_nul (cstr s) = true.
Proof.
  induction s as [|c s IH]; [done|]. unfold cstr in *. rewrite str_app_cons, has_nul_cons, IH.
  by rewrite orb_true_r.
Qed.

Lemma has_nul_deref p : has_nul p = true -> exists c p', p = String c p' /\ deref p = Ok c.
Proof. destruct p as [|c p]; [done|]. intros _. by exists c, p. Qed.

Lemma has_nul_advance c p : has_nul (String c p) = true -> c <> nul -> has_nul (advance (String c p)) = true.
Proof. exact (has_nul_step c p). Qed.

Lemma is_char_eq a c : is_char a c = true <-> c = a.
Proof. apply Ascii.eqb_eq. Qed.

Lemma digit_not_nul c : isdigit c = true -> c <> nul.
Proof. by intros H ->. Qed.
Lemma xdigit_not_nul c : isxdigit c = true -> c <> nul.
Proof. by intros H ->. Qed.

Create HintDb pton.
#[export] Hint Resolve digit_not_nul xdigit_not_nul : pton.

Definition digit_value (c : ascii) : Z := code c - code "0".

Lemma digit_value_range c : isdigit c = true -> 0 <= digit_value c <= 9.
Proof.
  unfold isdigit, in_range, digit_value. intros H. split_bools.
  change (code "9") with 57 in *. change (code "0") with 48 in *. lia.
Qed.

(** ** Nothing is read out of bounds *)

Lemma lor_range a b w : 0 < w -> 0 <= a < 2 ^ w -> 0 <= b < 2 ^ w -> 0 <= Z.lor a b < 2 ^ w.
Proof.
  intros Hw Ha Hb. assert (0 <= Z.lor a b) as Hnn by (apply Z.lor_nonneg; lia). split; [done|].
  destruct (Z.eq_dec (Z.lor a b) 0) as [->|Hne]; [by apply Z.pow_pos_nonneg; lia|].
  apply Z.log2_lt_pow2; [lia|]. rewrite Z.log2_lor by lia.
  assert (forall z, 0 <= z < 2 ^ w -> Z.log2 z < w) as Hlog.
  { intros z Hz. destruct (Z.eq_dec z 0) as [->|]; [done|]. apply Z.log2_lt_pow2; lia. }
  apply Z.max_lub_lt; by apply Hlog.
Qed.

Lemma uint32_range z : 0 <= to_uint32 z < 2 ^ 32.
Proof. apply Z.mod_pos_bound. lia. Qed.

Lemma digits_loop_total base val p :
  has_nul p = true -> 0 <= val < 2 ^ 32 ->
  exists v p', digits_loop base val p = Ok (v, p') /\ has_nul p' = true /\ 0 <= v < 2 ^ 32.
Proof.
  revert val. induction p as [|c p IH]; intros val Hp Hv; [done|]. cbn [digits_loop].
  destruct (isdigit c) eqn:Hd.
  - case_match; [by exists val, (String c p)|]. apply IH; [|apply uint32_range].
    eapply has_nul_step; eauto with pton.
  - destruct ((base =? 16) && isxdigit c) eqn:Hx; [|by exists val, (String c p)]. split_bools.
    destruct (Z.leb_spec 16 (code c + 10 - (if islower c then code "a" else code "A")));
      [by exists val, (String c p)|].
    apply IH; [eapply has_nul_step; eauto with pton|]. apply lor_range; [lia|apply uint32_range|].
    split; [|lia]. revert H0. unfold isxdigit, islower, in_range. rewrite Hd. simpl.
    change (code "a") with 97. change (code "A") with 65. change (code "z") with 122.
    change (code "f") with 102. change (code "F") with 70.
    destruct ((97 <=? code c) && (code c <=? 122)) eqn:E; lia.
Qed.

Lemma number_base_total p :
  has_nul p = true -> exists b p', number_base p = Ok (b, p') /\ has_nul p' = true.
Proof.
  intros Hp. destruct (has_nul_deref p Hp) as (c & q & -> & Hd). unfold number_base. rewrite Hd. cbn [obind].
  destruct (is_char "0" c) eqn:H0; [|by eexists _, _].
  apply is_char_eq in H0 as ->.
  assert (has_nul q = true) as Hq by (by eapply has_nul_step).
  destruct (has_nul_deref q Hq) as (c' & q' & -> & _). cbn [advance str_drop deref obind].
  destruct (is_char "x" c' || is_char "X" c') eqn:Hx.
  - exists 16, q'. split; [done|]. eapply has_nul_step; [exact Hq|].
    intros ->. done.
  - case_match; by eexists _, _.
Qed.

Lemma parts_loop_total slots pton parts p :
  has_nul p = true -> Forall (fun v => 0 <= v < 2 ^ 32) parts ->
  exists r, parts_loop slots pton parts p = Ok r /\
    forall parts' v p', r = Some (parts', v, p') ->
      has_nul p' = true /\ Forall (fun v => 0 <= v < 2 ^ 32) (v :: parts').
Proof.
  revert parts p. induction slots as [|slots IH]; intros parts p Hp Hparts; cbn [parts_loop];
    destruct (has_nul_deref p Hp) as (c & q & Hpq & ->); cbn [obind];
    (destruct (negb (isdigit c)); [by eexists|]);
    destruct (number_base_total p Hp) as (b & p1 & -> & Hp1); cbn [obind fst snd];
    (destruct (pton && negb (b =? 10)); [by eexists|]);
    destruct (digits_loop_total b 0 p1 Hp1) as (v & p2 & -> & Hp2 & Hv); try lia; cbn [obind fst snd];
    destruct (has_nul_deref p2 Hp2) as (c2 & q2 & -> & _); cbn [deref obind];
    destruct (is_char "." c2) eqn:Hdot.
  - by eexists.
  - eexists. split; [done|]. intros ? ? ? [= <- <- <-]. split; [done|]. by constructor.
  - apply IH; [apply has_nul_advance; [done|]|by apply Forall_app_2; [|constructor]].
    by apply is_char_eq in Hdot as ->.
  - eexists. split; [done|]. intros ? ? ? [= <- <- <-]. split; [done|]. by constructor.
Qed.

Lemma htonl_bytes_range val : Forall (fun b => 0 <= b < 256) (htonl_bytes val).
Proof.
  assert (forall z, 0 <= Z.land z 255 < 256) as H.
  { intros z. change 255 with (Z.ones 8). rewrite Z.land_ones by lia. apply Z.mod_pos_bound. lia. }
  by repeat constructor; apply H.
Qed.

Lemma inet_pton4_total p dst pton :
  has_nul p = true ->
  exists ret out, inet_pton4 p dst pton = Ok (ret, out) /\
    ((ret = 0 /\ out = []) \/ (ret = 1 /\ out = (if dst then out else []) /\
      (dst = true -> length out = 4%nat) /\ Forall (fun b => 0 <= b < 256) out)).
Proof.
  intros Hp. unfold inet_pton4.
  destruct (parts_loop_total 3 pton [] p Hp) as (r & -> & Hr); [constructor|]. cbn [obind].
  destruct r as [[[parts v] p']|]; [|by eexists _, _; split; [|left]].
  destruct (Hr _ _ _ eq_refl) as [Hp' _]. destruct (has_nul_deref p' Hp') as (c & q & _ & ->). cbn [obind].
  case_match; [by eexists _, _; split; [|left]|]. case_match; [by eexists _, _; split; [|left]|].
  case_match; [|by eexists _, _; split; [|left]].
  eexists _, _. split; [done|]. right. split; [done|]. destruct dst; (split; [done|]).
  - split; [done|apply htonl_bytes_range].
  - by split; [|constructor].
Qed.

(** ** Decimal numbers *)

Definition all_digits (t : string) : bool := str_forall isdigit t.

(** The value of a text of digits, after digits of value [v]. *)
Fixpoint decimal_from (v : Z) (t : string) : Z :=
  match t with
  | EmptyString => v
  | String c t' => decimal_from (10 * v + digit_value c) t'
  end.
Definition decimal_value : string -> Z := decimal_from 0.

(** No leading zero, unless the digit after it is a nine. *)
Definition plain_number (t : string) : bool :=
  match t with
  | String a (String b _) => negb (is_char "0" a) || is_char "9" b
  | _ => true
  end.

(** The first character, and that it is no digit. *)
Definition starts_with (f : ascii -> bool) (p : string) : bool :=
  match p with String c _ => f c | EmptyString => false end.
Definition not_digit (c : ascii) : bool := negb (isdigit c).
Definition hex_mark (c : ascii) : bool := is_char "x" c || is_char "X" c.

Lemma split_digits p :
  has_nul p = true ->
  exists t rest, p = t +:+ rest /\ all_digits t = true /\ starts_with not_digit rest = true /\
    has_nul rest = true.
Proof.
  induction p as [|c p IH]; intros Hp; [done|]. destruct (isdigit c) eqn:Hc.
  - destruct IH as (t & rest & -> & Ht & Hr & Hn); [eapply has_nul_step; eauto with pton|].
    exists (String c t), rest. split; [done|]. split; [|done]. unfold all_digits. simpl. by rewrite Hc.
  - exists "", (String c p). split; [done|]. split; [done|]. split; [|done]. simpl. unfold not_digit. by rewrite Hc.
Qed.

Lemma uint32_step v d : to_uint32 (to_uint32 (to_uint32 v * 10) + d) = to_uint32 (10 * v + d).
Proof.
  unfold wrap_unsigned. rewrite Z.mul_mod_idemp_l, Z.add_mod_idemp_l by lia. f_equal. lia.
Qed.

Lemma digits_loop_decimal v t rest :
  all_digits t = true -> starts_with not_digit rest = true ->
  digits_loop 10 (to_uint32 v) (t +:+ rest) = Ok (to_uint32 (decimal_from v t), rest).
Proof.
  intros Ht Hr. revert v. induction t as [|c t IH]; intros v.
  - destruct rest as [|c rest]; [done|]. simpl in Hr. unfold not_digit in Hr.
    change ("" +:+ String c rest) with (String c rest). cbn [digits_loop decimal_from].
    by destruct (isdigit c).
  - unfold all_digits in Ht. simpl in Ht. split_bools. rewrite str_app_cons. cbn [digits_loop decimal_from].
    rewrite H. fold (digit_value c). pose proof (digit_value_range c H).
    destruct (Z.leb_spec 10 (digit_value c)); [lia|]. rewrite uint32_step. by apply IH.
Qed.

(** A number as [inet_pton] takes it. *)
Lemma number_decimal t rest :
  t <> "" -> all_digits t = true -> starts_with not_digit rest = true ->
  if plain_number t && negb (String.eqb t "0" && starts_with hex_mark rest) then
    exists p, number_base (t +:+ rest) = Ok (10, p) /\
      digits_loop 10 0 p = Ok (to_uint32 (decimal_value t), rest)
  else exists b p, number_base (t +:+ rest) = Ok (b, p) /\ b <> 10.
Proof.
  intros Hne Ht Hr. destruct t as [|c t]; [done|]. clear Hne.
  assert (forall p, digits_loop 10 0 p = digits_loop 10 (to_uint32 0) p) as Hz by done.
  destruct (is_char "0" c) eqn:H0; cycle 1.
  { assert (plain_number (String c t) = true) as -> by (destruct t; [done|]; simpl; by rewrite H0).
    assert (String.eqb (String c t) "0" = false) as ->
      by (apply String.eqb_neq; intros [= -> ->]; done).
    eexists. rewrite str_app_cons. unfold number_base. cbn [deref obind]. rewrite H0. split; [done|].
    rewrite <- str_app_cons, Hz. by apply digits_loop_decimal. }
  apply is_char_eq in H0 as ->. unfold all_digits in Ht. simpl in Ht.
  destruct t as [|d t].
  - destruct rest as [|r rest]; [done|]. simpl in Hr. unfold not_digit in Hr.
    change (String "0" "" +:+ String r rest) with (String "0" (String r rest)).
    unfold number_base. cbn [deref advance str_drop obind plain_number starts_with].
    change (is_char "0" "0") with true. change (String.eqb (String "0" "") "0") with true. cbn [andb].
    unfold hex_mark.
    destruct (is_char "x" r || is_char "X" r); cbn [negb]; [by eexists _, _|].
    destruct (isdigit r) eqn:Hd; [done|]. exists (String r rest). split; [done|].
    rewrite Hz. by apply (digits_loop_decimal 0 "" (String r rest)); [|simpl; unfold not_digit; rewrite Hd].
  - simpl in Ht. split_bools. change (String.eqb (String "0" (String d t)) "0") with false.
    cbn [andb negb]. rewrite andb_true_r. cbn [plain_number is_char]. change (Ascii.eqb "0" "0") with true.
    cbn [negb orb]. rewrite !str_app_cons. unfold number_base. cbn [deref advance str_drop obind].
    change (is_char "0" "0") with true. cbv iota.
    assert (is_char "x" d || is_char "X" d = false) as ->
      by (apply orb_false_iff; split; apply not_true_iff_false; intros E%is_char_eq; by subst).
    rewrite H. cbn [andb]. destruct (is_char "9" d) eqn:H9; cbn [negb]; [|by eexists _, _].
    eexists. split; [done|]. rewrite Hz, <- str_app_cons.
    apply (digits_loop_decimal 0 (String d t) rest); [|done].
    unfold all_digits. simpl. by rewrite H.
Qed.

(** A number that can be a part, and its value. *)
Definition number_ok (t : string) : bool := negb (String.eqb t "") && all_digits t && plain_number t.
Definition number_value (t : string) : Z := to_uint32 (decimal_value t).

Lemma parts_loop_number slots parts t rest :
  t <> "" -> all_digits t = true -> starts_with not_digit rest = true ->
  parts_loop slots true parts (t +:+ rest) =
    if plain_number t && negb (String.eqb t "0" && starts_with hex_mark rest) then
      if starts_with (is_char ".") rest then
        match slots with
        | O => Ok None
        | S slots' => parts_loop slots' true (parts ++ [number_value t]) (advance rest)
        end
      else Ok (Some (parts, number_value t, rest))
    else Ok None.
Proof.
  intros Hne Ht Hr. pose proof (number_decimal t rest Hne Ht Hr) as Hn.
  assert (exists c, deref (t +:+ rest) = Ok c /\ isdigit c = true) as (c & Hc & Hd).
  { destruct t as [|c t]; [done|]. exists c. split; [done|]. unfold all_digits in Ht. simpl in Ht. by split_bools. }
  assert (exists r, deref rest = Ok r /\ starts_with (is_char ".") rest = is_char "." r) as (r & Hrest & ->).
  { destruct rest as [|r rest]; [done|]. by exists r. }
  destruct (plain_number t && _).
  - destruct Hn as (p & Hb & Hl).
    destruct slots; cbn [parts_loop]; rewrite Hc; cbn [obind]; rewrite Hd, Hb; cbn [negb obind fst snd];
      change (true && negb (10 =? 10)) with false; cbv iota; rewrite Hl; cbn [obind fst snd];
      by rewrite Hrest.
  - destruct Hn as (b & p & Hb & Hne10). apply Z.eqb_neq in Hne10.
    destruct slots; cbn [parts_loop]; rewrite Hc; cbn [obind]; rewrite Hd, Hb; cbn [negb obind fst snd];
      by rewrite Hne10.
Qed.

(** Numbers, each with a dot after it. *)
Fixpoint dotted (ts : list string) : string :=
  match ts with
  | [] => ""
  | t :: ts' => t +:+ "." +:+ dotted ts'
  end.

Lemma number_ok_inv t :
  number_ok t = true -> t <> "" /\ all_digits t = true /\ plain_number t = true.
Proof.
  unfold number_ok. intros H. split_bools. split; [|done].
  intros ->. done.
Qed.

Lemma starts_with_hex t rest :
  starts_with not_digit rest = true -> starts_with hex_mark rest = false ->
  t <> "" -> all_digits t = true -> plain_number t = true ->
  plain_number t && negb (String.eqb t "0" && starts_with hex_mark rest) = true.
Proof. intros _ -> _ _ ->. by rewrite andb_false_r. Qed.

Lemma parts_loop_dotted slots parts ts t rest :
  Forall (fun t => number_ok t = true) ts -> number_ok t = true -> (length ts <= slots)%nat ->
  starts_with not_digit rest = true -> starts_with (is_char ".") rest = false ->
  starts_with hex_mark rest = false ->
  parts_loop slots true parts (dotted ts +:+ t +:+ rest) =
    Ok (Some (parts ++ List.map number_value ts, number_value t, rest)).
Proof.
  intros Hts Ht Hlen Hr Hdot Hhex. revert slots parts Hlen.
  induction Hts as [|t1 ts Ht1 _ IH]; intros slots parts Hlen; cbn [dotted].
  - apply number_ok_inv in Ht as (? & ? & ?). change ("" +:+ t +:+ rest) with (t +:+ rest).
    rewrite parts_loop_number by done. rewrite starts_with_hex by done. rewrite Hdot.
    by rewrite app_nil_r.
  - apply number_ok_inv in Ht1 as (? & ? & ?). simpl in Hlen. destruct slots as [|slots]; [lia|].
    rewrite !str_app_assoc, parts_loop_number by done. rewrite starts_with_hex by done. simpl starts_with.
    cbn [is_char]. change (is_char "." ".") with true. cbv iota.
    change (advance ("." +:+ dotted ts +:+ t +:+ rest)) with (dotted ts +:+ t +:+ rest).
    rewrite IH by lia. cbn [List.map]. by rewrite <- app_assoc.
Qed.

Lemma parts_loop_inv slots parts p parts' v rest :
  has_nul p = true -> parts_loop slots true parts p = Ok (Some (parts', v, rest)) ->
  exists ts t, p = dotted ts +:+ t +:+ rest /\ Forall (fun t => number_ok t = true) ts /\
    number_ok t = true /\ parts' = parts ++ List.map number_value ts /\ v = number_value t /\
    starts_with not_digit rest = true.
Proof.
  revert parts p. induction slots as [|slots IH]; intros parts p Hp Hrun;
    destruct (split_digits p Hp) as (t & r & -> & Ht & Hr & Hn);
    (assert (t <> "") as Hne by
       (intros ->; destruct r as [|c r]; [done|]; simpl in Hr; unfold not_digit in Hr;
        change ("" +:+ String c r) with (String c r) in Hrun; cbn [parts_loop deref obind] in Hrun;
        by rewrite Hr in Hrun));
    rewrite parts_loop_number in Hrun by done;
    destruct (plain_number t) eqn:Hpl; try done; cbn [andb] in Hrun;
    (assert (number_ok t = true) as Hok by
       (unfold number_ok; apply String.eqb_neq in Hne as ->; by rewrite Ht, Hpl));
    destruct (negb _); try done; destruct (starts_with (is_char ".") r) eqn:Hdot.
  - done.
  - simplify_eq. exists [], t. split; [done|]. split; [constructor|]. by rewrite app_nil_r.
  - destruct r as [|c r]; [done|]. simpl in Hdot. apply is_char_eq in Hdot as ->.
    apply IH in Hrun as (ts & t' & Heq & Hts & Ht' & -> & -> & Hrest);
      [|by apply has_nul_advance].
    exists (t :: ts), t'. cbn [advance str_drop] in Heq. split.
    { cbn [dotted]. rewrite !str_app_assoc. f_equal.
      change (String "." r = String "." (dotted ts +:+ t' +:+ rest)). by rewrite <- Heq. }
    split; [by constructor|]. split; [done|]. split; [|done]. cbn [List.map]. by rewrite <- app_assoc.
  - simplify_eq. exists [], t. split; [done|]. split; [constructor|]. by rewrite app_nil_r.
Qed.

(** ** Four bytes in a word *)

Lemma lor_le_255 a b : 0 <= a -> 0 <= b -> Z.lor a b <= 255 <-> a <= 255 /\ b <= 255.
Proof.
  assert (forall z, 0 <= z -> z <= 255 <-> Z.shiftr z 8 = 0) as Hz.
  { intros z Hz. rewrite Z.shiftr_div_pow2 by lia. change (2 ^ 8) with 256.
    pose proof (Z.div_mod z 256 ltac:(lia)). pose proof (Z.mod_pos_bound z 256 ltac:(lia)). lia. }
  intros Ha Hb. assert (0 <= Z.lor a b) by (apply Z.lor_nonneg; lia).
  rewrite !Hz, Z.shiftr_lor, Z.lor_eq_0_iff by done. done.
Qed.

Lemma testbit_high a i : 0 <= a <= 255 -> 8 <= i -> Z.testbit a i = false.
Proof.
  intros Ha Hi. destruct (Z.eq_dec a 0) as [->|]; [apply Z.bits_0|].
  apply Z.bits_above_log2; [lia|]. assert (Z.log2 a < 8) by (apply Z.log2_lt_pow2; lia). lia.
Qed.

(** A byte of a word put together from bytes. *)
Lemma byte_of_word a b c d k :
  0 <= a <= 255 -> 0 <= b <= 255 -> 0 <= c <= 255 -> 0 <= d <= 255 -> In k [0; 8; 16; 24] ->
  Z.land (Z.shiftr (Z.lor d (Z.lor (Z.lor (Z.shiftl a 24) (Z.shiftl b 16)) (Z.shiftl c 8))) k) 255 =
    if k =? 0 then d else if k =? 8 then c else if k =? 16 then b else a.
Proof.
  intros Ha Hb Hc Hd Hk. apply Z.bits_inj'. intros i Hi. change 255 with (Z.ones 8).
  rewrite Z.land_spec.
  assert (0 <= k) as Hk0 by (destruct Hk as [<-|[<-|[<-|[<-|[]]]]]; lia).
  rewrite Z.shiftr_spec, !Z.lor_spec, !Z.shiftl_spec by lia.
  destruct (Z.ltb_spec i 8) as [Hi8|Hi8].
  - rewrite Z.ones_spec_low, andb_true_r by lia.
    destruct Hk as [<-|[<-|[<-|[<-|[]]]]]; cbn [Z.eqb Pos.eqb];
      repeat match goal with |- context [Z.testbit ?x ?j] =>
        first [rewrite (Z.testbit_neg_r x j) by lia | rewrite (testbit_high x j) by lia] end;
      rewrite ?orb_false_l, ?orb_false_r; f_equal; lia.
  - rewrite Z.ones_spec_high, andb_false_r by lia.
    symmetry. repeat case_match; by apply testbit_high.
Qed.

Lemma concoct_quad a b c d :
  0 <= a -> 0 <= b -> 0 <= c -> 0 <= d ->
  match concoct [a; b; c] d with
  | Some val => (a <= 255 /\ b <= 255 /\ c <= 255 /\ d <= 255) /\ htonl_bytes val = [a; b; c; d]
  | None => ~ (a <= 255 /\ b <= 255 /\ c <= 255 /\ d <= 255)
  end.
Proof.
  intros Ha Hb Hc Hd. cbn [concoct].
  assert (0 <= Z.lor a b) by (apply Z.lor_nonneg; lia).
  assert (0 <= Z.lor (Z.lor a b) c) by (apply Z.lor_nonneg; lia).
  destruct (Z.ltb_spec 255 (Z.lor (Z.lor (Z.lor a b) c) d)) as [Hlt|Hle].
  - intros Hall. assert (Z.lor (Z.lor (Z.lor a b) c) d <= 255); [|lia].
    rewrite !lor_le_255 by done. tauto.
  - rewrite !lor_le_255 in Hle by done. destruct Hle as [[[? ?] ?] ?]. split; [done|].
    unfold htonl_bytes. rewrite <- (Z.shiftr_0_r (Z.lor d _)) at 4.
    rewrite !byte_of_word by (lia || (simpl; tauto)). done.
Qed.

(** ** Dotted quads *)

(** The text of an octet: a plain number whose value, wrapped to 32 bits, is a byte. *)
Definition octet (t : string) (b : Z) : Prop :=
  number_ok t = true /\ number_value t = b /\ b <= 255.

(** Four octets; after them the text ends or anything follows a white-space character. *)
Definition quad_text (s : string) (bytes : list Z) : Prop :=
  exists t1 t2 t3 t4 tail,
    s = dotted [t1; t2; t3] +:+ t4 +:+ tail /\ (tail = "" \/ starts_with isspace tail = true) /\
    Forall2 octet [t1; t2; t3; t4] bytes.

Lemma cstr_split s a rest :
  cstr s = a +:+ rest -> rest <> "" -> exists tail, s = a +:+ tail /\ rest = cstr tail.
Proof.
  revert s. induction a as [|c a IH]; intros s Hs Hne; [by exists s|].
  rewrite str_app_cons in Hs. destruct s as [|c' s].
  - change (cstr "") with (String nul "") in Hs. injection Hs as _ Hs. by destruct a, rest.
  - change (cstr (String c' s)) with (String c' (cstr s)) in Hs. injection Hs as -> Hs. destruct (IH s Hs Hne) as (tail & -> & ->). by exists tail.
Qed.

Lemma cstr_app a b : cstr (a +:+ b) = a +:+ cstr b.
Proof. unfold cstr. by rewrite str_app_assoc. Qed.

Lemma space_facts c :
  isspace c = true -> isdigit c = false /\ is_char "." c = false /\ hex_mark c = false /\ is_char nul c = false.
Proof. destruct c as [[] [] [] [] [] [] [] []]; by vm_compute. Qed.

(** What follows the fourth number of a quad. *)
Lemma quad_tail tail :
  (tail = "" \/ starts_with isspace tail = true) ->
  starts_with not_digit (cstr tail) = true /\ starts_with (is_char ".") (cstr tail) = false /\
  starts_with hex_mark (cstr tail) = false /\
  exists c, deref (cstr tail) = Ok c /\ negb (is_char "000" c) && negb (isspace c) = false.
Proof.
  intros [->|Ht]; [repeat split; by eexists|]. destruct tail as [|c tail]; [done|]. simpl in Ht.
  destruct (space_facts c Ht) as (Hd & Hdot & Hh & Hn). simpl. unfold not_digit.
  rewrite Hd, Hdot, Hh. repeat split. exists c. by rewrite Ht, andb_false_r.
Qed.

Lemma quad_parsed s bytes : quad_text s bytes -> inet_pton4 (cstr s) true true = Ok (1, bytes).
Proof.
  intros (t1 & t2 & t3 & t4 & tail & -> & Htail & Hoct).
  destruct bytes as [|b1 [|b2 [|b3 [|b4 [|]]]]]; inversion_clear Hoct as [|? ? ? ? O1 Hoct'];
    inversion_clear Hoct' as [|? ? ? ? O2 Hoct]; inversion_clear Hoct as [|? ? ? ? O3 Hoct'];
    inversion_clear Hoct' as [|? ? ? ? O4 Hoct]; inversion_clear Hoct.
  destruct O1 as (N1 & V1 & ?), O2 as (N2 & V2 & ?), O3 as (N3 & V3 & ?), O4 as (N4 & V4 & ?).
  destruct (quad_tail tail Htail) as (Hr & Hdot & Hhex & c & Hc & Hend).
  unfold inet_pton4. rewrite !cstr_app.
  rewrite (parts_loop_dotted 3 [] [t1; t2; t3] t4 (cstr tail)) by (repeat constructor; done).
  cbn [obind List.map app]. rewrite Hc. cbn [obind]. rewrite Hend. cbn [length]. change (3 + 1 =? 4)%nat with true.
  cbn [andb negb].
  pose proof (concoct_quad (number_value t1) (number_value t2) (number_value t3) (number_value t4)) as Hq.
  rewrite V1, V2, V3, V4 in *.
  assert (forall t, 0 <= number_value t) as Hnn by (intros t; apply uint32_range).
  pose proof (Hnn t1). pose proof (Hnn t2). pose proof (Hnn t3). pose proof (Hnn t4).
  specialize (Hq ltac:(lia) ltac:(lia) ltac:(lia) ltac:(lia)).
  destruct (concoct _ _) as [val|]; [|tauto]. by destruct Hq as [_ ->].
Qed.

Lemma parsed_quad s bytes :
  nul_free s = true -> inet_pton4 (cstr s) true true = Ok (1, bytes) -> quad_text s bytes.
Proof.
  intros Hs Hrun. unfold inet_pton4 in Hrun.
  destruct (parts_loop 3 true [] (cstr s)) as [[[[parts v] rest]|]|why|why] eqn:Hp; try done.
  apply parts_loop_inv in Hp as (ts & t & Heq & Hts & Ht & -> & -> & Hrest); [|apply has_nul_cstr].
  cbn [obind] in Hrun. destruct rest as [|c rest]; [done|]. cbn [deref obind] in Hrun.
  destruct (negb (is_char "000" c) && negb (isspace c)) eqn:Hend; [done|].
  destruct (true && negb _) eqn:Hlen; [done|]. cbn [andb] in Hlen. apply negb_false_iff in Hlen.
  rewrite Nat.eqb_eq, length_app, length_map in Hlen. simpl in Hlen.
  destruct ts as [|t1 [|t2 [|t3 [|]]]]; simpl in Hlen; try lia.
  rewrite <- str_app_assoc in Heq. apply cstr_split in Heq as (tail & -> & Htail); [|done].
  cbn [List.map app] in Hrun.
  pose proof (concoct_quad (number_value t1) (number_value t2) (number_value t3) (number_value t)) as Hq.
  specialize (Hq ltac:(apply uint32_range) ltac:(apply uint32_range) ltac:(apply uint32_range)
    ltac:(apply uint32_range)).
  destruct (concoct _ _) as [val|]; [|done]. destruct Hq as [(? & ? & ? & ?) Hbytes].
  injection Hrun as <-. rewrite Hbytes. exists t1, t2, t3, t, tail.
  rewrite str_app_assoc. split; [done|]. split.
  - destruct tail as [|c' tail]; [by left|right]. injection Htail as -> ->. simpl.
    unfold nul_free in Hs. rewrite str_forall_app in Hs. split_bools. simpl in H4. split_bools.
    unfold is_char in Hend. fold nul in Hend.
    match goal with E : negb (Ascii.eqb c' nul) = true |- _ => rewrite E in Hend end.
    by apply negb_false_iff in Hend.
  - rewrite !Forall_cons in Hts. destruct Hts as (? & ? & ? & _). by repeat constructor.
Qed.
