(* ===== verification/InetPton6Safety.v ===== *)
(** * InetPton6Safety: addresses of version 6

    The bytes [inet_pton6] has stored so far are a prefix of [tmp], zeros after it; the groups of
    an address, with or without a run of zeros written as two colons, are parsed back. *)
From S2P Require Import Prelude InetPton InetPtonSafety.

(** ** The buffer *)

Definition bytes_ok : list Z -> Prop := Forall (fun b => 0 <= b < 256).

(** The bytes stored so far, in the buffer. *)
Definition filled (bs : list Z) : list Z := bs ++ replicate (IN6ADDRSZ - length bs) 0.

Lemma inserts_app (g bs x y : list Z) :
  length x = length bs -> list_inserts (length g) bs (g ++ x ++ y) = g ++ bs ++ y.
Proof.
  intros Hx. rewrite <- (Nat.add_0_r (length g)), list_inserts_app_r. by rewrite list_inserts_0_r.
Qed.

Lemma store_filled g bs :
  (length g + length bs <= IN6ADDRSZ)%nat ->
  store_at (filled g) (length g) bs = Ok (filled (g ++ bs)).
Proof.
  intros Hlen. unfold store_at. apply Nat.leb_le in Hlen as Hl. rewrite Hl. f_equal.
  unfold filled. rewrite length_app, <- app_assoc.
  replace (IN6ADDRSZ - length g)%nat with (length bs + (IN6ADDRSZ - (length g + length bs)))%nat by lia.
  rewrite replicate_add, inserts_app by (by rewrite length_replicate). done.
Qed.

(** The shift by hand moves the bytes after the two colons to the end. *)
Lemma shift_moves cp n pre z mid done_ :
  length pre = cp -> (n = length mid + length done_)%nat -> (0 < z)%nat ->
  (cp + z + n = IN6ADDRSZ)%nat ->
  fold_left (shift_one n cp) (seq (S (length done_)) (length mid))
    (Ok (pre ++ mid ++ replicate z 0 ++ done_)) = Ok (pre ++ replicate z 0 ++ mid ++ done_).
Proof.
  intros Hcp. revert done_. induction mid as [|x mid IH] using rev_ind; intros d Hn Hz Hlen.
  { by cbn. }
  rewrite length_app in *. cbn [length] in *. rewrite Nat.add_1_r. cbn [seq fold_left].
  assert (shift_one n cp (Ok (pre ++ (mid ++ [x]) ++ replicate z 0 ++ d)) (S (length d)) =
          Ok (pre ++ mid ++ replicate z 0 ++ x :: d)) as ->.
  { unfold shift_one. cbn [obind].
    replace (cp + (n - S (length d)))%nat with (length (pre ++ mid)) by (rewrite length_app; lia).
    replace (pre ++ (mid ++ [x]) ++ replicate z 0 ++ d)
      with ((pre ++ mid) ++ x :: replicate z 0 ++ d) by (by rewrite <- !app_assoc).
    rewrite list_lookup_middle by done. destruct z as [|z]; [lia|].
    unfold store_at at 1. cbn [length].
    destruct (Nat.leb_spec (IN6ADDRSZ - S (length d) + 1) IN6ADDRSZ); [|lia]. cbn [obind].
    replace (IN6ADDRSZ - S (length d))%nat with (length ((pre ++ mid) ++ x :: replicate z 0))
      by (rewrite !length_app; cbn [length]; rewrite length_replicate; lia).
    replace ((pre ++ mid) ++ x :: replicate (S z) 0 ++ d)
      with (((pre ++ mid) ++ x :: replicate z 0) ++ [0] ++ d)
      by (by rewrite replicate_S_end, <- !app_assoc).
    rewrite inserts_app by done. rewrite <- app_assoc. unfold store_at. cbn [length].
    destruct (Nat.leb_spec (length (pre ++ mid) + 1) IN6ADDRSZ); [|rewrite length_app in *; lia].
    change ((x :: replicate z 0) ++ [x] ++ d) with ([x] ++ replicate z 0 ++ x :: d).
    rewrite inserts_app by done. by rewrite <- !app_assoc. }
  change (S (S (length d))) with (S (length (x :: d))). rewrite IH by (cbn [length]; lia). by rewrite <- !app_assoc.
Qed.

(** ** The loop stays in bounds *)

(** [bs] are the bytes stored so far. *)
Record p6_ok (st : pton6_state) (bs : list Z) : Prop := {
  p6_tmp : tmp st = filled bs;
  p6_tp : tp st = length bs;
  p6_room : (length bs <= IN6ADDRSZ)%nat;
  p6_bytes : bytes_ok bs;
  p6_colonp cp : colonp st = Some cp -> (cp <= length bs)%nat;
  p6_curtok : has_nul (curtok st) = true
}.

Lemma byte_range z : 0 <= Z.land z 255 < 256.
Proof. change 255 with (Z.ones 8). rewrite Z.land_ones by lia. apply Z.mod_pos_bound. lia. Qed.

Definition group_bytes (v : Z) : list Z := [Z.land (Z.shiftr v 8) 255; Z.land v 255].

Lemma group_bytes_ok v : bytes_ok (group_bytes v).
Proof. by repeat constructor; apply byte_range. Qed.

Lemma store_group_spec st bs :
  p6_ok st bs ->
  (exists st', store_group st = Ok (Some st') /\ p6_ok st' (bs ++ group_bytes (val6 st)) /\
     colonp st' = colonp st /\ saw_xdigit st' = saw_xdigit st) \/
  (store_group st = Ok None /\ (IN6ADDRSZ < length bs + 2)%nat).
Proof.
  intros [Ht Htp Hroom Hb Hc Hcur]. unfold store_group. rewrite Htp. unfold INT16SZ.
  destruct (Nat.ltb_spec IN6ADDRSZ (length bs + 2)) as [Hlt|Hle]; [by right|left].
  rewrite Ht, store_filled by (simpl; lia). cbn [obind]. eexists. split; [done|].
  split; [|done]. constructor; cbn [tmp tp colonp curtok]; try done.
  - by rewrite length_app.
  - rewrite length_app. simpl. lia.
  - by apply Forall_app_2; [|apply group_bytes_ok].
  - intros cp Hcp. rewrite length_app. apply Hc in Hcp. lia.
Qed.

Lemma pton6_start_ok p : has_nul p = true -> p6_ok (pton6_start p) [].
Proof. intros Hp. constructor; try done; [simpl; lia|constructor]. Qed.

Lemma pton6_loop_total st src bs :
  p6_ok st bs -> has_nul src = true ->
  exists r, pton6_loop st src = Ok r /\ forall st', r = Some st' -> exists bs', p6_ok st' bs'.
Proof.
  revert st bs. induction src as [|ch src IH]; intros st bs Hst Hsrc; [done|]. cbn [pton6_loop].
  destruct (is_char "000" ch) eqn:Hnul; [eexists; split; [done|]; intros st' [= <-]; by exists bs|].
  assert (has_nul src = true) as Hsrc'.
  { eapply has_nul_step; [exact Hsrc|]. by apply Ascii.eqb_neq in Hnul. }
  destruct (xdigit_value ch) as [d|].
  { case_match; [by eexists|]. apply IH with bs; [|done]. by destruct Hst; constructor. }
  destruct (is_char ":" ch).
  { cbn [saw_xdigit tmp tp colonp curtok val6]. destruct (saw_xdigit st); cbn [negb].
    - destruct (has_nul_deref src Hsrc') as (c & q & _ & ->). cbn [obind]. case_match; [by eexists|].
      destruct (store_group_spec (mkPton6 (tmp st) (tp st) (colonp st) src true (val6 st)) bs)
        as [(st' & -> & Hst' & _)|[-> _]]; [by destruct Hst; constructor| |by eexists].
      cbn [obind]. eapply IH; [|done]. by destruct Hst'; constructor.
    - destruct (colonp st) as [cp|] eqn:Hcp; [by eexists|]. apply IH with bs; [|done].
      destruct Hst as [Ht Htp Hroom Hb Hc Hcur]. constructor; cbn [tmp tp colonp curtok]; try done.
      intros cp [= <-]. lia. }
  destruct (is_char "." ch && _) eqn:Hdot; [|by eexists]. split_bools.
  destruct Hst as [Ht Htp Hroom Hb Hc Hcur].
  destruct (inet_pton4_total (curtok st) true true Hcur) as (ret & out & -> & Hout). cbn [obind fst snd].
  destruct Hout as [[-> ->]|(-> & _ & Hlen & Hob)]; [by eexists|]. specialize (Hlen eq_refl).
  change (0 <? 1) with true. cbv iota. apply Nat.leb_le in H0. unfold INADDRSZ in *.
  rewrite Ht, Htp, store_filled by lia. cbn [obind]. eexists. split; [done|]. intros st' [= <-].
  exists (bs ++ out). constructor; cbn [tmp tp colonp curtok]; try done.
  - rewrite length_app. lia.
  - rewrite length_app. lia.
  - by apply Forall_app_2.
  - intros cp Hcp. rewrite length_app. apply Hc in Hcp. lia.
Qed.

(** The end of [inet_pton6], after the loop. *)
Definition pton6_finish (st : pton6_state) : outcome (Z * list Z) :=
  match colonp st with
  | None => if (tp st =? IN6ADDRSZ)%nat then Ok (1, tmp st) else Ok (0, [])
  | Some cp =>
      if (tp st =? IN6ADDRSZ)%nat then Ok (0, []) else
      tmp <~ fold_left (shift_one (tp st - cp) cp) (seq 1 (tp st - cp)) (Ok (tmp st)) ;;
      Ok (1, tmp)
  end.

Lemma pton6_finish_spec st bs :
  p6_ok st bs ->
  pton6_finish st =
    match colonp st with
    | None => if (length bs =? IN6ADDRSZ)%nat then Ok (1, bs) else Ok (0, [])
    | Some cp => if (length bs =? IN6ADDRSZ)%nat then Ok (0, []) else
        Ok (1, take cp bs ++ replicate (IN6ADDRSZ - length bs) 0 ++ drop cp bs)
    end.
Proof.
  intros [Ht Htp Hroom _ Hc _]. unfold pton6_finish. rewrite Htp, Ht.
  destruct (colonp st) as [cp|].
  - specialize (Hc cp eq_refl). destruct (Nat.eqb_spec (length bs) IN6ADDRSZ); [done|].
    assert (filled bs = take cp bs ++ drop cp bs ++ replicate (IN6ADDRSZ - length bs) 0 ++ []) as ->
      by (unfold filled; by rewrite app_nil_r, app_assoc, take_drop).
    replace (seq 1 (length bs - cp)) with (seq (S (@length Z [])) (length (drop cp bs)))
      by (by rewrite length_drop).
    rewrite shift_moves; rewrite ?length_take, ?length_drop; cbn [length]; try lia.
    by rewrite app_nil_r.
  - destruct (Nat.eqb_spec (length bs) IN6ADDRSZ) as [He|]; [|done].
    unfold filled. by rewrite He, Nat.sub_diag, app_nil_r.
Qed.

Lemma inet_pton6_total src :
  has_nul src = true ->
  exists ret out, inet_pton6 src = Ok (ret, out) /\
    ((ret = 0 /\ out = []) \/ (ret = 1 /\ length out = 16%nat /\ bytes_ok out)).
Proof.
  intros Hsrc. destruct (has_nul_deref src Hsrc) as (c & q & -> & Hc). unfold inet_pton6. rewrite Hc. cbn [obind].
  assert (is_char ":" c = true -> has_nul (advance (String c q)) = true) as Hadv.
  { intros ->%is_char_eq. by apply has_nul_advance. }
  assert (exists c', (if is_char ":" c then deref (advance (String c q)) else Ok ":"%char) = Ok c') as (c' & ->).
  { destruct (is_char ":" c); [|by eexists].
    destruct (has_nul_deref _ (Hadv eq_refl)) as (c' & ? & _ & ->). by eexists. }
  cbn [obind]. destruct (negb (is_char ":" c')); [by eexists _, _; split; [|left]|].
  set (p := if is_char ":" c then advance (String c q) else String c q).
  assert (has_nul p = true) as Hp by (unfold p; destruct (is_char ":" c); [by apply Hadv|done]).
  destruct (pton6_loop_total (pton6_start p) p [] (pton6_start_ok p Hp) Hp) as (r & -> & Hr). cbn [obind].
  destruct r as [st|]; [|by eexists _, _; split; [|left]]. destruct (Hr st eq_refl) as (bs & Hst).
  assert (exists r, (if saw_xdigit st then store_group st else Ok (Some st)) = Ok r /\
            forall st', r = Some st' -> exists bs', p6_ok st' bs') as (r' & -> & Hr').
  { destruct (saw_xdigit st); [|eexists; split; [done|]; intros ? [= <-]; by eexists].
    destruct (store_group_spec st bs Hst) as [(st' & -> & Hst' & _)|[-> _]]; eexists; (split; [done|]); [|done].
    intros ? [= <-]. by eexists. }
  cbn [obind]. destruct r' as [st'|]; [|by eexists _, _; split; [|left]].
  destruct (Hr' st' eq_refl) as (bs' & Hst'). fold (pton6_finish st').
  rewrite (pton6_finish_spec st' bs' Hst'). destruct Hst' as [_ _ Hroom Hb Hcp _].
  destruct (colonp st') as [cp|]; destruct (Nat.eqb_spec (length bs') IN6ADDRSZ) as [He|];
    (eexists _, _; split; [done|]); [by left|right|by right|by left].
  specialize (Hcp cp eq_refl). split; [done|]. split.
  - rewrite !length_app, length_take, length_drop, length_replicate. unfold IN6ADDRSZ in *. lia.
  - unfold bytes_ok in *. rewrite !Forall_app. split; [by apply Forall_take|].
    split; [|by apply Forall_drop]. apply Forall_replicate. lia.
Qed.

(** ** Groups *)

(** The value of a text of hexadecimal digits after digits of value [v], while it fits 16 bits. *)
Fixpoint hex_from (v : Z) (t : string) : option Z :=
  match t with
  | EmptyString => Some v
  | String c t' =>
      match xdigit_value c with
      | Some d => if 65535 <? 16 * v + d then None else hex_from (16 * v + d) t'
      | None => None
      end
  end.

Definition hextet (t : string) (v : Z) : Prop := t <> "" /\ hex_from 0 t = Some v.

Fixpoint colon_join (ts : list string) : string :=
  match ts with
  | [] => ""
  | t :: ts' => match ts' with [] => t | _ => t +:+ ":" +:+ colon_join ts' end
  end.

Definition groups_bytes (vs : list Z) : list Z := flat_map group_bytes vs.

Lemma xdigit_value_range c d : xdigit_value c = Some d -> 0 <= d < 16.
Proof.
  unfold xdigit_value, isdigit, in_range. change (code "0") with 48. change (code "9") with 57.
  change (code "a") with 97. change (code "f") with 102. change (code "A") with 65. change (code "F") with 70.
  intros H. repeat case_match; simplify_eq; split_bools; lia.
Qed.

Lemma xdigit_plain c d : xdigit_value c = Some d -> is_char "000" c = false /\ is_char ":" c = false.
Proof. intros H. split; apply not_true_iff_false; intros ->%is_char_eq; done. Qed.

Lemma nibble_appended v d :
  0 <= v <= 65535 -> 0 <= d < 16 -> Z.lor (to_uint32 (Z.shiftl v 4)) d = 16 * v + d.
Proof.
  intros Hv Hd. rewrite wrap_unsigned_id.
  - rewrite <- Z.add_nocarry_lor; [rewrite Z.shiftl_mul_pow2 by lia; lia|].
    apply Z.bits_inj'. intros i Hi. rewrite Z.land_spec, Z.bits_0. destruct (Z.ltb_spec i 4).
    + by rewrite Z.shiftl_spec_low.
    + rewrite (Z.bits_above_log2 d); [by rewrite andb_false_r|lia|].
      destruct (Z.eq_dec d 0) as [->|]; [simpl; lia|]. assert (Z.log2 d < 4) by (apply Z.log2_lt_pow2; lia). lia.
  - unfold in_unsigned. rewrite Z.shiftl_mul_pow2 by lia. lia.
Qed.

Lemma loop_token st t rest v :
  0 <= val6 st <= 65535 -> hex_from (val6 st) t = Some v ->
  0 <= v <= 65535 /\
  pton6_loop st (t +:+ rest) =
    pton6_loop (mkPton6 (tmp st) (tp st) (colonp st) (curtok st)
                  (saw_xdigit st || negb (String.eqb t "")) v) rest.
Proof.
  revert st. induction t as [|c t IH]; intros st Hv Ht.
  { cbn in Ht. simplify_eq. split; [done|]. rewrite orb_false_r. by destruct st. }
  cbn [hex_from] in Ht. destruct (xdigit_value c) as [d|] eqn:Hc; [|done].
  pose proof (xdigit_value_range c d Hc). destruct (xdigit_plain c d Hc) as [Hn _].
  destruct (Z.ltb_spec 65535 (16 * val6 st + d)) as [|Hle]; [done|].
  rewrite str_app_cons. cbn [pton6_loop]. rewrite Hn, Hc, nibble_appended by lia.
  destruct (Z.ltb_spec 65535 (16 * val6 st + d)); [lia|].
  destruct (IH (mkPton6 (tmp st) (tp st) (colonp st) (curtok st) true (16 * val6 st + d)))
    as [Hr ->]; [cbn; lia|done|].
  split; [done|]. cbn [tmp tp colonp curtok saw_xdigit]. change (String.eqb (String c t) "") with false.
  by rewrite orb_true_r.
Qed.

(** Between two groups. *)
Definition ready (st : pton6_state) (bs : list Z) : Prop :=
  p6_ok st bs /\ saw_xdigit st = false /\ val6 st = 0.

Lemma loop_group st bs t v rest :
  ready st bs -> hextet t v -> (length bs + 2 <= IN6ADDRSZ)%nat ->
  has_nul rest = true -> starts_with (is_char "000") rest = false ->
  exists st', pton6_loop st (t +:+ ":" +:+ rest) = pton6_loop st' rest /\
    ready st' (bs ++ group_bytes v) /\ colonp st' = colonp st.
Proof.
  intros (Hok & Hsaw & Hval) [Hne Ht] Hroom Hnul Hrest.
  destruct (loop_token st t (":" +:+ rest) v) as [Hv ->]; [lia|by rewrite Hval|].
  apply String.eqb_neq in Hne as ->. rewrite Hsaw. cbn [orb negb].
  change (":" +:+ rest) with (String ":" rest). cbn [pton6_loop].
  change (is_char "000" ":") with false. change (xdigit_value ":") with (@None Z).
  change (is_char ":" ":") with true. cbv iota. cbn [saw_xdigit negb tmp tp colonp curtok val6].
  destruct rest as [|c rest]; [done|]. simpl in Hrest. cbn [deref obind]. rewrite Hrest.
  destruct (store_group_spec (mkPton6 (tmp st) (tp st) (colonp st) (String c rest) true v) bs)
    as [(st' & -> & Hst' & Hcp & _)|[_ ?]]; [by destruct Hok; constructor| |lia].
  cbn [obind]. eexists. split; [done|]. split; [|done]. by split; [destruct Hst'; constructor|].
Qed.

Lemma has_nul_app a b : has_nul b = true -> has_nul (a +:+ b) = true.
Proof.
  unfold has_nul, nul_free. intros H. rewrite str_forall_app. apply negb_true_iff in H.
  by rewrite H, andb_false_r.
Qed.

(** A group never starts with a NUL or a colon. *)
Lemma hextet_head t v rest :
  hextet t v -> starts_with (is_char "000") (t +:+ rest) = false /\ starts_with (is_char ":") (t +:+ rest) = false.
Proof.
  intros [Hne Ht]. destruct t as [|c t]; [done|]. cbn [hex_from] in Ht.
  destruct (xdigit_value c) as [d|] eqn:Hc; [|done]. by eapply xdigit_plain.
Qed.

(** From the loop to the end of [inet_pton6]. *)
Definition pton6_after (r : outcome (option pton6_state)) : outcome (Z * list Z) :=
  r <~ r ;;
  match r with
  | None => Ok (0, [])
  | Some st =>
      r <~ (if saw_xdigit st then store_group st else Ok (Some st)) ;;
      match r with
      | None => Ok (0, [])
      | Some st => pton6_finish st
      end
  end.

Lemma loop_end st bs ts vs :
  ready st bs -> Forall2 hextet ts vs -> (length bs + 2 * length ts <= IN6ADDRSZ)%nat ->
  exists st', pton6_after (pton6_loop st (cstr (colon_join ts))) = pton6_finish st' /\
    p6_ok st' (bs ++ groups_bytes vs) /\ colonp st' = colonp st.
Proof.
  intros Hst Hts. revert st bs Hst. induction Hts as [|t v ts vs Ht Hts IH]; intros st bs Hst Hroom.
  { destruct Hst as (Hok & Hsaw & _). exists st. rewrite app_nil_r. split; [|done].
    unfold pton6_after. change (pton6_loop st (cstr (colon_join []))) with (Ok (Some st)). cbn [obind]. by rewrite Hsaw. }
  cbn [length] in Hroom. cbn [colon_join]. destruct ts as [|t' ts].
  - inversion_clear Hts. destruct Hst as (Hok & Hsaw & Hval). destruct Ht as [Hne Ht].
    rewrite <- (str_app_nil_r t), cstr_app.
    destruct (loop_token st t (cstr "") v) as [Hv ->]; [lia|by rewrite Hval|].
    apply String.eqb_neq in Hne as ->. rewrite Hsaw. unfold pton6_after.
    change (pton6_loop ?s (cstr "")) with (Ok (Some s)). cbn [obind orb negb saw_xdigit].
    destruct (store_group_spec (mkPton6 (tmp st) (tp st) (colonp st) (curtok st) true v) bs)
      as [(st' & -> & Hst' & Hcp & _)|[_ ?]]; [by destruct Hok; constructor| |lia].
    cbn [obind]. exists st'. split; [done|]. cbn [val6] in Hst'.
    unfold groups_bytes. cbn [flat_map]. by rewrite app_nil_r.
  - rewrite !cstr_app.
    assert (hextet t' (hd 0 vs)) as Ht' by (by inversion Hts).
    destruct (loop_group st bs t v (cstr (colon_join (t' :: ts)))) as (st1 & -> & Hst1 & Hcp); try done.
    + lia.
    + apply has_nul_cstr.
    + destruct ts as [|t'' ts]; cbn [colon_join].
      * by apply (hextet_head t' (hd 0 vs) (String nul "")).
      * rewrite cstr_app. by apply (hextet_head t' (hd 0 vs)).
    + destruct (IH st1 (bs ++ group_bytes v) Hst1) as (st' & -> & Hst' & Hcp');
        [rewrite length_app; simpl in *; lia|].
      exists st'. split; [done|]. split; [|congruence]. unfold groups_bytes in *. cbn [flat_map]. by rewrite app_assoc.
Qed.

(** Groups, each with a colon after it. *)
Fixpoint coloned (ts : list string) : string :=
  match ts with
  | [] => ""
  | t :: ts' => t +:+ ":" +:+ coloned ts'
  end.

Lemma colon_join_coloned t ts : colon_join (t :: ts) +:+ ":" = coloned (t :: ts).
Proof.
  revert t. induction ts as [|t' ts IH]; intros t; [done|].
  change (colon_join (t :: t' :: ts)) with (t +:+ ":" +:+ colon_join (t' :: ts)).
  rewrite !str_app_assoc. by rewrite IH.
Qed.

Lemma loop_coloned st bs ts vs rest :
  ready st bs -> Forall2 hextet ts vs -> (length bs + 2 * length ts <= IN6ADDRSZ)%nat ->
  has_nul rest = true -> starts_with (is_char "000") rest = false ->
  exists st', pton6_loop st (coloned ts +:+ rest) = pton6_loop st' rest /\
    ready st' (bs ++ groups_bytes vs) /\ colonp st' = colonp st.
Proof.
  intros Hst Hts. revert st bs Hst.
  induction Hts as [|t v ts vs Ht Hts IH]; intros st bs Hst Hroom Hnul Hrest.
  { exists st. by rewrite app_nil_r. }
  cbn [length coloned] in *. rewrite !str_app_assoc.
  destruct (loop_group st bs t v (coloned ts +:+ rest)) as (st1 & -> & Hst1 & Hcp); try done.
  - lia.
  - by apply has_nul_app.
  - destruct Hts as [|t' v' ts vs Ht' _]; [done|]. cbn [coloned]. rewrite !str_app_assoc.
    by apply (hextet_head t' v').
  - destruct (IH st1 (bs ++ group_bytes v) Hst1) as (st' & -> & Hst' & Hcp');
      [rewrite length_app; simpl in *; lia|done..|].
    exists st'. split; [done|]. split; [|congruence].
    unfold groups_bytes in *. cbn [flat_map]. by rewrite app_assoc.
Qed.

Lemma loop_double_colon st bs rest :
  ready st bs -> colonp st = None -> has_nul rest = true ->
  exists st', pton6_loop st (":" +:+ rest) = pton6_loop st' rest /\ ready st' bs /\
    colonp st' = Some (length bs).
Proof.
  intros (Hok & Hsaw & Hval) Hcp Hnul. change (":" +:+ rest) with (String ":" rest). cbn [pton6_loop].
  change (is_char "000" ":") with false. change (xdigit_value ":") with (@None Z).
  change (is_char ":" ":") with true. cbv iota. cbn [saw_xdigit negb tmp tp colonp curtok val6].
  rewrite Hsaw, Hcp. cbn [negb]. eexists. split; [done|]. cbn [colonp].
  destruct Hok as [Ht Htp Hroom Hb Hc Hcur]. split; [|by rewrite Htp].
  split; [|done]. constructor; cbn [tmp tp colonp curtok]; try done.
  intros cp [= <-]. lia.
Qed.

Lemma groups_bytes_length ts vs : Forall2 hextet ts vs -> length (groups_bytes vs) = (2 * length ts)%nat.
Proof. induction 1 as [|t v ts vs _ _ IH]; [done|]. unfold groups_bytes in *. simpl in *. lia. Qed.

Lemma ready_start p : has_nul p = true -> ready (pton6_start p) [].
Proof. intros Hp. split; [by apply pton6_start_ok|done]. Qed.

(** The two ways into the loop. *)
Lemma inet_pton6_plain p :
  has_nul p = true -> starts_with (is_char ":") p = false ->
  inet_pton6 p = pton6_after (pton6_loop (pton6_start p) p).
Proof.
  intros Hp Hc. destruct (has_nul_deref p Hp) as (c & q & -> & Hd). simpl in Hc.
  unfold inet_pton6. rewrite Hd. cbn [obind]. by rewrite Hc.
Qed.

Lemma inet_pton6_colons q :
  inet_pton6 (":" +:+ ":" +:+ q) = pton6_after (pton6_loop (pton6_start (":" +:+ q)) (":" +:+ q)).
Proof. done. Qed.

(** Groups, two colons, groups: up to the end of the text. *)
Lemma compressed_loop xs vs ys ws :
  Forall2 hextet xs vs -> Forall2 hextet ys ws -> (length xs + length ys <= 8)%nat ->
  exists st', inet_pton6 (cstr (colon_join xs +:+ "::" +:+ colon_join ys)) = pton6_finish st' /\
    p6_ok st' (groups_bytes vs ++ groups_bytes ws) /\ colonp st' = Some (length (groups_bytes vs)).
Proof.
  intros Hxs Hys Hlen. pose proof (groups_bytes_length xs vs Hxs) as Hvl.
  assert (exists p, has_nul p = true /\ inet_pton6 (cstr (colon_join xs +:+ "::" +:+ colon_join ys)) =
    pton6_after (pton6_loop (pton6_start p) (coloned xs +:+ ":" +:+ cstr (colon_join ys)))) as (p & Hp & ->).
  { destruct Hxs as [|t v xs vs Ht Hxs].
    - exists (":" +:+ cstr (colon_join ys)). split; [by apply has_nul_app, has_nul_cstr|].
      apply inet_pton6_colons.
    - exists (coloned (t :: xs) +:+ ":" +:+ cstr (colon_join ys)).
      split; [by apply has_nul_app, has_nul_app, has_nul_cstr|].
      assert (cstr (colon_join (t :: xs) +:+ "::" +:+ colon_join ys) =
              coloned (t :: xs) +:+ ":" +:+ cstr (colon_join ys)) as ->.
      { rewrite !cstr_app. change ("::" +:+ cstr (colon_join ys)) with (":" +:+ ":" +:+ cstr (colon_join ys)).
        by rewrite <- str_app_assoc, colon_join_coloned. }
      apply inet_pton6_plain; [by apply has_nul_app, has_nul_app, has_nul_cstr|].
      cbn [coloned]. rewrite !str_app_assoc. by apply (hextet_head t v). }
  destruct (loop_coloned (pton6_start p) [] xs vs (":" +:+ cstr (colon_join ys)))
    as (st1 & -> & Hst1 & Hcp1); [by apply ready_start|done|simpl; unfold IN6ADDRSZ; lia|
      by apply has_nul_app, has_nul_cstr|done|].
  destruct (loop_double_colon st1 _ (cstr (colon_join ys)) Hst1) as (st2 & -> & Hst2 & Hcp2);
    [done|apply has_nul_cstr|].
  destruct (loop_end st2 _ ys ws Hst2 Hys) as (st3 & -> & Hst3 & Hcp3);
    [cbn [app]; rewrite Hvl; unfold IN6ADDRSZ; lia|].
  exists st3. split; [done|]. split; [exact Hst3|]. by rewrite Hcp3, Hcp2.
Qed.

(** ** Properties *)


(** C26: the parser of dotted quads agrees with the grammar: it accepts exactly the texts of four
    numbers between dots, without leading zeros (but before a nine), whose values modulo 2^32 are
    bytes, followed by the end or by white space and anything at all, and stores their values. *)
Theorem inet_pton4_grammar s bytes :
  nul_free s = true ->
  (inet_pton4 (cstr s) true true = Ok (1, bytes) <-> quad_text s bytes) /\
  (inet_pton4 (cstr s) true true = Ok (0, []) <-> forall bytes', ~ quad_text s bytes').
Proof.
  intros Hs. split; [split; [by apply parsed_quad|by apply quad_parsed]|].
  destruct (inet_pton4_total (cstr s) true true (has_nul_cstr s)) as (ret & out & Hrun & Hout).
  split.
  - intros H0 bytes' Hq. apply quad_parsed in Hq. congruence.
  - intros Hno. rewrite Hrun. destruct Hout as [[-> ->]|(-> & _)]; [done|].
    exfalso. eapply Hno, parsed_quad; eauto.
Qed.

(** Addresses of version 6 are read back: eight groups give their bytes, and fewer groups
    with two colons in one place give the groups' bytes with zeros between them, for groups
    written in either case and with any leading zeros. *)
Theorem inet_pton6_groups xs vs ys ws :
  Forall2 hextet xs vs -> Forall2 hextet ys ws ->
  (length xs = 8%nat -> inet_pton6 (cstr (colon_join xs)) = Ok (1, groups_bytes vs)) /\
  ((length xs + length ys < 8)%nat ->
   inet_pton6 (cstr (colon_join xs +:+ "::" +:+ colon_join ys)) =
     Ok (1, groups_bytes vs ++ replicate (16 - 2 * (length xs + length ys)) 0 ++ groups_bytes ws)).
Proof.
  intros Hxs Hys. pose proof (groups_bytes_length xs vs Hxs) as Hvl.
  pose proof (groups_bytes_length ys ws Hys) as Hwl. split.
  - intros H8. destruct Hxs as [|t v xs vs Ht Hxs]; [done|].
    rewrite inet_pton6_plain; [|apply has_nul_cstr|].
    + destruct (loop_end (pton6_start (cstr (colon_join (t :: xs)))) [] (t :: xs) (v :: vs))
        as (st & -> & Hst & Hcp); [apply ready_start, has_nul_cstr|by constructor|
          rewrite H8; unfold IN6ADDRSZ; simpl; lia|].
      rewrite (pton6_finish_spec st _ Hst), Hcp. cbn [colonp pton6_start app]. by rewrite Hvl, H8.
    + cbn [colon_join]. destruct xs as [|t' xs]; [done|]. rewrite cstr_app. by apply (hextet_head t v).
  - intros Hlen. destruct (compressed_loop xs vs ys ws) as (st & -> & Hst & Hcp); [done|done|lia|].
    rewrite (pton6_finish_spec st _ Hst), Hcp. rewrite !length_app, Hvl, Hwl.
    destruct (Nat.eqb_spec (2 * length xs + 2 * length ys) IN6ADDRSZ); [unfold IN6ADDRSZ in *; lia|].
    rewrite take_app_length', drop_app_length' by done.
    by replace (IN6ADDRSZ - (2 * length xs + 2 * length ys))%nat
      with (16 - 2 * (length xs + length ys))%nat by (unfold IN6ADDRSZ; lia).
Qed.

(** Two colons in an address of eight groups are not "silently ignored", as the comment of the
    function says: such an address is rejected. *)
Theorem full_address_colons_rejected xs vs ys ws :
  Forall2 hextet xs vs -> Forall2 hextet ys ws -> (length xs + length ys = 8)%nat ->
  inet_pton6 (cstr (colon_join xs +:+ "::" +:+ colon_join ys)) = Ok (0, []).
Proof.
  intros Hxs Hys Hlen. destruct (compressed_loop xs vs ys ws) as (st & -> & Hst & Hcp); [done|done|lia|].
  rewrite (pton6_finish_spec st _ Hst), Hcp.
  by rewrite length_app, (groups_bytes_length xs vs), (groups_bytes_length ys ws),
    <- Nat.mul_add_distr_l, Hlen.
Qed.
