(* ===== verification/DemoMain.v ===== *)
(** * DemoMain: the demo client against the demo server

    The rest of demo/searpc-demo-client.c: its connections, its two tests and its [main], and a
    world in which that program talks to demo/searpc-demo-server.c over TCP.  What the programs
    print is part of a result. *)
From S2P Require Import Prelude Json Runtime Utils GObject TestObject Marshal Server ServerSafety Responses Dispatch Client ClientSafety Rpc Pipe PipeSafety PipeServer Demo DemoTcp.

(** ** The program *)

(** The system calls that make a connection; [sys_setsockopt] sets SO_REUSEADDR, [sys_connect]
    connects to the address of the demo server. *)
Class Net (X : Type) := {
  sys_socket : run X Z;
  sys_setsockopt : Z -> run X Z;
  sys_connect : Z -> run X Z
}.

(** What is printed: the line with the length, a dumped object, any other line. *)
Inductive printed :=
| Printed_length (str : string) (ret : Z)
| Printed_object (object : json)
| Printed_line (line : string).

Section Program.
Context `{Jansson} {X : Type} `{Sockets X} `{Net X} (fuel stack : nat).
Local Abbreviation demo_client := (@SearpcClient demo_lib X Z unit unit).

(** The result and the socket, which stays open when a later step fails. *)
Definition connection_init : run X (Z * Z) :=
  sockfd <- sys_socket ;;
  if sockfd <? 0 then rret (-1, sockfd) else
  r <- sys_setsockopt sockfd ;;
  if r <? 0 then rret (-1, sockfd) else
  ret <- sys_connect sockfd ;;
  if ret <? 0 then rret (-1, sockfd) else rret (0, sockfd).

(** [error] is NULL at the call, and is looked at after it. *)
Definition rpc_string_test (sockfd : Z) (rpc_client : demo_client) : run X (list printed) :=
  let str := "hello searpc" in
  p <- searpc_client_call__int rpc_client (Some "searpc_strlen") (ErrAt None) 1
         [("string", VString (Some str))] ;;
  match error_of p.2 with
  | Some _ => exit_process "error"
  | None =>
      let ret := p.1 in
      let same := wrap_unsigned 64 ret =? Z.of_nat (String.length str) in
      _ <- sys_close sockfd ;;
      rret [Printed_length str ret;
            Printed_line (if same then "String test succeed." else "String test fail.")]
  end.

(** One round of the loop over the members: whether they are as expected. *)
Definition check_member (array : option json) (len : Z) (str : string) (i : nat) : outcome bool :=
  let member := json_array_get array i in
  if negb (json_integer_value (json_object_get member "len") =? len) then Ok false else
  match json_string_value (json_object_get member "str") with
  | None => Undef "strcmp of NULL"
  | Some s =>
      if negb (String.eqb s str) then Ok false
      else Ok (negb (Bool.eqb (json_is_false (json_object_get member "equal"))
                      (Z.of_nat (String.length str) =? len)))
  end.

Fixpoint check_members (array : option json) (len : Z) (str : string) (idx : list nat) : outcome bool :=
  match idx with
  | [] => Ok true
  | i :: idx' =>
      ok <~ check_member array len str i ;;
      if ok : bool then check_members array len str idx' else Ok false
  end.

Definition rpc_glist_test (sockfd : Z) (rpc_client : demo_client) : run X (list printed) :=
  let count := 4 in
  let len := 11 in
  let str := "A rpc test." in
  p <- searpc_client_call__objlist rpc_client (Some "searpc_objlisttest") (Some T_test) (ErrAt None) 3
         [("int", VWord count); ("int", VWord len); ("string", VString (Some str))] ;;
  object <- rlift (searpc_set_objlist_to_ret_object stack json_object p.1) ;;
  match error_of p.2 with
  | Some _ => exit_process "error"
  | None =>
      let array := json_object_get (Some object) "ret" in
      if negb (Z.of_nat (json_array_size array) =? count) then
        rret [Printed_object object; Printed_line "Glisttest fail."]
      else
        ok <- rlift (check_members array len str (seq 0 (Z.to_nat count))) ;;
        if ok : bool then
          _ <- sys_close sockfd ;; rret [Printed_object object; Printed_line "Glisttest succeed."]
        else rret [Printed_object object; Printed_line "Glisttest fail."]
  end.

(** [rpc_client->send = transport_callback; rpc_client->arg = sockfd]. *)
Definition demo_rpc_client (sockfd : Z) : demo_client :=
  mkClient (Some (transport_callback fuel)) (Some sockfd) None None.

Definition demo_client_main : run X (list printed) :=
  c <- connection_init ;;
  if c.1 <? 0 then exit_process "connection_init" else
  out1 <- rpc_string_test c.2 (demo_rpc_client c.2) ;;
  c <- connection_init ;;
  if c.1 <? 0 then exit_process "connection_init" else
  out2 <- rpc_glist_test c.2 (demo_rpc_client c.2) ;;
  rret (out1 ++ out2).
End Program.

(** ** The world *)
Section World.
Context {T : Type} (fuel : nat) (connfd : Z) (call : string -> run T string).

(** The server's end of a connection it has not answered yet, the ends of the connections that
    are still to be made, the client's first, and the state of the server. *)
Record demo_peer := mkDemoPeer {
  dp_end : option endpoint; dp_next : list (endpoint * endpoint); dp_state : T
}.

(** While the client waits, the server does the round of its loop that belongs to the
    connection; after it, it never looks at the connection again. *)
Definition tcp_turn (x : endpoint * demo_peer) : outcome (endpoint * demo_peer) :=
  let '(ep, pe) := x in
  match dp_end pe with
  | None => Ok x
  | Some se =>
      r <~ @demo_server_round _ (ep_sockets no_peer) fuel
             (fun body y => p <~ call body y.2 ;; Ok (p.1, (y.1, p.2))) connfd
             (with_inbox se (inbox se +:+ outbox ep), dp_state pe) ;;
      Ok (with_inbox (with_outbox ep "") (outbox r.2.1), mkDemoPeer None (dp_next pe) r.2.2)
  end.

Definition tcp_sockets : Sockets (endpoint * demo_peer) := ep_sockets tcp_turn.

Definition tcp_net : Net (endpoint * demo_peer) := {|
  sys_socket x := Ok (3, x);
  sys_setsockopt _ x := Ok (0, x);
  sys_connect _ x :=
    match dp_next x.2 with
    | [] => Ok (-1, x)
    | (ce, se) :: next => Ok (0, (ce, mkDemoPeer (Some se) next (dp_state x.2)))
    end
|}.
End World.
Arguments demo_peer : clear implicits.

(** ** Facts *)
Section Exchange.
Context `{Jansson} {T : Type} (fuel : nat) (connfd : Z) (call : string -> run T string).
Local Abbreviation sockets := (tcp_sockets fuel connfd call).

(** A connection that was just made, with room for a packet each way and no failure ahead. *)
Definition fresh_end (ep : endpoint) : Prop :=
  inbox ep = "" /\ outbox ep = "" /\ smooth_ep ep /\
  (512 + length (read_events ep) + length (write_events ep) < fuel)%nat.

(** The end once a request was sent on it. *)
Definition sent_end (req : string) (ep : endpoint) : Prop :=
  inbox ep = "" /\ outbox ep = packet_of req /\ smooth (read_events ep) = true /\
  (512 + length (read_events ep) < fuel)%nat.

Lemma tcp_sent fd ep pe req :
  fresh_end ep -> (0 < String.length req <= 254)%nat ->
  exists ep1, @send_packet _ sockets fuel fd req (String.length req) (ep, pe) =
      Ok (Z.of_nat (String.length req) + 2, (ep1, pe)) /\ sent_end req ep1.
Proof.
  intros (Hi & Ho & [Hr Hw] & Hf) Hreq.
  destruct (send_packet_ok (tcp_turn fuel connfd call) fuel fd req ep pe) as (w' & Hsend & _); [lia|done|lia|].
  eexists. split; [exact Hsend|]. repeat split; [done|by cbn; rewrite Ho|done|simpl; lia].
Qed.

(** The client waits for the response: the server's round, then the packet. *)
Lemma tcp_received fd ep se next t t' req resp :
  sent_end req ep -> fresh_end se -> (0 < String.length req <= 254)%nat ->
  (0 < String.length resp <= 254)%nat -> call req t = Ok (resp, t') ->
  exists ep', @read_packet _ sockets fuel fd (ep, mkDemoPeer (Some se) next t) =
    Ok (Some resp, (ep', mkDemoPeer None next t')).
Proof.
  intros (Hi & Ho & Hr & Hf) (Hsi & Hso & Hssm & Hsf) Hreq Hresp Hcall.
  set (turn := tcp_turn fuel connfd call).
  destruct (server_round_ok fuel connfd call req resp "" (with_inbox se (inbox se +:+ outbox ep)) t t')
    as (r2 & w2 & Hround & _ & _); [done|lia| |done|done|done|].
  { simpl. by rewrite Hsi, Ho, str_app_nil_r. }
  set (ep2 := with_inbox (with_outbox ep "") (packet_of resp)).
  assert (turn (ep, mkDemoPeer (Some se) next t) = Ok (ep2, mkDemoPeer None next t')) as Hturn.
  { unfold turn, tcp_turn. cbn [dp_end dp_state dp_next]. rewrite Hround. simpl. by rewrite Hso. }
  destruct (read_packet_ok turn fuel fd resp "" ep2 (mkDemoPeer None next t')) as (r3 & Hread & _);
    [done|by simpl; rewrite str_app_nil_r|done|simpl; lia|].
  eexists. refine (eq_trans _ Hread).
  pose proof (pipe_read_waits turn fuel fd 1 ep _ ep2 _ Hi Hturn ltac:(done)) as E.
  unfold read_packet. unfold rbind at 1. unfold rbind at 2.
  unfold readn at 1 3. unfold tcp_sockets. fold turn. change PACKET_HEADER_LENGTH with 2%nat. by rewrite E.
Qed.

(** The transport of the client on such a connection: one packet each way. *)
Lemma tcp_exchange fd ep se next t t' req resp :
  fresh_end ep -> fresh_end se -> (0 < String.length req <= 254)%nat ->
  (0 < String.length resp <= 254)%nat -> nul_free resp = true -> call req t = Ok (resp, t') ->
  exists buf ep',
    @transport_callback _ sockets fuel fd req (String.length req) (ep, mkDemoPeer (Some se) next t) =
      Ok (Some (mkReply buf (String.length resp)), (ep', mkDemoPeer None next t')) /\
    cbuf_read buf (String.length resp) = Ok resp.
Proof.
  intros Hep Hse Hreq Hresp Hnul Hcall.
  destruct (tcp_sent fd ep (mkDemoPeer (Some se) next t) req Hep Hreq) as (ep1 & Hsend & Hsent).
  destruct (tcp_received fd ep1 se next t t' req resp) as (ep' & Hread); [done..|].
  exists (g_strndup resp (String.length resp)), ep'. split; [|by apply g_strndup_read].
  unfold transport_callback. rewrite (rbind_step _ _ _ _ _ Hsend).
  destruct (Z.eqb_spec (Z.of_nat (String.length req) + 2) (-1)); [lia|].
  by rewrite (rbind_step _ _ _ _ _ Hread).
Qed.
End Exchange.

Section DemoCalls.
Context `{JanssonLaws} {W : Type} (fuel stack : nat) (connfd : Z) (md5 : string -> string).
Context (start finish : timeval).
Local Abbreviation serve := (@searpc_server_call_function _ demo_lib W start finish "searpc-demo").
#[local] Instance demo_sockets : Sockets (endpoint * demo_peer (server W * W)) := tcp_sockets fuel connfd serve.

(** The packets of a call fit their buffers. *)
Definition call_fits (s : server W) (w : W) (fname : string) (n : Z) (args : va_list) : Prop :=
  forall req len resp st',
    fcall_to_str fname n args = Ok (Some (req, len)) -> serve req (s, w) = Ok (resp, st') ->
    (String.length req <= 254)%nat /\ (String.length resp <= 254)%nat.

(** A call over a connection that was just made. *)
Lemma remote_call n gt fd ep se next s fname f vals w r w' :
  fresh_end fuel ep -> fresh_end fuel se -> server_wf s -> text_ok fname = true ->
  serves "searpc-demo" s fname stack f -> Forall2 arg_ok (c_params f) vals ->
  c_body f (zip_with arg_param (c_params f) vals) w = Ok ((r, None), w') ->
  ret_ok n (c_ret f) r -> ret_typed gt r -> (n <= stack)%nat -> (n <= wire_depth)%nat ->
  call_fits s w fname (Z.of_nat (length (c_params f))) (va_of (c_params f) vals ++ []) ->
  exists c ep' lines,
    typed_call (c_ret f) gt (demo_rpc_client fuel fd) (Some fname) (ErrAt None)
      (Z.of_nat (length (c_params f))) (va_of (c_params f) vals ++ []) (ep, mkDemoPeer (Some se) next (s, w)) =
      Ok ((c, ErrAt None), (ep', mkDemoPeer None next (add_lines lines s, w'))) /\
    same_value n (c_ret f) r c.
Proof.
  intros Hep Hse Hwf Hfn Hserves Hargs Hbody Hr Hty Hst Hn Hfits. pose proof demo_laws as Hlaws.
  destruct (call_answered start finish "searpc-demo" n stack s fname f vals [] w r None w')
    as (req & resp & v & lines & Hreq & Htext & Hpos & Hserve & Hresp & Hrt & Hw); try done.
  destruct (Hfits _ _ _ _ Hreq Hserve) as [Hl1 Hl2]. apply loaded_not_empty in Hresp as Hpos'.
  destruct (tcp_exchange fuel connfd serve fd ep se next (s, w) (add_lines lines s, w') req resp) as (buf & ep' & Hsend & Hread);
    [done..|by unfold text_ok in Hrt; split_bools|exact Hserve|].
  destruct (answer_parsed n (c_ret f) gt r None buf (String.length resp) resp v)
    as (c & e & Hp & Hc & ->); try done.
  exists c, ep', lines. split; [|exact Hc].
  rewrite (typed_call_step _ gt (demo_rpc_client fuel fd) fname _ _ req _ _ _ Hreq Hsend).
  unfold rlift. cbn [r_buf r_len]. by rewrite Hp.
Qed.

(** A demo object is its three properties. *)
Lemma demo_same_eq n (o o' : demo_object) :
  do_type o = T_test -> @obj_same demo_lib demo_classes (S n) o o' -> o' = o.
Proof.
  destruct o as [t [len str equal]], o' as [t' [len' str' equal']]. simpl.
  intros -> [Hty Hp]. simpl in Hty, Hp. subst t'.
  pose proof (Hp _ (or_introl eq_refl)) as P1. pose proof (Hp _ (or_intror (or_introl eq_refl))) as P2.
  pose proof (Hp _ (or_intror (or_intror (or_introl eq_refl)))) as P3.
  cbn in P1, P2, P3. congruence.
Qed.

(** The members of a demo object in JSON. *)
Definition demo_json (len : Z) (str : string) (equal : bool) : json :=
  JObject [("len", JInteger len); ("str", JString str); ("equal", if equal then JTrue else JFalse)].

Lemma demo_serialized n len str equal :
  is_int len = true -> text_ok str = true ->
  @json_gobject_serialize _ demo_lib demo_classes (S n) (mkDemo T_test (mkTestObject len (Some str) equal)) =
    Ok (demo_json len str equal).
Proof.
  intros Hlen Hstr. cbn. rewrite json_object_eq, json_integer_eq, set_member by done.
  rewrite wrap_signed_id by (try done; by apply (wrap_signed_mono 32 64)).
  rewrite json_string_text, set_member by done. cbn.
  destruct equal; cbn; by rewrite ?json_true_eq, ?json_false_eq, set_member by done.
Qed.

(** The two tests over a connection that was just made. *)
Definition string_args : va_list := [("string", VString (Some "hello searpc"))].
Definition glist_args : va_list :=
  [("int", VWord 4); ("int", VWord 11); ("string", VString (Some "A rpc test."))].

Lemma string_test_ok fd ep se next s w :
  fresh_end fuel ep -> fresh_end fuel se -> server_wf s ->
  serves "searpc-demo" s "searpc_strlen" stack strlen_function ->
  call_fits s w "searpc_strlen" 1 string_args ->
  exists ep' lines,
    rpc_string_test fd (demo_rpc_client fuel fd) (ep, mkDemoPeer (Some se) next (s, w)) =
      Ok ([Printed_length "hello searpc" 12; Printed_line "String test succeed."],
          (ep', mkDemoPeer None next (add_lines lines s, w))).
Proof.
  intros Hep Hse Hwf Hserves Hfits.
  destruct (remote_call 0 T_test fd ep se next s "searpc_strlen" strlen_function
    [VString (Some "hello searpc")] w (RInt 12) w) as (c & ep' & lines & Hcall & Hc); try done.
  - by apply ascii_text_ok.
  - repeat constructor. by apply ascii_text_ok.
  - lia.
  - lia.
  - destruct c as [|z| | | | |]; try done. simpl in Hc. subst z.
    apply rbind_Ok in Hcall as ([z e] & x & Hcall & Hz). injection Hz as -> -> ->.
    eexists _, lines. unfold rpc_string_test. cbv zeta. by rewrite (rbind_step _ _ _ _ _ Hcall).
Qed.

(** The object the loop of the demo function makes, and its list in JSON. *)
Definition glist_object : demo_object := mkDemo T_test (mkTestObject 11 (Some "A rpc test.") true).
Definition glist_result : json := JObject [("ret", JArray (repeat (demo_json 11 "A rpc test." true) 4))].

Lemma glist_serialized : (1 <= stack)%nat ->
  @searpc_set_objlist_to_ret_object _ demo_lib demo_classes stack json_object (repeat glist_object 4) =
    Ok glist_result.
Proof.
  intros Hst. destruct stack as [|n]; [lia|]. cbn [repeat searpc_set_objlist_to_ret_object].
  rewrite json_array_eq, (serialize_objlist_spec _ _ (repeat (demo_json 11 "A rpc test." true) 4)).
  - cbn. by rewrite json_object_eq, set_member by done.
  - assert (forall k, Forall2 (fun o v => @json_gobject_serialize _ demo_lib demo_classes (S n) o = Ok v)
      (repeat glist_object k) (repeat (demo_json 11 "A rpc test." true) k)) as Hall; [|apply (Hall 4%nat)].
    induction k; constructor; [|done]. apply demo_serialized; [done|by apply ascii_text_ok].
Qed.

Lemma glist_members_ok :
  check_members (Some (JArray (repeat (demo_json 11 "A rpc test." true) 4))) 11 "A rpc test." (seq 0 4) = Ok true.
Proof.
  cbn [seq check_members repeat]. unfold check_member.
  rewrite !json_array_get_eq. cbn [lookup list_lookup].
  rewrite !json_object_get_eq, json_integer_value_eq, json_string_value_eq, json_is_false_eq. by vm_compute.
Qed.

Lemma glist_test_ok fd ep se next s w :
  fresh_end fuel ep -> fresh_end fuel se -> server_wf s -> (1 <= stack)%nat ->
  serves "searpc-demo" s "searpc_objlisttest" stack objlisttest_function ->
  call_fits s w "searpc_objlisttest" 3 glist_args ->
  exists ep' lines,
    rpc_glist_test stack fd (demo_rpc_client fuel fd) (ep, mkDemoPeer (Some se) next (s, w)) =
      Ok ([Printed_object glist_result; Printed_line "Glisttest succeed."],
          (ep', mkDemoPeer None next (add_lines lines s, w))).
Proof.
  intros Hep Hse Hwf Hst Hserves Hfits.
  assert (@portable_obj _ demo_lib demo_classes 1 glist_object) as Hport
    by (apply demo_object_portable; [lia|by apply ascii_text_ok]).
  destruct (remote_call 1 T_test fd ep se next s "searpc_objlisttest" objlisttest_function
    [VWord 4; VWord 11; VString (Some "A rpc test.")] w (@RObjlist demo_lib (repeat glist_object 4)) w)
    as (c & ep' & lines & Hcall & Hc); try done.
  - by apply ascii_text_ok.
  - repeat constructor. by apply ascii_text_ok.
  - cbn [ret_ok c_ret objlisttest_function repeat]. do 4 (constructor; [exact Hport|]). constructor.
  - cbn [ret_typed repeat]. do 4 (constructor; [done|]). constructor.
  - unfold wire_depth. lia.
  - destruct c as [| | | | |l|]; try done. simpl in Hc.
    assert (l = repeat glist_object 4) as ->.
    { assert (forall k l, Forall2 (@obj_same demo_lib demo_classes 1) (repeat glist_object k) l ->
        l = repeat glist_object k) as Hall; [|by apply (Hall 4%nat)].
      clear. induction k as [|k IH]; intros l Hl; [by apply Forall2_nil_inv_l in Hl|].
      apply Forall2_cons_inv_l in Hl as (o & l' & Ho & Hl & ->).
      simpl. by rewrite (demo_same_eq 0 glist_object o eq_refl Ho), (IH l' Hl). }
    apply rbind_Ok in Hcall as ([l e] & x & Hcall & Hz). injection Hz as -> -> ->.
    eexists _, lines. unfold rpc_glist_test. cbv zeta. rewrite (rbind_step _ _ _ _ _ Hcall).
    cbn [fst snd]. rewrite (rbind_step _ _ _ _ _ (rlift_Ok _ _ _ (glist_serialized Hst))).
    cbn [error_of].
    assert (json_object_get (Some glist_result) "ret" =
      Some (JArray (repeat (demo_json 11 "A rpc test." true) 4))) as -> by (by rewrite json_object_get_eq).
    rewrite json_array_size_eq. change (Z.to_nat 4) with 4%nat.
    change (negb (Z.of_nat (length (repeat (demo_json 11 "A rpc test." true) 4)) =? 4)) with false.
    cbv iota. by rewrite (rbind_step _ _ _ _ _ (rlift_Ok _ _ _ glist_members_ok)).
Qed.
End DemoCalls.

(** ** Properties *)

