(* ===== verification/DemoServer.v ===== *)
(** * DemoServer: the main function of demo/searpc-demo-server.c

    The listening socket is set up, and connections are served one after the other: a packet in, a
    packet out, and the connection is never looked at again, nor closed. *)
From S2P Require Import Prelude Json Runtime Utils GObject Client Pipe PipeSafety PipeServer DemoTcp DemoMain.

(** ** The program *)

(** The calls of a listening socket; [sys_bind] binds it to port 12345 on all interfaces. *)
Class Listening (X : Type) := {
  sys_bind : Z -> run X Z;
  sys_listen : Z -> Z -> run X Z;
  sys_accept : Z -> run X Z
}.

Section ServerMain.
Context {X : Type} `{Sockets X} `{Net X} `{Listening X} (fuel : nat).
(** [start_rpc_service] and [searpc_server_call_function] for the service "searpc-demo". *)
Context (start : run X unit) (call_function : string -> run X string).

(** The listening socket; every failure ends the process. *)
Definition demo_server_socket : run X Z :=
  listenfd <- sys_socket ;;
  if listenfd <? 0 then exit_process "socket failed" else
  r <- sys_setsockopt listenfd ;;
  if r <? 0 then exit_process "setsockopt failed" else
  ret <- sys_bind listenfd ;;
  if ret <? 0 then exit_process "bind failed" else
  ret <- sys_listen listenfd 5 ;;
  if ret <? 0 then exit_process "listen failed" else rret listenfd.

(** The first [rounds] rounds of [while (1)]. *)
Fixpoint demo_server_loop (rounds : nat) (listenfd : Z) : run X unit :=
  match rounds with
  | O => rret tt
  | S rounds' =>
      connfd <- sys_accept listenfd ;;
      if connfd <? 0 then demo_server_loop rounds' listenfd else
      _ <- demo_server_round fuel call_function connfd ;;
      demo_server_loop rounds' listenfd
  end.

Definition demo_server_main (rounds : nat) : run X unit :=
  _ <- start ;;
  listenfd <- demo_server_socket ;;
  demo_server_loop rounds listenfd.
End ServerMain.

(** ** The world *)

(** What [accept] returns next ([None]: it fails), the connections that were left behind, the
    latest first, and the state of the server. *)
Record accept_state (T : Type) := mkAccept {
  as_next : list (option endpoint); as_left : list endpoint; as_state : T
}.
Arguments mkAccept {T} _ _ _.
Arguments as_next {T} _.
Arguments as_left {T} _.
Arguments as_state {T} _.

Section AcceptWorld.
Context {T : Type}.
Local Abbreviation world := (endpoint * accept_state T)%type.

#[export] Instance accept_sockets : Sockets world := ep_sockets no_peer.

#[export] Instance accept_net : Net world := {|
  sys_socket x := Ok (3, x);
  sys_setsockopt _ x := Ok (0, x);
  sys_connect _ x := Ok (-1, x)
|}.

#[export] Instance accept_listening : Listening world := {|
  sys_bind _ x := Ok (0, x);
  sys_listen _ _ x := Ok (0, x);
  sys_accept _ x :=
    match as_next x.2 with
    | Some ep :: next => Ok (4, (ep, mkAccept next (x.1 :: as_left x.2) (as_state x.2)))
    | None :: next => Ok (-1, (x.1, mkAccept next (as_left x.2) (as_state x.2)))
    | [] => Ok (-1, x)
    end
|}.

(** What runs on the state of the server, in this world. *)
Definition in_accept {A} (m : run T A) : run (accept_state T) A :=
  fun st => r <~ m (as_state st) ;; Ok (r.1, mkAccept (as_next st) (as_left st) r.2).
Definition beside_accept {A} (m : run T A) : run world A :=
  fun x => r <~ in_accept m x.2 ;; Ok (r.1, (x.1, r.2)).
End AcceptWorld.

(** ** Properties *)
Section Serving.
Context {T : Type} (fuel : nat) (call : string -> run T string).

(** The connections that are made carry a request each. *)
Inductive connections : list (option endpoint) -> list string -> Prop :=
| conn_nil : connections [] []
| conn_failed next reqs : connections next reqs -> connections (None :: next) reqs
| conn_made ep rest req next reqs :
    inbox ep = packet_of req +:+ rest -> outbox ep = "" -> closed ep = false -> smooth_ep ep ->
    (0 < String.length req <= 254)%nat ->
    (512 + length (read_events ep) + length (write_events ep) < fuel)%nat ->
    connections next reqs -> connections (Some ep :: next) (req :: reqs).

(** The contract: the calls one after the other. *)
Fixpoint serve_calls (reqs : list string) (t : T) : outcome (list string * T) :=
  match reqs with
  | [] => Ok ([], t)
  | req :: reqs' =>
      x <~ call req t ;;
      y <~ serve_calls reqs' x.2 ;;
      Ok (x.1 :: y.1, y.2)
  end.

(** A connection that was answered and left open. *)
Definition answered (resp : string) (ep : endpoint) : Prop :=
  outbox ep = packet_of resp /\ closed ep = false.

Lemma demo_server_loop_spec listenfd next reqs : forall cur left t resps t',
  connections next reqs -> serve_calls reqs t = Ok (resps, t') ->
  Forall (fun r => (String.length r <= 254)%nat) resps ->
  exists cur' left' eps,
    demo_server_loop fuel (fun body => beside_accept (call body)) (length next) listenfd
      (cur, mkAccept next left t) = Ok (tt, (cur', mkAccept [] left' t')) /\
    cur' :: left' = List.rev eps ++ cur :: left /\ Forall2 answered resps eps.
Proof.
  intros cur left t resps t' Hconn. revert cur left t resps t'.
  induction Hconn as [|next reqs _ IH|ep rest req next reqs Hin Hout Hcl Hsm Hlen Hf _ IH];
    intros cur left t resps t' Hserve Hresps.
  - simpl in Hserve. simplify_eq. by exists cur, left, [].
  - cbn [length demo_server_loop].
    rewrite (rbind_step _ _ _ (-1) (cur, mkAccept next left t)) by done. by apply IH.
  - cbn [serve_calls] in Hserve. apply obind_Ok in Hserve as ([resp t1] & Hcall & Hserve).
    apply obind_Ok in Hserve as ([resps' t2] & Hserve & Heq). cbn [fst snd] in *.
    injection Heq as <- <-. apply Forall_cons in Hresps as [Hresp Hresps].
    destruct (server_round_ok fuel 4 (fun body => in_accept (call body))
      req resp rest ep (mkAccept next (cur :: left) t) (mkAccept next (cur :: left) t1))
      as (r' & w' & Hround & _); try done;
      [by unfold in_accept; cbn [as_state]; rewrite Hcall|].
    set (ep' := mkEnd rest _ r' w' _ _) in Hround.
    destruct (IH ep' (cur :: left) t1 resps' t2 Hserve Hresps) as (cur' & left' & eps & Hrun & Hl & Hall).
    exists cur', left', (ep' :: eps). split; [|split].
    + cbn [length demo_server_loop].
      rewrite (rbind_step _ _ _ 4 (ep, mkAccept next (cur :: left) t)) by done.
      change (4 <? 0) with false. cbv iota.
      rewrite (rbind_step _ _ _ tt (ep', mkAccept next (cur :: left) t1)); [exact Hrun|exact Hround].
    + rewrite Hl. simpl. by rewrite <- app_assoc.
    + constructor; [|done]. split; [|done]. unfold ep'. cbn [outbox]. by rewrite Hout.
Qed.

(** The demo server sets its socket up and answers every connection that can be made, in
    order, with the packet of the response to its request, whatever connections fail in between
    and however the streams are split; it leaves all those connections open. *)
Theorem demo_server_serves (start : run T unit) next reqs ep0 t0 t resps t' :
  connections next reqs -> start t0 = Ok (tt, t) -> serve_calls reqs t = Ok (resps, t') ->
  Forall (fun r => (String.length r <= 254)%nat) resps ->
  exists cur left eps,
    demo_server_main fuel (beside_accept start) (fun body => beside_accept (call body)) (length next)
      (ep0, mkAccept next [] t0) = Ok (tt, (cur, mkAccept [] left t')) /\
    cur :: left = List.rev eps ++ [ep0] /\ Forall2 answered resps eps.
Proof.
  intros Hconn Hstart Hserve Hresps.
  destruct (demo_server_loop_spec 3 next reqs ep0 [] t resps t') as (cur & left & eps & Hrun & Hl & Hall);
    [done..|].
  exists cur, left, eps. split; [|done]. unfold demo_server_main.
  rewrite (rbind_step _ _ _ tt (ep0, mkAccept next [] t));
    [|by unfold beside_accept, in_accept; cbn [snd as_state]; rewrite Hstart].
  rewrite (rbind_step _ _ _ 3 (ep0, mkAccept next [] t)) by done. exact Hrun.
Qed.
End Serving.
