(* ===== verification/DemoAsync.v ===== *)
(** * DemoAsync: the asynchronous client of demo/demo-async-client.c

    Its callback and its [main], against the demo server over TCP.  The transport keeps the
    private data of the call between sending the request and reading the response; a function
    pointer in that data is the name of the function. *)
From S2P Require Import Prelude Json Runtime Utils GObject TestObject Marshal Server ServerSafety Responses Dispatch Client ClientSafety Rpc Async Pipe PipeSafety PipeServer Demo DemoTcp DemoMain.

(** ** The program *)

(** The callbacks of the program, and the private data of a call in memory. *)
Inductive callback_fn := Strlen_callback.
Record call_priv := mkPriv {
  cp_ret_type : string; cp_gtype : option demo_type; cp_callback : callback_fn; cp_data : string
}.

(** The transport on the heap, and the standard output. *)
Class AsyncMemory (X : Type) := {
  trans_get : run X (TcpTransport call_priv);
  trans_set : TcpTransport call_priv -> run X unit;
  print : printed -> run X unit
}.

Section Program.
Context `{Jansson} {X : Type} `{Sockets X} `{Net X} `{AsyncMemory X} (fuel : nat).
Local Abbreviation user_data := (callback_fn * string)%type.

(** The result is read before [error] is looked at, which it never is. *)
Definition strlen_callback (vresult : @call_result demo_lib) (data : string) (error : option GError)
  : run X unit :=
  match vresult with
  | CInt len =>
      if String.eqb data "user data" then print (Printed_length "hello searpc" len)
      else fun _ => Abort "strcmp (str, user data) == 0"
  | _ => fun _ => Undef "result that is no int"
  end.

Definition call_fn (vresult : @call_result demo_lib) (d : user_data) (error : option GError) : run X unit :=
  match d.1 with Strlen_callback => strlen_callback vresult d.2 error end.

(** What [rpc_priv] points to. *)
Definition async_data (p : call_priv) : @AsyncCallData demo_lib X user_data :=
  mkAsync call_fn (cp_ret_type p) (cp_gtype p) (cp_callback p, cp_data p).

(** [transport_send] and [transport_read] on the transport in memory. *)
Definition async_transport_send (trans : unit) (fcall_str : string) (fcall_len : nat)
  (data : @AsyncCallData demo_lib X user_data) : run X Z :=
  trans <- trans_get ;;
  r <- transport_send fuel trans fcall_str fcall_len
         (mkPriv (ret_type data) (gtype_of data) (cbdata data).1 (cbdata data).2) ;;
  _ <- trans_set r.2 ;;
  rret r.1.

Definition async_transport_read : run X unit :=
  trans <- trans_get ;;
  trans <- transport_read fuel
    (fun data len priv errstr => searpc_client_generic_callback data len (async_data priv) errstr) trans ;;
  trans_set trans.

Definition async_client : @SearpcClient demo_lib X unit unit user_data :=
  mkClient None None (Some async_transport_send) (Some tt).

Definition demo_async_main : run X unit :=
  sockfd <- sys_socket ;;
  if sockfd <? 0 then exit_process "socket failed" else
  r <- sys_setsockopt sockfd ;;
  if r <? 0 then exit_process "setsockopt failed" else
  ret <- sys_connect sockfd ;;
  if ret <? 0 then exit_process "connect failed" else
  _ <- trans_set (mkTcp sockfd None) ;;
  _ <- searpc_client_async_call__int async_client (Some "searpc_strlen") call_fn
         (Strlen_callback, "user data") 1 [("string", VString (Some "hello searpc"))] ;;
  _ <- async_transport_read ;;
  _ <- sys_close sockfd ;;
  rret tt.
End Program.

(** ** The world: the memory beside the state of the server *)
Record async_mem := mkMem { mem_trans : TcpTransport call_priv; mem_out : list printed }.

Section World.
Context {T : Type}.
Local Abbreviation world := (endpoint * demo_peer (T * async_mem))%type.

Definition mem_of (x : world) : async_mem := (dp_state x.2).2.
Definition with_mem (x : world) (m : async_mem) : world :=
  (x.1, mkDemoPeer (dp_end x.2) (dp_next x.2) ((dp_state x.2).1, m)).

#[export] Instance world_memory : AsyncMemory world := {|
  trans_get x := Ok (mem_trans (mem_of x), x);
  trans_set t x := Ok (tt, with_mem x (mkMem t (mem_out (mem_of x))));
  print p x := Ok (tt, with_mem x (mkMem (mem_trans (mem_of x)) (mem_out (mem_of x) ++ [p])))
|}.

(** The server does not see the client's memory. *)
Definition beside_mem (call : string -> run T string) (body : string) : run (T * async_mem) string :=
  fun t => r <~ call body t.1 ;; Ok (r.1, (r.2, t.2)).
End World.

(** ** Facts *)
Section Async.
Context `{JanssonLaws} {W : Type} (fuel stack : nat) (connfd : Z) (md5 : string -> string).
Context (start finish : timeval).
Local Abbreviation serve := (@searpc_server_call_function _ demo_lib W start finish "searpc-demo").
Local Abbreviation sockets := (tcp_sockets fuel connfd (beside_mem serve)).
#[local] Instance async_sockets : Sockets (endpoint * demo_peer (server W * W * async_mem)) := sockets.
#[local] Instance async_net : Net (endpoint * demo_peer (server W * W * async_mem)) := tcp_net.

Definition strlen_priv : call_priv := mkPriv "int" None Strlen_callback "user data".

(** Sending the request: the transport remembers the call. *)
Lemma async_sent c d next t out req :
  fresh_end fuel c -> (0 < String.length req <= 254)%nat ->
  fcall_to_str "searpc_strlen" 1 string_args = Ok (Some (req, String.length req)) ->
  exists ep,
    searpc_client_async_call__int (async_client fuel) (Some "searpc_strlen") call_fn
      (Strlen_callback, "user data") 1 string_args (c, mkDemoPeer d next (t, mkMem (mkTcp 3 None) out)) =
      Ok (0, (ep, mkDemoPeer d next (t, mkMem (mkTcp 3 (Some strlen_priv)) out))) /\
    sent_end fuel req ep.
Proof.
  intros Hc Hreq Hcall.
  destruct (tcp_sent fuel connfd (beside_mem serve) 3 c
    (mkDemoPeer d next (t, mkMem (mkTcp 3 None) out)) req Hc Hreq) as (ep & Hsend & Hsent).
  exists ep. split; [|done].
  pose proof (typed_async_call_send T_int T_test (async_client fuel) "searpc_strlen" call_fn
    (Strlen_callback, "user data") 1 string_args _ tt req
    (c, mkDemoPeer d next (t, mkMem (mkTcp 3 None) out)) eq_refl eq_refl Hcall) as Hrun.
  unfold typed_async_call in Hrun. rewrite Hrun. clear Hrun.
  rewrite (rbind_step _ _ _ 0 (ep, mkDemoPeer d next (t, mkMem (mkTcp 3 (Some strlen_priv)) out))); [done|].
  unfold async_transport_send, rbind at 1. cbn [trans_get world_memory obind fst snd].
  rewrite (rbind_step _ _ _ (0, mkTcp 3 (Some strlen_priv)) (ep, mkDemoPeer d next (t, mkMem (mkTcp 3 None) out)));
    [done|].
  unfold transport_send. cbn [mem_of dp_state mem_trans trans_fd snd].
  rewrite (rbind_step _ _ _ _ _ Hsend).
  by destruct (Z.eqb_spec (Z.of_nat (String.length req) + 2) (-1)); [lia|].
Qed.

(** Reading the response: the callback runs once, and the call is forgotten. *)
Lemma async_received c d next t t' out req resp n :
  sent_end fuel req c -> fresh_end fuel d -> (0 < String.length req <= 254)%nat ->
  (0 < String.length resp <= 254)%nat -> serve req t = Ok (resp, t') ->
  (forall buf, cbuf_read buf (String.length resp) = Ok resp ->
     typed_parse T_int T_test buf (String.length resp) (ErrAt None) = Ok (CInt n, ErrAt None)) ->
  exists ep,
    async_transport_read fuel (c, mkDemoPeer (Some d) next (t, mkMem (mkTcp 3 (Some strlen_priv)) out)) =
      Ok (tt, (ep, mkDemoPeer None next (t', mkMem (mkTcp 3 None) (out ++ [Printed_length "hello searpc" n])))).
Proof.
  intros Hc Hd Hreq Hresp Hcall Hparse. set (m := mkMem (mkTcp 3 (Some strlen_priv)) out).
  destruct (tcp_received fuel connfd (beside_mem serve) 3 c d next (t, m) (t', m) req resp)
    as (ep & Hread); [done..|by unfold beside_mem; cbn [fst]; rewrite Hcall|].
  exists ep. unfold async_transport_read, rbind at 1. cbn [trans_get world_memory obind fst snd].
  set (buf := mkCbuf resp (BUFLEN - PACKET_HEADER_LENGTH)).
  assert (cbuf_read buf (String.length resp) = Ok resp) as Hbuf.
  { unfold cbuf_read, buf, BUFLEN, PACKET_HEADER_LENGTH. cbn [cb_size cb_bytes].
    destruct (Nat.leb_spec (String.length resp) (256 - 2)); [|lia]. by rewrite Nat.leb_refl, str_take_all. }
  pose proof (generic_callback_typed T_int T_test call_fn (Strlen_callback, "user data") buf
    (String.length resp) (CInt n) (ErrAt None) (ep, mkDemoPeer None next (t', m)) (Hparse buf Hbuf)) as Hcb.
  rewrite (rbind_step _ _ _ (mkTcp 3 None)
    (ep, mkDemoPeer None next (t', mkMem (mkTcp 3 (Some strlen_priv)) (out ++ [Printed_length "hello searpc" n]))));
    [done|].
  unfold transport_read. cbn [mem_of dp_state mem_trans trans_fd rpc_priv snd m].
  rewrite (rbind_step _ _ _ _ _ Hread). fold buf. fold m.
  erewrite rbind_step; [|exact Hcb]. done.
Qed.

(** ** Properties *)

(** The asynchronous demo client against the started demo server, over a new connection that
    does not fail: [main] returns after the callback has printed, once, that "hello searpc" has
    12 characters, and the transport has forgotten the call. *)
Theorem demo_async_succeeds s0 s (w : W) ep0 c d mem :
  generate_signature md5 T_int [T_string] <> generate_signature md5 T_objlist [T_int; T_int; T_string] ->
  start_rpc_service stack md5 s0 = Ok s -> fresh_end fuel c -> fresh_end fuel d ->
  call_fits start finish s w "searpc_strlen" 1 string_args ->
  exists ep lines,
    demo_async_main fuel (ep0, mkDemoPeer None [(c, d)] ((s, w), mem)) =
      Ok (tt, (ep, mkDemoPeer None [] ((add_lines lines s, w),
        mkMem (mkTcp 3 None) (mem_out mem ++ [Printed_length "hello searpc" 12])))).
Proof.
  intros Hne Hs Hc Hd Hfits. pose proof demo_laws as Hlaws.
  destruct (demo_server_wf (W := W) stack md5 s0 Hne) as (s1 & Hs1 & Hwf & Hserves & _).
  assert (s1 = s) as -> by congruence.
  destruct (call_answered start finish "searpc-demo" 0 stack s "searpc_strlen" strlen_function
    [VString (Some "hello searpc")] [] w (RInt 12) None w)
    as (req & resp & v & lines & Hreq & Htext & Hpos & Hserve & Hresp & Hrt & Hw);
    [done|done|by apply ascii_text_ok|done|by repeat constructor; apply ascii_text_ok|done|done|done|lia|lia|].
  destruct (Hfits _ _ _ _ Hreq Hserve) as [Hl1 Hl2]. apply loaded_not_empty in Hresp as Hpos'.
  destruct (async_sent c (Some d) [] (s, w) (mem_out mem) req Hc ltac:(lia) Hreq) as (e1 & Hsend & Hsent).
  destruct (async_received e1 d [] (s, w) (add_lines lines s, w) (mem_out mem) req resp 12)
    as (e2 & Hread); [done|done|lia|lia|exact Hserve| |].
  { intros buf Hbuf. destruct (answer_parsed 0 T_int (T_test : @gtype demo_lib) (RInt 12) None buf (String.length resp) resp v)
      as (r & e & Hp & Hr & ->); [done..|]. rewrite Hp. destruct r; try done. simpl in Hr. by subst. }
  eexists _, lines. unfold demo_async_main.
  rewrite (rbind_step _ _ _ 3 (ep0, mkDemoPeer None [(c, d)] ((s, w), mem))) by done.
  change (3 <? 0) with false. cbv iota.
  rewrite (rbind_step _ _ _ 0 (ep0, mkDemoPeer None [(c, d)] ((s, w), mem))) by done.
  change (0 <? 0) with false. cbv iota.
  rewrite (rbind_step _ _ _ 0 (c, mkDemoPeer (Some d) [] ((s, w), mem))) by done. cbv iota.
  change (0 <? 0) with false. cbv iota.
  rewrite (rbind_step _ _ _ tt (c, mkDemoPeer (Some d) [] ((s, w), mkMem (mkTcp 3 None) (mem_out mem)))) by done.
  rewrite (rbind_step _ _ _ _ _ Hsend), (rbind_step _ _ _ _ _ Hread). done.
Qed.
End Async.
