(* ===== verification/Witnesses.v ===== *)
(** * Witnesses: the properties at concrete inputs

    The theorems with hypotheses applied to the JSON library of JsonText, the object system of
    TestObject and the server of Demo. *)
From S2P Require Import Prelude Json JsonText Runtime Utils GObject TestObject Marshal Server ServerSafety Responses Dispatch TypeSafety Client ClientSafety Rpc Async Pipe PipeSafety PipeServer Listener ListenerSafety Liveness Windows WindowsSafety Demo DemoTcp InetPton InetPtonSafety InetPton6Safety DemoMain DemoServer DemoAsync.
From Stdlib Require Import SpecFloat.

#[local] Existing Instance text_jansson.
#[local] Existing Instance text_laws.
#[local] Existing Instance demo_laws.

(** ** Concrete worlds *)

(** A checksum without collisions. *)
Definition plain_md5 (s : string) : string := s.

Definition demo_server : server unit :=
  match start_rpc_service 10 plain_md5 server_start with Ok s => s | _ => server_start end.

Lemma demo_signatures_differ :
  generate_signature plain_md5 T_int [T_string] <>
  generate_signature plain_md5 T_objlist [T_int; T_int; T_string].
Proof. done. Qed.

Lemma demo_server_ready :
  start_rpc_service 10 plain_md5 server_start = Ok demo_server /\ server_wf demo_server /\
  serves "searpc-demo" demo_server "searpc_strlen" 10 strlen_function /\
  serves "searpc-demo" demo_server "searpc_objlisttest" 10 objlisttest_function.
Proof.
  destruct (demo_server_wf (W := unit) 10 plain_md5 server_start demo_signatures_differ)
    as (s & Hs & Hwf & H1 & H2).
  assert (demo_server = s) as -> by (unfold demo_server; by rewrite Hs). done.
Qed.

Definition noon : timeval := mkTime 43200 0.
Definition later : timeval := mkTime 43201 500000.

Definition demo_object_1 : @gobject demo_lib := mkDemo T_test (mkTestObject 5 (Some "hello") true).

(** A socket that transfers a few bytes at a time and is interrupted. *)
Definition slow_end (i o : string) : endpoint :=
  mkEnd i o [IoChunk 1; IoIntr; IoChunk 2; IoChunk 5] [IoIntr; IoChunk 3; IoChunk 1] false false.

Definition quiet_pipe : endpoint * pipe_peer (server unit * unit) :=
  (slow_end "" "", mkPeer (slow_end "" "") (Some handler_start) (demo_server, tt)).

Lemma quiet_pipe_ok : quiet quiet_pipe (demo_server, tt).
Proof. repeat split. exists handler_start. split; [done|]. apply handler_start_ok. Qed.

Definition local_demo : SearpcClient (server unit * unit) string unit unit :=
  local_client noon later "searpc-demo".

(** ** Objects *)
Lemma gobject_roundtrip_witness :
  portable_obj 1 demo_object_1 /\
  exists v o', json_gobject_serialize 1 demo_object_1 = Ok v /\
    json_gobject_deserialize 3 T_test (Some v) = Ok o' /\
    g_object_type o' = T_test /\ obj_same 1 demo_object_1 o'.
Proof.
  assert (portable_obj 1 demo_object_1) as Hp by (apply demo_object_portable; [lia|done]).
  split; [exact Hp|]. apply (gobject_roundtrip 1 3 demo_object_1 Hp). lia.
Defined.

Lemma serialize_terminates_witness :
  exists ms, json_gobject_serialize 1 demo_object_1 = Ok (JObject ms).
Proof.
  apply (serialize_terminates 1 demo_object_1). intros p [<-|[<-|[<-|[]]]] o'; done.
Defined.

(** A class whose one property is the object itself. *)
Definition loop_lib : GObjectLib := {|
  gtype := unit; gobject := unit; g_type_fundamental _ := G_TYPE_OBJECT;
  g_type_is_a_object _ := true; g_object_type _ := tt
|}.
Definition loop_pspec : @GParamSpec loop_lib := @mkPspec loop_lib "self" tt true true false.
Definition loop_classes : @GObjectClasses loop_lib := {|
  g_object_class_list_properties _ := [loop_pspec];
  g_object_class_find_property _ n := if String.eqb n "self" then Some loop_pspec else None;
  g_object_get_property _ _ := GObj (Some tt);
  g_object_newv _ _ := tt;
  g_class_stores _ _ _ := true
|}.
Lemma serialize_cycle_diverges_witness :
  @json_gobject_serialize text_jansson loop_lib loop_classes 1000 tt <> Ok JNull.
Proof.
  apply (@serialize_cycle_diverges text_jansson loop_lib loop_classes 1000 tt loop_pspec JNull);
    [by left|done|done].
Defined.

(** ** The registry *)
Lemma reachable_server_wf_witness : exists s : server unit, reachable s /\ server_wf s.
Proof.
  assert (reachable (W := unit) (set_service_table (Some ∅) (set_marshal_table (Some ∅) server_start))) as Hr
    by (by apply (reach_init server_start)).
  eexists. split; [exact Hr|]. exact (reachable_server_wf _ Hr).
Defined.

(** Create a service, take it away, create it again and register a function. *)
Definition some_ops : list (server_op unit) :=
  [ OpCreate (Some "svc"); OpRemove (Some "svc"); OpCreate (Some "svc");
    OpRegister "svc" strlen_function "f" (generate_signature plain_md5 T_int [T_string]);
    OpRegister "nope" strlen_function "f" (generate_signature plain_md5 T_int [T_string]) ].

Lemma registry_refines_witness :
  exists s', run_ops some_ops demo_server = Ok s' /\ server_wf s' /\
    registry_equiv (registry_of s')
      (fold_left (fun a op => registry_op op a) some_ops (registry_of demo_server)).
Proof.
  apply (registry_refines some_ops demo_server); [apply demo_server_ready|done|].
  vm_compute. tauto.
Defined.

Definition one_table : list (ctype * list ctype) := [(T_int, [T_string])].

Lemma reopen_without_log_witness :
  exists s0 s, searpc_server_init (register_marshals (W := unit) 10 plain_md5 one_table) server_start = Ok s0 /\
    run_ops [OpCreate (Some "svc")] s0 = Ok s /\
    exists why, searpc_server_reopen_slow_log (Some (f_file 1)) true s = Undef why.
Proof.
  eexists _, _. split; [reflexivity|]. split; [reflexivity|].
  eapply (reopen_without_log (W := unit) one_table 10 plain_md5) with (ops := [OpCreate (Some "svc")]);
    reflexivity.
Defined.

Lemma plain_md5_injective table : no_collision plain_md5 table.
Proof. by intros r a r' a' _ _. Qed.

Lemma init_installs_marshals_witness :
  exists s' marshals,
    searpc_server_init (register_marshals (W := unit) 10 plain_md5 func_table) server_start = Ok s' /\
    marshal_table s' = Some marshals /\ service_table s' = Some ∅ /\
    (forall r a, In (r, a) func_table ->
       marshals !! generate_signature plain_md5 r a = Some (generated_item 10 plain_md5 r a)) /\
    (forall sg m, marshals !! sg = Some m ->
       exists r a, In (r, a) func_table /\ sg = generate_signature plain_md5 r a).
Proof. apply (init_installs_marshals func_table 10 plain_md5 server_start), plain_md5_injective. Defined.

Lemma signature_text_injective_witness : T_objlist = T_objlist /\ [T_int; T_string] = [T_int; T_string].
Proof. by apply signature_text_injective. Defined.

(** ** The dispatcher *)
Definition quoted (s : string) : string := String "034" s +:+ String "034" "".
Definition call_of (fn : string) : string := "[" +:+ quoted fn +:+ "]".

Lemma dispatch_refines_witness :
  (exists resp, searpc_server_call_function noon later "nope" "[]" (demo_server, tt) = Ok (resp, (demo_server, tt)) /\
    json_loadb resp = inr (JObject (error_members 501 "cannot find service nope."))) /\
  (exists resp, searpc_server_call_function noon later "searpc-demo" (call_of "nope") (demo_server, tt) =
      Ok (resp, (demo_server, tt)) /\
    json_loadb resp = inr (JObject (error_members 500 "cannot find function nope."))).
Proof.
  destruct demo_server_ready as (_ & Hwf & _).
  pose proof (dispatch_refines noon later "nope" "[]" demo_server tt Hwf eq_refl) as H1.
  pose proof (dispatch_refines noon later "searpc-demo" (call_of "nope") demo_server tt Hwf eq_refl) as H2.
  assert (resolve (registry_of demo_server) "nope" "[]" = Reject 501 "cannot find service nope.") as E1
    by (vm_compute; reflexivity).
  assert (resolve (registry_of demo_server) "searpc-demo" (call_of "nope") =
          Reject 500 "cannot find function nope.") as E2 by (vm_compute; reflexivity).
  rewrite E1 in H1. rewrite E2 in H2. split; [by apply H1|by apply H2].
Defined.

Lemma nameless_call_undefined_witness :
  exists why, searpc_server_call_function noon later "searpc-demo" "[7]" (demo_server, tt) = Undef why.
Proof.
  apply (nameless_call_undefined noon later "searpc-demo" "[7]" (JArray [JInteger 7]) demo_server tt);
    [apply demo_server_ready|done|by vm_compute|by vm_compute|done].
Defined.

Lemma reregistered_call_undefined_witness :
  exists s', searpc_server_register_function (Some "searpc-demo") (Some strlen_function)
      (Some "searpc_strlen") (Some (generate_signature plain_md5 T_int [T_string])) demo_server = Ok (true, s') /\
    exists why, searpc_server_call_function noon later "searpc-demo" (call_of "searpc_strlen") (s', tt) = Undef why.
Proof.
  apply (reregistered_call_undefined noon later "searpc-demo" strlen_function "searpc_strlen"
    (generate_signature plain_md5 T_int [T_string]) demo_server tt
    (generated_item 10 plain_md5 T_int [T_string]) (call_of "searpc_strlen") []).
  - apply demo_server_ready.
  - destruct demo_server_ready as (_ & _ & (it & -> & _) & _). by exists it.
  - vm_compute. reflexivity.
  - vm_compute. reflexivity.
Defined.

Lemma call_preserves_server_witness :
  exists resp s', searpc_server_call_function noon later "searpc-demo" (call_of "nope") (demo_server, tt) =
      Ok (resp, (s', tt)) /\
    server_wf s' /\ registry_equiv (registry_of s') (registry_of demo_server) /\
    exists lines, slow_log s' = lines ++ slow_log demo_server /\ (length lines <= 1)%nat.
Proof.
  pose proof (dispatch_spec noon later "searpc-demo" (call_of "nope") demo_server tt
    (proj1 (proj2 demo_server_ready)) eq_refl) as Hd.
  assert (resolve (registry_of demo_server) "searpc-demo" (call_of "nope") =
          Reject 500 "cannot find function nope.") as E by (vm_compute; reflexivity).
  rewrite E in Hd. destruct Hd as (resp & Hr & _).
  exists resp, demo_server. split; [exact Hr|].
  exact (call_preserves_server noon later "searpc-demo" (call_of "nope") demo_server tt resp demo_server tt
    (proj1 (proj2 demo_server_ready)) eq_refl Hr).
Defined.

(** ** Requests and replies *)
Definition some_types : list ctype := [T_string; T_int; T_json; T_int64].
Definition some_values : list cvalue :=
  [VString (Some "hi"); VWord 4294967297; VJson None; VInt64 (Some (-5))].

Lemma some_values_ok : Forall2 arg_ok some_types some_values.
Proof. repeat constructor. Qed.

Lemma request_roundtrip_witness :
  exists s array, fcall_to_str "f" 4 (va_of some_types some_values ++ []) = Ok (Some (s, String.length s)) /\
    json_loadb s = inr array /\ json_string_value (json_array_get (Some array) 0) = Some "f" /\
    get_parameters some_types array 1 =
      Some [PString (Some "hi"); PInt 1; PJson (Some JNull); PInt64 (-5)].
Proof. apply (request_roundtrip "f" some_types some_values []); [done|apply some_values_ok]. Defined.

Definition latin1 : string := String "233" "".

Lemma invalid_string_shifts_witness :
  exists s array,
    fcall_to_str "f" 2 [("string", VString (Some latin1)); ("string", VString (Some "b"))] =
      Ok (Some (s, String.length s)) /\
    json_loadb s = inr array /\
    get_parameters [T_string; T_string] array 1 = Some [PString (Some "b"); PString None].
Proof. by apply (invalid_string_shifts "f" latin1 "b"). Defined.

Lemma invalid_name_calls_argument_witness :
  exists s array, fcall_to_str latin1 1 [("string", VString (Some "b"))] = Ok (Some (s, String.length s)) /\
    json_loadb s = inr array /\ json_string_value (json_array_get (Some array) 0) = Some "b".
Proof. by apply (invalid_name_calls_argument latin1 "b"). Defined.

Lemma unknown_parameter_type_witness :
  searpc_client_call__string local_demo (Some "f") (ErrAt None) 5
    (va_of some_types some_values ++ [("double", VWord 1)]) (demo_server, tt) =
  Ok ((None, ErrAt (Some (mkGError DFT_DOMAIN 0 "Invalid Parameter"))), (demo_server, tt)).
Proof.
  apply (unknown_parameter_type local_demo "f" some_types some_values "double" (VWord 1) [] 5);
    [done|apply some_values_ok|done|done].
Defined.

Definition test_type : @gtype demo_lib := T_test.

Definition reply_of (s : string) : cbuf := mkCbuf s (String.length s).

Lemma readable_reply s : readable (reply_of s) (String.length s) s.
Proof. apply cbuf_read_exact. Qed.

Lemma reply_parsers_total_witness :
  (exists r, searpc_client_fret__string (reply_of "garbage") 7 ErrNull = Ok r) /\
  (exists r, searpc_client_fret__objlist test_type (reply_of "garbage") 7 ErrNull = Ok r).
Proof.
  destruct (reply_parsers_total test_type (reply_of "garbage") 7 "garbage" ErrNull (readable_reply "garbage"))
    as (Hs & _ & _ & _ & _ & Hl).
  split; [exact Hs|]. apply Hl. intros o Ho. vm_compute in Ho. discriminate Ho.
Defined.

Lemma objlist_missing_ret_aborts_witness :
  exists why, searpc_client_fret__objlist test_type (reply_of "{}") 2 (ErrAt None) = Abort why.
Proof.
  apply (objlist_missing_ret_aborts test_type (reply_of "{}") 2 "{}" (JObject []) (ErrAt None));
    [apply readable_reply|by vm_compute..].
Defined.

Definition null_list_reply : string := "{" +:+ quoted "ret" +:+ ":[null]}".

Lemma objlist_null_element_witness :
  searpc_client_fret__objlist test_type (reply_of null_list_reply) (String.length null_list_reply) (ErrAt None) =
    Ok ([g_object_newv test_type []], ErrAt None).
Proof.
  apply (objlist_null_element test_type (reply_of null_list_reply) _ null_list_reply);
    [apply readable_reply|by vm_compute].
Defined.

(** A transport whose every reply is an empty object. *)
Definition empty_client : SearpcClient unit unit unit unit :=
  mkClient (Some (fun _ _ _ => rret (Some (mkReply (reply_of "{}") 2)))) (Some tt) None None.

Lemma generic_string_call_overreads_witness :
  exists why, searpc_client_call empty_client (Some "f") (Some "string") None (ErrAt None) 0 [] tt = Undef why.
Proof.
  apply (generic_string_call_overreads empty_client "f" 0 [] (call_of "f") (ErrAt None) tt "{}" tt);
    [by vm_compute|done|simpl; lia].
Defined.

Definition error_reply : string :=
  "{" +:+ quoted "err_code" +:+ ":500," +:+ quoted "err_msg" +:+ ":" +:+ quoted "no" +:+ "}".

Definition quiet_call : AsyncCallData unit unit := mkAsync (fun _ _ _ => rret tt) "int" None tt.

Lemma callback_error_ownership_witness :
  (exists e, searpc_client_generic_callback (reply_of error_reply) (String.length error_reply) quiet_call
     (Some "broken") tt = Ok ((0, [FreeError e; FreeData]), tt)) /\
  parse_result quiet_call (reply_of error_reply) (String.length error_reply) =
    Ok (CInt (-1), Some (mkGError DFT_DOMAIN 500 "no")) /\
  searpc_client_generic_callback (reply_of error_reply) (String.length error_reply) quiet_call None tt =
    Ok ((0, [FreeData]), tt).
Proof.
  pose proof (callback_error_ownership quiet_call (reply_of error_reply) (String.length error_reply)
    error_reply [] 500 "no" tt tt tt "broken") as Hc.
  replace "no" with (if utf8_valid "no" then "no" else "(null)") at 1 by done.
  apply Hc; [done|apply readable_reply|done|by vm_compute|done|done|done].
Defined.

(** ** Remote calls *)
Lemma rpc_transparent_witness :
  exists c e x' lines,
    typed_call T_int test_type local_demo (Some "searpc_strlen") (ErrAt None) 1
      [("string", VString (Some "hello"))] (demo_server, tt) = Ok ((c, e), x') /\
    x' = (add_lines lines demo_server, tt) /\ same_value 0 T_int (RInt 5) c /\ e = ErrAt None.
Proof.
  destruct demo_server_ready as (_ & Hwf & Hserves & _).
  destruct (rpc_transparent noon later "searpc-demo" local_demo 0 test_type 10 demo_server "searpc_strlen"
    strlen_function [VString (Some "hello")] [] (demo_server, tt) tt (RInt 5) None tt)
    as (c & e & x' & lines & Hc & Hx & Hsame & He);
    [done|exact Hwf|done|done|exact Hserves|by repeat constructor|done|done|done|done|lia|
     unfold wire_depth; lia|done|].
  exists c, e, x', lines. split; [exact Hc|]. split; [by rewrite <- Hx|]. by split.
Defined.

Lemma rejected_call_reported_witness :
  exists x', typed_call T_string test_type local_demo (Some "nope") (ErrAt None) 0 [] (demo_server, tt) =
    Ok ((CString None, ErrAt (Some (client_error 500 "cannot find function nope."))), x') /\
    (x' : server unit * unit) = (demo_server, tt).
Proof.
  destruct demo_server_ready as (_ & Hwf & _).
  destruct (rejected_call_reported noon later "searpc-demo" local_demo T_string test_type demo_server
    "nope" [] [] [] (demo_server, tt) tt 500 "cannot find function nope.") as (x' & Hc & Hx);
    [done|exact Hwf|done|done|constructor| |done|].
  - intros req len Hreq. vm_compute in Hreq. injection Hreq as <- _.
    split; [by vm_compute|done].
  - exists x'. split; [exact Hc|]. exact Hx.
Defined.

Lemma demo_strlen_remote_witness :
  exists x' s', typed_call T_int test_type local_demo (Some "searpc_strlen") (ErrAt None) 1
      [("string", VString (Some "hello searpc"))] (demo_server, tt) =
    Ok ((CInt 12, ErrAt None), x') /\ x' = (s', tt) /\
    registry_equiv (registry_of s') (registry_of demo_server).
Proof.
  destruct (demo_strlen_remote 10 plain_md5 noon later local_demo server_start demo_server test_type
    (demo_server, tt) tt (Some "hello searpc")) as (x' & s' & Hc & Hx & Hr);
    [apply demo_signatures_differ|apply demo_server_ready|done|done|done|].
  exists x', s'. split; [exact Hc|]. by split.
Defined.

Lemma demo_objlist_remote_witness :
  exists l x' s', typed_call T_objlist T_test local_demo (Some "searpc_objlisttest") (ErrAt None) 3
      [("int", VWord 4); ("int", VWord 11); ("string", VString (Some "A rpc test."))] (demo_server, tt) =
      Ok ((CObjlist l, ErrAt None), x') /\ x' = (s', tt) /\ length l = 4%nat /\
    Forall (fun o => g_object_type o = T_test /\
      g_object_get_property o "len" = GInteger 11 /\
      g_object_get_property o "str" = GString (Some "A rpc test.") /\
      g_object_get_property o "equal" = GBoolean true) l.
Proof.
  destruct (demo_objlist_remote 10 plain_md5 noon later local_demo server_start demo_server
    (demo_server, tt) tt 4 11 "A rpc test.") as (l & x' & s' & Hc & Hx & Hl & Hall);
    [apply demo_signatures_differ|apply demo_server_ready|done|done|lia|lia|lia|done|].
  exists l, x', s'. split; [exact Hc|]. split; [by rewrite <- Hx|]. split; [exact Hl|exact Hall].
Defined.

(** ** The pipe *)
Definition hello_end : endpoint := slow_end "hello" "".

Lemma pipe_write_n_prefix_witness :
  exists r k w', @pipe_write_n _ (ep_sockets no_peer) 20 3 "hello" (hello_end, tt) =
      Ok (r, (set_written hello_end ("" +:+ str_take k "hello") w', tt)) /\
    ((r = 5 /\ str_take k "hello" = "hello") \/ (r = -1 /\ (k < 5)%nat)) /\
    (smooth (write_events hello_end) = true -> r = 5).
Proof. apply (pipe_write_n_prefix no_peer 20 3 "hello" hello_end tt). simpl. lia. Defined.

Lemma pipe_read_n_prefix_witness :
  exists r k r', @pipe_read_n _ (ep_sockets no_peer) 20 3 9 (hello_end, tt) =
      Ok ((r, str_take k "hello"), (set_read hello_end (str_drop k "hello") r', tt)) /\
    (k <= 5)%nat /\ ((r = Z.of_nat k /\ k = 5%nat) \/ r = -1) /\
    (smooth (read_events hello_end) = true -> r = Z.of_nat k).
Proof. apply (pipe_read_n_prefix 20 3 9 hello_end tt). simpl. lia. Defined.

Lemma handler_buffer_growth_witness :
  (exists st', grow 20 1000000 handler_start = Some st' /\ handler_ok st' /\
     1000000 <= Z.of_nat (cb_size (buf st'))) /\
  (forall rounds, grow rounds 4294967295 handler_start = None).
Proof.
  split.
  - apply (handler_buffer_growth handler_start 1000000 handler_start_ok eq_refl).
    unfold max_message. lia.
  - apply (handler_buffer_growth handler_start 4294967295 handler_start_ok eq_refl).
    unfold max_message. lia.
Defined.

Lemma request_text_roundtrip_witness :
  exists j, request_to_json "svc" "[1]" 3 = Some j /\
    request_from_json (cbuf_of_string j) (String.length j) = Ok (Some ("svc", "[1]")).
Proof. by apply (request_text_roundtrip "svc" "[1]"). Defined.

(** A server that answers with the call itself and counts the calls. *)
Definition echo (service body : string) : run nat string := fun n => Ok (body, S n).

Definition text_of (body : string) : string := default "" (request_to_json "svc" body (String.length body)).

Definition echo_end : endpoint := slow_end (frame (text_of "[1]") +:+ frame (text_of "[2]")) "".

Lemma echo_end_smooth : smooth_ep echo_end.
Proof. by split. Qed.

Lemma epoll_handler_serves_witness :
  exists r' w', @epoll_handler _ _ (ep_sockets no_peer) 200 (call_beside echo) 9 3 (echo_end, O) =
    Ok (true, (mkEnd (frame (text_of "[2]")) (frame "[1]") r' w' false true, 1%nat)).
Proof.
  apply (epoll_handler_serves echo 200 9 3 "svc" "[1]" (text_of "[1]") "[1]" (frame (text_of "[2]")) echo_end 0%nat 1%nat);
    try done; try (by vm_compute); unfold rounds_for; apply Nat.ltb_lt; by vm_compute.
Defined.

Definition echo_stream : list (string * string) := [("svc", "[1]"); ("svc", "[2]")].

Lemma pipe_server_stream_witness :
  exists r' w', @named_pipe_client_handler _ _ (ep_sockets no_peer) 400 (call_beside echo) 3 3 (echo_end, O) =
    Ok (tt, (mkEnd "" (stream_of ["[1]"; "[2]"]) r' w' true false, 2%nat)).
Proof.
  apply (pipe_server_stream echo 400 100 3 3 echo_stream [text_of "[1]"; text_of "[2]"] echo_end 0%nat ["[1]"; "[2]"] 2%nat).
  - repeat constructor; try done; apply Nat.leb_le; by vm_compute.
  - unfold max_message. lia.
  - done.
  - apply echo_end_smooth.
  - unfold rounds_for. apply Nat.ltb_lt. by vm_compute.
  - done.
  - repeat constructor; apply Nat.leb_le; by vm_compute.
  - simpl. lia.
Defined.

Definition cut_end : endpoint :=
  slow_end (frame (text_of "[1]") +:+ le32 (Z.of_nat (String.length (text_of "[1]")))) "".

Lemma truncated_request_replays_witness :
  exists r' w', @named_pipe_client_handler _ _ (ep_sockets no_peer) 400 (call_beside echo) 3 3 (cut_end, O) =
    Ok (tt, (mkEnd "" (frame "[1]" +:+ frame "[1]") r' w' true false, 2%nat)).
Proof.
  apply (truncated_request_replays echo 400 3 3 "svc" "[1]" (text_of "[1]") "[1]" "[1]" cut_end 0%nat 1%nat 2%nat);
    try done; try (by vm_compute); try (unfold rounds_for; apply Nat.ltb_lt; by vm_compute).
Defined.

Definition some_pipe : SearpcNamedPipeClient := mkPipeClient "/tmp/pipe" 4.

Lemma lost_response_uninitialised_witness :
  exists why,
    searpc_client_call__string
      (@searpc_client_with_named_pipe_transport _ _ (ep_sockets (T := unit) no_peer) 400 _ unit unit some_pipe "svc")
      (Some "f") (ErrAt None) 0 [] (slow_end "" "", tt) = Undef why.
Proof.
  apply (lost_response_uninitialised 400 some_pipe "svc" "f" 0 [] (call_of "f") (slow_end "" "") tt (ErrAt None));
    [done|done|by vm_compute|done|by split|].
  intros j Hj. vm_compute in Hj. injection Hj as <-. split; [done|].
  unfold rounds_for. apply Nat.ltb_lt. by vm_compute.
Defined.

Lemma rpc_over_pipe_witness :
  exists c e x' lines,
    typed_call T_int test_type
      (pipe_client (AsyncArg := unit) (CbData := unit) 800 7 some_pipe "searpc-demo" noon later)
      (Some "searpc_strlen") (ErrAt None) 1 [("string", VString (Some "hello"))] quiet_pipe = Ok ((c, e), x') /\
    quiet x' (add_lines lines demo_server, tt) /\ roomy 800 200 x' /\
    same_value 0 T_int (RInt 5) c /\ e = ErrAt None.
Proof.
  destruct demo_server_ready as (_ & Hwf & Hserves & _).
  assert (roomy 800 200 quiet_pipe) as Hroom
    by (split; unfold rounds_for; apply Nat.ltb_lt; by vm_compute).
  apply (rpc_over_pipe 800 7 some_pipe "searpc-demo" 200 noon later 0 test_type 10 demo_server "searpc_strlen"
    strlen_function [VString (Some "hello")] [] quiet_pipe tt (RInt 5) None tt);
    [done|unfold max_message; lia|apply quiet_pipe_ok|exact Hroom|exact Hwf|done|exact Hserves|
     by repeat constructor|done|done|done|done|lia|unfold wire_depth; lia|].
  intros req len resp st' Hreq Hserve. vm_compute in Hreq. injection Hreq as <- _.
  split.
  - eexists. split; [vm_compute; reflexivity|]. apply Nat.leb_le. by vm_compute.
  - match type of Hserve with ?m = _ =>
      assert (match m with Ok (r, _) => String.length r <=? 200 | _ => false end%nat = true) as Hb
        by (vm_compute; reflexivity) end.
    rewrite Hserve in Hb. by apply Nat.leb_le.
Defined.

(** ** Listening and connecting *)

(** One connection accepted, reported readable and handed to a worker. *)
Definition accepted : loop_state := accept_connection 5 0%nat true loop_start.
Definition reported : loop_state := set_batch [(0%nat, false)] accepted.
Definition served : loop_state :=
  match handle_event 0%nat false (set_batch [] reported) with Ok s => s | _ => loop_start end.

Lemma served_reachable : loop_reachable served.
Proof.
  apply (loop_next reported).
  - apply (loop_next accepted).
    + apply (loop_next loop_start); [constructor|]. by apply step_accept.
    + apply step_wait; [done|apply NoDup_singleton|]. constructor; [|constructor].
      by exists 5.
  - by apply (step_event reported 0%nat false []).
Qed.

Lemma epoll_loop_safe_witness :
  exists s', worker_done 0%nat (-1) served = Ok s' /\ loop_reachable s'.
Proof.
  apply (epoll_loop_safe served (worker_done 0%nat (-1) served) served_reachable).
  apply step_worker. by vm_compute.
Defined.

Lemma epoll_connections_owned_witness :
  ((0%nat ∈ busy served /\ interest served !! 5 = None) \/
   (0%nat ∉ busy served /\ interest served !! 5 = Some 0%nat)) /\
  5 ∈ open_fds served /\
  (forall data' d', heap served !! data' = Some d' -> connfd d' = 5 -> data' = 0%nat).
Proof. by apply (epoll_connections_owned served 0%nat (mkHandlerData 5 true) served_reachable). Defined.

(** Every call succeeds, except [epoll_ctl] and connecting to another path than "/s". *)
Definition some_env : sys_env :=
  mkEnv 3 false 0 (fun _ => 0) (fun _ => 0) 0 4 0 (fun _ => 0) (-1)
    (fun p => if String.eqb p "/s" then 0 else -1).

Lemma server_start_descriptors_witness :
  let server := mkPipeServer "/s" 0 true 0 false 0 in
  let '(ret, server', fds') := searpc_named_pipe_server_start some_env server ∅ in
  (ret = 0 /\ srv_pipe_fd server' = 3 /\ (String.length "/s" < SUN_PATH)%nat /\
   fds' = (if srv_use_epoll server then {[ 4 ]} else ∅) ∪ ({[ 3 ]} ∪ ∅) /\
   (srv_use_epoll server = true -> srv_epoll_fd server' = 4)) \/
  (ret = -1 /\ server' = server /\
   (fds' = ∅ \/
    (srv_use_epoll server = true /\ 0 <= 4 /\
     (set_nonblocking some_env 3 < 0 \/ env_epoll_ctl some_env = -1) /\
     fds' = {[ 4 ]} ∪ ∅))).
Proof.
  apply (server_start_descriptors some_env (mkPipeServer "/s" 0 true 0 false 0) ∅); cbn; set_solver.
Defined.

Lemma failed_connect_double_close_witness :
  let '(ret, pc', fds') := searpc_named_pipe_client_connect some_env (mkPipeClient "/other" 0) {[ 8 ]} in
  ret = -1 /\ fds' = {[ 8 ]} /\
  searpc_free_client_with_pipe_transport (mkTransportData pc' "svc") fds' = (false, {[ 8 ]}) /\
  forall others, 3 ∈ others ->
    (searpc_free_client_with_pipe_transport (mkTransportData pc' "svc") others).2 = others ∖ {[ 3 ]}.
Proof.
  apply (failed_connect_double_close some_env (mkPipeClient "/other" 0) {[ 8 ]} "svc"); [by cbn|cbn; set_solver|done].
Defined.

Definition long_path : string := str_repeat "x"%char 200.

Lemma long_path_truncated_witness :
  (searpc_named_pipe_server_start some_env (mkPipeServer long_path 0 false 0 false 0) ∅).1.1 = -1 /\
  (0 <= env_connect some_env (str_take (SUN_PATH - 1) long_path) ->
   (searpc_named_pipe_client_connect some_env (mkPipeClient long_path 0) ∅).1.1 = 0).
Proof.
  apply (long_path_truncated some_env (mkPipeServer long_path 0 false 0 false 0) (mkPipeClient long_path 0) ∅);
    [done|]. apply Nat.leb_le. by vm_compute.
Defined.

(** ** Packets of the demo programs *)
Definition echo_twice (body : string) (n : nat) : outcome (string * nat) := Ok (body +:+ body, S n).

Definition packet_end : endpoint := slow_end (packet_of "[1]" +:+ packet_of "[2]") "".

Lemma demo_server_answers_witness :
  exists r' w', @demo_server_round _ (ep_sockets no_peer) 600
      (fun body x => r <~ echo_twice body x.2 ;; Ok (r.1, (x.1, r.2))) 3 (packet_end, O) =
    Ok (tt, (mkEnd (packet_of "[2]") (packet_of "[1][1]") r' w' false false, 1%nat)).
Proof.
  apply (demo_server_answers 600 3 echo_twice "[1]" "[1][1]" (packet_of "[2]") packet_end O 1%nat);
    [cbn; lia|cbn; lia|done|by split|apply Nat.ltb_lt; by vm_compute|done].
Defined.

Lemma demo_packet_overflow_witness :
  exists why, @demo_server_round _ (ep_sockets no_peer) 600 (fun body => rret body) 3
    (slow_end (packet_of (str_repeat "x"%char 255)) "", tt) = Undef why.
Proof.
  apply (demo_packet_overflow 600 3 (fun body => rret body) (str_repeat "x"%char 255) ""
    (slow_end (packet_of (str_repeat "x"%char 255)) "") tt);
    [by vm_compute|by vm_compute|done|apply Nat.ltb_lt; by vm_compute].
Defined.

Definition quiet_callback (data : cbuf) (len : nat) (priv : bool) (errstr : option string)
  : run (endpoint * unit) (Z * list (@freed demo_lib)) := rret (0, [FreeData]).

Lemma demo_clients_exchange_witness :
  exists r' w' buf,
    let ep := slow_end (packet_of "[1]") "" in
    let sent := set_written ep (packet_of "[2]") w' in
    cbuf_read buf 3 = Ok "[1]" /\
    @transport_callback _ (ep_sockets no_peer) 600 4 "[2]" 3 (ep, tt) =
      Ok (Some (mkReply buf 3), (set_read sent "" r', tt)) /\
    @transport_send _ (ep_sockets no_peer) 600 _ (mkTcp 4 None) "[2]" 3 true (ep, tt) =
      Ok ((0, mkTcp 4 (Some true)), (sent, tt)) /\
    exists data, cbuf_read data 3 = Ok "[1]" /\
      @transport_read _ _ (ep_sockets no_peer) 600 _ quiet_callback (mkTcp 4 (Some true)) (sent, tt) =
        (_ <- quiet_callback data 3%nat true None ;; rret (mkTcp 4 None))
          (set_read sent "" r', tt).
Proof.
  apply (demo_clients_exchange 600 4 "[2]" "[1]" "" (slow_end (packet_of "[1]") "") tt true quiet_callback);
    [cbn; lia|cbn; lia|done|done|by split|apply Nat.ltb_lt; by vm_compute].
Defined.

(** ** An asynchronous call *)

(** A transport that keeps the requests; the callback of the program records the result. *)
Definition queue_client : SearpcClient (list string * list call_result) unit unit string :=
  mkClient None None (Some (fun _ req _ _ x => Ok (0, (x.1 ++ [req], x.2)))) (Some tt).

Definition record_result (c : call_result) (d : string) (e : option GError)
  : run (list string * list call_result) unit := fun x => Ok (tt, (x.1, x.2 ++ [c])).

Lemma async_transparent_witness :
  exists req resp lines,
    (forall x, typed_async_call T_int test_type queue_client (Some "searpc_strlen") record_result "user data" 1
                 [("string", VString (Some "hello searpc"))] x =
               (ret <- (fun _ req _ _ x => Ok (0, (x.1 ++ [req], x.2))) tt req (String.length req)
                         (typed_async_data T_int test_type record_result "user data") ;;
                rret (if ret <? 0 then -1 else 0)) x) /\
    searpc_server_call_function noon later "searpc-demo" req (demo_server, tt) =
      Ok (resp, (add_lines lines demo_server, tt)) /\
    forall buf y, cbuf_read buf (String.length resp) = Ok resp ->
      exists c e, call_outcome 0 T_int (RInt 12) None c e /\
        searpc_client_generic_callback buf (String.length resp)
          (typed_async_data T_int test_type record_result "user data") None y =
          (_ <- record_result c "user data" (error_of e) ;; rret (0, free_result c ++ [FreeData])) y.
Proof.
  destruct demo_server_ready as (_ & Hwf & Hserves & _).
  apply (async_transparent noon later "searpc-demo" 0 test_type 10 demo_server queue_client "searpc_strlen"
    strlen_function [VString (Some "hello searpc")] [] tt (RInt 12) None tt record_result "user data"
    (fun _ req _ _ x => Ok (0, (x.1 ++ [req], x.2))) tt);
    [done|done|exact Hwf|done|done|exact Hserves|by repeat constructor|done|done|done|done|lia|unfold wire_depth; lia].
Defined.

(** ** Types of function pointers *)

(** A server for the one prototype, built step by step. *)
Definition typed_ops : list (server_op unit) :=
  [ OpMarshal (generate_signature plain_md5 T_int [T_string]) (generate_marshal 10 T_int [T_string]);
    OpCreate (Some "svc");
    OpRegister "svc" strlen_function "f" (generate_signature plain_md5 T_int [T_string]) ].

Definition empty_server : server unit :=
  match searpc_server_init (fun s => Ok s) server_start with Ok s => s | _ => server_start end.
Definition typed_server : server unit :=
  match run_ops typed_ops empty_server with Ok s => s | _ => server_start end.

Lemma strlen_well_behaved : well_behaved (W := unit) one_table 0 strlen_function.
Proof.
  split; [by left|]. intros params w Hp. cbn [c_params strlen_function] in Hp.
  apply Forall2_cons_inv_l in Hp as (p & ps & Hp & Hps & ->). apply Forall2_nil_inv_l in Hps as ->.
  destruct p as [| | |]; try done. eexists _, _, _. split; [done|]. split; [|done].
  cbn [ret_ok c_ret strlen_function]. unfold searpc_strlen. by case_match; [apply wrap_signed_range|].
Qed.

Lemma typed_server_run : typed_run plain_md5 one_table 0 10 typed_server.
Proof.
  eapply (typed_op _ _ _ _ _ (OpRegister "svc" strlen_function "f" _)).
  - eapply (typed_op _ _ _ _ _ (OpCreate (Some "svc"))).
    + eapply (typed_op _ _ _ _ empty_server (OpMarshal _ _)); [by apply (typed_start _ _ _ _ server_start)|done| |done].
      exists T_int, [T_string]. split; [by left|]. by split.
    + done.
    + done.
    + reflexivity.
  - by vm_compute.
  - split; [apply strlen_well_behaved|reflexivity].
  - reflexivity.
Qed.

Lemma one_table_distinct : no_collision plain_md5 one_table.
Proof. by intros r a r' a' [[= <- <-]|[]] [[= <- <-]|[]]. Qed.

Definition typed_item : FuncItem unit :=
  mkFunc strlen_function "f" (generated_item 10 plain_md5 T_int [T_string]).

Lemma function_pointers_typed_witness :
  registered typed_server "svc" "f" = Some typed_item /\
  mfunc (marshal typed_item) = generate_marshal 10 T_int [T_string].
Proof.
  assert (registered typed_server "svc" "f" = Some typed_item) as Hit by reflexivity.
  split; [exact Hit|].
  exact (function_pointers_typed plain_md5 one_table 0 10 one_table_distinct typed_server "svc" "f" typed_item
           typed_server_run Hit).
Defined.

Lemma typed_calls_answered_witness :
  exists resp s' w' members,
    searpc_server_call_function noon later "svc" (call_of "f") (typed_server, tt) = Ok (resp, (s', w')) /\
    json_loadb resp = inr (JObject members) /\ text_ok resp = true /\
    typed_run plain_md5 one_table 0 10 s'.
Proof.
  apply (typed_calls_answered plain_md5 one_table 0 10 one_table_distinct typed_server noon later "svc" (call_of "f") tt);
    [exact typed_server_run|done|lia|lia|done|].
  intros array Hl. vm_compute in Hl. injection Hl as <-. by eexists _, _.
Defined.

(** ** A fair run of the event loop *)

(** One connection, served again and again. *)
Fixpoint service_cycle (n : nat) : loop_state :=
  match n with
  | O => accepted
  | 1%nat => reported
  | 2%nat => served
  | S (S (S n')) => service_cycle n'
  end.

Definition service_run (n : nat) : loop_state :=
  match n with O => loop_start | S n' => service_cycle n' end.

Lemma service_cycle_cases n :
  (service_cycle n = accepted /\ service_cycle (S n) = reported) \/
  (service_cycle n = reported /\ service_cycle (S n) = served) \/
  (service_cycle n = served /\ service_cycle (S n) = accepted).
Proof.
  induction n as [n IH] using lt_wf_ind. destruct n as [|[|[|n]]]; [tauto..|]. apply (IH n). lia.
Qed.

(** From any point on the event is handled, and the worker finishes. *)
Lemma service_run_next n :
  exists m, (n <= m)%nat /\ service_run m = reported /\ service_run (S m) = served /\
    service_run (S (S m)) = accepted.
Proof.
  assert (forall k, exists m, (k <= m)%nat /\ service_cycle m = reported /\ service_cycle (S m) = served /\
    service_cycle (S (S m)) = accepted) as Hk.
  { intros k. induction k as [k IH] using lt_wf_ind. destruct k as [|[|[|k]]].
    - by exists 1%nat; repeat split; [lia|..].
    - by exists 1%nat; repeat split; [lia|..].
    - by exists 4%nat; repeat split; [lia|..].
    - destruct (IH k) as (m & ? & ? & ? & ?); [lia|]. exists (S (S (S m))). repeat split; [lia|done..]. }
  destruct (Hk (n - 1)%nat) as (m & ? & ? & ? & ?). exists (S m). repeat split; [lia|done..].
Qed.

Lemma service_handled : handles reported 0%nat false served.
Proof. exists []. by split. Qed.

Lemma service_finished : finishes served 0%nat 0 accepted.
Proof. split; [by vm_compute|reflexivity]. Qed.

Lemma service_run_steps : loop_run service_run.
Proof.
  split; [done|]. intros [|n]; [by apply step_accept|]. cbn [service_run].
  destruct (service_cycle_cases n) as [[-> ->]|[[-> ->]|[-> ->]]].
  - apply step_wait; [done|apply NoDup_singleton|]. constructor; [by exists 5|constructor].
  - by apply (step_event reported 0%nat false []).
  - rewrite <- (proj2 service_finished). apply step_worker, service_finished.
Qed.

Lemma service_run_fair : fair service_run.
Proof.
  split.
  - intros n _. destruct (service_run_next n) as (m & ? & Hm & Hm' & _). exists m, 0%nat, false.
    split; [done|]. rewrite Hm, Hm'. apply service_handled.
  - intros n data Hd. destruct (service_run_next n) as (m & ? & _ & Hm & Hm').
    assert (data = 0%nat) as ->.
    { destruct n as [|n]; [set_solver|]. cbn [service_run] in Hd.
      destruct (service_cycle_cases n) as [[E _]|[[E _]|[E _]]]; rewrite E in Hd;
        [by apply elem_of_empty in Hd..|].
      change (busy served) with ({[ 0%nat ]} ∪ ∅ : gset addr) in Hd. set_solver. }
    exists (S m), 0. split; [lia|]. rewrite Hm, Hm'. apply service_finished.
Qed.

Lemma events_served_witness :
  exists m, (2 <= m)%nat /\ handles (service_run m) 0%nat false (service_run (S m)) /\
    exists m' ret, (m < m')%nat /\ (forall i, (m < i <= m')%nat -> 0%nat ∈ busy (service_run i)) /\
      finishes (service_run m') 0%nat ret (service_run (S m')) /\ 0%nat ∉ busy (service_run (S m')) /\
      ((ret < 0 /\ heap (service_run (S m')) !! 0%nat = None) \/
       (0 <= ret /\ exists fd, heap (service_run (S m')) !! 0%nat = Some (mkHandlerData fd true) /\
          interest (service_run (S m')) !! fd = Some 0%nat)).
Proof.
  apply (events_served service_run 2 0%nat false service_run_steps service_run_fair).
  change (batch (service_run 2)) with [(0%nat, false)]. by left.
Defined.


(** A number that overflows, and text after the address. *)
Lemma inet_pton4_grammar_witness :
  quad_text "4294967297.0.0.1 x" [1; 0; 0; 1] /\ (forall bytes, ~ quad_text "256.0.0.1" bytes).
Proof.
  split.
  - by apply (inet_pton4_grammar "4294967297.0.0.1 x" [1; 0; 0; 1]); [done|vm_compute].
  - by apply (inet_pton4_grammar "256.0.0.1" []); [done|vm_compute].
Defined.

Lemma inet_pton6_groups_witness :
  inet_pton6 (cstr "fe80::00aB:1") =
    Ok (1, [254; 128] ++ replicate 10 0 ++ [0; 171; 0; 1]).
Proof.
  apply (inet_pton6_groups ["fe80"] [65152] ["00aB"; "1"] [171; 1]); [by repeat constructor..|].
  simpl. lia.
Defined.

Lemma full_address_colons_rejected_witness :
  inet_pton6 (cstr "1:2:3:4::5:6:7:8") = Ok (0, []).
Proof.
  by apply (full_address_colons_rejected ["1"; "2"; "3"; "4"] [1; 2; 3; 4] ["5"; "6"; "7"; "8"] [5; 6; 7; 8]);
    [repeat constructor..|].
Defined.

(** ** The demo programs *)

(** The packets of a call are evaluated. *)
Definition packets_fit (s : server unit) (fname : string) (n : Z) (args : va_list) : bool :=
  match fcall_to_str fname n args with
  | Ok (Some (req, _)) =>
      match searpc_server_call_function noon later "searpc-demo" req (s, tt) with
      | Ok (resp, _) => ((String.length req <=? 254) && (String.length resp <=? 254))%nat
      | _ => false
      end
  | _ => false
  end.

Lemma packets_fit_sound s fname n args :
  packets_fit s fname n args = true -> call_fits noon later s tt fname n args.
Proof.
  unfold packets_fit. intros Hfit req len resp st' Hreq Hserve. rewrite Hreq, Hserve in Hfit.
  split_bools. by split; apply Nat.leb_le.
Qed.


Lemma demo_async_succeeds_witness :
  exists ep lines,
    @demo_async_main _ _ (tcp_sockets 600 7 (beside_mem (searpc_server_call_function noon later "searpc-demo")))
      tcp_net _ 600
      (slow_end "" "", mkDemoPeer None [(slow_end "" "", slow_end "" "")]
         ((demo_server, tt), mkMem (mkTcp 0 None) [])) =
    Ok (tt, (ep, mkDemoPeer None [] ((add_lines lines demo_server, tt),
      mkMem (mkTcp 3 None) [Printed_length "hello searpc" 12]))).
Proof.
  assert (fresh_end 600 (slow_end "" "")) as Hfresh by (repeat split; apply Nat.ltb_lt; by vm_compute).
  apply (demo_async_succeeds 600 10 7 plain_md5 noon later server_start demo_server tt (slow_end "" "")
    (slow_end "" "") (slow_end "" "") (mkMem (mkTcp 0 None) []));
    [apply demo_signatures_differ|apply demo_server_ready|exact Hfresh|exact Hfresh|
     by apply packets_fit_sound; vm_compute].
Defined.

(** Two connections with a request each, and a failure between them. *)
Lemma demo_server_serves_witness :
  exists cur left eps,
    demo_server_main 600 (beside_accept (rret tt)) (fun body => beside_accept (echo_twice body)) 3
      (slow_end "" "",
       mkAccept [Some (slow_end (packet_of "[1]") ""); None; Some (slow_end (packet_of "[2]") "")] [] O) =
      Ok (tt, (cur, mkAccept [] left 2%nat)) /\
    cur :: left = List.rev eps ++ [slow_end "" ""] /\ Forall2 answered ["[1][1]"; "[2][2]"] eps.
Proof.
  apply (demo_server_serves 600 echo_twice (rret tt)
    [Some (slow_end (packet_of "[1]") ""); None; Some (slow_end (packet_of "[2]") "")] ["[1]"; "[2]"]
    (slow_end "" "") O O ["[1][1]"; "[2][2]"] 2%nat); [|done|done|].
  - apply (conn_made _ _ ""); [done|done|done|by split|cbn; lia|apply Nat.ltb_lt; by vm_compute|].
    apply conn_failed. apply (conn_made _ _ ""); [done|done|done|by split|cbn; lia|apply Nat.ltb_lt; by vm_compute|].
    apply conn_nil.
  - repeat constructor; apply Nat.leb_le; by vm_compute.
Defined.

(** ** The pipes of the two platforms *)
Definition posix_echo : endpoint * pipe_peer nat :=
  (slow_end "" "", mkPeer (slow_end "" "") (Some handler_start) O).
Definition windows_echo : msg_end * win_peer nat :=
  (mkMsgEnd [] [] 0 false [None], mkWinPeer (mkMsgEnd [] [] 0 false [None; None]) (Some handler_start) O).

Lemma svc_text : text_ok "svc" = true.
Proof. done. Qed.

Lemma pipe_branches_agree_witness :
  exists out x' y',
    typed_call T_int test_type
      (@searpc_client_with_named_pipe_transport _ _ (pipe_sockets 400 7 echo) 400 _ unit unit some_pipe "svc")
      (Some "f") (ErrAt None) 0 [] posix_echo = rlift out x' /\
    typed_call T_int test_type
      (@win_client_with_named_pipe_transport _ _ (win_pipes 400 7 echo) _ unit unit some_pipe "svc")
      (Some "f") (ErrAt None) 0 [] windows_echo = rlift out y' /\
    quiet x' 1%nat /\ roomy 400 100 x' /\ win_quiet y' 1%nat.
Proof.
  apply (pipe_branches_agree 400 7 echo some_pipe "svc" svc_text T_int test_type "f" 0 [] (call_of "f")
    (text_of (call_of "f")) (call_of "f") 100 posix_echo windows_echo O 1%nat).
  - repeat split. exists handler_start. split; [done|]. apply handler_start_ok.
  - split; unfold rounds_for; apply Nat.ltb_lt; by vm_compute.
  - repeat split; try (by repeat constructor). exists handler_start. split; [done|]. apply handler_start_ok.
  - apply Nat.leb_le. by vm_compute.
  - by vm_compute.
  - done.
  - by vm_compute.
  - apply Nat.leb_le. by vm_compute.
  - unfold max_message. lia.
  - done.
  - apply Nat.leb_le. by vm_compute.
Defined.
