(* ===== verification/ConcurrentWitnesses.v ===== *)
(** * ConcurrentWitnesses: the properties of threads and of memory at concrete inputs

    Two clients of an echo server and of the server of Demo, calls beside a thread that reopens the
    slow log, a short life of the server with epoll, a registry that is built and freed, the heap
    of a request, of a call and of a callback. *)
From S2P Require Import Prelude Json JsonText Runtime Utils GObject TestObject Marshal Server ServerSafety Responses Dispatch TypeSafety Client Pipe PipeSafety PipeServer Listener ListenerSafety Concurrent ConcurrentSafety ConcurrentRpc SlowLog SlowLogSafety SlowLogHistory EpollServer EpollServerSafety Heap Ownership OwnershipLogic OwnershipSafety Rpc Async JsonMemory ServerMemory ClientMemory Demo Witnesses.

#[local] Existing Instance text_jansson.
#[local] Existing Instance text_laws.
#[local] Existing Instance demo_laws.

(** ** Two clients of the echo server *)
Definition two_clients : gmap Z conn := {[ 3 := fresh_conn echo_end; 4 := fresh_conn echo_end ]}.

Definition two_turns : list Z := [3; 4; 4; 3; 3; 4; 3; 4; 3; 3; 4; 4; 4; 3].

Lemma echo_sends : sends 400 100 echo_stream echo_end.
Proof.
  split; [apply echo_end_smooth|]. split; [unfold rounds_for; apply Nat.ltb_lt; by vm_compute|].
  exists [text_of "[1]"; text_of "[2]"]. split; [|done].
  repeat constructor; try done; apply Nat.leb_le; by vm_compute.
Qed.

Lemma echo_short fd req t resp t' :
  req ∈ (fun _ : Z => echo_stream) fd -> True -> echo req.1 req.2 t = Ok (resp, t') -> (String.length resp <= 100)%nat.
Proof.
  cbv beta. intros Hin _ [= <- _]. unfold echo_stream in Hin.
  do 2 (apply elem_of_cons in Hin as [->|Hin]; [simpl; lia|]). by apply not_elem_of_nil in Hin.
Qed.

Lemma two_clients_lookup fd cn : two_clients !! fd = Some cn -> cn = fresh_conn echo_end /\ (fd = 3 \/ fd = 4).
Proof.
  unfold two_clients. intros Hcn. apply lookup_insert_Some in Hcn as [[<- <-]|[_ Hcn]]; [by auto|].
  apply lookup_singleton_Some in Hcn as [<- <-]. by auto.
Qed.


(** Six turns: one client has had an answer, the other waits for one. *)
Definition cut_run := run_schedule 400 echo (take 6 two_turns) (mkSystem two_clients O).


(** ** Two clients of a server of RPC functions *)
Definition length_call : string := "[" +:+ quoted "f" +:+ "," +:+ quoted "hello" +:+ "]".
Definition rpc_stream : list (string * string) := [("svc", length_call)].
Definition rpc_end : endpoint := slow_end (frame (text_of length_call)) "".
Definition rpc_clients : gmap Z conn := {[ 3 := fresh_conn rpc_end; 4 := fresh_conn rpc_end ]}.
Definition five : string := "{" +:+ quoted "ret" +:+ ":5}".

Lemma five_dispatched : dispatch noon later "svc" length_call (typed_server, tt) = Ok (five, (typed_server, tt)).
Proof. reflexivity. Qed.

Lemma rpc_stream_only req fd : req ∈ (fun _ : Z => rpc_stream) fd -> req = ("svc", length_call).
Proof. cbv beta. unfold rpc_stream. intros Hin. by apply list_elem_of_singleton in Hin. Qed.

Lemma rpc_clients_lookup fd cn : rpc_clients !! fd = Some cn -> cn = fresh_conn rpc_end /\ (fd = 3 \/ fd = 4).
Proof.
  unfold rpc_clients. intros Hcn. apply lookup_insert_Some in Hcn as [[<- <-]|[_ Hcn]]; [by auto|].
  apply lookup_singleton_Some in Hcn as [<- <-]. by auto.
Qed.


(** ** Two calls while the slow log is reopened *)
Definition logged_server : server unit := set_slow_log_fp (Some (f_file 0)) false typed_server.

Definition busy_process : process unit :=
  mkProcess {[ 0%nat := start_call "svc" length_call; 1%nat := start_call "svc" length_call; 2%nat := start_reopen ]}
    (mkShared logged_server tt None {[ 0%nat ]} 1 []).

Lemma busy_process_fresh : fresh_process logged_server busy_process.
Proof.
  split; [done|]. split; [done|]. split; [|split].
  - intros t th Hth. unfold busy_process in Hth. cbn [pr_threads] in Hth.
    apply lookup_insert_Some in Hth as [[_ <-]|[_ Hth]]; [left; by eexists _, _|].
    apply lookup_insert_Some in Hth as [[_ <-]|[_ Hth]]; [left; by eexists _, _|].
    apply lookup_singleton_Some in Hth as [_ <-]. right. split; [done|by eexists].
  - intros id. cbn. rewrite elem_of_singleton. split; [by intros ->|by intros [= <-]].
  - intros id [= <-]. cbn. lia.
Qed.

(** The first call and the reopening meet at the mutex; the second call is still to print. *)
Definition some_input : sys_input := mkInput later true true.
Definition busy_turns : list (tid * sys_input) :=
  (fun t => (t, some_input)) <$> [0; 0; 1; 0; 2; 0; 2; 0; 0; 1; 2; 0; 0; 2; 2; 2; 2; 1; 1]%nat.

Lemma busy_run : exists p' evs, run_process busy_turns busy_process = Ok (p', evs) /\ length evs = 3%nat.
Proof.
  assert (match run_process busy_turns busy_process with Ok x => Nat.eqb (length x.2) 3 | _ => false end = true) as Hok
    by (vm_compute; reflexivity).
  destruct (run_process busy_turns busy_process) as [[p' evs]| |]; [|discriminate..].
  exists p', evs. split; [reflexivity|]. by apply Nat.eqb_eq.
Qed.


Lemma slow_log_streams_safe_witness :
  exists p' evs, run_process busy_turns busy_process = Ok (p', evs) /\
    (forall t t' th th', pr_threads p' !! t = Some th -> pr_threads p' !! t' = Some th' ->
       in_section th = true -> in_section th' = true -> t = t') /\
    (forall fp, slow_log_fp (sh_server (pr_shared p')) = Some fp -> is_open fp (pr_shared p') = true).
Proof.
  destruct busy_run as (p' & evs & Hrun & _). exists p', evs. split; [exact Hrun|].
  destruct (slow_log_streams_safe logged_server busy_process busy_turns p' evs busy_process_fresh Hrun)
    as (_ & H1 & H2 & _). split; [exact H1|exact H2].
Defined.

Lemma slow_log_no_deadlock_witness :
  exists p' evs, run_process busy_turns busy_process = Ok (p', evs) /\
    (~ map_Forall (fun _ th => returned th = true) (pr_threads p') ->
     exists t, forall inp, match process_step inp t p' with
       | Ok (p'', _) => (total_rank (pr_threads p'') < total_rank (pr_threads p'))%nat
       | _ => exists f, pr_threads p' !! t = Some (ThCall f) /\ cf_pc f = C_run
       end).
Proof.
  destruct busy_run as (p' & evs & Hrun & _). exists p', evs. split; [exact Hrun|].
  exact (proj2 (slow_log_no_deadlock logged_server busy_process busy_turns p' evs busy_process_fresh Hrun)).
Defined.

(** ** A short life of the server with epoll *)

(** A server that counts its calls. *)
Definition tally (service body : string) : run nat string := fun k => Ok ("[0]", S k).
Definition request_1 : string := text_of "[1]".
Definition fresh_socket : endpoint := slow_end "" "".

Local Abbreviation estep := (epoll_step 400 100 tally).
Local Abbreviation ereach := (epoll_reachable 400 100 tally O).

Lemma step_as s r s' : ereach s -> estep s r -> r = Ok s' -> ereach s'.
Proof. intros Hs Hstep ->. by eapply er_step. Qed.

(** A client is accepted and sends a request. *)
Definition epoll_asked (hup : bool) : epoll_system nat :=
  mkEpollSystem (accept_connection 5 0%nat true loop_start) ∅
    {[ 0%nat := mkEpollConn (with_inbox fresh_socket (frame request_1)) hup fresh_socket [request_1] [] ]} O [].

Lemma epoll_asked_reachable hup : ereach (epoll_asked hup).
Proof.
  assert (ereach (epoll_asked false)) as Hasked.
  { eapply step_as; [eapply step_as; [apply er_start|apply (es_accept _ _ _ (epoll_start O) 5 0%nat true fresh_socket)|]|
                     eapply (es_client_sends _ _ _ _ 0%nat _ request_1)|];
      [lia|done|done|repeat split; unfold rounds_for; apply Nat.ltb_lt; by vm_compute|reflexivity|
       reflexivity|reflexivity|apply Nat.leb_le; by vm_compute|vm_compute; reflexivity]. }
  destruct hup; [|done].
  eapply step_as; [exact Hasked|eapply (es_client_closes _ _ _ _ 0%nat); reflexivity|vm_compute; reflexivity].
Qed.

(** [epoll_wait] reports it. *)
Definition epoll_woken (hup : bool) : epoll_system nat :=
  let s := epoll_asked hup in
  mkEpollSystem (set_batch [(0%nat, hup)] (es_loop s)) (es_workers s) (es_conns s) (es_state s) (es_calls s).

Lemma epoll_woken_reachable hup : ereach (epoll_woken hup).
Proof.
  eapply step_as; [apply (epoll_asked_reachable hup)|apply (es_wait _ _ _ _ [(0%nat, hup)])|reflexivity]; [done| |].
  - apply NoDup_cons. split; [apply not_elem_of_nil|apply NoDup_nil_2].
  - constructor; [|done]. split; [by exists 5|]. eexists. split; [reflexivity|]. split; [by left|done].
Qed.

(** A worker reads the request, calls, answers and adds the socket again. *)
Lemma epoll_done_reachable : exists s cx,
  ereach s /\ es_conns s = {[ 0%nat := cx ]} /\ es_workers s = ∅ /\ batch (es_loop s) = [] /\ busy (es_loop s) = ∅ /\
  ec_start cx = fresh_socket /\ ec_sent cx = [request_1] /\ inbox (ec_end cx) = "" /\ ec_hup cx = false /\
  es_state s = 1%nat.
Proof.
  eassert (ereach _) as H1.
  { eapply step_as; [apply (epoll_woken_reachable false)|by apply (es_event _ _ _ _ 0%nat false [])|
                     vm_compute; reflexivity]. }
  eassert (ereach _) as H2.
  { eapply step_as; [exact H1|by eapply (es_receive _ _ _ _ 0%nat)|vm_compute; reflexivity]. }
  eassert (ereach _) as H3.
  { eapply step_as; [exact H2|by eapply (es_call _ _ _ _ 0%nat)|vm_compute; reflexivity]. }
  eassert (ereach _) as H4.
  { eapply step_as; [exact H3|by eapply (es_send _ _ _ _ 0%nat)|vm_compute; reflexivity]. }
  eassert (ereach _) as H5.
  { eapply step_as; [exact H4|by eapply (es_end _ _ _ _ 0%nat true true)|vm_compute; reflexivity]. }
  eexists _, _. split; [exact H5|]. split; [vm_compute; reflexivity|]. repeat split.
Qed.

Lemma tally_fits svc body t resp t' :
  True -> tally svc body t = Ok (resp, t') -> True /\ (String.length resp <= 100)%nat.
Proof. intros _ [= <- _]. split; [done|]. simpl. lia. Qed.


Lemma epoll_server_refines_loop_witness :
  loop_reachable (es_loop (epoll_woken true)) /\
  forall r, estep (epoll_woken true) r ->
    (exists s', r = Ok s') \/
    exists data cx pc, es_conns (epoll_woken true) !! data = Some cx /\ es_workers (epoll_woken true) !! data = Some pc /\
      match pc with
      | W_call svc body => forall x, tally svc body (es_state (epoll_woken true)) <> Ok x
      | _ => ~ smooth_ep (ec_start cx)
      end.
Proof.
  destruct (epoll_server_refines_loop tally 400 100 (fun _ => True) O (epoll_woken true)
    ltac:(unfold max_message; lia) I tally_fits (epoll_woken_reachable true)) as (H1 & _ & _ & H2).
  split; [exact H1|exact H2].
Defined.

(** The client sent a request and shut down before the loop looked. *)
Lemma hung_up_request_dropped_witness :
  exists fd l, interest (es_loop (epoll_woken true)) !! fd = Some 0%nat /\
    let s' := event_system 0%nat true l (epoll_woken true) in
    estep (epoll_woken true) (Ok s') /\ fd ∉ open_fds (es_loop s') /\ es_conns s' !! 0%nat = None /\
    es_calls s' = [] /\ es_state s' = O.
Proof.
  destruct (hung_up_request_dropped tally 400 100 (fun _ => True) O (epoll_woken true) 0%nat
    (mkEpollConn (with_inbox fresh_socket (frame request_1)) true fresh_socket [request_1] []))
    as [_ H1]; [unfold max_message; lia|exact I|exact tally_fits|apply (epoll_woken_reachable true)|reflexivity|reflexivity|].
  exact (H1 [] eq_refl).
Defined.

(** ** A registry built and freed *)
Definition no_memory : memory unit := mkHeap ∅ 1.

(** [typed_ops], and a function for a service that does not exist. *)
Definition leaky_ops : list (server_op unit) := typed_ops ++ [OpRegister "nope" strlen_function "f" "sig"; OpRemove (Some "svc")].

Lemma registry_memory_exact_witness :
  exists ts m1 m2 m3 lk, heap_init no_memory = Ok (ts, m1) /\ heap_ops ts leaky_ops m1 = Ok (tt, m2) /\
    heap_final ts m2 = Ok (tt, m3) /\ map_to_list (blocks m3) ≡ₚ lk /\ lk.*2 ≡ₚ [BStr "sig"].
Proof.
  destruct (registry_memory_exact leaky_ops no_memory server_start
    (set_service_table (Some ∅) typed_server)) as (ts & m1 & m2 & m3 & M & S & lk & H1 & H2 & _ & H3 & H4 & H5).
  - split; [reflexivity|]. intros p [b Hb]. by vm_compute in Hb.
  - reflexivity.
  - exists ts, m1, m2, m3, lk. split; [exact H1|]. split; [exact H2|]. split; [exact H3|]. split; [exact H4|exact H5].
Defined.

(** ** The heap of a request, a call and a callback *)
Definition request_buffer : cbuf := cbuf_of_string (text_of length_call).

Lemma empty_heap_is {B} : heap_is [] (mkHeap ∅ 1 : heap B).
Proof. split; [reflexivity|]. intros p [b Hb]. by vm_compute in Hb. Qed.

Lemma request_memory_exact_witness :
  exists m' : heap (cell unit),
    mem_handle_request 10 noon later request_buffer (String.length (text_of length_call)) (mkHeap ∅ 1, (typed_server, tt)) =
      Ok (Some five, (m', (typed_server, tt))) /\ heap_is [] m'.
Proof.
  apply (request_memory_exact plain_md5 one_table 0 10 typed_server tt noon later request_buffer
    (String.length (text_of length_call)) (Some five) (typed_server, tt) [] (mkHeap ∅ 1));
    [exact one_table_distinct|exact typed_server_run|reflexivity|exact empty_heap_is].
Defined.

Definition typed_client : SearpcClient (server unit * unit) string unit unit := local_client noon later "svc".

(** The second parameter has a type nobody knows: the array is lost. *)
Lemma client_call_memory_witness :
  exists r merror' m' cs es' lk,
    mem_typed_call T_int test_type typed_client (Some "f") (MErrAt None) 2
      [("string", VString (Some "hello")); ("double", VWord 1)] (mkHeap ∅ 1, (typed_server, tt)) =
      Ok ((r, merror'), (m', (typed_server, tt))) /\
    owns_ret (RInt 0) r cs /\ owns_error (ErrAt (Some (mkGError DFT_DOMAIN 0 "Invalid Parameter"))) merror' es' /\
    (exists p v, lk = [(p, MJson v)]) /\ heap_is (cs ++ es' ++ lk ++ []) m'.
Proof.
  exact (client_call_memory T_int test_type typed_client (Some "f") (ErrAt None) 2
    [("string", VString (Some "hello")); ("double", VWord 1)] (typed_server, tt) (CInt 0)
    (ErrAt (Some (mkGError DFT_DOMAIN 0 "Invalid Parameter"))) (typed_server, tt) (MErrAt None) [] [] (mkHeap ∅ 1)
    eq_refl owns_no_error empty_heap_is).
Defined.

Definition quiet_callback (r : call_result) (d : unit) (e : option GError) : run unit unit := rret tt.
Definition error_reply : string := "{" +:+ quoted "err_code" +:+ ":7," +:+ quoted "err_msg" +:+ ":" +:+ quoted "no" +:+ "}".

Lemma callback_memory_witness :
  exists (m' : heap (cell (AsyncCallData unit unit))) p,
    mem_generic_callback T_int test_type 2%nat (String.length error_reply) 1%nat None
      (mkHeap {[ 1%nat := MData (typed_async_data T_int test_type quiet_callback tt);
                 2%nat := MReply (cbuf_of_string error_reply) ]} 3, tt) = Ok (0, (m', tt)) /\
    heap_is [(p, MError (mkGError DFT_DOMAIN 7 "no")); (2%nat, MReply (cbuf_of_string error_reply))] m'.
Proof.
  destruct (callback_memory T_int test_type quiet_callback tt (cbuf_of_string error_reply) (String.length error_reply)
    None 0 [FreeData] tt tt 1%nat 2%nat []
    (mkHeap {[ 1%nat := MData (typed_async_data T_int test_type quiet_callback tt);
               2%nat := MReply (cbuf_of_string error_reply) ]} 3)) as (m' & es & Hrun & Hm' & c & e & me & Hp & He).
  - reflexivity.
  - split.
    + cbn [blocks]. rewrite map_to_list_insert by done. by rewrite map_to_list_singleton.
    + intros p [b Hb]. cbn [blocks next] in *. apply lookup_insert_Some in Hb as [[<- _]|[_ Hb]]; [lia|].
      apply lookup_singleton_Some in Hb as [<- _]. lia.
  - assert (e = ErrAt (Some (mkGError DFT_DOMAIN 7 "no"))) as -> by (vm_compute in Hp; by injection Hp).
    inversion He; subst. exists m', p. split; [exact Hrun|exact Hm'].
Defined.
